(** * URSA benchmark drivers: a shallow embedding

    The repository holds two benchmark drivers,
    [kod/cliqueK_and_SAT/cliqueK_starter.py] (URSA against Cliquer on DIMACS
    graphs) and [kod/cliqueK_and_SAT/sat_starter.py] (URSA against MiniSat on
    DIMACS CNF files).  This development embeds their parsers, code
    generators, process runners, output classifiers and the resumable report
    ledger as Rocq functions, and states the properties of the specification
    over them.

    Conventions.
    - A Python [str] is a [list ascii]; a character is a code point below 256
      and the character classes ([str.isspace], [\s], [\d], [\w], [int]'s
      blanks, [str.lower]) follow the interpreter's tables on that range.
    - Python integers are [Z]; the interpreter's configurable limit on the
      number of digits [int] and [str] accept is not modelled.
    - Wall-clock measurements are rationals ([Q], seconds); they are only
      stored and printed.
    - A raised exception is a value of [exn]; a function that can raise
      returns [exn + A]. *)

From Stdlib Require Import Ascii List ZArith Lia Bool QArith Qround.
From Stdlib Require Import DecimalN DecimalPos.
From Stdlib Require Import Sorted Permutation.
Import ListNotations.

Set Implicit Arguments.

(** ** Python strings *)

Abbreviation str := (list ascii).

Inductive lit := LitNil | LitCons (a : ascii) (l : lit).

Fixpoint lit_of_bytes (l : list Byte.byte) : lit :=
  match l with
  | [] => LitNil
  | b :: r => LitCons (ascii_of_byte b) (lit_of_bytes r)
  end.

Fixpoint bytes_of_lit (s : lit) : list Byte.byte :=
  match s with
  | LitNil => []
  | LitCons a r => byte_of_ascii a :: bytes_of_lit r
  end.

Declare Scope py_scope.
Delimit Scope py_scope with py.
#[warnings="-via-type-remapping,-via-type-mismatch"]
String Notation list lit_of_bytes bytes_of_lit
  (via lit mapping [[nil] => LitNil, [cons] => LitCons]) : py_scope.
Open Scope py_scope.
Open Scope Z_scope.

Definition code (c : ascii) : nat := nat_of_ascii c.

Definition in_range (lo hi : nat) (c : ascii) : bool :=
  (Nat.leb lo (code c) && Nat.leb (code c) hi)%bool.

(** [str.isspace], also the separators of [str.split()] and [str.strip()]
    and the class [\s]. *)
Definition is_space (c : ascii) : bool :=
  in_range 9 13 c || in_range 28 32 c || Nat.eqb (code c) 133
  || Nat.eqb (code c) 160.

(** The blanks [int] skips around a literal. *)
Definition is_int_blank (c : ascii) : bool :=
  in_range 9 13 c || Nat.eqb (code c) 32 || Nat.eqb (code c) 133
  || Nat.eqb (code c) 160.

(** The class [\d]. *)
Definition is_digit (c : ascii) : bool := in_range 48 57 c.

(** The class [\w]. *)
Definition is_word (c : ascii) : bool :=
  is_digit c || in_range 65 90 c || in_range 97 122 c || Nat.eqb (code c) 95
  || Nat.eqb (code c) 170 || in_range 178 179 c || Nat.eqb (code c) 181
  || in_range 185 186 c || in_range 188 190 c || in_range 192 214 c
  || in_range 216 246 c || in_range 248 255 c.

Definition lower_char (c : ascii) : ascii :=
  if in_range 65 90 c || (in_range 192 222 c && negb (Nat.eqb (code c) 215))
  then ascii_of_nat (code c + 32) else c.

(** [str.upper] on one character.  The three characters of the range whose
    upper case lies outside it (181, 223, 255) are left as they are; the
    drivers only compare the result with ASCII names. *)
Definition upper_char (c : ascii) : ascii :=
  if in_range 97 122 c || (in_range 224 254 c && negb (Nat.eqb (code c) 247))
  then ascii_of_nat (code c - 32) else c.

Definition lower (s : str) : str := map lower_char s.
Definition upper (s : str) : str := map upper_char s.

Definition str_eqb (a b : str) : bool :=
  if list_eq_dec ascii_dec a b then true else false.

(** [s.startswith(p)] *)
Fixpoint startswith (p s : str) : bool :=
  match p, s with
  | [], _ => true
  | a :: p', b :: s' => Ascii.eqb a b && startswith p' s'
  | _ :: _, [] => false
  end.

(** [p in s] *)
Fixpoint contains (p s : str) : bool :=
  startswith p s ||
  match s with
  | [] => false
  | _ :: r => contains p r
  end.

Fixpoint drop_while (f : ascii -> bool) (s : str) : str :=
  match s with
  | [] => []
  | c :: r => if f c then drop_while f r else s
  end.

Fixpoint take_while (f : ascii -> bool) (s : str) : str :=
  match s with
  | [] => []
  | c :: r => if f c then c :: take_while f r else []
  end.

Definition lstrip (s : str) : str := drop_while is_space s.
Definition rstrip (s : str) : str := rev (drop_while is_space (rev s)).
(** [s.strip()] *)
Definition strip (s : str) : str := rstrip (lstrip s).

(** [s.split()] *)
Fixpoint split_ws (s : str) : list str :=
  match s with
  | [] => []
  | c :: r =>
      if is_space c then split_ws r
      else match r with
           | [] => [[c]]
           | d :: _ =>
               if is_space d then [c] :: split_ws r
               else match split_ws r with
                    | tok :: toks => (c :: tok) :: toks
                    | [] => [[c]]
                    end
           end
  end.

(** [s.split(sep)] for a one-character separator *)
Fixpoint split_on (sep : ascii) (s : str) : list str :=
  match s with
  | [] => [[]]
  | c :: r =>
      if Ascii.eqb c sep then [] :: split_on sep r
      else match split_on sep r with
           | p :: ps => (c :: p) :: ps
           | [] => [[c]]
           end
  end.

(** [s.split(sep, 1)] for a one-character separator *)
Fixpoint split1 (sep : ascii) (s : str) : list str :=
  match s with
  | [] => [[]]
  | c :: r =>
      if Ascii.eqb c sep then [[]; r]
      else match split1 sep r with
           | p :: ps => (c :: p) :: ps
           | [] => [[c]]
           end
  end.

(** [sep.join(parts)] *)
Fixpoint join (sep : str) (parts : list str) : str :=
  match parts with
  | [] => []
  | [p] => p
  | p :: ps => p ++ sep ++ join sep ps
  end.

(** The format specification [<w]. *)
Definition ljust (w : nat) (s : str) : str :=
  s ++ repeat " "%char (w - length s).

(** *** Exceptions *)

(** What a call on a child process or a file raises when it fails, the
    expiry of a timeout apart. *)
Inductive failure :=
| FileNotFoundError
| PermissionError
| OSError
| UnicodeDecodeError.

Inductive exn :=
| ValueError
| IndexError
| KeyError
| TimeoutExpired
| Failure (f : failure).

Definition raises (A : Type) := (exn + A)%type.

Definition ret {A} (a : A) : raises A := inr a.
Definition raise {A} (e : exn) : raises A := inl e.
Definition bind {A B} (m : raises A) (k : A -> raises B) : raises B :=
  match m with
  | inl e => inl e
  | inr a => k a
  end.

Notation "x <- m ;; k" := (bind m (fun x => k))
  (at level 61, m at next level, right associativity).
Notation "' p <- m ;; k" := (bind m (fun x => match x with p => k end))
  (at level 61, p pattern, m at next level, right associativity).

(** [l[i]] for a non-negative literal index *)
Definition index {A} (l : list A) (i : nat) : raises A :=
  match nth_error l i with
  | Some a => ret a
  | None => raise IndexError
  end.

(** *** Integers read and printed *)

Definition digit_val (c : ascii) : Z := Z.of_nat (code c) - 48.

(** The digits of an [int] literal: single underscores are allowed between
    digits.  [prev] tells whether the previous character was a digit. *)
Fixpoint int_digits (acc : Z) (prev : bool) (s : str) : option Z :=
  match s with
  | [] => if prev then Some acc else None
  | c :: r =>
      if is_digit c then int_digits (10 * acc + digit_val c) true r
      else if Ascii.eqb c "_"%char && prev then int_digits acc false r
      else None
  end.

Definition int_signed (s : str) : option Z :=
  match s with
  | c :: r =>
      if Ascii.eqb c "-"%char then option_map Z.opp (int_digits 0 false r)
      else if Ascii.eqb c "+"%char then int_digits 0 false r
      else int_digits 0 false s
  | [] => None
  end.

Definition int_strip (s : str) : str :=
  rev (drop_while is_int_blank (rev (drop_while is_int_blank s))).

Definition int_opt (s : str) : option Z := int_signed (int_strip s).

(** [int(s)] *)
Definition py_int (s : str) : raises Z :=
  match int_opt s with
  | Some z => ret z
  | None => raise ValueError
  end.

Definition digit_char (n : nat) : ascii := ascii_of_nat (48 + n).

Fixpoint str_of_uint (d : Decimal.uint) : str :=
  match d with
  | Decimal.Nil => []
  | Decimal.D0 r => "0"%char :: str_of_uint r
  | Decimal.D1 r => "1"%char :: str_of_uint r
  | Decimal.D2 r => "2"%char :: str_of_uint r
  | Decimal.D3 r => "3"%char :: str_of_uint r
  | Decimal.D4 r => "4"%char :: str_of_uint r
  | Decimal.D5 r => "5"%char :: str_of_uint r
  | Decimal.D6 r => "6"%char :: str_of_uint r
  | Decimal.D7 r => "7"%char :: str_of_uint r
  | Decimal.D8 r => "8"%char :: str_of_uint r
  | Decimal.D9 r => "9"%char :: str_of_uint r
  end.

Definition str_of_N (n : N) : str := str_of_uint (N.to_uint n).

(** [str(z)], also the format [{z}] *)
Definition str_of_Z (z : Z) : str :=
  match z with
  | Z0 => "0"
  | Zpos p => str_of_N (Npos p)
  | Zneg p => "-"%char :: str_of_N (Npos p)
  end.

(** *** Fixed-point printing of measured times *)

Definition NL : ascii := "010"%char.
Definition CR : ascii := "013"%char.

(** Rounding of a non-negative rational [n / d] to the nearest integer,
    ties to even, as the interpreter's float formatting rounds. *)
Definition round_half_even (n : Z) (d : positive) : Z :=
  let fl := n / Zpos d in
  let rem := n mod Zpos d in
  if 2 * rem <? Zpos d then fl
  else if Zpos d <? 2 * rem then fl + 1
  else if Z.even fl then fl else fl + 1.

Definition zfill (w : nat) (s : str) : str :=
  repeat "0"%char (w - length s) ++ s.

(** The format [.6f] *)
Definition fixed6 (q : Q) : str :=
  let m := round_half_even (Z.abs (Qnum q) * 1000000) (Qden q) in
  (if Qnum q <? 0 then "-" else "")
  ++ str_of_Z (m / 1000000) ++ "." ++ zfill 6 (str_of_Z (m mod 1000000)).

(** ** Solver output: regular expressions and the two text predicates *)

(** [re.search]: the leftmost position at which the matcher succeeds.  The
    matcher sees the character before the position, for [\b]. *)
Fixpoint search {A} (m : option ascii -> str -> option A)
  (prev : option ascii) (s : str) : option A :=
  match m prev s with
  | Some g => Some g
  | None =>
      match s with
      | [] => None
      | c :: r => search m (Some c) r
      end
  end.

Definition re_search {A} (m : option ascii -> str -> option A) (s : str)
  : option A := search m None s.

Definition is_Some {A} (o : option A) : bool :=
  match o with Some _ => true | None => false end.

Definition word_at (o : option ascii) : bool :=
  match o with Some c => is_word c | None => false end.

(** [\b0 solutions\b] *)
Definition m_zero_solutions (prev : option ascii) (s : str) : option unit :=
  if negb (word_at prev) && startswith "0 solutions" s
     && negb (word_at (nth_error s (length "0 solutions")))
  then Some tt else None.

(** [\[Number of solutions:\s*0\]] *)
Definition m_number_of_solutions_0 (prev : option ascii) (s : str)
  : option unit :=
  if startswith "[Number of solutions:" s
     && startswith "0]"
          (drop_while is_space (skipn (length "[Number of solutions:") s))
  then Some tt else None.

Definition nonempty (s : str) : option str :=
  match s with [] => None | _ => Some s end.

(** [<label>\s*(\d+)], the group *)
Definition m_label_digits (label : str) (prev : option ascii) (s : str)
  : option str :=
  if startswith label s
  then nonempty (take_while is_digit
                   (drop_while is_space (skipn (length label) s)))
  else None.

(** [<label>(\d+)], the group *)
Definition m_label_then_digits (label : str) (prev : option ascii) (s : str)
  : option str :=
  if startswith label s
  then nonempty (take_while is_digit (skipn (length label) s))
  else None.

(** [Solution.*?(\d+)], the group: the first digits after the word on the
    same line *)
Definition m_solution_digits (prev : option ascii) (s : str) : option str :=
  if startswith "Solution" s
  then nonempty (take_while is_digit
                   (drop_while
                      (fun c => negb (is_digit c) && negb (Ascii.eqb c NL))
                      (skipn (length "Solution") s)))
  else None.

(** Both drivers define the next two functions with the same text. *)

Definition is_sat_output (stdout : str) : bool :=
  if contains "--> Solution" stdout then true
  else if contains "[Solving time:" stdout && contains "[Formula size:" stdout
  then
    if negb (contains "0 solutions" stdout)
       && negb (contains "No solutions" stdout)
    then true else false
  else false.

Definition is_unsat_output (stdout : str) : bool :=
  if contains "No solutions found" stdout
     || is_Some (re_search m_zero_solutions stdout)
  then true
  else if is_Some (re_search m_number_of_solutions_0 stdout) then true
  else false.

(** ** Solver processes *)

Inductive status := FOUND | NOT_FOUND | SAT | UNSAT | UNKNOWN | TIMEOUT | ERROR.

Definition status_name (s : status) : str :=
  match s with
  | FOUND => "FOUND"
  | NOT_FOUND => "NOT_FOUND"
  | SAT => "SAT"
  | UNSAT => "UNSAT"
  | UNKNOWN => "UNKNOWN"
  | TIMEOUT => "TIMEOUT"
  | ERROR => "ERROR"
  end.

(** What waiting for a child with a timeout gives: the child ends in time
    (with the time the driver measures around the call), the timeout
    expires, or the call fails otherwise. *)
Inductive wait_result :=
| Exited (returncode : Z) (stdout : str) (elapsed : Q)
| Expired
| WaitFailed (f : failure).

(** One child process as the driver sees it: each call on it may fail. *)
Record process := {
  spawn : option failure;   (* [subprocess.Popen] raises *)
  wait : wait_result;       (* [communicate(timeout=...)] *)
  kill : option failure;    (* [process.kill()] raises *)
  drain : option failure    (* the [communicate()] after the kill raises *)
}.

Definition call (o : option failure) : raises unit :=
  match o with
  | Some f => raise (Failure f)
  | None => ret tt
  end.

(** [try: body  except Exception: handler] *)
Definition try_except {A} (body : raises A) (handler : exn -> raises A)
  : raises A :=
  match body with
  | inl e => handler e
  | inr a => inr a
  end.

(** [try: body  except subprocess.TimeoutExpired: handler] *)
Definition except_timeout {A} (body : raises A) (handler : raises A)
  : raises A :=
  match body with
  | inl TimeoutExpired => handler
  | other => other
  end.

(** [try: body  except subprocess.TimeoutExpired: h1  except Exception: h2].
    An exception raised inside a handler is not caught by its sibling. *)
Definition except_timeout_else {A} (body : raises A) (h1 : raises A)
  (h2 : exn -> raises A) : raises A :=
  match body with
  | inl TimeoutExpired => h1
  | inl e => h2 e
  | inr a => inr a
  end.

Definition popen (p : process) : raises unit := call (spawn p).

(** [process.communicate(..., timeout=self.timeout)], with the return code
    and the time measured around the call *)
Definition communicate (p : process) : raises (Z * str * Q) :=
  match wait p with
  | Exited rc out t => ret (rc, out, t)
  | Expired => raise TimeoutExpired
  | WaitFailed f => raise (Failure f)
  end.

(** A block that either falls through with a value or returns from the
    enclosing function. *)
Inductive flow (R A : Type) := Return (r : R) | Next (a : A).
Arguments Return {R A} r.
Arguments Next {R A} a.

Fixpoint foldM {A S} (step : S -> A -> raises S) (l : list A) (s : S)
  : raises S :=
  match l with
  | [] => ret s
  | a :: r => s' <- step s a ;; foldM step r s'
  end.

Fixpoint mapM {A B} (f : A -> raises B) (l : list A) : raises (list B) :=
  match l with
  | [] => ret []
  | a :: r => b <- f a ;; bs <- mapM f r ;; ret (b :: bs)
  end.

Definition is_empty (s : str) : bool :=
  match s with [] => true | _ => false end.

(** The lines of a text given as one list, each ended by a newline. *)
Definition unlines (ls : list str) : str :=
  concat (map (fun l => l ++ [NL]) ls).

Definition enumerate {A} (l : list A) : list (Z * A) :=
  combine (map Z.of_nat (seq 0 (length l))) l.

(** ** The report file: what both drivers share

    The functions of this part have the same text in the two drivers.  The
    report file is a [str] (its whole content), absent when it does not
    exist.  A Python set of names is a duplicate-free list; only membership
    is ever observed. *)

(** [f.readlines()] of a file opened in text mode: a line ends at a line
    feed, at a carriage return or at the pair of them, and the end is read
    as one line feed. *)
Fixpoint readlines (s : str) : list str :=
  match s with
  | [] => []
  | c :: r =>
      if Ascii.eqb c NL then [NL] :: readlines r
      else if Ascii.eqb c CR then
        [NL] :: match r with
                | d :: r' => if Ascii.eqb d NL then readlines r' else readlines r
                | [] => []
                end
      else match readlines r with
           | l :: ls => (c :: l) :: ls
           | [] => [[c]]
           end
  end.

(** [f.writelines(lines)] on an emptied file *)
Definition writelines (lines : list str) : str := concat lines.

Fixpoint find_index {A} (f : A -> bool) (l : list A) : option nat :=
  match l with
  | [] => None
  | a :: r => if f a then Some O else option_map S (find_index f r)
  end.

(** The index of the first line holding [FINAL STATISTICS:]; [None] is the
    source's [-1]. *)
Definition final_stats_index (lines : list str) : option nat :=
  find_index (contains "FINAL STATISTICS:") lines.

(** [os.path.basename] *)
Definition basename (path : str) : str := last (split_on "/" path) [].

(** [Path(p).parts] without the root: the components that are neither
    empty nor a single dot.  The root matches no category name. *)
Definition path_parts (path : str) : list str :=
  filter (fun p => negb (is_empty p) && negb (str_eqb p "."))
    (split_on "/" path).

Definition mem (x : str) (s : list str) : bool := existsb (str_eqb x) s.

(** [s.add(x)] *)
Definition set_add (x : str) (s : list str) : list str :=
  if mem x s then s else s ++ [x].

(** [extract_category], over the driver's list of category names *)
Definition extract_category_in (names : list str) (path : str) : str :=
  match find (fun part => mem (upper part) names) (path_parts path) with
  | Some part => upper part
  | None => "UNKNOWN"
  end.

(** [filter_files]; the count of the skipped files is only printed. *)
Definition filter_files (files : list str) (processed_files : list str)
  (continue_mode : bool) : list str :=
  filter (fun f => negb (continue_mode && mem (basename f) processed_files))
    files.

(** [prepare_output_file], together with the [open(output_file, file_mode)]
    that follows it: the mode, and the content the run then appends to. *)
Definition prepare_output_file (output_file : option str)
  (continue_mode : bool) : bool * str :=
  match output_file with
  | Some content =>
      if continue_mode then
        let existing_lines := readlines content in
        let existing_lines :=
          match final_stats_index existing_lines with
          | Some (S i) => firstn (S i) existing_lines
          | _ => existing_lines
          end in
        (true, writelines existing_lines)
      else (false, [])
  | None => (false, [])
  end.

(** [_extract_header_lines] *)
Definition _extract_header_lines (data_lines : list str) : list str :=
  match find_index (contains "-----") data_lines with
  | Some i => firstn (S i) data_lines
  | None => []
  end.

(** [_extract_processed_filenames], over the driver's file extensions *)
Definition has_ext (exts : list str) (s : str) : bool :=
  existsb (fun e => contains e s) exts.

Definition extract_line (exts : list str) (processed_files : list str)
  (line : str) : list str :=
  if contains "|" line && has_ext exts line then
    let parts := split_on "|" line in
    if (2 <=? length parts)%nat then
      let file_part := strip (nth 1 parts []) in
      if has_ext exts file_part then set_add file_part processed_files
      else processed_files
    else processed_files
  else processed_files.

Definition _extract_processed_filenames (exts : list str)
  (data_lines : list str) : list str :=
  fold_left (extract_line exts) data_lines [].

(** [int(line.split(':', 1)[1].strip())] inside [try ... except: pass]:
    the number after the first colon, if there is one. *)
Definition number_after_colon (line : str) : option Z :=
  match split1 ":" line with
  | _ :: x :: _ => int_opt (strip x)
  | _ => None
  end.

(** What one run hands back: the report file as the run leaves it, and
    the exception that ended the run, if one did. *)
Record run := { report : str; raised : option exn }.

(** ** The clique driver: parser, generator, runners *)

Module Clique.

Definition graph := (Z * Z * list (Z * Z))%type.

(** One iteration of the loop of [parse_dimacs_graph]. *)
Definition parse_line (st : graph) (line0 : str) : raises graph :=
  let '(num_vertices, num_edges, edges) := st in
  let line := strip line0 in
  if is_empty line || startswith "c" line then ret st
  else if startswith "p edge" line || startswith "p col" line then
    let parts := split_ws line in
    num_vertices <- (x <- index parts 2 ;; py_int x) ;;
    num_edges <- (x <- index parts 3 ;; py_int x) ;;
    ret (num_vertices, num_edges, edges)
  else if startswith "e " line then
    let parts := split_ws line in
    if (3 <=? length parts)%nat then
      v1 <- (x <- index parts 1 ;; py_int x) ;;
      v2 <- (x <- index parts 2 ;; py_int x) ;;
      ret (num_vertices, num_edges, edges ++ [(v1, v2)])
    else ret st
  else ret st.

Definition parse_dimacs_graph (content : str) : raises graph :=
  let lines := split_on NL (strip content) in
  foldM parse_line lines (0, 0, []).

Definition preamble (num_vertices : Z) : str :=
  unlines
    [ "nN = " ++ str_of_Z num_vertices ++ ";";
      "";
      "// Initialize adjacency matrix";
      "for(i=0; i<nN; i++) {";
      "    for(j=0; j<nN; j++) {";
      "        bEdge[i][j] = false;";
      "    }";
      "}";
      "";
      "// Add edges (convert from 1-indexed to 0-indexed)" ].

Definition edge_statement (i j : Z) : str :=
  "bEdge[" ++ str_of_Z i ++ "][" ++ str_of_Z j ++ "] = true;" ++ [NL].

(** The body of the loop over the edges of [generate_urs_code]. *)
Definition add_edge (urs_code : str) (e : Z * Z) : str :=
  let '(v1, v2) := e in
  let v1_idx := v1 - 1 in
  let v2_idx := v2 - 1 in
  let urs_code := urs_code ++ edge_statement v1_idx v2_idx in
  urs_code ++ edge_statement v2_idx v1_idx.

Definition generate_urs_code (num_vertices : Z) (edges : list (Z * Z))
  (template : str) : str :=
  let urs_code := preamble num_vertices in
  let urs_code := fold_left add_edge edges urs_code in
  urs_code ++ [NL] ++ template ++ [NL].

Definition outcome := (status * Q * Z)%type.

Definition first_some {A} (a b : option A) : option A :=
  match a with Some _ => a | None => b end.

(** The part of [run_ursa] after a child that ended with return code 0. *)
Definition classify (stdout : str) (actual_elapsed : Q) : raises outcome :=
  let size_match := re_search (m_label_digits "Clique size:") stdout in
  let size_match :=
    first_some size_match
      (re_search (m_label_digits "Maximum clique:") stdout) in
  let size_match :=
    first_some size_match (re_search m_solution_digits stdout) in
  clique_size <- match size_match with
                 | Some g => py_int g
                 | None => ret 0
                 end ;;
  if is_sat_output stdout || (0 <? clique_size)
  then ret (FOUND, actual_elapsed, clique_size)
  else if is_unsat_output stdout then ret (NOT_FOUND, actual_elapsed, 0)
  else ret (UNKNOWN, actual_elapsed, 0).

Definition run_ursa (timeout : Z) (p : process) : raises outcome :=
  try_except
    (_ <- popen p ;;
     r <- except_timeout
            (x <- communicate p ;; ret (Next x))
            (_ <- call (kill p) ;;
             _ <- call (drain p) ;;
             ret (Return (TIMEOUT, inject_Z timeout, 0))) ;;
     match r with
     | Return v => ret v
     | Next (returncode, stdout, actual_elapsed) =>
         if returncode =? 0 then classify stdout actual_elapsed
         else ret (ERROR, actual_elapsed, 0)
     end)
    (fun _ => ret (ERROR, 0%Q, 0)).

Definition run_cliquer (timeout : Z) (p : process) : raises outcome :=
  except_timeout_else
    (_ <- popen p ;;
     '(returncode, stdout, elapsed_time) <- communicate p ;;
     clique_size <- match re_search (m_label_then_digits "size=") stdout with
                    | Some g => py_int g
                    | None => ret 0
                    end ;;
     if (returncode =? 0) && (0 <? clique_size)
     then ret (FOUND, elapsed_time, clique_size)
     else if (returncode =? 0) && (clique_size =? 0)
     then ret (NOT_FOUND, elapsed_time, 0)
     else ret (ERROR, elapsed_time, 0))
    (_ <- call (kill p) ;;
     ret (TIMEOUT, inject_Z timeout, 0))
    (fun _ => ret (ERROR, 0%Q, 0)).


(** *** Statistics *)

Module Tally.
(** The counters of URSA and of the reduction run. *)
Record t := { found : Z; not_found : Z; timeout : Z; error : Z }.
End Tally.

Module CliquerTally.
(** The counters of Cliquer.  The dictionary has no key [not_found];
    re-reading a report can create it ([extra_not_found]). *)
Record t := { found : Z; timeout : Z; error : Z;
              extra_not_found : option Z }.
End CliquerTally.

Record stats := {
  total : Z;
  ursa : Tally.t;
  cliquer : CliquerTally.t;
  reduction : Tally.t
}.

Definition empty_tally : Tally.t :=
  {| Tally.found := 0; Tally.not_found := 0; Tally.timeout := 0;
     Tally.error := 0 |}.

Definition _initialize_empty_stats : stats :=
  {| total := 0;
     ursa := empty_tally;
     cliquer := {| CliquerTally.found := 0; CliquerTally.timeout := 0;
                   CliquerTally.error := 0;
                   CliquerTally.extra_not_found := None |};
     reduction := empty_tally |}.

Record result := {
  file : str;
  vertices : Z;
  edges : Z;
  ursa_status : status;
  ursa_time : Q;
  ursa_clique : Z;
  cliquer_status : status;
  cliquer_time : Q;
  cliquer_clique : Z;
  reduction_result : option outcome   (* the three [reduction_*] keys *)
}.

(** The [if]/[elif] chain of [update_stats] for URSA and the reduction. *)
Definition count_status (status_key : str) (t : Tally.t) : Tally.t :=
  if str_eqb status_key "found" then
    {| Tally.found := Tally.found t + 1; Tally.not_found := Tally.not_found t;
       Tally.timeout := Tally.timeout t; Tally.error := Tally.error t |}
  else if str_eqb status_key "not_found" then
    {| Tally.found := Tally.found t; Tally.not_found := Tally.not_found t + 1;
       Tally.timeout := Tally.timeout t; Tally.error := Tally.error t |}
  else if str_eqb status_key "timeout" then
    {| Tally.found := Tally.found t; Tally.not_found := Tally.not_found t;
       Tally.timeout := Tally.timeout t + 1; Tally.error := Tally.error t |}
  else
    {| Tally.found := Tally.found t; Tally.not_found := Tally.not_found t;
       Tally.timeout := Tally.timeout t; Tally.error := Tally.error t + 1 |}.

(** The chain for Cliquer. *)
Definition count_cliquer_status (status_key : str) (t : CliquerTally.t)
  : CliquerTally.t :=
  if str_eqb status_key "found" then
    {| CliquerTally.found := CliquerTally.found t + 1;
       CliquerTally.timeout := CliquerTally.timeout t;
       CliquerTally.error := CliquerTally.error t;
       CliquerTally.extra_not_found := CliquerTally.extra_not_found t |}
  else if str_eqb status_key "timeout" then
    {| CliquerTally.found := CliquerTally.found t;
       CliquerTally.timeout := CliquerTally.timeout t + 1;
       CliquerTally.error := CliquerTally.error t;
       CliquerTally.extra_not_found := CliquerTally.extra_not_found t |}
  else
    {| CliquerTally.found := CliquerTally.found t;
       CliquerTally.timeout := CliquerTally.timeout t;
       CliquerTally.error := CliquerTally.error t + 1;
       CliquerTally.extra_not_found := CliquerTally.extra_not_found t |}.

Definition update_stats (s : stats) (r : result) (has_reduction : bool)
  : raises stats :=
  let total' := total s + 1 in
  let ursa_status_key := lower (status_name (ursa_status r)) in
  let ursa' := count_status ursa_status_key (ursa s) in
  let cliquer_status_key := lower (status_name (cliquer_status r)) in
  let cliquer' := count_cliquer_status cliquer_status_key (cliquer s) in
  if has_reduction then
    match reduction_result r with
    | Some (reduction_status, _, _) =>
        let red_status_key := lower (status_name reduction_status) in
        ret {| total := total'; ursa := ursa'; cliquer := cliquer';
               reduction := count_status red_status_key (reduction s) |}
    | None => raise KeyError
    end
  else
    ret {| total := total'; ursa := ursa'; cliquer := cliquer';
           reduction := reduction s |}.

Definition tally_lines (t : Tally.t) : list str :=
  [ "Cliques found:     " ++ str_of_Z (Tally.found t);
    "Not found:         " ++ str_of_Z (Tally.not_found t);
    "Timeout:           " ++ str_of_Z (Tally.timeout t);
    "Error:             " ++ str_of_Z (Tally.error t);
    "" ].

(** [write_final_statistics]: the text written; [now] is the time stamp. *)
Definition write_final_statistics (s : stats) (has_reduction : bool)
  (now : str) : str :=
  unlines
    ([ ""; "FINAL STATISTICS:"; repeat "="%char 17; "" ]
     ++ [ "URSA Results:" ] ++ tally_lines (ursa s)
     ++ [ "Cliquer Results:";
          "Cliques found:     " ++ str_of_Z (CliquerTally.found (cliquer s));
          "Timeout:           " ++ str_of_Z (CliquerTally.timeout (cliquer s));
          "Error:             " ++ str_of_Z (CliquerTally.error (cliquer s));
          "" ]
     ++ (if has_reduction
         then [ "Reduction Results:" ] ++ tally_lines (reduction s)
         else [])
     ++ [ "Total instances:   " ++ str_of_Z (total s);
          "Completed: " ++ now ]).

Inductive context := ctx_ursa | ctx_cliquer | ctx_reduction.

Definition set_found (s : stats) (c : context) (n : Z) : stats :=
  match c with
  | ctx_ursa =>
      {| total := total s; cliquer := cliquer s; reduction := reduction s;
         ursa := {| Tally.found := n;
                    Tally.not_found := Tally.not_found (ursa s);
                    Tally.timeout := Tally.timeout (ursa s);
                    Tally.error := Tally.error (ursa s) |} |}
  | ctx_cliquer =>
      {| total := total s; ursa := ursa s; reduction := reduction s;
         cliquer := {| CliquerTally.found := n;
                       CliquerTally.timeout := CliquerTally.timeout (cliquer s);
                       CliquerTally.error := CliquerTally.error (cliquer s);
                       CliquerTally.extra_not_found :=
                         CliquerTally.extra_not_found (cliquer s) |} |}
  | ctx_reduction =>
      {| total := total s; ursa := ursa s; cliquer := cliquer s;
         reduction := {| Tally.found := n;
                         Tally.not_found := Tally.not_found (reduction s);
                         Tally.timeout := Tally.timeout (reduction s);
                         Tally.error := Tally.error (reduction s) |} |}
  end.

Definition set_not_found (s : stats) (c : context) (n : Z) : stats :=
  match c with
  | ctx_ursa =>
      {| total := total s; cliquer := cliquer s; reduction := reduction s;
         ursa := {| Tally.found := Tally.found (ursa s);
                    Tally.not_found := n;
                    Tally.timeout := Tally.timeout (ursa s);
                    Tally.error := Tally.error (ursa s) |} |}
  | ctx_cliquer =>
      {| total := total s; ursa := ursa s; reduction := reduction s;
         cliquer := {| CliquerTally.found := CliquerTally.found (cliquer s);
                       CliquerTally.timeout := CliquerTally.timeout (cliquer s);
                       CliquerTally.error := CliquerTally.error (cliquer s);
                       CliquerTally.extra_not_found := Some n |} |}
  | ctx_reduction =>
      {| total := total s; ursa := ursa s; cliquer := cliquer s;
         reduction := {| Tally.found := Tally.found (reduction s);
                         Tally.not_found := n;
                         Tally.timeout := Tally.timeout (reduction s);
                         Tally.error := Tally.error (reduction s) |} |}
  end.

Definition set_timeout (s : stats) (c : context) (n : Z) : stats :=
  match c with
  | ctx_ursa =>
      {| total := total s; cliquer := cliquer s; reduction := reduction s;
         ursa := {| Tally.found := Tally.found (ursa s);
                    Tally.not_found := Tally.not_found (ursa s);
                    Tally.timeout := n;
                    Tally.error := Tally.error (ursa s) |} |}
  | ctx_cliquer =>
      {| total := total s; ursa := ursa s; reduction := reduction s;
         cliquer := {| CliquerTally.found := CliquerTally.found (cliquer s);
                       CliquerTally.timeout := n;
                       CliquerTally.error := CliquerTally.error (cliquer s);
                       CliquerTally.extra_not_found :=
                         CliquerTally.extra_not_found (cliquer s) |} |}
  | ctx_reduction =>
      {| total := total s; ursa := ursa s; cliquer := cliquer s;
         reduction := {| Tally.found := Tally.found (reduction s);
                         Tally.not_found := Tally.not_found (reduction s);
                         Tally.timeout := n;
                         Tally.error := Tally.error (reduction s) |} |}
  end.

Definition set_error (s : stats) (c : context) (n : Z) : stats :=
  match c with
  | ctx_ursa =>
      {| total := total s; cliquer := cliquer s; reduction := reduction s;
         ursa := {| Tally.found := Tally.found (ursa s);
                    Tally.not_found := Tally.not_found (ursa s);
                    Tally.timeout := Tally.timeout (ursa s);
                    Tally.error := n |} |}
  | ctx_cliquer =>
      {| total := total s; ursa := ursa s; reduction := reduction s;
         cliquer := {| CliquerTally.found := CliquerTally.found (cliquer s);
                       CliquerTally.timeout := CliquerTally.timeout (cliquer s);
                       CliquerTally.error := n;
                       CliquerTally.extra_not_found :=
                         CliquerTally.extra_not_found (cliquer s) |} |}
  | ctx_reduction =>
      {| total := total s; ursa := ursa s; cliquer := cliquer s;
         reduction := {| Tally.found := Tally.found (reduction s);
                         Tally.not_found := Tally.not_found (reduction s);
                         Tally.timeout := Tally.timeout (reduction s);
                         Tally.error := n |} |}
  end.

(** [_parse_stat_line]: an unreadable number leaves the counters alone. *)
Definition _parse_stat_line (s : stats) (c : context) (line : str) : stats :=
  let low := lower line in
  let store (set : stats -> context -> Z -> stats) :=
    match number_after_colon line with
    | Some n => set s c n
    | None => s
    end in
  if contains "cliques found:" low then store set_found
  else if contains "not found:" low then store set_not_found
  else if contains "timeout:" low then store set_timeout
  else if contains "error:" low then store set_error
  else s.

(** One iteration of the loop of [_parse_statistics_section]. *)
Definition parse_stats_line (st : stats * option context) (line : str)
  : stats * option context :=
  let '(s, current_context) := st in
  let '(s, current_context) :=
    if contains "URSA Results:" line then (s, Some ctx_ursa)
    else if contains "Cliquer Results:" line then (s, Some ctx_cliquer)
    else if contains "Reduction Results:" line then (s, Some ctx_reduction)
    else if contains "Total instances:" line then
      (match number_after_colon line with
       | Some n => {| total := n; ursa := ursa s; cliquer := cliquer s;
                      reduction := reduction s |}
       | None => s
       end, None)
    else (s, current_context) in
  match current_context with
  | Some c =>
      if contains "found:" (lower line) || contains "timeout:" (lower line)
         || contains "error:" (lower line)
      then (_parse_stat_line s c line, current_context)
      else (s, current_context)
  | None => (s, current_context)
  end.

Definition _parse_statistics_section (stats_lines : list str) : stats :=
  fst (fold_left parse_stats_line stats_lines (_initialize_empty_stats, None)).

Definition exts : list str := [".clq"; ".txt"].

(** [load_existing_results]: the processed names, the prior statistics
    and the header lines. *)
Definition load_existing_results (output_file : option str)
  : list str * stats * list str :=
  match output_file with
  | None => ([], _initialize_empty_stats, [])
  | Some content =>
      let lines := readlines content in
      let '(data_lines, existing_stats) :=
        match final_stats_index lines with
        | None => (lines, _initialize_empty_stats)
        | Some i => (firstn i lines, _parse_statistics_section (skipn i lines))
        end in
      (_extract_processed_filenames exts data_lines, existing_stats,
       _extract_header_lines data_lines)
  end.

Definition load_or_init_stats (continue_mode : bool) (output_file : option str)
  : list str * stats * list str :=
  if continue_mode then load_existing_results output_file
  else ([], _initialize_empty_stats, []).

(** *** One benchmark run *)

Record config := {
  timeout : Z;
  solver_template : str;
  reduction_template : option str;
  save_urs : bool;
  continue_mode : bool
}.

(** [bool(self.reduction_template)]: an empty template counts as none. *)
Definition has_reduction (cfg : config) : bool :=
  match reduction_template cfg with
  | Some (_ :: _) => true
  | _ => false
  end.

(** What is outside the driver: the text of each graph file, and the
    child each solver call starts (URSA by the program it is fed, Cliquer
    by the path of the graph file). *)
Record world := {
  read_text : str -> raises str;
  ursa_child : str -> process;
  cliquer_child : str -> process
}.

Definition category_names : list str :=
  [ "BROCK"; "KELLER"; "MANN"; "P_HAT"; "SAN"; "SANR"; "C-FAT"; "HAMMING";
    "JOHNSON" ].

Definition extract_category (graph_file : str) : str :=
  extract_category_in category_names graph_file.

(** [write_header]: the text written; [now] is the time stamp. *)
Definition write_header (reduction : bool) (save_urs : bool) (now : str)
  : str :=
  let header_parts :=
    [ ljust 12 "Category"; ljust 35 "File"; ljust 9 "Vertices";
      ljust 8 "Edges"; ljust 12 "URSA"; ljust 12 "Cliquer" ]
    ++ (if reduction then [ ljust 12 "Reduction" ] else [])
    ++ [ ljust 10 "URSA Time"; ljust 12 "Cliquer Time" ]
    ++ (if reduction then [ ljust 10 "Red. Time" ] else [])
    ++ [ ljust 12 "URSA Clique"; ljust 12 "Cliq. Clique" ]
    ++ (if reduction then [ ljust 12 "Red. Clique" ] else [])
    ++ (if save_urs
        then [ ljust 25 "URS File" ]
             ++ (if reduction then [ ljust 25 "Reduction File" ] else [])
        else []) in
  unlines
    ([ "URSA vs Cliquer Max Clique Benchmark Results";
       repeat "="%char 45;
       "Started: " ++ now ]
     ++ (if save_urs
         then [ "URS files saved to: urs_files" ]
              ++ (if reduction
                  then [ "Reduction files saved to: reduction_files" ]
                  else [])
         else [])
     ++ [ "";
          join " | " header_parts;
          repeat "-"%char
            (list_sum (map (@length ascii) header_parts)
             + 3 * (length header_parts - 1)) ]).

(** The result line of one instance. *)
Definition result_line (cfg : config) (category : str) (r : result)
  : raises str :=
  red <- (if has_reduction cfg
          then match reduction_result r with
               | Some x => ret (Some x)
               | None => raise KeyError
               end
          else ret None) ;;
  let opt (f : outcome -> str) : list str :=
    match red with Some x => [ f x ] | None => [] end in
  let line_parts :=
    [ ljust 12 category; ljust 35 (file r);
      ljust 9 (str_of_Z (vertices r)); ljust 8 (str_of_Z (edges r));
      ljust 12 (status_name (ursa_status r));
      ljust 12 (status_name (cliquer_status r)) ]
    ++ opt (fun x => ljust 12 (status_name (fst (fst x))))
    ++ [ ljust 10 (fixed6 (ursa_time r)); ljust 12 (fixed6 (cliquer_time r)) ]
    ++ opt (fun x => ljust 10 (fixed6 (snd (fst x))))
    ++ [ ljust 12 (str_of_Z (ursa_clique r));
         ljust 12 (str_of_Z (cliquer_clique r)) ]
    ++ opt (fun x => ljust 12 (str_of_Z (snd x)))
    ++ (if save_urs cfg
        then [ ljust 25 (basename "") ] ++ opt (fun _ => ljust 25 (basename ""))
        else []) in
  ret (join " | " line_parts ++ [NL]).

Definition run_with_template (cfg : config) (w : world) (num_vertices : Z)
  (edges : list (Z * Z)) (template : str) : raises outcome :=
  let urs_code := generate_urs_code num_vertices edges template in
  run_ursa (timeout cfg) (ursa_child w urs_code).

(** [benchmark_file] with [verbose=False]; [None] is a skipped or
    unreadable instance.  The saving of the generated programs, which has
    no effect on the result, is left out. *)
Definition benchmark_file (cfg : config) (w : world)
  (processed_files : list str) (graph_file : str) : raises (option result) :=
  let file_name := basename graph_file in
  if continue_mode cfg && mem file_name processed_files then ret None
  else
    match graph_content <- read_text w graph_file ;;
          parse_dimacs_graph graph_content with
    | inl _ => ret None
    | inr (num_vertices, num_edges, edges) =>
        '(ursa_status, ursa_time, ursa_clique) <-
          run_with_template cfg w num_vertices edges (solver_template cfg) ;;
        '(cliquer_status, cliquer_time, cliquer_clique) <-
          run_cliquer (timeout cfg) (cliquer_child w graph_file) ;;
        red <- (if has_reduction cfg
                then x <- run_with_template cfg w num_vertices edges
                            (match reduction_template cfg with
                             | Some t => t
                             | None => []
                             end) ;;
                     ret (Some x)
                else ret None) ;;
        ret (Some {| file := file_name;
                     vertices := num_vertices;
                     edges := num_edges;
                     ursa_status := ursa_status;
                     ursa_time := ursa_time;
                     ursa_clique := ursa_clique;
                     cliquer_status := cliquer_status;
                     cliquer_time := cliquer_time;
                     cliquer_clique := cliquer_clique;
                     reduction_result := red |})
    end.

(** The state of the loop of [benchmark_directory]: the report file as
    written (every line is flushed) and the counters of this run. *)
Record progress := { written : str; counted : stats }.

(** One iteration of the loop. *)
Definition benchmark_step (cfg : config) (w : world)
  (processed_files : list str) (st : progress) (graph_file : str)
  : raises progress :=
  r <- benchmark_file cfg w processed_files graph_file ;;
  match r with
  | None => ret st
  | Some r =>
      s <- update_stats (counted st) r (has_reduction cfg) ;;
      line <- result_line cfg (extract_category graph_file) r ;;
      ret {| written := written st ++ line; counted := s |}
  end.

(** The loop; an exception leaves the file as the last flush left it. *)
Fixpoint benchmark_loop (cfg : config) (w : world)
  (processed_files : list str) (files : list str) (st : progress)
  : progress * option exn :=
  match files with
  | [] => (st, None)
  | f :: r =>
      match benchmark_step cfg w processed_files st f with
      | inl e => (st, Some e)
      | inr st' => benchmark_loop cfg w processed_files r st'
      end
  end.

Definition add_tally (a b : Tally.t) : Tally.t :=
  {| Tally.found := Tally.found a + Tally.found b;
     Tally.not_found := Tally.not_found a + Tally.not_found b;
     Tally.timeout := Tally.timeout a + Tally.timeout b;
     Tally.error := Tally.error a + Tally.error b |}.

(** The dictionary comprehensions that add the prior counters and those
    of this run, key by key over the prior ones. *)
Definition combine_stats (existing_stats s : stats) : raises stats :=
  cliquer' <-
    match CliquerTally.extra_not_found (cliquer existing_stats),
          CliquerTally.extra_not_found (cliquer s) with
    | None, _ => ret None
    | Some a, Some b => ret (Some (a + b))
    | Some _, None => raise KeyError
    end ;;
  ret {| total := total existing_stats + total s;
         ursa := add_tally (ursa existing_stats) (ursa s);
         cliquer :=
           {| CliquerTally.found :=
                CliquerTally.found (cliquer existing_stats)
                + CliquerTally.found (cliquer s);
              CliquerTally.timeout :=
                CliquerTally.timeout (cliquer existing_stats)
                + CliquerTally.timeout (cliquer s);
              CliquerTally.error :=
                CliquerTally.error (cliquer existing_stats)
                + CliquerTally.error (cliquer s);
              CliquerTally.extra_not_found := cliquer' |};
         reduction := add_tally (reduction existing_stats) (reduction s) |}.

(** The start of [benchmark_directory], up to the loop: the prior state
    is loaded, the files are filtered, the report file is opened and, when
    new, given its header. *)
Definition start_run (cfg : config) (output_file : option str)
  (graph_files : list str) (started : str)
  : list str * stats * list str * progress :=
  let '(processed_files, existing_stats, _) :=
    load_or_init_stats (continue_mode cfg) output_file in
  let files_to_process :=
    filter_files graph_files processed_files (continue_mode cfg) in
  let '(append, content) :=
    prepare_output_file output_file (continue_mode cfg) in
  let content :=
    if append then content
    else write_header (has_reduction cfg) (save_urs cfg) started in
  (processed_files, existing_stats, files_to_process,
   {| written := content; counted := _initialize_empty_stats |}).

(** [benchmark_directory] on the sorted list of graph files of the
    directory; [started] and [completed] are the two time stamps. *)
Definition benchmark_directory (cfg : config) (w : world)
  (output_file : option str) (graph_files : list str)
  (started completed : str) : run :=
  let '(processed_files, existing_stats, files_to_process, st) :=
    start_run cfg output_file graph_files started in
  match benchmark_loop cfg w processed_files files_to_process st with
  | (st, Some e) => {| report := written st; raised := Some e |}
  | (st, None) =>
      match combine_stats existing_stats (counted st) with
      | inl e => {| report := written st; raised := Some e |}
      | inr combined_stats =>
          {| report := written st
                       ++ write_final_statistics combined_stats
                            (has_reduction cfg) completed;
             raised := None |}
      end
  end.

(** A run of [benchmark_directory] that is interrupted when the loop has
    gone through the first [k] of the files it has to process: the report
    file holds what was flushed, and no final statistics. *)
Definition interrupted_run (cfg : config) (w : world)
  (output_file : option str) (graph_files : list str) (started : str)
  (k : nat) : str :=
  let '(processed_files, _, files_to_process, st) :=
    start_run cfg output_file graph_files started in
  written (fst (benchmark_loop cfg w processed_files
                  (firstn k files_to_process) st)).

End Clique.

(** ** The SAT driver: parser, generator, runners *)

Module Sat.

Definition cnf := (Z * Z * list (list Z))%type.

(** One iteration of the loop of [parse_dimacs]. *)
Definition parse_line (st : cnf) (line0 : str) : raises cnf :=
  let '(num_vars, num_clauses, clauses) := st in
  let line := strip line0 in
  if is_empty line || startswith "c" line || startswith "%" line then ret st
  else if startswith "p cnf" line then
    let parts := split_ws line in
    num_vars <- (x <- index parts 2 ;; py_int x) ;;
    num_clauses <- (x <- index parts 3 ;; py_int x) ;;
    ret (num_vars, num_clauses, clauses)
  else if negb (is_empty line) && negb (startswith "p" line) then
    literals <- mapM py_int
                  (filter (fun x => negb (str_eqb x "0")) (split_ws line)) ;;
    match literals with
    | [] => ret st
    | _ => ret (num_vars, num_clauses, clauses ++ [literals])
    end
  else ret st.

Definition parse_dimacs (dimacs_content : str) : raises cnf :=
  let lines := split_on NL (strip dimacs_content) in
  foldM parse_line lines (0, 0, []).

Definition preamble (num_vars num_clauses : Z) : str :=
  unlines
    [ "nN = " ++ str_of_Z num_vars ++ ";";
      "nClauses = " ++ str_of_Z num_clauses ++ ";";
      "";
      "for(ni=0; ni<nClauses; ni++) {";
      "    for(nj=0; nj<2*nN; nj++) {";
      "        bC[ni][nj] = false;";
      "    }";
      "}";
      "" ].

Definition literal_statement (clause_idx slot : Z) : str :=
  "bC[" ++ str_of_Z clause_idx ++ "][" ++ str_of_Z slot ++ "] = true;"
  ++ [NL].

(** The body of the inner loop of [generate_urs_code]. *)
Definition add_literal (clause_idx : Z) (urs_code : str) (literal : Z) : str :=
  if 0 <? literal then
    let var_index := literal - 1 in
    urs_code ++ literal_statement clause_idx (2 * var_index)
  else
    let var_index := Z.abs literal - 1 in
    urs_code ++ literal_statement clause_idx (2 * var_index + 1).

(** The body of the outer loop. *)
Definition add_clause (urs_code : str) (ic : Z * list Z) : str :=
  let '(clause_idx, clause) := ic in
  fold_left (add_literal clause_idx) clause urs_code.

Definition generate_urs_code (num_vars num_clauses : Z)
  (clauses : list (list Z)) (template : str) : str :=
  let urs_code := preamble num_vars num_clauses in
  let urs_code := fold_left add_clause (enumerate clauses) urs_code in
  urs_code ++ [NL] ++ template ++ [NL].

Definition outcome := (status * Q)%type.

Definition run_ursa (timeout : Z) (p : process) : raises outcome :=
  try_except
    (_ <- popen p ;;
     r <- except_timeout
            (x <- communicate p ;; ret (Next x))
            (_ <- call (kill p) ;;
             _ <- call (drain p) ;;
             ret (Return (TIMEOUT, inject_Z timeout))) ;;
     match r with
     | Return v => ret v
     | Next (returncode, stdout, actual_elapsed) =>
         if returncode =? 0 then
           if is_sat_output stdout then ret (SAT, actual_elapsed)
           else if is_unsat_output stdout then ret (UNSAT, actual_elapsed)
           else ret (UNKNOWN, actual_elapsed)
         else ret (ERROR, actual_elapsed)
     end)
    (fun _ => ret (ERROR, 0%Q)).

Definition run_minisat (timeout : Z) (p : process) : raises outcome :=
  try_except
    (_ <- popen p ;;
     r <- except_timeout
            (x <- communicate p ;; ret (Next x))
            (_ <- call (kill p) ;;
             ret (Return (TIMEOUT, inject_Z timeout))) ;;
     match r with
     | Return v => ret v
     | Next (returncode, stdout, elapsed_time) =>
         if returncode =? 10 then ret (SAT, elapsed_time)
         else if returncode =? 20 then ret (UNSAT, elapsed_time)
         else ret (ERROR, elapsed_time)
     end)
    (fun _ => ret (ERROR, 0%Q)).


(** *** Statistics *)

Module Tally.
(** The counters of URSA and of the reduction run. *)
Record t := { SAT : Z; UNSAT : Z; TIMEOUT : Z; ERROR : Z; UNKNOWN : Z }.
End Tally.

Module MiniSatTally.
(** The counters of MiniSat: no key [UNKNOWN]. *)
Record t := { SAT : Z; UNSAT : Z; TIMEOUT : Z; ERROR : Z }.
End MiniSatTally.

Record stats := {
  total : Z;
  ursa : Tally.t;
  minisat : MiniSatTally.t;
  reduction : Tally.t
}.

Definition empty_tally : Tally.t :=
  {| Tally.SAT := 0; Tally.UNSAT := 0; Tally.TIMEOUT := 0; Tally.ERROR := 0;
     Tally.UNKNOWN := 0 |}.

Definition _initialize_empty_stats : stats :=
  {| total := 0;
     ursa := empty_tally;
     minisat := {| MiniSatTally.SAT := 0; MiniSatTally.UNSAT := 0;
                   MiniSatTally.TIMEOUT := 0; MiniSatTally.ERROR := 0 |};
     reduction := empty_tally |}.

Record result := {
  file : str;
  variables : Z;
  clauses : Z;
  ursa_status : status;
  ursa_time : Q;
  minisat_status : status;
  minisat_time : Q;
  reduction_result : option outcome   (* the two [reduction_*] keys *)
}.

Definition set_SAT (t : Tally.t) (n : Z) : Tally.t :=
  {| Tally.SAT := n; Tally.UNSAT := Tally.UNSAT t;
     Tally.TIMEOUT := Tally.TIMEOUT t; Tally.ERROR := Tally.ERROR t;
     Tally.UNKNOWN := Tally.UNKNOWN t |}.
Definition set_UNSAT (t : Tally.t) (n : Z) : Tally.t :=
  {| Tally.SAT := Tally.SAT t; Tally.UNSAT := n;
     Tally.TIMEOUT := Tally.TIMEOUT t; Tally.ERROR := Tally.ERROR t;
     Tally.UNKNOWN := Tally.UNKNOWN t |}.
Definition set_TIMEOUT (t : Tally.t) (n : Z) : Tally.t :=
  {| Tally.SAT := Tally.SAT t; Tally.UNSAT := Tally.UNSAT t;
     Tally.TIMEOUT := n; Tally.ERROR := Tally.ERROR t;
     Tally.UNKNOWN := Tally.UNKNOWN t |}.
Definition set_ERROR (t : Tally.t) (n : Z) : Tally.t :=
  {| Tally.SAT := Tally.SAT t; Tally.UNSAT := Tally.UNSAT t;
     Tally.TIMEOUT := Tally.TIMEOUT t; Tally.ERROR := n;
     Tally.UNKNOWN := Tally.UNKNOWN t |}.
Definition set_UNKNOWN (t : Tally.t) (n : Z) : Tally.t :=
  {| Tally.SAT := Tally.SAT t; Tally.UNSAT := Tally.UNSAT t;
     Tally.TIMEOUT := Tally.TIMEOUT t; Tally.ERROR := Tally.ERROR t;
     Tally.UNKNOWN := n |}.

Definition mset_SAT (t : MiniSatTally.t) (n : Z) : MiniSatTally.t :=
  {| MiniSatTally.SAT := n; MiniSatTally.UNSAT := MiniSatTally.UNSAT t;
     MiniSatTally.TIMEOUT := MiniSatTally.TIMEOUT t;
     MiniSatTally.ERROR := MiniSatTally.ERROR t |}.
Definition mset_UNSAT (t : MiniSatTally.t) (n : Z) : MiniSatTally.t :=
  {| MiniSatTally.SAT := MiniSatTally.SAT t; MiniSatTally.UNSAT := n;
     MiniSatTally.TIMEOUT := MiniSatTally.TIMEOUT t;
     MiniSatTally.ERROR := MiniSatTally.ERROR t |}.
Definition mset_TIMEOUT (t : MiniSatTally.t) (n : Z) : MiniSatTally.t :=
  {| MiniSatTally.SAT := MiniSatTally.SAT t;
     MiniSatTally.UNSAT := MiniSatTally.UNSAT t;
     MiniSatTally.TIMEOUT := n; MiniSatTally.ERROR := MiniSatTally.ERROR t |}.
Definition mset_ERROR (t : MiniSatTally.t) (n : Z) : MiniSatTally.t :=
  {| MiniSatTally.SAT := MiniSatTally.SAT t;
     MiniSatTally.UNSAT := MiniSatTally.UNSAT t;
     MiniSatTally.TIMEOUT := MiniSatTally.TIMEOUT t; MiniSatTally.ERROR := n |}.

(** [d[status] += 1] on a five-key dictionary; the clique statuses are not
    keys. *)
Definition count_status (st : status) (t : Tally.t) : raises Tally.t :=
  match st with
  | SAT => ret (set_SAT t (Tally.SAT t + 1))
  | UNSAT => ret (set_UNSAT t (Tally.UNSAT t + 1))
  | TIMEOUT => ret (set_TIMEOUT t (Tally.TIMEOUT t + 1))
  | ERROR => ret (set_ERROR t (Tally.ERROR t + 1))
  | UNKNOWN => ret (set_UNKNOWN t (Tally.UNKNOWN t + 1))
  | FOUND | NOT_FOUND => raise KeyError
  end.

(** [d[status] += 1] on the four-key dictionary of MiniSat. *)
Definition count_minisat_status (st : status) (t : MiniSatTally.t)
  : raises MiniSatTally.t :=
  match st with
  | SAT => ret (mset_SAT t (MiniSatTally.SAT t + 1))
  | UNSAT => ret (mset_UNSAT t (MiniSatTally.UNSAT t + 1))
  | TIMEOUT => ret (mset_TIMEOUT t (MiniSatTally.TIMEOUT t + 1))
  | ERROR => ret (mset_ERROR t (MiniSatTally.ERROR t + 1))
  | UNKNOWN | FOUND | NOT_FOUND => raise KeyError
  end.

Definition update_stats (s : stats) (r : result) (has_reduction : bool)
  : raises stats :=
  let total' := total s + 1 in
  ursa' <- count_status (ursa_status r) (ursa s) ;;
  minisat' <- count_minisat_status (minisat_status r) (minisat s) ;;
  if has_reduction then
    match reduction_result r with
    | Some (reduction_status, _) =>
        reduction' <- count_status reduction_status (reduction s) ;;
        ret {| total := total'; ursa := ursa'; minisat := minisat';
               reduction := reduction' |}
    | None => raise KeyError
    end
  else
    ret {| total := total'; ursa := ursa'; minisat := minisat';
           reduction := reduction s |}.

Definition tally_lines (t : Tally.t) : list str :=
  [ "SAT instances:     " ++ str_of_Z (Tally.SAT t);
    "UNSAT instances:   " ++ str_of_Z (Tally.UNSAT t);
    "UNKNOWN instances: " ++ str_of_Z (Tally.UNKNOWN t);
    "TIMEOUT instances: " ++ str_of_Z (Tally.TIMEOUT t);
    "ERROR instances:   " ++ str_of_Z (Tally.ERROR t);
    "" ].

(** [write_final_statistics]: the text written; [now] is the time stamp. *)
Definition write_final_statistics (s : stats) (has_reduction : bool)
  (now : str) : str :=
  unlines
    ([ ""; "FINAL STATISTICS:"; repeat "="%char 17; "" ]
     ++ [ "URSA Results:" ] ++ tally_lines (ursa s)
     ++ [ "MiniSat Results:";
          "SAT instances:     " ++ str_of_Z (MiniSatTally.SAT (minisat s));
          "UNSAT instances:   " ++ str_of_Z (MiniSatTally.UNSAT (minisat s));
          "TIMEOUT instances: " ++ str_of_Z (MiniSatTally.TIMEOUT (minisat s));
          "ERROR instances:   " ++ str_of_Z (MiniSatTally.ERROR (minisat s));
          "" ]
     ++ (if has_reduction
         then [ "Reduction Results:" ] ++ tally_lines (reduction s)
         else [])
     ++ [ "Total instances:   " ++ str_of_Z (total s);
          "Completed: " ++ now ]).

Inductive context := ctx_ursa | ctx_minisat | ctx_reduction.

(** [stats[context][key] = n] for the key chosen by [tset] and [mset]. *)
Definition store_in (s : stats) (c : context)
  (tset : Tally.t -> Z -> Tally.t)
  (mset : MiniSatTally.t -> Z -> MiniSatTally.t) (n : Z) : stats :=
  match c with
  | ctx_ursa =>
      {| total := total s; ursa := tset (ursa s) n; minisat := minisat s;
         reduction := reduction s |}
  | ctx_minisat =>
      {| total := total s; ursa := ursa s; minisat := mset (minisat s) n;
         reduction := reduction s |}
  | ctx_reduction =>
      {| total := total s; ursa := ursa s; minisat := minisat s;
         reduction := tset (reduction s) n |}
  end.

(** [_parse_stat_line]: an unreadable number leaves the counters alone
    (and a warning is printed). *)
Definition _parse_stat_line (s : stats) (c : context) (line : str) : stats :=
  let store tset mset :=
    match number_after_colon line with
    | Some n => store_in s c tset mset n
    | None => s
    end in
  if contains "SAT instances:" line then store set_SAT mset_SAT
  else if contains "UNSAT instances:" line then store set_UNSAT mset_UNSAT
  else if contains "TIMEOUT instances:" line
  then store set_TIMEOUT mset_TIMEOUT
  else if contains "ERROR instances:" line then store set_ERROR mset_ERROR
  else if contains "UNKNOWN instances:" line
          && match c with ctx_ursa | ctx_reduction => true | _ => false end
  then store set_UNKNOWN (fun t _ => t)
  else s.

(** One iteration of the loop of [_parse_statistics_section]. *)
Definition parse_stats_line (st : stats * option context) (line : str)
  : stats * option context :=
  let '(s, current_context) := st in
  let '(s, current_context) :=
    if contains "URSA Results:" line then (s, Some ctx_ursa)
    else if contains "MiniSat Results:" line then (s, Some ctx_minisat)
    else if contains "Reduction Results:" line then (s, Some ctx_reduction)
    else if contains "Total instances:" line then
      (match number_after_colon line with
       | Some n => {| total := n; ursa := ursa s; minisat := minisat s;
                      reduction := reduction s |}
       | None => s
       end, None)
    else (s, current_context) in
  match current_context with
  | Some c =>
      if contains "instances:" line
      then (_parse_stat_line s c line, current_context)
      else (s, current_context)
  | None => (s, current_context)
  end.

Definition _parse_statistics_section (stats_lines : list str) : stats :=
  fst (fold_left parse_stats_line stats_lines (_initialize_empty_stats, None)).

Definition exts : list str := [".cnf"].

(** [load_existing_results]: the processed names, the prior statistics
    and the header lines. *)
Definition load_existing_results (output_file : option str)
  : list str * stats * list str :=
  match output_file with
  | None => ([], _initialize_empty_stats, [])
  | Some content =>
      let lines := readlines content in
      let '(data_lines, existing_stats) :=
        match final_stats_index lines with
        | None => (lines, _initialize_empty_stats)
        | Some i => (firstn i lines, _parse_statistics_section (skipn i lines))
        end in
      (_extract_processed_filenames exts data_lines, existing_stats,
       _extract_header_lines data_lines)
  end.

Definition load_or_init_stats (continue_mode : bool) (output_file : option str)
  : list str * stats * list str :=
  if continue_mode then load_existing_results output_file
  else ([], _initialize_empty_stats, []).

(** *** One benchmark run *)

Record config := {
  timeout : Z;
  solver_template : str;
  reduction_template : option str;
  save_urs : bool;
  continue_mode : bool
}.

(** [bool(self.reduction_template)]: an empty template counts as none. *)
Definition has_reduction (cfg : config) : bool :=
  match reduction_template cfg with
  | Some (_ :: _) => true
  | _ => false
  end.

(** What is outside the driver: the text of each CNF file, and the child
    each solver call starts (URSA by the program it is fed, MiniSat by the
    path of the CNF file). *)
Record world := {
  read_text : str -> raises str;
  ursa_child : str -> process;
  minisat_child : str -> process
}.

Definition category_names : list str :=
  [ "AIM"; "DUBOIS"; "PHOLE"; "GCP"; "PARITY"; "JNH" ].

Definition extract_category (dimacs_file : str) : str :=
  extract_category_in category_names dimacs_file.

(** [write_header] as [benchmark_directory] calls it, with the names
    [solver_template] and [reduction_template]; [now] is the time stamp. *)
Definition write_header (reduction : bool) (save_urs : bool) (now : str)
  : str :=
  let header_parts :=
    [ ljust 12 "Category"; ljust 35 "File"; ljust 9 "Variables";
      ljust 8 "Clauses"; ljust 8 "URSA"; ljust 8 "MiniSat" ]
    ++ (if reduction then [ ljust 10 "Reduction" ] else [])
    ++ [ ljust 10 "URSA Time"; ljust 12 "MiniSat Time" ]
    ++ (if reduction then [ ljust 14 "Reduction Time" ] else []) in
  unlines
    ([ "URSA Benchmark (solver_template) vs MiniSat"
       ++ (if reduction then " vs URSA Reduction (reduction_template)"
           else "");
       repeat "="%char 47;
       "Started: " ++ now ]
     ++ (if save_urs
         then [ "URS files will be saved to: urs_files" ]
              ++ (if reduction
                  then [ "Reduction files will be saved to: reduction_files" ]
                  else [])
         else [])
     ++ [ "";
          join " | " header_parts;
          repeat "-"%char
            (list_sum (map (@length ascii) header_parts)
             + 3 * (length header_parts - 1)) ]).

(** The result line of one instance. *)
Definition result_line (cfg : config) (category : str) (r : result)
  : raises str :=
  red <- (if has_reduction cfg
          then match reduction_result r with
               | Some x => ret (Some x)
               | None => raise KeyError
               end
          else ret None) ;;
  let opt (f : outcome -> str) : list str :=
    match red with Some x => [ f x ] | None => [] end in
  let line_parts :=
    [ ljust 12 category; ljust 35 (file r);
      ljust 9 (str_of_Z (variables r)); ljust 8 (str_of_Z (clauses r));
      ljust 8 (status_name (ursa_status r));
      ljust 8 (status_name (minisat_status r)) ]
    ++ opt (fun x => ljust 10 (status_name (fst x)))
    ++ [ ljust 10 (fixed6 (ursa_time r)); ljust 12 (fixed6 (minisat_time r)) ]
    ++ opt (fun x => ljust 14 (fixed6 (snd x))) in
  ret (join " | " line_parts ++ [NL]).

Definition run_with_template (cfg : config) (w : world)
  (num_vars num_clauses : Z) (clauses : list (list Z)) (template : str)
  : raises outcome :=
  let urs_code := generate_urs_code num_vars num_clauses clauses template in
  run_ursa (timeout cfg) (ursa_child w urs_code).

(** [benchmark_file] with [verbose=False]; [None] is a skipped or
    unreadable instance.  The saving of the generated programs, which has
    no effect on the result, is left out. *)
Definition benchmark_file (cfg : config) (w : world)
  (processed_files : list str) (dimacs_file : str) : raises (option result) :=
  let file_name := basename dimacs_file in
  if continue_mode cfg && mem file_name processed_files then ret None
  else
    match dimacs_content <- read_text w dimacs_file ;;
          parse_dimacs dimacs_content with
    | inl _ => ret None
    | inr (num_vars, num_clauses, clauses) =>
        '(ursa_status, ursa_time) <-
          run_with_template cfg w num_vars num_clauses clauses
            (solver_template cfg) ;;
        '(minisat_status, minisat_time) <-
          run_minisat (timeout cfg) (minisat_child w dimacs_file) ;;
        red <- (if has_reduction cfg
                then x <- run_with_template cfg w num_vars num_clauses clauses
                            (match reduction_template cfg with
                             | Some t => t
                             | None => []
                             end) ;;
                     ret (Some x)
                else ret None) ;;
        ret (Some {| file := file_name;
                     variables := num_vars;
                     clauses := num_clauses;
                     ursa_status := ursa_status;
                     ursa_time := ursa_time;
                     minisat_status := minisat_status;
                     minisat_time := minisat_time;
                     reduction_result := red |})
    end.

(** The state of the loop of [benchmark_directory]: the report file as
    written (every line is flushed) and the counters of this run. *)
Record progress := { written : str; counted : stats }.

(** One iteration of the loop. *)
Definition benchmark_step (cfg : config) (w : world)
  (processed_files : list str) (st : progress) (dimacs_file : str)
  : raises progress :=
  r <- benchmark_file cfg w processed_files dimacs_file ;;
  match r with
  | None => ret st
  | Some r =>
      s <- update_stats (counted st) r (has_reduction cfg) ;;
      line <- result_line cfg (extract_category dimacs_file) r ;;
      ret {| written := written st ++ line; counted := s |}
  end.

(** The loop; an exception leaves the file as the last flush left it. *)
Fixpoint benchmark_loop (cfg : config) (w : world)
  (processed_files : list str) (files : list str) (st : progress)
  : progress * option exn :=
  match files with
  | [] => (st, None)
  | f :: r =>
      match benchmark_step cfg w processed_files st f with
      | inl e => (st, Some e)
      | inr st' => benchmark_loop cfg w processed_files r st'
      end
  end.

Definition add_tally (a b : Tally.t) : Tally.t :=
  {| Tally.SAT := Tally.SAT a + Tally.SAT b;
     Tally.UNSAT := Tally.UNSAT a + Tally.UNSAT b;
     Tally.TIMEOUT := Tally.TIMEOUT a + Tally.TIMEOUT b;
     Tally.ERROR := Tally.ERROR a + Tally.ERROR b;
     Tally.UNKNOWN := Tally.UNKNOWN a + Tally.UNKNOWN b |}.

(** The dictionary comprehensions that add the prior counters and those
    of this run, key by key. *)
Definition combine_stats (existing_stats s : stats) : stats :=
  {| total := total existing_stats + total s;
     ursa := add_tally (ursa existing_stats) (ursa s);
     minisat :=
       {| MiniSatTally.SAT := MiniSatTally.SAT (minisat existing_stats)
                              + MiniSatTally.SAT (minisat s);
          MiniSatTally.UNSAT := MiniSatTally.UNSAT (minisat existing_stats)
                                + MiniSatTally.UNSAT (minisat s);
          MiniSatTally.TIMEOUT := MiniSatTally.TIMEOUT (minisat existing_stats)
                                  + MiniSatTally.TIMEOUT (minisat s);
          MiniSatTally.ERROR := MiniSatTally.ERROR (minisat existing_stats)
                                + MiniSatTally.ERROR (minisat s) |};
     reduction := add_tally (reduction existing_stats) (reduction s) |}.

(** The start of [benchmark_directory], up to the loop. *)
Definition start_run (cfg : config) (output_file : option str)
  (dimacs_files : list str) (started : str)
  : list str * stats * list str * progress :=
  let '(processed_files, existing_stats, _) :=
    load_or_init_stats (continue_mode cfg) output_file in
  let files_to_process :=
    filter_files dimacs_files processed_files (continue_mode cfg) in
  let '(append, content) :=
    prepare_output_file output_file (continue_mode cfg) in
  let content :=
    if append then content
    else write_header (has_reduction cfg) (save_urs cfg) started in
  (processed_files, existing_stats, files_to_process,
   {| written := content; counted := _initialize_empty_stats |}).

(** [benchmark_directory] on the sorted list of CNF files of the
    directory; [started] and [completed] are the two time stamps. *)
Definition benchmark_directory (cfg : config) (w : world)
  (output_file : option str) (dimacs_files : list str)
  (started completed : str) : run :=
  let '(processed_files, existing_stats, files_to_process, st) :=
    start_run cfg output_file dimacs_files started in
  match benchmark_loop cfg w processed_files files_to_process st with
  | (st, Some e) => {| report := written st; raised := Some e |}
  | (st, None) =>
      {| report := written st
                   ++ write_final_statistics
                        (combine_stats existing_stats (counted st))
                        (has_reduction cfg) completed;
         raised := None |}
  end.

(** A run of [benchmark_directory] that is interrupted when the loop has
    gone through the first [k] of the files it has to process: the report
    file holds what was flushed, and no final statistics. *)
Definition interrupted_run (cfg : config) (w : world)
  (output_file : option str) (dimacs_files : list str) (started : str)
  (k : nat) : str :=
  let '(processed_files, _, files_to_process, st) :=
    start_run cfg output_file dimacs_files started in
  written (fst (benchmark_loop cfg w processed_files
                  (firstn k files_to_process) st)).

End Sat.

(** ** Notions used to state the properties of the parsers *)

(** The lines the parsers iterate over. *)
Definition lines_of (content : str) : list str := split_on NL (strip content).

(** The two declared counts of a header line, read as the parsers read
    them: the third and the fourth blank-separated field. *)
Definition read_counts (line : str) : raises (Z * Z) :=
  let parts := split_ws (strip line) in
  a <- (x <- index parts 2 ;; py_int x) ;;
  b <- (x <- index parts 3 ;; py_int x) ;;
  ret (a, b).

Definition is_graph_header (line : str) : bool :=
  startswith "p edge" (strip line) || startswith "p col" (strip line).

Definition is_cnf_header (line : str) : bool :=
  startswith "p cnf" (strip line).

(** The two endpoints of an edge line, read as [parse_dimacs_graph] reads
    them; [None] for a line that is not an edge line with three fields. *)
Definition read_edge (line : str) : option (raises (Z * Z)) :=
  let l := strip line in
  let parts := split_ws l in
  if negb (is_empty l) && negb (startswith "c" l) && startswith "e " l
     && (3 <=? length parts)%nat
  then Some (v1 <- (x <- index parts 1 ;; py_int x) ;;
             v2 <- (x <- index parts 2 ;; py_int x) ;;
             ret (v1, v2))
  else None.

(** The tokens of a clause line that [parse_dimacs] converts. *)
Definition clause_tokens (line : str) : list str :=
  filter (fun x => negb (str_eqb x "0")) (split_ws (strip line)).

(** A line [parse_dimacs] reads as a clause. *)
Definition is_clause_line (line : str) : bool :=
  let l := strip line in
  negb (is_empty l) && negb (startswith "c" l) && negb (startswith "%" l)
  && negb (startswith "p" l).


Inductive subseq {A} : list A -> list A -> Prop :=
| subseq_nil : subseq [] []
| subseq_skip x l1 l2 : subseq l1 l2 -> subseq l1 (x :: l2)
| subseq_keep x l1 l2 : subseq l1 l2 -> subseq (x :: l1) (x :: l2).

(** A line on which the graph parser raises: a header with an unreadable
    count, or an edge line with an unreadable endpoint. *)
Definition graph_line_fails (line : str) : Prop :=
  (is_graph_header line = true /\ exists e, read_counts line = inl e)
  \/ (is_graph_header line = false /\ exists e, read_edge line = Some (inl e)).

(** A line on which the CNF parser raises: a header with an unreadable
    count, or a clause line with an unreadable literal. *)
Definition cnf_line_fails (line : str) : Prop :=
  (is_cnf_header line = true /\ exists e, read_counts line = inl e)
  \/ (is_cnf_header line = false /\ is_clause_line line = true
      /\ exists e, mapM py_int (clause_tokens line) = inl e).

(** ** The arrays of a generated program

    A generated program stores truth values to a two-dimensional array.
    The array is modelled as a function from index pairs to the value
    stored last, [None] for an entry no statement has stored to. *)

Definition matrix := Z -> Z -> option bool.

Definition unset : matrix := fun _ _ => None.

(** [b[i][j] = v;] *)
Definition store (m : matrix) (i j : Z) (v : bool) : matrix :=
  fun i' j' => if (i' =? i) && (j' =? j) then Some v else m i' j'.

Definition mem_pair (ij : Z * Z) (l : list (Z * Z)) : bool :=
  existsb (fun x => (fst x =? fst ij) && (snd x =? snd ij)) l.

Definition below (n i : Z) : bool := (0 <=? i) && (i <? n).

(** The index pairs the clique generator stores [true] to, in the order
    of the statements. *)
Definition edge_assignments (edges : list (Z * Z)) : list (Z * Z) :=
  flat_map (fun e => [(fst e - 1, snd e - 1); (snd e - 1, fst e - 1)]) edges.

(** The slot of a literal: two adjacent slots per variable. *)
Definition slot (literal : Z) : Z :=
  if 0 <? literal then 2 * (literal - 1) else 2 * (Z.abs literal - 1) + 1.

(** The index pairs the SAT generator stores [true] to, in the order of
    the statements. *)
Definition literal_assignments (clauses : list (list Z)) : list (Z * Z) :=
  flat_map (fun ic => map (fun l => (fst ic, slot l)) (snd ic))
    (enumerate clauses).

(** The text of a run of statements. *)
Definition statements (stmt : Z -> Z -> str) (l : list (Z * Z)) : str :=
  concat (map (fun ij => stmt (fst ij) (snd ij)) l).

(** ** Notions used to state the properties of the statistics *)

(** A tally of the clique driver with the given amounts added. *)
Definition tally_plus (t : Clique.Tally.t) (df dn dt de : Z)
  : Clique.Tally.t :=
  {| Clique.Tally.found := Clique.Tally.found t + df;
     Clique.Tally.not_found := Clique.Tally.not_found t + dn;
     Clique.Tally.timeout := Clique.Tally.timeout t + dt;
     Clique.Tally.error := Clique.Tally.error t + de |}.

Definition cliquer_tally_plus (t : Clique.CliquerTally.t) (df dt de : Z)
  : Clique.CliquerTally.t :=
  {| Clique.CliquerTally.found := Clique.CliquerTally.found t + df;
     Clique.CliquerTally.timeout := Clique.CliquerTally.timeout t + dt;
     Clique.CliquerTally.error := Clique.CliquerTally.error t + de;
     Clique.CliquerTally.extra_not_found :=
       Clique.CliquerTally.extra_not_found t |}.

(** The counter a status of URSA or of the reduction run goes to. *)
Definition tally_after (st : status) (t : Clique.Tally.t) : Clique.Tally.t :=
  match st with
  | FOUND => tally_plus t 1 0 0 0
  | NOT_FOUND => tally_plus t 0 1 0 0
  | TIMEOUT => tally_plus t 0 0 1 0
  | UNKNOWN | ERROR | SAT | UNSAT => tally_plus t 0 0 0 1
  end.

(** The counter a status of Cliquer goes to. *)
Definition cliquer_tally_after (st : status) (t : Clique.CliquerTally.t)
  : Clique.CliquerTally.t :=
  match st with
  | FOUND => cliquer_tally_plus t 1 0 0
  | TIMEOUT => cliquer_tally_plus t 0 1 0
  | NOT_FOUND | UNKNOWN | ERROR | SAT | UNSAT => cliquer_tally_plus t 0 0 1
  end.

Definition tally_sum (t : Clique.Tally.t) : Z :=
  Clique.Tally.found t + Clique.Tally.not_found t + Clique.Tally.timeout t
  + Clique.Tally.error t.

Definition cliquer_tally_sum (t : Clique.CliquerTally.t) : Z :=
  Clique.CliquerTally.found t + Clique.CliquerTally.timeout t
  + Clique.CliquerTally.error t.

(** ** Notions used to state the properties of the report text *)

Definition no_break (s : str) : Prop := ~ In NL s /\ ~ In CR s.

(** Lines that end with their line feed and hold no other line break. *)
Definition whole_line (line : str) : Prop :=
  exists body, line = body ++ [NL] /\ no_break body.

(** A text that neither starts nor ends with a blank, between blanks. *)
Definition trimmed (s : str) : Prop :=
  match s with
  | [] => True
  | c :: _ => is_space c = false /\ is_space (last s c) = false
  end.

(** A line of the report that the re-reading takes neither for the
    marker of the final statistics nor for a result line. *)
Definition inert_line (exts : list str) (line : str) : Prop :=
  whole_line line
  /\ contains "FINAL STATISTICS:" line = false
  /\ forall acc, extract_line exts acc line = acc.

(** A line of the report that the re-reading takes for the result line of
    the instance [name]. *)
Definition result_row (exts : list str) (name line : str) : Prop :=
  whole_line line
  /\ contains "FINAL STATISTICS:" line = false
  /\ forall acc, extract_line exts acc line = set_add name acc.

(** The lines of the data part of a report, with the names of the
    instances of its result lines, in order. *)
Inductive data_lines (exts : list str) : list str -> list str -> Prop :=
| data_nil : data_lines exts [] []
| data_inert line lines names :
    inert_line exts line -> data_lines exts lines names ->
    data_lines exts (line :: lines) names
| data_row name line lines names :
    result_row exts name line -> data_lines exts lines names ->
    data_lines exts (line :: lines) (name :: names).

(** The set of names after adding the given ones one by one. *)
Definition add_all (names : list str) (acc : list str) : list str :=
  fold_left (fun acc n => set_add n acc) names acc.

(** The lines from the marker of the final statistics on, if any. *)
Definition final_statistics_lines (content : str) : list str :=
  let lines := readlines content in
  match final_stats_index lines with
  | Some i => skipn i lines
  | None => []
  end.

(** Characters that are no line break, and characters that may stand in a
    field of a result line: no line break, no colon, no bar. *)
Definition line_char (c : ascii) : bool :=
  negb (Ascii.eqb c NL || Ascii.eqb c CR).

Definition field_char (c : ascii) : bool :=
  negb (Ascii.eqb c NL || Ascii.eqb c CR || Ascii.eqb c ":"%char
        || Ascii.eqb c "|"%char).

(** The characters of a time stamp [%Y-%m-%d %H:%M:%S]. *)
Definition stamp_char (c : ascii) : bool :=
  is_digit c || Ascii.eqb c "-"%char || Ascii.eqb c ":"%char
  || Ascii.eqb c " "%char.

(** A file name the report can be re-read for: made of field characters,
    without a blank at either end, holding one of the extensions. *)
Definition plain_name (exts : list str) (name : str) : Prop :=
  forallb field_char name = true /\ trimmed name /\ has_ext exts name = true.

(** The characters a result line is made of: those of its fields, the
    blank and the bar. *)
Definition row_char (c : ascii) : bool :=
  field_char c || Ascii.eqb c "|"%char.

(** The characters of a printed number: digits, sign and point. *)
Definition num_char (c : ascii) : bool :=
  is_digit c || Ascii.eqb c "-"%char || Ascii.eqb c "."%char.

(** ** Notions used to state the properties of a resumed run *)

(** The configuration of the run that resumes: the flag [--continue]. *)
Definition clique_resume_config (cfg : Clique.config) : Clique.config :=
  {| Clique.timeout := Clique.timeout cfg;
     Clique.solver_template := Clique.solver_template cfg;
     Clique.reduction_template := Clique.reduction_template cfg;
     Clique.save_urs := Clique.save_urs cfg;
     Clique.continue_mode := true |}.

Definition sat_resume_config (cfg : Sat.config) : Sat.config :=
  {| Sat.timeout := Sat.timeout cfg;
     Sat.solver_template := Sat.solver_template cfg;
     Sat.reduction_template := Sat.reduction_template cfg;
     Sat.save_urs := Sat.save_urs cfg;
     Sat.continue_mode := true |}.

Definition clique_blank : Clique.progress :=
  {| Clique.written := []; Clique.counted := Clique._initialize_empty_stats |}.

Definition sat_blank : Sat.progress :=
  {| Sat.written := []; Sat.counted := Sat._initialize_empty_stats |}.

(** The result lines and the counters the loop of [benchmark_directory]
    produces for a list of files, none of which is skipped. *)
Definition clique_pass (cfg : Clique.config) (w : Clique.world)
  (files : list str) : Clique.progress :=
  fst (Clique.benchmark_loop cfg w [] files clique_blank).

Definition sat_pass (cfg : Sat.config) (w : Sat.world) (files : list str)
  : Sat.progress :=
  fst (Sat.benchmark_loop cfg w [] files sat_blank).

(** The instances that get a result line: the file is read and parsed. *)
Definition clique_done (cfg : Clique.config) (w : Clique.world) (f : str)
  : bool :=
  match Clique.benchmark_file cfg w [] f with
  | inr (Some _) => true
  | _ => false
  end.

Definition sat_done (cfg : Sat.config) (w : Sat.world) (f : str) : bool :=
  match Sat.benchmark_file cfg w [] f with
  | inr (Some _) => true
  | _ => false
  end.

(** The processed instance identifiers a report is re-read to. *)
Definition clique_processed (content : str) : list str :=
  fst (fst (Clique.load_existing_results (Some content))).

Definition sat_processed (content : str) : list str :=
  fst (fst (Sat.load_existing_results (Some content))).

(** No call of Cliquer on these files raises (see [run_cliquer]). *)
Definition clique_calm (cfg : Clique.config) (w : Clique.world)
  (files : list str) : Prop :=
  forall f, In f files ->
            exists v, Clique.run_cliquer (Clique.timeout cfg)
                        (Clique.cliquer_child w f) = inr v.

(** The dictionary of Cliquer has not been given a key [not_found]. *)
Definition clique_no_extra (s : Clique.stats) : Prop :=
  Clique.CliquerTally.extra_not_found (Clique.cliquer s) = None.


(** The statuses that are keys of the counters of the SAT driver. *)
Definition ursa_key (st : status) : bool :=
  match st with
  | SAT | UNSAT | UNKNOWN | TIMEOUT | ERROR => true
  | FOUND | NOT_FOUND => false
  end.

Definition minisat_key (st : status) : bool :=
  match st with
  | SAT | UNSAT | TIMEOUT | ERROR => true
  | UNKNOWN | FOUND | NOT_FOUND => false
  end.

(** A result of the SAT driver whose statuses are keys of the counters
    and whose reduction fields are there exactly when configured. *)
Definition sat_result_ok (cfg : Sat.config) (r : Sat.result) : Prop :=
  ursa_key (Sat.ursa_status r) = true
  /\ minisat_key (Sat.minisat_status r) = true
  /\ (if Sat.has_reduction cfg
      then exists st t, Sat.reduction_result r = Some (st, t)
                        /\ ursa_key st = true
      else Sat.reduction_result r = None).


(** What a second run with [--continue] over the same files gives, for
    the clique driver: [before] is the first run, [rerun] the second one,
    [data] the header and the result lines, [counters] the counters of the
    first run.  The second run leaves the data as it is but for an empty
    line, and writes the statistics from the same counters. *)
Definition clique_rerun_law (cfg : Clique.config) (w : Clique.world)
  (files : list str) (started completed started' completed' : str) : Prop :=
  let before := Clique.benchmark_directory cfg w None files started completed in
  let rerun :=
    Clique.benchmark_directory (clique_resume_config cfg) w
      (Some (report before)) files started' completed' in
  let data :=
    Clique.write_header (Clique.has_reduction cfg) (Clique.save_urs cfg)
      started
    ++ Clique.written (clique_pass cfg w files) in
  let counters := Clique.counted (clique_pass cfg w files) in
  raised before = None
  /\ raised rerun = None
  /\ report before
     = data ++ Clique.write_final_statistics counters
                 (Clique.has_reduction cfg) completed
  /\ report rerun
     = data ++ [NL]
       ++ Clique.write_final_statistics counters
            (Clique.has_reduction cfg) completed'.

(** What [_parse_statistics_section] of the SAT driver makes of counters
    that [write_final_statistics] wrote: the number of the line
    [UNSAT instances:] ends up as the SAT count, and the UNSAT count keeps
    its initial 0. *)
Definition sat_tally_reread (t : Sat.Tally.t) : Sat.Tally.t :=
  {| Sat.Tally.SAT := Sat.Tally.UNSAT t; Sat.Tally.UNSAT := 0;
     Sat.Tally.TIMEOUT := Sat.Tally.TIMEOUT t;
     Sat.Tally.ERROR := Sat.Tally.ERROR t;
     Sat.Tally.UNKNOWN := Sat.Tally.UNKNOWN t |}.

Definition sat_minisat_reread (t : Sat.MiniSatTally.t) : Sat.MiniSatTally.t :=
  {| Sat.MiniSatTally.SAT := Sat.MiniSatTally.UNSAT t;
     Sat.MiniSatTally.UNSAT := 0;
     Sat.MiniSatTally.TIMEOUT := Sat.MiniSatTally.TIMEOUT t;
     Sat.MiniSatTally.ERROR := Sat.MiniSatTally.ERROR t |}.

Definition sat_stats_reread (s : Sat.stats) : Sat.stats :=
  {| Sat.total := Sat.total s;
     Sat.ursa := sat_tally_reread (Sat.ursa s);
     Sat.minisat := sat_minisat_reread (Sat.minisat s);
     Sat.reduction := sat_tally_reread (Sat.reduction s) |}.

(** What a second run with [--continue] over the same files gives, for
    the SAT driver: the data stay as they are but for an empty line, and
    the statistics are written from the counters as re-read. *)
Definition sat_rerun_law (cfg : Sat.config) (w : Sat.world)
  (files : list str) (started completed started' completed' : str) : Prop :=
  let before := Sat.benchmark_directory cfg w None files started completed in
  let rerun :=
    Sat.benchmark_directory (sat_resume_config cfg) w
      (Some (report before)) files started' completed' in
  let data :=
    Sat.write_header (Sat.has_reduction cfg) (Sat.save_urs cfg) started
    ++ Sat.written (sat_pass cfg w files) in
  let counters := Sat.counted (sat_pass cfg w files) in
  raised before = None
  /\ raised rerun = None
  /\ report before
     = data ++ Sat.write_final_statistics counters
                 (Sat.has_reduction cfg) completed
  /\ report rerun
     = data ++ [NL]
       ++ Sat.write_final_statistics (sat_stats_reread counters)
            (Sat.has_reduction cfg) completed'.


(** ** Notions used to state the properties of a whole batch *)

(** The instances whose text is read and parsed: the [try] of
    [benchmark_file] does not end in its [except]. *)
Definition clique_readable (w : Clique.world) (f : str) : bool :=
  match bind (Clique.read_text w f) Clique.parse_dimacs_graph with
  | inr _ => true
  | inl _ => false
  end.

Definition sat_readable (w : Sat.world) (f : str) : bool :=
  match bind (Sat.read_text w f) Sat.parse_dimacs with
  | inr _ => true
  | inl _ => false
  end.

(** The sum of the counters of one solver, SAT driver. *)
Definition sat_tally_sum (t : Sat.Tally.t) : Z :=
  Sat.Tally.SAT t + Sat.Tally.UNSAT t + Sat.Tally.TIMEOUT t
  + Sat.Tally.ERROR t + Sat.Tally.UNKNOWN t.

Definition sat_minisat_sum (t : Sat.MiniSatTally.t) : Z :=
  Sat.MiniSatTally.SAT t + Sat.MiniSatTally.UNSAT t
  + Sat.MiniSatTally.TIMEOUT t + Sat.MiniSatTally.ERROR t.

(** Counters in which every solver has as many outcomes as there are
    instances; the reduction has them when it is configured and else
    none. *)
Definition clique_balanced (has_reduction : bool) (s : Clique.stats) : Prop :=
  tally_sum (Clique.ursa s) = Clique.total s
  /\ cliquer_tally_sum (Clique.cliquer s) = Clique.total s
  /\ tally_sum (Clique.reduction s)
     = (if has_reduction then Clique.total s else 0).

Definition sat_balanced (has_reduction : bool) (s : Sat.stats) : Prop :=
  sat_tally_sum (Sat.ursa s) = Sat.total s
  /\ sat_minisat_sum (Sat.minisat s) = Sat.total s
  /\ sat_tally_sum (Sat.reduction s)
     = (if has_reduction then Sat.total s else 0).



(** A name that can come out of a line of the report: it holds one of the
    extensions, has no blank at either end and no bar. *)
Definition recognisable (exts : list str) (x : str) : Prop :=
  has_ext exts x = true /\ trimmed x /\ ~ In "|"%char x.

(** The column titles of the two reports, as [write_header] builds them
    in [header_parts]. *)
Definition clique_titles (reduction save_urs : bool) : list str :=
  [ ljust 12 "Category"; ljust 35 "File"; ljust 9 "Vertices";
    ljust 8 "Edges"; ljust 12 "URSA"; ljust 12 "Cliquer" ]
  ++ (if reduction then [ ljust 12 "Reduction" ] else [])
  ++ [ ljust 10 "URSA Time"; ljust 12 "Cliquer Time" ]
  ++ (if reduction then [ ljust 10 "Red. Time" ] else [])
  ++ [ ljust 12 "URSA Clique"; ljust 12 "Cliq. Clique" ]
  ++ (if reduction then [ ljust 12 "Red. Clique" ] else [])
  ++ (if save_urs
      then [ ljust 25 "URS File" ]
           ++ (if reduction then [ ljust 25 "Reduction File" ] else [])
      else []).

Definition sat_titles (reduction : bool) : list str :=
  [ ljust 12 "Category"; ljust 35 "File"; ljust 9 "Variables";
    ljust 8 "Clauses"; ljust 8 "URSA"; ljust 8 "MiniSat" ]
  ++ (if reduction then [ ljust 10 "Reduction" ] else [])
  ++ [ ljust 10 "URSA Time"; ljust 12 "MiniSat Time" ]
  ++ (if reduction then [ ljust 14 "Reduction Time" ] else []).

(** A table line under its titles: as many fields as there are titles,
    each at least as wide as its title. *)
Definition under_titles (titles fields : list str) : Prop :=
  Forall2 (fun t f => (length t <= length f)%nat) titles fields.

(** ** Notions used to state what the parsers return *)

(** The edge an edge line gives, if it is one and can be read. *)
Definition graph_edges_of_line (line : str) : list (Z * Z) :=
  if is_graph_header line then []
  else match read_edge line with
       | Some (inr e) => [e]
       | _ => []
       end.

(** The clause a line gives, if it is a clause line with a literal. *)
Definition cnf_clauses_of_line (line : str) : list (list Z) :=
  if is_cnf_header line then []
  else if is_clause_line line
       then match mapM py_int (clause_tokens line) with
            | inr (l :: ls) => [l :: ls]
            | _ => []
            end
       else [].

(** The last header line of a text, if it has one. *)
Definition last_header (is_header : str -> bool) (lines : list str)
  : option str :=
  find is_header (rev lines).


(** ** Finding the instance files, and naming the saved programs

    The functions of this part are outside the classes of the drivers (or,
    for [save_urs_code], have the same text in both). *)

(** [s.endswith(suffix)] *)
Definition endswith (suffix s : str) : bool :=
  startswith (rev suffix) (rev s).

(** [os.path.join(a, b)] *)
Definition path_join (a b : str) : str :=
  if startswith "/" b then b
  else if is_empty a || endswith "/" a then a ++ b
  else a ++ "/" ++ b.

(** The order of [str]: by code points, a proper prefix first. *)
Fixpoint str_ltb (a b : str) : bool :=
  match a, b with
  | _, [] => false
  | [], _ :: _ => true
  | x :: a', y :: b' =>
      if (code x <? code y)%nat then true
      else if (code y <? code x)%nat then false
      else str_ltb a' b'
  end.

Definition str_leb (a b : str) : bool := negb (str_ltb b a).

Fixpoint insert_sorted (x : str) (l : list str) : list str :=
  match l with
  | [] => [x]
  | y :: r => if str_leb x y then x :: l else y :: insert_sorted x r
  end.

(** [l.sort()] on a list of strings *)
Definition sort_strings (l : list str) : list str :=
  fold_right insert_sorted [] l.

(** What [os.walk] yields: for each directory, top down, its path and
    the names of its files. *)
Definition walk := list (str * list str).

(** [find_dimacs_files] of the SAT driver *)
Definition find_dimacs_files (tree : walk) : list str :=
  sort_strings
    (flat_map (fun '(root, files) =>
                 map (path_join root) (filter (endswith ".cnf") files))
       tree).

(** [find_graph_files] of the clique driver; [read_head filepath] is what
    [open(filepath, 'r')] followed by [f.read(1000)] returns or raises. *)
Definition looks_like_graph (first_lines : str) : bool :=
  contains "p edge" first_lines || contains "p col" first_lines
  || contains "e " first_lines.

Definition find_graph_files (read_head : str -> raises str) (tree : walk)
  : list str :=
  sort_strings
    (flat_map (fun '(root, files) =>
                 flat_map (fun file =>
                             if endswith ".clq" file || endswith ".txt" file
                             then
                               let filepath := path_join root file in
                               match read_head filepath with
                               | inr first_lines =>
                                   if looks_like_graph first_lines
                                   then [filepath] else []
                               | inl _ => []
                               end
                             else [])
                   files)
       tree).

(** [name.rfind('.')] as the parts before and after the last dot. *)
Fixpoint split_last_dot (name : str) : option (str * str) :=
  match name with
  | [] => None
  | c :: r =>
      match split_last_dot r with
      | Some (b, a) => Some (c :: b, a)
      | None => if Ascii.eqb c "."%char then Some ([], r) else None
      end
  end.

(** [Path(p).stem]: the last component without its last suffix; a
    leading or a final dot starts no suffix. *)
Definition stem (p : str) : str :=
  let name := last (path_parts p) [] in
  match split_last_dot name with
  | Some (b, a) => if is_empty b || is_empty a then name else b
  | None => name
  end.

(** [save_urs_code]; [write path text] is the writing of the file, which
    may fail.  The path is returned when the file was written. *)
Definition save_urs_code (write : str -> str -> option failure)
  (urs_code original_filename output_dir suffix : str) : option str :=
  let base_name := stem original_filename in
  let urs_filename := base_name ++ suffix ++ ".urs" in
  let urs_filepath := path_join output_dir urs_filename in
  match write urs_filepath urs_code with
  | None => Some urs_filepath
  | Some _ => None
  end.

(** ** The generated text as a program

    What the generators emit before the template is a short program: an
    assignment to [nN] (and to [nClauses]), two nested [for] loops around
    one store of [false], and one store of [true] per line.  This part
    reads such a text into statements and runs them, so that the properties
    of the generators can be stated on the text they return.

    The reader takes the text line by line, as the generators write it,
    blanks before and after a line apart: an empty line and a [//] comment
    are passed over, a line [for(x=0; x<e; x++) {] opens a loop that a line
    [}] closes, and the other lines are [x = e;] or [a[e][e] = true;] (or
    [false]), where an expression is a number, a name or a product of two
    of these.  A loop runs its body for [x] from 0 up to the value its
    bound has on entry; the bodies the generators write assign to no
    variable. *)

Inductive expr :=
| Num (z : Z)
| Var (x : str)
| Mul (a b : expr).

#[warnings="-register-all"]
Inductive stmt :=
| Assign (x : str) (e : expr)
| Store (a : str) (i j : expr) (v : bool)
| For (x : str) (bound : expr) (body : list stmt).

(** A line of the text. *)
Inductive item :=
| Skip
| Open (x : str) (bound : expr)
| Close
| Simple (s : stmt).

Definition is_num (c : ascii) : bool := is_digit c || Ascii.eqb c "-"%char.

(** [eat p s]: what follows [p] in [s], when [s] starts with [p]. *)
Fixpoint eat (p s : str) : option str :=
  match p, s with
  | [], _ => Some s
  | c :: p', d :: s' => if Ascii.eqb c d then eat p' s' else None
  | _ :: _, [] => None
  end.

(** A number or a name at the start of [s], and what follows it. *)
Definition read_atom (s : str) : option (expr * str) :=
  let digits := take_while is_num s in
  if is_empty digits then
    let name := take_while is_word s in
    if is_empty name then None else Some (Var name, drop_while is_word s)
  else match int_opt digits with
       | Some z => Some (Num z, drop_while is_num s)
       | None => None
       end.

Definition read_expr (s : str) : option (expr * str) :=
  match read_atom s with
  | Some (a, c :: r) =>
      if Ascii.eqb c "*"%char then
        match read_atom r with
        | Some (b, r') => Some (Mul a b, r')
        | None => None
        end
      else Some (a, c :: r)
  | other => other
  end.

Definition blank (s : str) : bool := forallb is_space s.

(** What is left of a line must be blank. *)
Definition ends {A} (a : A) (rest : option str) : option A :=
  match rest with
  | Some r => if blank r then Some a else None
  | None => None
  end.

(** [for(x=0; x<e; x++) {] *)
Definition read_for (s : str) : option item :=
  match read_atom s with
  | Some (Var x, r1) =>
      match eat ("=0; " ++ x ++ "<") r1 with
      | Some r2 =>
          match read_expr r2 with
          | Some (bound, r3) =>
              ends (Open x bound) (eat ("; " ++ x ++ "++) {") r3)
          | None => None
          end
      | None => None
      end
  | _ => None
  end.

(** [a[i][j] = true;], [a[i][j] = false;] or [x = e;] *)
Definition read_simple (s : str) : option item :=
  match read_atom s with
  | Some (Var a, c :: r) =>
      if Ascii.eqb c "["%char then
        match read_expr r with
        | Some (i, r1) =>
            match eat "][" r1 with
            | Some r2 =>
                match read_expr r2 with
                | Some (j, r3) =>
                    match eat "] = true;" r3 with
                    | Some r4 => ends (Simple (Store a i j true)) (Some r4)
                    | None =>
                        ends (Simple (Store a i j false))
                          (eat "] = false;" r3)
                    end
                | None => None
                end
            | None => None
            end
        | None => None
        end
      else
        match eat " = " (c :: r) with
        | Some r1 =>
            match read_expr r1 with
            | Some (e, r2) => ends (Simple (Assign a e)) (eat ";" r2)
            | None => None
            end
        | None => None
        end
  | _ => None
  end.

Definition read_line (line : str) : option item :=
  let s := lstrip line in
  if is_empty s || startswith "//" s then Some Skip
  else match eat "}" s with
       | Some r => ends Close (Some r)
       | None =>
           match eat "for(" s with
           | Some r => read_for r
           | None => read_simple s
           end
       end.

(** The statements of a list of lines: [opened] holds the loops that are
    open, each with the statements read before it in its block, and [done]
    the statements of the current block, both latest first. *)
Fixpoint build (lines : list str) (opened : list (str * expr * list stmt))
  (done : list stmt) : option (list stmt) :=
  match lines with
  | [] => match opened with
          | [] => Some (rev done)
          | _ :: _ => None
          end
  | l :: r =>
      match read_line l with
      | Some Skip => build r opened done
      | Some (Simple s) => build r opened (s :: done)
      | Some (Open x b) => build r ((x, b, done) :: opened) []
      | Some Close =>
          match opened with
          | (x, b, outer) :: opened' =>
              build r opened' (For x b (rev done) :: outer)
          | [] => None
          end
      | None => None
      end
  end.

Definition read_program (text : str) : option (list stmt) :=
  build (readlines text) [] [].

(** The state of a run: the variables, latest binding first, and the
    arrays, each holding for a pair of indices the value stored last. *)
Record state := {
  vars : list (str * Z);
  arrays : str -> matrix
}.

Definition empty_state : state :=
  {| vars := []; arrays := fun _ => unset |}.

Fixpoint lookup (x : str) (vs : list (str * Z)) : option Z :=
  match vs with
  | [] => None
  | (y, z) :: r => if str_eqb x y then Some z else lookup x r
  end.

Fixpoint eval (vs : list (str * Z)) (e : expr) : option Z :=
  match e with
  | Num z => Some z
  | Var x => lookup x vs
  | Mul a b =>
      match eval vs a, eval vs b with
      | Some x, Some y => Some (x * y)
      | _, _ => None
      end
  end.

Definition set_var (x : str) (z : Z) (st : state) : state :=
  {| vars := (x, z) :: vars st; arrays := arrays st |}.

Definition set_entry (a : str) (i j : Z) (v : bool) (st : state) : state :=
  {| vars := vars st;
     arrays := fun a' => if str_eqb a' a then store (arrays st a') i j v
                         else arrays st a' |}.

(** The rounds of a loop: round [k] runs [body] after the rounds before
    it, and a failed round ends the run. *)
Fixpoint rounds (n : nat) (body : Z -> state -> option state) (st : state)
  : option state :=
  match n with
  | O => Some st
  | S k => match rounds k body st with
           | Some st' => body (Z.of_nat k) st'
           | None => None
           end
  end.

Fixpoint exec (s : stmt) (st : state) {struct s} : option state :=
  match s with
  | Assign x e =>
      match eval (vars st) e with
      | Some z => Some (set_var x z st)
      | None => None
      end
  | Store a i j v =>
      match eval (vars st) i, eval (vars st) j with
      | Some i', Some j' => Some (set_entry a i' j' v st)
      | _, _ => None
      end
  | For x bound body =>
      match eval (vars st) bound with
      | Some n =>
          rounds (Z.to_nat n)
            (fun k st' =>
               (fix block (l : list stmt) (st : state) : option state :=
                  match l with
                  | [] => Some st
                  | s' :: r => match exec s' st with
                               | Some st' => block r st'
                               | None => None
                               end
                  end) body (set_var x k st'))
            st
      | None => None
      end
  end.

Fixpoint exec_block (l : list stmt) (st : state) : option state :=
  match l with
  | [] => Some st
  | s :: r => match exec s st with
              | Some st' => exec_block r st'
              | None => None
              end
  end.

(** Reading a text and running it from the empty state. *)
Definition run_text (text : str) : option state :=
  match read_program text with
  | Some prog => exec_block prog empty_state
  | None => None
  end.

(** The two stores the clique generator writes for an edge, and the store
    the SAT generator writes for a literal of the clause at [idx]. *)
Definition edge_stores (e : Z * Z) : list stmt :=
  [ Store "bEdge" (Num (fst e - 1)) (Num (snd e - 1)) true;
    Store "bEdge" (Num (snd e - 1)) (Num (fst e - 1)) true ].

Definition literal_store (idx literal : Z) : stmt :=
  Store "bC" (Num idx)
    (Num (if 0 <? literal then 2 * (literal - 1)
          else 2 * (Z.abs literal - 1) + 1)) true.

(** The loops that store [false] to [a], over [rows] and [cols]. *)
Definition fill_false (a xi xj : str) (rows cols : expr) : stmt :=
  For xi rows [For xj cols [Store a (Var xi) (Var xj) false]].

(** The variables of [st'] are those of [st], the loop variables apart. *)
Definition same_vars (loop : list str) (st' st : state) : Prop :=
  forall y, mem y loop = false -> lookup y (vars st') = lookup y (vars st).

(** The entries of [st'] are those of [st] but for the entries of [a]
    that [hit] names, which hold [v]. *)
Definition stored (a : str) (hit : Z -> Z -> bool) (v : bool)
  (st' st : state) : Prop :=
  forall a' i j,
    arrays st' a' i j
    = if str_eqb a' a && hit i j then Some v else arrays st a' i j.

(** The first character of a name decides that a line is a statement. *)
Definition starts_statement (c : ascii) : bool :=
  negb (is_space c) && negb (is_num c)
  && negb (Ascii.eqb "/"%char c) && negb (Ascii.eqb "}"%char c)
  && negb (Ascii.eqb "f"%char c).

(** ** Concrete inputs used by the examples below *)

Definition c3_process : process :=
  {| spawn := None;
     wait := Exited 0 "--> Solution 1: 0 solutions" (1 # 2);
     kill := None;
     drain := None |}.

(** A child that is still running when the timeout expires and is then
    killed and drained without trouble. *)
Definition never_ending : process :=
  {| spawn := None; wait := Expired; kill := None; drain := None |}.

(** A child that is still running when the timeout expires and that the
    driver is not allowed to signal: [process.kill()] raises
    [PermissionError]. *)
Definition unkillable : process :=
  {| spawn := None; wait := Expired;
     kill := Some PermissionError; drain := None |}.

(** A solver whose executable is missing. *)
Definition missing_executable : process :=
  {| spawn := Some FileNotFoundError; wait := Expired;
     kill := None; drain := None |}.

(** A child that ends with the given return code and output after a
    tenth of a second. *)
Definition exits (returncode : Z) (stdout : str) : process :=
  {| spawn := None; wait := Exited returncode stdout (1 # 10);
     kill := None; drain := None |}.

(** Two graphs: URSA finds a clique in each, and so does Cliquer. *)
Definition two_graphs : Clique.world :=
  {| Clique.read_text := fun path =>
       if str_eqb path "graphs/BROCK/a.clq"
       then ret ("p edge 3 2" ++ [NL] ++ "e 1 2" ++ [NL] ++ "e 2 3" ++ [NL])
       else if str_eqb path "graphs/b.clq"
       then ret ("p edge 2 1" ++ [NL] ++ "e 1 2" ++ [NL])
       else raise (Failure FileNotFoundError);
     Clique.ursa_child := fun _ => exits 0 "--> Solution 1";
     Clique.cliquer_child := fun _ => exits 0 "size=2, weight=2" |}.

Definition clique_fresh : Clique.config :=
  {| Clique.timeout := 120; Clique.solver_template := "maximize;";
     Clique.reduction_template := None; Clique.save_urs := false;
     Clique.continue_mode := false |}.

Definition clique_resume : Clique.config :=
  {| Clique.timeout := 120; Clique.solver_template := "maximize;";
     Clique.reduction_template := None; Clique.save_urs := false;
     Clique.continue_mode := true |}.

Definition graph_files : list str := ["graphs/BROCK/a.clq"; "graphs/b.clq"].

(** One CNF file that both URSA and MiniSat report unsatisfiable. *)
Definition one_unsat : Sat.world :=
  {| Sat.read_text := fun path =>
       if str_eqb path "cnf/a.cnf"
       then ret ("p cnf 1 2" ++ [NL] ++ "1 0" ++ [NL] ++ "-1 0" ++ [NL])
       else raise (Failure FileNotFoundError);
     Sat.ursa_child := fun _ => exits 0 "[Number of solutions: 0]";
     Sat.minisat_child := fun _ => exits 20 "UNSATISFIABLE" |}.

Definition sat_fresh : Sat.config :=
  {| Sat.timeout := 120; Sat.solver_template := "assert_all;";
     Sat.reduction_template := None; Sat.save_urs := false;
     Sat.continue_mode := false |}.

Definition sat_resume : Sat.config :=
  {| Sat.timeout := 120; Sat.solver_template := "assert_all;";
     Sat.reduction_template := None; Sat.save_urs := false;
     Sat.continue_mode := true |}.

Definition stamp1 : str := "2025-01-01 10:00:00".
Definition stamp2 : str := "2025-01-01 10:05:00".
Definition stamp3 : str := "2025-01-01 11:00:00".

(** A result in which URSA could not tell and Cliquer found nothing. *)
Definition undecided : Clique.result :=
  {| Clique.file := "c.clq"; Clique.vertices := 4; Clique.edges := 0;
     Clique.ursa_status := UNKNOWN; Clique.ursa_time := 1 # 4;
     Clique.ursa_clique := 0;
     Clique.cliquer_status := NOT_FOUND; Clique.cliquer_time := 1 # 8;
     Clique.cliquer_clique := 0;
     Clique.reduction_result := Some (UNKNOWN, (1 # 4)%Q, 0) |}.

(** The two graphs again; Cliquer outlives the timeout on the second one
    and cannot be signalled. *)
Definition stubborn_second : Clique.world :=
  {| Clique.read_text := Clique.read_text two_graphs;
     Clique.ursa_child := Clique.ursa_child two_graphs;
     Clique.cliquer_child := fun path =>
       if str_eqb path "graphs/b.clq" then unkillable
       else exits 0 "size=2, weight=2" |}.

(** Counters of a clique run over nine instances, with a reduction. *)
Definition sample_counters : Clique.stats :=
  {| Clique.total := 9;
     Clique.ursa := {| Clique.Tally.found := 5; Clique.Tally.not_found := 2;
                       Clique.Tally.timeout := 1; Clique.Tally.error := 1 |};
     Clique.cliquer := {| Clique.CliquerTally.found := 7;
                          Clique.CliquerTally.timeout := 0;
                          Clique.CliquerTally.error := 2;
                          Clique.CliquerTally.extra_not_found := None |};
     Clique.reduction := {| Clique.Tally.found := 4;
                            Clique.Tally.not_found := 2;
                            Clique.Tally.timeout := 3;
                            Clique.Tally.error := 0 |} |}.

(** Counters of a SAT run over nine instances, without reduction. *)
Definition sample_sat_counters : Sat.stats :=
  {| Sat.total := 9;
     Sat.ursa := {| Sat.Tally.SAT := 4; Sat.Tally.UNSAT := 3;
                    Sat.Tally.TIMEOUT := 1; Sat.Tally.ERROR := 0;
                    Sat.Tally.UNKNOWN := 1 |};
     Sat.minisat := {| Sat.MiniSatTally.SAT := 5; Sat.MiniSatTally.UNSAT := 4;
                       Sat.MiniSatTally.TIMEOUT := 0;
                       Sat.MiniSatTally.ERROR := 0 |};
     Sat.reduction := Sat.empty_tally |}.

(** The result [undecided] without the fields of a reduction. *)
Definition undecided_plain : Clique.result :=
  {| Clique.file := "c.clq"; Clique.vertices := 4; Clique.edges := 0;
     Clique.ursa_status := UNKNOWN; Clique.ursa_time := 1 # 4;
     Clique.ursa_clique := 0;
     Clique.cliquer_status := NOT_FOUND; Clique.cliquer_time := 1 # 8;
     Clique.cliquer_clique := 0;
     Clique.reduction_result := None |}.

(** A result of the SAT driver. *)
Definition sample_sat_result : Sat.result :=
  {| Sat.file := "b.cnf"; Sat.variables := 3; Sat.clauses := 2;
     Sat.ursa_status := SAT; Sat.ursa_time := 1 # 4;
     Sat.minisat_status := SAT; Sat.minisat_time := 1 # 8;
     Sat.reduction_result := None |}.

(** A report whose Cliquer section holds a line [Not found:], which
    [write_final_statistics] never writes. *)
Definition foreign_report : str :=
  unlines
    [ "BROCK        | a.clq                               | 3";
      "";
      "FINAL STATISTICS:";
      "=================";
      "";
      "Cliquer Results:";
      "Cliques found:     1";
      "Not found:         3";
      "";
      "Total instances:   4" ].

(** A graph text with two headers, a repeated edge, a loop, an edge line
    with two fields only and a comment. *)
Definition untidy_graph : str :=
  "p edge 3 2" ++ [NL] ++ "c a comment" ++ [NL] ++ "e 2 1" ++ [NL]
  ++ "e 2 1 9" ++ [NL] ++ "e 4" ++ [NL] ++ "p col 7 1" ++ [NL]
  ++ "e 5 5" ++ [NL].

(** A CNF text with a clause over two lines, a line that holds only the
    terminator, and a line with two clauses. *)
Definition untidy_cnf : str :=
  "p cnf 4 2" ++ [NL] ++ "1 -2" ++ [NL] ++ "3 0" ++ [NL] ++ "0" ++ [NL]
  ++ "% end" ++ [NL] ++ "2 3 0 -1 4 0" ++ [NL].

(** A child of URSA that reports its statistics and no solution. *)
Definition zero_count_child : process :=
  exits 0 "[Formula size: 12] [Solving time: 0.01] [Number of solutions: 0]".

(** * Properties *)

Unset Implicit Arguments.

(** ** Python strings: sanity checks *)

Example ex_split_ws : split_ws "  p  edge 3	2 " = ["p"; "edge"; "3"; "2"].
Proof. reflexivity. Qed.
Example ex_int : int_opt " -1_2 " = Some (-12).
Proof. reflexivity. Qed.
Example ex_str : str_of_Z (-120) = "-120".
Proof. reflexivity. Qed.
Example ex_strip : strip "  a b  " = "a b".
Proof. reflexivity. Qed.
Example ex_split1 : split1 ":" "a:b:c" = ["a"; "b:c"].
Proof. reflexivity. Qed.


(** ** Python strings: lemmas *)

Ltac char_cases c :=
  destruct c as [[] [] [] [] [] [] [] []]; vm_compute; try congruence; auto.

Lemma digit_not_blank c : is_digit c = true -> is_int_blank c = false.
Proof. char_cases c. Qed.

Lemma digit_not_space c : is_digit c = true -> is_space c = false.
Proof. char_cases c. Qed.

Lemma digit_not_sign c :
  is_digit c = true ->
  Ascii.eqb c "-"%char = false /\ Ascii.eqb c "+"%char = false.
Proof. char_cases c. Qed.

Lemma drop_while_head f c r : f c = false -> drop_while f (c :: r) = c :: r.
Proof. intros H; simpl; now rewrite H. Qed.

Lemma drop_while_app_last f s c :
  f c = false -> drop_while f (rev (s ++ [c])) = rev (s ++ [c]).
Proof.
  intros H. rewrite rev_app_distr. simpl. now rewrite H.
Qed.

Lemma take_while_all f s : Forall (fun c => f c = true) (take_while f s).
Proof.
  induction s as [|c r IH]; simpl; [constructor|].
  destruct (f c) eqn:E; constructor; auto.
Qed.

Lemma int_digits_all acc prev s :
  Forall (fun c => is_digit c = true) s -> s <> [] ->
  exists z, int_digits acc prev s = Some z.
Proof.
  intros H. revert acc prev.
  induction H as [|c r Hc Hr IH]; intros acc prev Hne; [congruence|].
  simpl. rewrite Hc. destruct r as [|d r'].
  - simpl. eauto.
  - apply IH. discriminate.
Qed.

Lemma int_strip_digits s :
  Forall (fun c => is_digit c = true) s -> int_strip s = s.
Proof.
  intros H. unfold int_strip.
  destruct s as [|c r]; [reflexivity|].
  rewrite drop_while_head
    by (apply digit_not_blank; now inversion H).
  destruct (exists_last (l := c :: r)) as [s' [l E]]; [discriminate|].
  rewrite E in *. rewrite drop_while_app_last. { apply rev_involutive. }
  apply digit_not_blank. rewrite Forall_forall in H. apply H.
  apply in_or_app. right. now left.
Qed.

(** [int] accepts every non-empty run of digits. *)
Lemma py_int_digits s :
  Forall (fun c => is_digit c = true) s -> s <> [] ->
  exists z, py_int s = inr z.
Proof.
  intros H Hne. unfold py_int, int_opt. rewrite int_strip_digits by assumption.
  destruct s as [|c r]; [congruence|].
  unfold int_signed.
  destruct (digit_not_sign c) as [E1 E2]; [now inversion H|].
  rewrite E1, E2.
  destruct (int_digits_all 0 false _ H Hne) as [z Hz].
  rewrite Hz. eauto.
Qed.

Lemma nonempty_digits f s g :
  nonempty (take_while f s) = Some g ->
  Forall (fun c => f c = true) g /\ g <> [].
Proof.
  unfold nonempty. destruct (take_while f s) eqn:E; [discriminate|].
  intros H; injection H as <-. split; [|discriminate].
  rewrite <- E. apply take_while_all.
Qed.

Lemma search_group_digits (m : option ascii -> str -> option str) :
  (forall prev s g, m prev s = Some g ->
                    Forall (fun c => is_digit c = true) g /\ g <> []) ->
  forall s prev g, search m prev s = Some g ->
                   Forall (fun c => is_digit c = true) g /\ g <> [].
Proof.
  intros Hm s. induction s as [|c r IH]; intros prev g; simpl.
  - destruct (m prev []) eqn:E; [|discriminate].
    intros H; injection H as <-. eauto.
  - destruct (m prev (c :: r)) eqn:E.
    + intros H; injection H as <-. eauto.
    + apply IH.
Qed.

Lemma m_label_digits_ok label prev s g :
  m_label_digits label prev s = Some g ->
  Forall (fun c => is_digit c = true) g /\ g <> [].
Proof.
  unfold m_label_digits. destruct (startswith label s); [|discriminate].
  apply nonempty_digits.
Qed.

Lemma m_label_then_digits_ok label prev s g :
  m_label_then_digits label prev s = Some g ->
  Forall (fun c => is_digit c = true) g /\ g <> [].
Proof.
  unfold m_label_then_digits. destruct (startswith label s); [|discriminate].
  apply nonempty_digits.
Qed.

Lemma m_solution_digits_ok prev s g :
  m_solution_digits prev s = Some g ->
  Forall (fun c => is_digit c = true) g /\ g <> [].
Proof.
  unfold m_solution_digits. destruct (startswith "Solution" s); [|discriminate].
  apply nonempty_digits.
Qed.


(** ** Output classification *)

(** The size the clique driver reads from the output never fails to
    convert: the groups are runs of digits. *)
Lemma clique_size_total (stdout : str) :
  exists z,
    match Clique.first_some
            (Clique.first_some
               (re_search (m_label_digits "Clique size:") stdout)
               (re_search (m_label_digits "Maximum clique:") stdout))
            (re_search m_solution_digits stdout)
    with
    | Some g => py_int g
    | None => ret 0
    end = inr z.
Proof.
  unfold re_search, Clique.first_some.
  destruct (search (m_label_digits "Clique size:") None stdout) eqn:E1.
  { destruct (@search_group_digits _ (m_label_digits_ok "Clique size:") _ _ _ E1).
    now apply py_int_digits. }
  destruct (search (m_label_digits "Maximum clique:") None stdout) eqn:E2.
  { destruct (@search_group_digits _ (m_label_digits_ok "Maximum clique:") _ _ _ E2).
    now apply py_int_digits. }
  destruct (search m_solution_digits None stdout) eqn:E3.
  { destruct (@search_group_digits _ m_solution_digits_ok _ _ _ E3).
    now apply py_int_digits. }
  exists 0. reflexivity.
Qed.

Lemma is_sat_output_marker stdout :
  contains "--> Solution" stdout = true -> is_sat_output stdout = true.
Proof. intros H. unfold is_sat_output. now rewrite H. Qed.

Lemma clique_classify_marker stdout elapsed :
  contains "--> Solution" stdout = true ->
  exists size, Clique.classify stdout elapsed = inr (FOUND, elapsed, size).
Proof.
  intros H. unfold Clique.classify.
  destruct (clique_size_total stdout) as [z Hz]. rewrite Hz. simpl.
  rewrite (is_sat_output_marker _ H). simpl. eauto.
Qed.

(** C3. Classifier precedence: when the child ends with exit code 0 and its
    output holds the positive marker [--> Solution] together with a
    zero-solutions phrase (one the negative rule [is_unsat_output] accepts),
    the clique driver answers FOUND and the SAT driver answers SAT: the
    positive rule is looked at first. *)
Theorem C3_classifier_precedence :
  forall (timeout : Z) (p : process) (stdout : str) (elapsed : Q),
    spawn p = None ->
    wait p = Exited 0 stdout elapsed ->
    contains "--> Solution" stdout = true ->
    is_unsat_output stdout = true ->
    (exists size, Clique.run_ursa timeout p = inr (FOUND, elapsed, size))
    /\ Sat.run_ursa timeout p = inr (SAT, elapsed).
Proof.
  intros timeout p stdout elapsed Hs Hw Hpos _.
  split.
  - destruct (clique_classify_marker stdout elapsed Hpos) as [size Hc].
    exists size. unfold Clique.run_ursa, popen, communicate.
    rewrite Hs, Hw. simpl. now rewrite Hc.
  - unfold Sat.run_ursa, popen, communicate. rewrite Hs, Hw. simpl.
    now rewrite (is_sat_output_marker _ Hpos).
Qed.

Lemma C3_classifier_precedence_witness :
  (exists size,
      Clique.run_ursa 120 c3_process = inr (FOUND, (1 # 2)%Q, size))
  /\ Sat.run_ursa 120 c3_process = inr (SAT, (1 # 2)%Q).
Proof.
  apply (@C3_classifier_precedence 120 c3_process
           "--> Solution 1: 0 solutions" (1 # 2)); reflexivity.
Defined.


(** ** The process runners *)

Section Runners.

Variable timeout : Z.
Variable p : process.

Ltac run_cases :=
  unfold Clique.run_ursa, Clique.run_cliquer, Sat.run_ursa, Sat.run_minisat,
    popen, communicate, call.

(** A child that cannot be started is reported as ERROR after zero
    seconds by each of the four runners. *)
Lemma launch_failure_absorbed f :
  spawn p = Some f ->
  Clique.run_ursa timeout p = inr (ERROR, 0%Q, 0)
  /\ Clique.run_cliquer timeout p = inr (ERROR, 0%Q, 0)
  /\ Sat.run_ursa timeout p = inr (ERROR, 0%Q)
  /\ Sat.run_minisat timeout p = inr (ERROR, 0%Q).
Proof.
  intros H. run_cases. rewrite H. simpl. repeat split; reflexivity.
Qed.

Lemma try_except_total {A} (body : raises A) (d : A) :
  exists v, try_except body (fun _ => ret d) = inr v.
Proof. destruct body; simpl; eauto. Qed.

(** The three runners whose whole body is inside [try ... except
    Exception] return a value whatever the child does. *)
Lemma clique_run_ursa_total : exists v, Clique.run_ursa timeout p = inr v.
Proof. apply try_except_total. Qed.

Lemma sat_run_ursa_total : exists v, Sat.run_ursa timeout p = inr v.
Proof. apply try_except_total. Qed.

Lemma sat_run_minisat_total : exists v, Sat.run_minisat timeout p = inr v.
Proof. apply try_except_total. Qed.

(** [run_cliquer] raises only out of its timeout handler. *)
Lemma run_cliquer_raises e :
  Clique.run_cliquer timeout p = inl e ->
  spawn p = None /\ wait p = Expired /\ exists f, kill p = Some f /\ e = Failure f.
Proof.
  run_cases. destruct (spawn p) as [f|]; simpl; [discriminate|].
  destruct (wait p) as [rc out t| |f]; simpl; try discriminate.
  - destruct (re_search (m_label_then_digits "size=") out) as [g|] eqn:E.
    + destruct (@search_group_digits _ (m_label_then_digits_ok "size=")
                  _ _ _ E) as [Hd Hne].
      destruct (py_int_digits _ Hd Hne) as [z Hz]. rewrite Hz. simpl.
      destruct (rc =? 0); simpl;
        destruct (0 <? z); simpl; try discriminate;
        destruct (z =? 0); discriminate.
    + simpl. destruct (rc =? 0); simpl; discriminate.
  - destruct (kill p) as [f|]; simpl; [|discriminate].
    intros H; injection H as <-. eauto.
Qed.

End Runners.

(** C7. Timeout reporting, as the code has it.  When the child outlives
    the timeout of [T] seconds the runner kills it.  If the kill succeeds
    (and, in [run_ursa], the reading of the output that follows it), the
    answer is TIMEOUT with the elapsed time equal to the configured [T]; no
    measured time is involved.  If the kill or that reading raises,
    [run_ursa] of both drivers and [run_minisat] answer ERROR with zero
    seconds, through their outer [except Exception].  What [run_cliquer]
    does when the kill raises is left to C8. *)
Theorem C7_timeout_reports_configured_value :
  forall (T : Z) (p : process),
    spawn p = None -> wait p = Expired ->
    (kill p = None ->
     Clique.run_cliquer T p = inr (TIMEOUT, inject_Z T, 0)
     /\ Sat.run_minisat T p = inr (TIMEOUT, inject_Z T))
    /\ (kill p = None -> drain p = None ->
        Clique.run_ursa T p = inr (TIMEOUT, inject_Z T, 0)
        /\ Sat.run_ursa T p = inr (TIMEOUT, inject_Z T))
    /\ (kill p <> None ->
        Clique.run_ursa T p = inr (ERROR, 0%Q, 0)
        /\ Sat.run_ursa T p = inr (ERROR, 0%Q)
        /\ Sat.run_minisat T p = inr (ERROR, 0%Q))
    /\ (kill p = None -> drain p <> None ->
        Clique.run_ursa T p = inr (ERROR, 0%Q, 0)
        /\ Sat.run_ursa T p = inr (ERROR, 0%Q)).
Proof.
  intros T p Hs Hw.
  unfold Clique.run_ursa, Clique.run_cliquer, Sat.run_ursa, Sat.run_minisat,
    popen, communicate, call.
  rewrite Hs, Hw.
  destruct (kill p) as [f|]; destruct (drain p) as [g|]; cbn;
    repeat split; intros; try congruence; try reflexivity.
Qed.

(** With a timeout of five seconds and a child that is killed without
    trouble the reported time is 5. *)
Lemma C7_timeout_reports_configured_value_witness :
  Clique.run_ursa 5 never_ending = inr (TIMEOUT, 5%Q, 0)
  /\ Clique.run_cliquer 5 never_ending = inr (TIMEOUT, 5%Q, 0)
  /\ Sat.run_ursa 5 never_ending = inr (TIMEOUT, 5%Q)
  /\ Sat.run_minisat 5 never_ending = inr (TIMEOUT, 5%Q).
Proof.
  destruct (@C7_timeout_reports_configured_value 5 never_ending
              eq_refl eq_refl) as [H1 [H2 _]].
  destruct (H1 eq_refl) as [Hc Hm].
  destruct (H2 eq_refl eq_refl) as [Hu Hs].
  repeat split; assumption.
Defined.

(** C7 as stated fails: TIMEOUT with the configured time is not the
    answer whenever the child outlives the timeout.  For a child the driver
    may not signal the timeout of five seconds expires, [process.kill()]
    raises, and [run_minisat] and [run_ursa] answer ERROR with zero
    seconds. *)
Lemma C7_counterexample :
  spawn unkillable = None /\ wait unkillable = Expired
  /\ Sat.run_minisat 5 unkillable = inr (ERROR, 0%Q)
  /\ Sat.run_ursa 5 unkillable = inr (ERROR, 0%Q)
  /\ Clique.run_ursa 5 unkillable = inr (ERROR, 0%Q, 0)
  /\ ~ (forall (T : Z) (p : process),
           spawn p = None -> wait p = Expired ->
           Sat.run_minisat T p = inr (TIMEOUT, inject_Z T)
           /\ Sat.run_ursa T p = inr (TIMEOUT, inject_Z T)
           /\ Clique.run_ursa T p = inr (TIMEOUT, inject_Z T, 0)).
Proof.
  repeat split.
  intros H. destruct (H 5 unkillable eq_refl eq_refl) as [Hm _].
  discriminate Hm.
Qed.

(** C8. Launch-failure absorption.  A child that cannot be started gives
    ERROR with zero seconds in all four runners, and [run_ursa] (both
    drivers) and [run_minisat] never raise.  [run_cliquer] does raise: its
    timeout handler calls [process.kill()] outside any [try], so when the
    timeout expires and the kill fails the exception leaves the function. *)
Theorem C8_run_cliquer_lets_kill_failure_escape :
  (forall T, Clique.run_ursa T missing_executable = inr (ERROR, 0%Q, 0)
             /\ Clique.run_cliquer T missing_executable = inr (ERROR, 0%Q, 0)
             /\ Sat.run_ursa T missing_executable = inr (ERROR, 0%Q)
             /\ Sat.run_minisat T missing_executable = inr (ERROR, 0%Q))
  /\ (forall T, Clique.run_ursa T unkillable = inr (ERROR, 0%Q, 0)
                /\ Sat.run_ursa T unkillable = inr (ERROR, 0%Q)
                /\ Sat.run_minisat T unkillable = inr (ERROR, 0%Q))
  /\ (forall T, Clique.run_cliquer T unkillable = inl (Failure PermissionError)).
Proof.
  repeat split; reflexivity.
Qed.


(** ** The parsers *)

Lemma foldM_fails {A S} (step : S -> A -> raises S) (bad : A) :
  (forall s, exists e, step s bad = inl e) ->
  forall l, In bad l -> forall s, exists e, foldM step l s = inl e.
Proof.
  intros Hbad l. induction l as [|a r IH]; intros Hin s; [contradiction|].
  simpl. destruct Hin as [-> | Hin].
  - destruct (Hbad s) as [e He]. rewrite He. simpl. eauto.
  - destruct (step s a) as [e|s']; simpl; eauto.
Qed.

(** An invariant kept by every step is kept by the loop; a failure of the
    loop is the failure of one step. *)
Lemma foldM_inv {A S} (step : S -> A -> raises S) (P : S -> Prop)
  (Bad : A -> Prop) (l : list A) :
  (forall a s, In a l -> P s ->
               match step s a with inr s' => P s' | inl _ => Bad a end) ->
  forall s, P s ->
            match foldM step l s with
            | inr s' => P s'
            | inl _ => exists a, In a l /\ Bad a
            end.
Proof.
  induction l as [|a r IH]; intros Hstep s Hs; simpl; [assumption|].
  pose proof (Hstep a s (or_introl eq_refl) Hs) as H1.
  destruct (step s a) as [e|s']; simpl.
  - exists a. split; [now left | assumption].
  - assert (Hr : forall a0 s0, In a0 r -> P s0 ->
                 match step s0 a0 with inr s1 => P s1 | inl _ => Bad a0 end).
    { intros a0 s0 Hin. apply Hstep. now right. }
    specialize (IH Hr s' H1).
    destruct (foldM step r s') as [e|s'']; [|assumption].
    destruct IH as [b [Hb1 Hb2]]. exists b. split; [now right | assumption].
Qed.

Lemma startswith_cons c p s :
  startswith (c :: p) s = true -> exists r, s = c :: r /\ startswith p r = true.
Proof.
  destruct s as [|d r]; simpl; [discriminate|].
  destruct (Ascii.eqb c d) eqn:E; simpl; [|discriminate].
  apply Ascii.eqb_eq in E. subst d. eauto.
Qed.

Lemma raises_bind_inl {A B} (m : raises A) (k : A -> raises B) e :
  m = inl e -> bind m k = inl e.
Proof. intros ->. reflexivity. Qed.

Lemma graph_header_step st line :
  is_graph_header line = true ->
  Clique.parse_line st line =
    ('(a, b) <- read_counts line ;;
     ret (a, b, snd st)).
Proof.
  unfold is_graph_header, Clique.parse_line, read_counts.
  destruct st as [[nv ne] es]. intros H.
  assert (Hc : is_empty (strip line) || startswith "c" (strip line) = false).
  { apply orb_true_iff in H. destruct H as [H|H];
      apply startswith_cons in H; destruct H as [r [-> _]]; reflexivity. }
  rewrite Hc, H. simpl.
  destruct (index (split_ws (strip line)) 2) as [e|x]; simpl; [reflexivity|].
  destruct (py_int x) as [e|a]; simpl; [reflexivity|].
  destruct (index (split_ws (strip line)) 3) as [e|y]; simpl; [reflexivity|].
  destruct (py_int y) as [e|b]; reflexivity.
Qed.

Lemma cnf_header_step st line :
  is_cnf_header line = true ->
  Sat.parse_line st line =
    ('(a, b) <- read_counts line ;;
     ret (a, b, snd st)).
Proof.
  unfold is_cnf_header, Sat.parse_line, read_counts.
  destruct st as [[nv nc] cls]. intros H.
  assert (Hc : is_empty (strip line) || startswith "c" (strip line)
               || startswith "%" (strip line) = false).
  { apply startswith_cons in H; destruct H as [r [-> _]]; reflexivity. }
  rewrite Hc, H. simpl.
  destruct (index (split_ws (strip line)) 2) as [e|x]; simpl; [reflexivity|].
  destruct (py_int x) as [e|a]; simpl; [reflexivity|].
  destruct (index (split_ws (strip line)) 3) as [e|y]; simpl; [reflexivity|].
  destruct (py_int y) as [e|b]; reflexivity.
Qed.

(** A header line whose counts cannot be read makes the graph parser
    raise, wherever the line stands. *)
Lemma graph_bad_header_fails content line e :
  In line (lines_of content) ->
  is_graph_header line = true ->
  read_counts line = inl e ->
  exists e', Clique.parse_dimacs_graph content = inl e'.
Proof.
  intros Hin Hh Hc. unfold Clique.parse_dimacs_graph.
  apply foldM_fails with (bad := line); [|exact Hin].
  intros s. rewrite (graph_header_step s _ Hh), Hc. simpl. eauto.
Qed.

Lemma cnf_bad_header_fails content line e :
  In line (lines_of content) ->
  is_cnf_header line = true ->
  read_counts line = inl e ->
  exists e', Sat.parse_dimacs content = inl e'.
Proof.
  intros Hin Hh Hc. unfold Sat.parse_dimacs.
  apply foldM_fails with (bad := line); [|exact Hin].
  intros s. rewrite (cnf_header_step s _ Hh), Hc. simpl. eauto.
Qed.

(** What one step of each parser does, by the kind of the line. *)
Lemma graph_step_spec st line :
  Clique.parse_line st line =
    if is_graph_header line
    then '(a, b) <- read_counts line ;; ret (a, b, snd st)
    else match read_edge line with
         | Some r => e <- r ;; ret (fst st, snd st ++ [e])
         | None => ret st
         end.
Proof.
  destruct (is_graph_header line) eqn:Hh.
  { now apply graph_header_step. }
  unfold is_graph_header in Hh. unfold Clique.parse_line, read_edge.
  destruct st as [[nv ne] es]. rewrite Hh.
  generalize (startswith "e " (strip line)) (startswith "c" (strip line))
    (is_empty (strip line)).
  intros b1 b2 b3. destruct b3, b2, b1; try reflexivity.
  cbn [negb andb orb fst snd].
  destruct (3 <=? length (split_ws (strip line)))%nat; [|reflexivity].
  destruct (index (split_ws (strip line)) 1) as [e|x]; cbn [bind]; [reflexivity|].
  destruct (py_int x) as [e|a]; cbn [bind]; [reflexivity|].
  destruct (index (split_ws (strip line)) 2) as [e|y]; cbn [bind]; [reflexivity|].
  destruct (py_int y) as [e|b]; reflexivity.
Qed.

Lemma cnf_step_spec st line :
  Sat.parse_line st line =
    if is_cnf_header line
    then '(a, b) <- read_counts line ;; ret (a, b, snd st)
    else if is_clause_line line
         then literals <- mapM py_int (clause_tokens line) ;;
              match literals with
              | [] => ret st
              | _ => ret (fst st, snd st ++ [literals])
              end
         else ret st.
Proof.
  destruct (is_cnf_header line) eqn:Hh.
  { now apply cnf_header_step. }
  unfold is_cnf_header in Hh. unfold Sat.parse_line, is_clause_line.
  destruct st as [[nv nc] cls]. rewrite Hh. fold (clause_tokens line).
  generalize (startswith "p" (strip line)) (startswith "%" (strip line))
    (startswith "c" (strip line)) (is_empty (strip line)).
  intros b1 b2 b3 b4. destruct b4, b3, b2, b1; reflexivity.
Qed.

Lemma graph_step_fails st line :
  (exists e, Clique.parse_line st line = inl e) <-> graph_line_fails line.
Proof.
  rewrite graph_step_spec. unfold graph_line_fails.
  destruct (is_graph_header line).
  - destruct (read_counts line) as [e|[a b]]; simpl; split.
    + intros _. left. eauto.
    + eauto.
    + intros [e He]. discriminate.
    + intros [[_ [e He]]|[Hf _]]; discriminate.
  - destruct (read_edge line) as [[e|ed]|]; simpl; split.
    + intros _. right. eauto.
    + eauto.
    + intros [e He]. discriminate.
    + intros [[Hf _]|[_ [e He]]]; discriminate.
    + intros [e He]. discriminate.
    + intros [[Hf _]|[_ [e He]]]; discriminate.
Qed.

Lemma cnf_step_fails st line :
  (exists e, Sat.parse_line st line = inl e) <-> cnf_line_fails line.
Proof.
  rewrite cnf_step_spec. unfold cnf_line_fails.
  destruct (is_cnf_header line).
  - destruct (read_counts line) as [e|[a b]]; simpl; split.
    + intros _. left. eauto.
    + eauto.
    + intros [e He]. discriminate.
    + intros [[_ [e He]]|[Hf _]]; discriminate.
  - destruct (is_clause_line line).
    + destruct (mapM py_int (clause_tokens line)) as [e|lits]; simpl; split.
      * intros _. right. eauto.
      * eauto.
      * intros [e He]. destruct lits; discriminate.
      * intros [[Hf _]|[_ [_ [e He]]]]; discriminate.
    + split.
      * intros [e He]. discriminate.
      * intros [[Hf _]|[_ [Hf _]]]; discriminate.
Qed.

Lemma graph_parse_fails_iff content :
  (exists e, Clique.parse_dimacs_graph content = inl e)
  <-> exists line, In line (lines_of content) /\ graph_line_fails line.
Proof.
  unfold Clique.parse_dimacs_graph. fold (lines_of content). split.
  - intros [e He].
    assert (Hstep : forall a s, In a (lines_of content) -> True ->
              match Clique.parse_line s a with
              | inr _ => True
              | inl _ => graph_line_fails a
              end).
    { intros a s _ _.
      destruct (Clique.parse_line s a) as [e'|s'] eqn:E; [|exact I].
      apply (graph_step_fails s a). eauto. }
    pose proof (foldM_inv Clique.parse_line (fun _ => True) graph_line_fails
                  (lines_of content) Hstep (0, 0, []) I) as H.
    rewrite He in H. exact H.
  - intros [line [Hin Hbad]].
    apply foldM_fails with (bad := line); [|exact Hin].
    intros s. now apply graph_step_fails.
Qed.

Lemma cnf_parse_fails_iff content :
  (exists e, Sat.parse_dimacs content = inl e)
  <-> exists line, In line (lines_of content) /\ cnf_line_fails line.
Proof.
  unfold Sat.parse_dimacs. fold (lines_of content). split.
  - intros [e He].
    assert (Hstep : forall a s, In a (lines_of content) -> True ->
              match Sat.parse_line s a with
              | inr _ => True
              | inl _ => cnf_line_fails a
              end).
    { intros a s _ _.
      destruct (Sat.parse_line s a) as [e'|s'] eqn:E; [|exact I].
      apply (cnf_step_fails s a). eauto. }
    pose proof (foldM_inv Sat.parse_line (fun _ => True) cnf_line_fails
                  (lines_of content) Hstep (0, 0, []) I) as H.
    rewrite He in H. exact H.
  - intros [line [Hin Hbad]].
    apply foldM_fails with (bad := line); [|exact Hin].
    intros s. now apply cnf_step_fails.
Qed.

(** Without a header line the declared counts stay at their initial 0. *)
Lemma graph_no_header_counts content nv ne es :
  (forall line, In line (lines_of content) -> is_graph_header line = false) ->
  Clique.parse_dimacs_graph content = inr (nv, ne, es) ->
  nv = 0 /\ ne = 0.
Proof.
  intros Hno Hp. unfold Clique.parse_dimacs_graph in Hp.
  fold (lines_of content) in Hp.
  assert (Hstep : forall a s, In a (lines_of content) ->
            fst (fst s) = 0 /\ snd (fst s) = 0 ->
            match Clique.parse_line s a with
            | inr s' => fst (fst s') = 0 /\ snd (fst s') = 0
            | inl _ => True
            end).
  { intros a s Hin Hs. rewrite graph_step_spec, (Hno a Hin).
  destruct (read_edge a) as [[e|ed]|]; simpl; auto. }
  pose proof (foldM_inv Clique.parse_line _ (fun _ => True)
                (lines_of content) Hstep (0, 0, []) (conj eq_refl eq_refl)) as H.
  rewrite Hp in H. exact H.
Qed.

Lemma cnf_no_header_counts content nv nc cls :
  (forall line, In line (lines_of content) -> is_cnf_header line = false) ->
  Sat.parse_dimacs content = inr (nv, nc, cls) ->
  nv = 0 /\ nc = 0.
Proof.
  intros Hno Hp. unfold Sat.parse_dimacs in Hp.
  fold (lines_of content) in Hp.
  assert (Hstep : forall a s, In a (lines_of content) ->
            fst (fst s) = 0 /\ snd (fst s) = 0 ->
            match Sat.parse_line s a with
            | inr s' => fst (fst s') = 0 /\ snd (fst s') = 0
            | inl _ => True
            end).
  { intros a s Hin Hs. rewrite cnf_step_spec, (Hno a Hin).
  destruct (is_clause_line a); [|assumption].
  destruct (mapM py_int (clause_tokens a)) as [e|[|l ls]]; simpl; auto. }
  pose proof (foldM_inv Sat.parse_line _ (fun _ => True)
                (lines_of content) Hstep (0, 0, []) (conj eq_refl eq_refl)) as H.
  rewrite Hp in H. exact H.
Qed.

(** C4 (amended). The parsers raise exactly when they meet a line they
    cannot read: a header line whose third or fourth field is missing or is
    not an integer, or a data line with an unreadable integer.  A missing
    header is no failure: the declared counts are then returned as 0. *)
Theorem C4_parse_fails_on_unreadable_lines_only :
  forall content : str,
    ((exists e, Clique.parse_dimacs_graph content = inl e)
     <-> exists line, In line (lines_of content) /\ graph_line_fails line)
    /\ ((exists e, Sat.parse_dimacs content = inl e)
        <-> exists line, In line (lines_of content) /\ cnf_line_fails line)
    /\ (existsb is_graph_header (lines_of content) = false ->
        forall nv ne es,
          Clique.parse_dimacs_graph content = inr (nv, ne, es) ->
          nv = 0 /\ ne = 0)
    /\ (existsb is_cnf_header (lines_of content) = false ->
        forall nv nc cls,
          Sat.parse_dimacs content = inr (nv, nc, cls) ->
          nv = 0 /\ nc = 0).
Proof.
  intros content. split; [apply graph_parse_fails_iff|].
  split; [apply cnf_parse_fails_iff|]. split.
  - intros Hno nv ne es. apply graph_no_header_counts.
    intros line Hin. destruct (is_graph_header line) eqn:E; [|reflexivity].
    rewrite <- Hno. symmetry. apply existsb_exists. eauto.
  - intros Hno nv nc cls. apply cnf_no_header_counts.
    intros line Hin. destruct (is_cnf_header line) eqn:E; [|reflexivity].
    rewrite <- Hno. symmetry. apply existsb_exists. eauto.
Qed.

(** A header whose vertex count is not a number makes the graph parser
    raise; a CNF text without header parses with both counts 0. *)
Lemma C4_parse_fails_on_unreadable_lines_only_witness :
  (exists e, Clique.parse_dimacs_graph "p edge x 2" = inl e)
  /\ (forall nv nc cls, Sat.parse_dimacs "1 -2 0" = inr (nv, nc, cls) ->
                        nv = 0 /\ nc = 0).
Proof.
  split.
  - apply (proj1 (C4_parse_fails_on_unreadable_lines_only "p edge x 2")).
    exists "p edge x 2". split; [now left|].
    left. split; [reflexivity|]. exists ValueError. reflexivity.
  - apply (proj2 (proj2 (proj2
             (C4_parse_fails_on_unreadable_lines_only "1 -2 0")))).
    reflexivity.
Defined.

(** C4 as stated fails: a text without any header line is parsed, with
    both declared counts 0. *)
Lemma C4_counterexample :
  existsb is_graph_header (lines_of "e 1 2") = false
  /\ Clique.parse_dimacs_graph "e 1 2" = inr (0, 0, [(1, 2)])
  /\ existsb is_cnf_header (lines_of "1 -2 0") = false
  /\ Sat.parse_dimacs "1 -2 0" = inr (0, 0, [[1; -2]]).
Proof. repeat split; reflexivity. Qed.

Lemma str_eqb_eq a b : str_eqb a b = true <-> a = b.
Proof.
  unfold str_eqb. destruct (list_eq_dec ascii_dec a b); split; congruence.
Qed.

Lemma subseq_refl {A} (l : list A) : subseq l l.
Proof. induction l; constructor; assumption. Qed.








(** ** The code generators *)

Lemma fold_left_append {A} (f : A -> str) (l : list A) (acc : str) :
  fold_left (fun code a => code ++ f a) l acc = acc ++ concat (map f l).
Proof.
  revert acc. induction l as [|a r IH]; intros acc; simpl.
  - now rewrite app_nil_r.
  - rewrite IH. now rewrite <- app_assoc.
Qed.

Lemma fold_left_ext {A B} (f g : B -> A -> B) (l : list A) (b : B) :
  (forall b a, f b a = g b a) -> fold_left f l b = fold_left g l b.
Proof.
  intros H. revert b. induction l as [|a r IH]; intros b; simpl; [reflexivity|].
  now rewrite H, IH.
Qed.

(** The text of the clique generator in closed form: the preamble, one
    line per index pair of [edge_assignments], a blank line, the
    template. *)
Lemma clique_generate_text n edges template :
  Clique.generate_urs_code n edges template
  = Clique.preamble n
    ++ statements Clique.edge_statement (edge_assignments edges)
    ++ [NL] ++ template ++ [NL].
Proof.
  unfold Clique.generate_urs_code, statements, edge_assignments.
  rewrite (@fold_left_ext _ _ Clique.add_edge
             (fun code e =>
                code ++ (Clique.edge_statement (fst e - 1) (snd e - 1)
                         ++ Clique.edge_statement (snd e - 1) (fst e - 1)))).
  2:{ intros b [v1 v2]. unfold Clique.add_edge. simpl.
      now rewrite <- app_assoc. }
  rewrite fold_left_append, <- app_assoc. f_equal. f_equal.
  induction edges as [|e r IH]; simpl; [reflexivity|].
  rewrite <- IH. rewrite <- app_assoc. reflexivity.
Qed.

Lemma below_0 i : below (Z.of_nat 0) i = false.
Proof.
  unfold below. destruct (0 <=? i) eqn:E; simpl; [|reflexivity].
  apply Z.leb_le in E. apply Z.ltb_ge. lia.
Qed.

Lemma below_succ k i :
  below (Z.of_nat (S k)) i = (i =? Z.of_nat k) || below (Z.of_nat k) i.
Proof.
  unfold below.
  destruct (i =? Z.of_nat k) eqn:E1; destruct (0 <=? i) eqn:E2;
    destruct (i <? Z.of_nat (S k)) eqn:E3; destruct (i <? Z.of_nat k) eqn:E4;
    simpl; try reflexivity;
    rewrite ?Z.eqb_eq, ?Z.eqb_neq, ?Z.leb_le, ?Z.leb_gt, ?Z.ltb_lt, ?Z.ltb_ge
      in *; lia.
Qed.

Lemma below_to_nat n i : below (Z.of_nat (Z.to_nat n)) i = below n i.
Proof.
  unfold below. destruct (0 <=? i) eqn:E; simpl; [|reflexivity].
  apply Z.leb_le in E.
  destruct (i <? n) eqn:E1.
  - apply Z.ltb_lt in E1. apply Z.ltb_lt. lia.
  - apply Z.ltb_ge in E1. apply Z.ltb_ge. lia.
Qed.

Lemma mem_pair_In ij l : mem_pair ij l = true <-> In ij l.
Proof.
  unfold mem_pair. rewrite existsb_exists. destruct ij as [i j]. split.
  - intros [[a b] [Hin H]]. simpl in H. apply andb_true_iff in H.
    destruct H as [H1 H2]. apply Z.eqb_eq in H1, H2. now subst.
  - intros H. exists (i, j). split; [assumption|]. simpl.
    now rewrite !Z.eqb_refl.
Qed.

Lemma edge_assignments_In edges i j :
  In (i, j) (edge_assignments edges)
  <-> exists u v, In (u, v) edges
                  /\ ((i = u - 1 /\ j = v - 1) \/ (i = v - 1 /\ j = u - 1)).
Proof.
  unfold edge_assignments. rewrite in_flat_map. split.
  - intros [[u v] [Hin H]]. exists u, v. split; [assumption|].
    simpl in H. destruct H as [H|[H|[]]]; injection H as <- <-; auto.
  - intros [u [v [Hin H]]]. exists (u, v). split; [assumption|].
    simpl. destruct H as [[-> ->]|[-> ->]]; auto.
Qed.

Lemma add_literal_slot idx code l :
  Sat.add_literal idx code l = code ++ Sat.literal_statement idx (slot l).
Proof.
  unfold Sat.add_literal, slot. destruct (0 <? l); reflexivity.
Qed.

(** The text of the SAT generator in closed form. *)
Lemma sat_generate_text nv nc clauses template :
  Sat.generate_urs_code nv nc clauses template
  = Sat.preamble nv nc
    ++ statements Sat.literal_statement (literal_assignments clauses)
    ++ [NL] ++ template ++ [NL].
Proof.
  unfold Sat.generate_urs_code, statements, literal_assignments.
  rewrite (@fold_left_ext _ _ Sat.add_clause
             (fun code ic =>
                code ++ concat (map (fun l => Sat.literal_statement
                                                (fst ic) (slot l))
                                  (snd ic)))).
  2:{ intros b [idx clause]. unfold Sat.add_clause. cbn [fst snd].
      rewrite (@fold_left_ext _ _ (Sat.add_literal idx)
                 (fun code l => code ++ Sat.literal_statement idx (slot l)))
        by (intros; apply add_literal_slot).
      apply fold_left_append. }
  rewrite fold_left_append, <- app_assoc. f_equal. f_equal.
  induction (enumerate clauses) as [|ic r IH]; simpl; [reflexivity|].
  rewrite IH, map_app, concat_app, !map_map. reflexivity.
Qed.

Lemma In_combine_seq {A} (l : list A) (k : nat) c x :
  In (c, x) (combine (map Z.of_nat (seq k (length l))) l)
  <-> exists n, c = Z.of_nat (k + n) /\ nth_error l n = Some x.
Proof.
  revert k. induction l as [|a r IH]; intros k; simpl.
  - split; [contradiction|]. intros [[|n] [_ H]]; discriminate.
  - rewrite IH. split.
    + intros [H|[n [-> Hn]]].
      * injection H as <- <-. exists 0%nat. split; [f_equal; lia|reflexivity].
      * exists (S n). split; [f_equal; lia|assumption].
    + intros [[|n] [-> Hn]].
      * left. simpl in Hn. injection Hn as ->. f_equal. f_equal. lia.
      * right. exists n. split; [f_equal; lia|assumption].
Qed.

Lemma literal_assignments_In clauses c s :
  In (c, s) (literal_assignments clauses)
  <-> exists n clause l,
      c = Z.of_nat n /\ nth_error clauses n = Some clause
      /\ In l clause /\ s = slot l.
Proof.
  unfold literal_assignments, enumerate. rewrite in_flat_map. split.
  - intros [[c' clause] [Hin H]]. apply In_combine_seq in Hin.
    destruct Hin as [n [-> Hn]]. cbn [fst snd] in H.
    apply in_map_iff in H. destruct H as [l [Hl Hin]].
    injection Hl as <- <-. exists n, clause, l. auto.
  - intros [n [clause [l [-> [Hn [Hin ->]]]]]].
    exists (Z.of_nat n, clause). split.
    + apply In_combine_seq. exists n. auto.
    + cbn [fst snd]. apply in_map_iff. eauto.
Qed.


(** ** Statistics of the clique driver *)

Ltac eval_str_eqb :=
  repeat match goal with
         | |- context [str_eqb ?a ?b] =>
             let v := eval vm_compute in (str_eqb a b) in
             change (str_eqb a b) with v
         end;
  cbv iota.

Lemma count_status_after st t :
  Clique.count_status (lower (status_name st)) t = tally_after st t.
Proof.
  destruct t as [f n o e].
  destruct st; unfold Clique.count_status; eval_str_eqb;
    unfold tally_after, tally_plus; cbn [Clique.Tally.found
      Clique.Tally.not_found Clique.Tally.timeout Clique.Tally.error];
    f_equal; lia.
Qed.

Lemma count_cliquer_status_after st t :
  Clique.count_cliquer_status (lower (status_name st)) t
  = cliquer_tally_after st t.
Proof.
  destruct t as [f o e x].
  destruct st; unfold Clique.count_cliquer_status; eval_str_eqb;
    unfold cliquer_tally_after, cliquer_tally_plus;
    cbn [Clique.CliquerTally.found Clique.CliquerTally.timeout
         Clique.CliquerTally.error Clique.CliquerTally.extra_not_found];
    f_equal; lia.
Qed.

Lemma tally_after_sum st t : tally_sum (tally_after st t) = tally_sum t + 1.
Proof. destruct st; unfold tally_sum; simpl; lia. Qed.

Lemma cliquer_tally_after_sum st t :
  cliquer_tally_sum (cliquer_tally_after st t) = cliquer_tally_sum t + 1.
Proof. destruct st; unfold cliquer_tally_sum; simpl; lia. Qed.

(** C10. In [update_stats] of the clique driver a status of URSA (and of
    the reduction run) other than FOUND, NOT_FOUND and TIMEOUT, UNKNOWN
    among them, adds one to that solver's [error], and a status of Cliquer
    other than FOUND and TIMEOUT, NOT_FOUND among them, adds one to
    Cliquer's [error].  Every result goes to one of the four (URSA,
    reduction) or three (Cliquer) counters: their sum grows by one, so
    there is no other bucket. *)
Theorem C10_clique_statistics_collapse_into_error :
  forall (s s' : Clique.stats) (r : Clique.result) (has_reduction : bool),
    Clique.update_stats s r has_reduction = inr s' ->
    Clique.total s' = Clique.total s + 1
    /\ Clique.ursa s' = tally_after (Clique.ursa_status r) (Clique.ursa s)
    /\ Clique.cliquer s'
       = cliquer_tally_after (Clique.cliquer_status r) (Clique.cliquer s)
    /\ Clique.reduction s'
       = (if has_reduction
          then match Clique.reduction_result r with
               | Some (st, _, _) => tally_after st (Clique.reduction s)
               | None => Clique.reduction s
               end
          else Clique.reduction s)
    /\ tally_after UNKNOWN (Clique.ursa s)
       = tally_plus (Clique.ursa s) 0 0 0 1
    /\ tally_after ERROR (Clique.ursa s) = tally_plus (Clique.ursa s) 0 0 0 1
    /\ cliquer_tally_after NOT_FOUND (Clique.cliquer s)
       = cliquer_tally_plus (Clique.cliquer s) 0 0 1
    /\ cliquer_tally_after UNKNOWN (Clique.cliquer s)
       = cliquer_tally_plus (Clique.cliquer s) 0 0 1
    /\ tally_sum (Clique.ursa s') = tally_sum (Clique.ursa s) + 1
    /\ cliquer_tally_sum (Clique.cliquer s')
       = cliquer_tally_sum (Clique.cliquer s) + 1.
Proof.
  intros s s' r red H. unfold Clique.update_stats in H.
  rewrite !count_status_after, count_cliquer_status_after in H.
  assert (Hs : Clique.total s' = Clique.total s + 1
               /\ Clique.ursa s'
                  = tally_after (Clique.ursa_status r) (Clique.ursa s)
               /\ Clique.cliquer s'
                  = cliquer_tally_after (Clique.cliquer_status r)
                      (Clique.cliquer s)
               /\ Clique.reduction s'
                  = (if red
                     then match Clique.reduction_result r with
                          | Some (st, _, _) =>
                              tally_after st (Clique.reduction s)
                          | None => Clique.reduction s
                          end
                     else Clique.reduction s)).
  { destruct red.
    - destruct (Clique.reduction_result r) as [[[st t] z]|]; [|discriminate].
      rewrite count_status_after in H.
      injection H as <-. simpl. auto.
    - injection H as <-. simpl. auto. }
  destruct Hs as [H1 [H2 [H3 H4]]].
  repeat split; try assumption; try reflexivity.
  - rewrite H2. apply tally_after_sum.
  - rewrite H3. apply cliquer_tally_after_sum.
Qed.

Lemma C10_clique_statistics_collapse_into_error_witness :
  exists s',
    Clique.update_stats Clique._initialize_empty_stats undecided true = inr s'
    /\ Clique.Tally.error (Clique.ursa s') = 1
    /\ Clique.CliquerTally.error (Clique.cliquer s') = 1
    /\ Clique.Tally.error (Clique.reduction s') = 1.
Proof.
  eexists. split; [reflexivity|].
  destruct (@C10_clique_statistics_collapse_into_error
              Clique._initialize_empty_stats _ undecided true eq_refl)
    as [_ [H2 [H3 [H4 _]]]].
  rewrite H2, H3, H4. repeat split; reflexivity.
Defined.


(** ** Lines, separators and substrings *)

Lemma startswith_chars p s c :
  startswith p s = true -> In c p -> In c s.
Proof.
  revert s. induction p as [|a p IH]; intros s H Hin; [contradiction|].
  apply startswith_cons in H. destruct H as [r [-> H]].
  destruct Hin as [->|Hin]; [now left|]. right. now apply IH.
Qed.

(** A substring brings all its characters. *)
Lemma contains_chars p s c :
  contains p s = true -> In c p -> In c s.
Proof.
  induction s as [|a r IH]; intros H Hin; cbn [contains] in H.
  - rewrite orb_false_r in H. destruct p; [contradiction|discriminate].
  - apply orb_true_iff in H. destruct H as [H|H].
    + eapply startswith_chars; eauto.
    + right. now apply IH.
Qed.

Lemma contains_absent p s c :
  In c p -> ~ In c s -> contains p s = false.
Proof.
  intros Hp Hs. destruct (contains p s) eqn:E; [|reflexivity].
  exfalso. apply Hs. eapply contains_chars; eauto.
Qed.

Lemma startswith_app p s t :
  startswith p s = true -> startswith p (s ++ t) = true.
Proof.
  revert s. induction p as [|a p IH]; intros s H; [reflexivity|].
  apply startswith_cons in H. destruct H as [r [-> H]]. simpl.
  rewrite Ascii.eqb_refl. simpl. now apply IH.
Qed.

Lemma contains_app_l p s t :
  contains p s = true -> contains p (s ++ t) = true.
Proof.
  induction s as [|a r IH]; simpl; intros H.
  - rewrite orb_false_r in H. destruct p; [|discriminate].
    destruct t; reflexivity.
  - apply orb_true_iff in H. apply orb_true_iff. destruct H as [H|H].
    + left. change (a :: r ++ t) with ((a :: r) ++ t).
      now apply startswith_app.
    + right. now apply IH.
Qed.

Lemma contains_app_r p s t :
  contains p t = true -> contains p (s ++ t) = true.
Proof.
  intros H. induction s as [|a r IH]; simpl; [assumption|].
  rewrite IH. apply orb_true_r.
Qed.

Lemma contains_self p : contains p p = true.
Proof.
  destruct p as [|a r]; [reflexivity|]. simpl.
  rewrite Ascii.eqb_refl. simpl.
  assert (H : forall q, startswith q q = true).
  { induction q; simpl; [reflexivity|]. now rewrite Ascii.eqb_refl. }
  now rewrite H.
Qed.

(** *** [readlines] *)


Lemma no_break_cons c s :
  no_break (c :: s) <-> c <> NL /\ c <> CR /\ no_break s.
Proof.
  unfold no_break. simpl. split.
  - intros [H1 H2]. repeat split; intros H; auto.
  - intros [H1 [H2 [H3 H4]]]. split; intros [H|H]; auto.
Qed.

Lemma no_break_app a b : no_break (a ++ b) <-> no_break a /\ no_break b.
Proof.
  unfold no_break. split.
  - intros [H1 H2]. repeat split; intros H; [apply H1|apply H2|apply H1|apply H2];
      apply in_or_app; auto.
  - intros [[H1 H2] [H3 H4]]. split; intros H; apply in_app_or in H;
      destruct H; auto.
Qed.

Lemma eqb_neq_false (a b : ascii) : a <> b -> Ascii.eqb a b = false.
Proof. intros H. now apply Ascii.eqb_neq. Qed.

(** A line without line break, then its line feed. *)
Lemma readlines_line l rest :
  no_break l -> readlines (l ++ NL :: rest) = (l ++ [NL]) :: readlines rest.
Proof.
  induction l as [|c r IH]; intros H.
  - reflexivity.
  - apply no_break_cons in H. destruct H as [H1 [H2 H3]].
    cbn [app readlines].
    rewrite (eqb_neq_false _ _ H1), (eqb_neq_false _ _ H2), (IH H3). reflexivity.
Qed.

Lemma readlines_unlines ls rest :
  Forall no_break ls ->
  readlines (unlines ls ++ rest) = map (fun l => l ++ [NL]) ls ++ readlines rest.
Proof.
  unfold unlines. induction 1 as [|l ls Hl Hls IH]; [reflexivity|].
  cbn [map concat]. rewrite <- !app_assoc. cbn [app].
  rewrite readlines_line by assumption. rewrite IH. reflexivity.
Qed.


Lemma readlines_whole_lines lines rest :
  Forall whole_line lines ->
  readlines (concat lines ++ rest) = lines ++ readlines rest.
Proof.
  induction 1 as [|l ls [body [-> Hb]] Hls IH]; [reflexivity|].
  cbn [concat]. rewrite <- !app_assoc. cbn [app].
  rewrite readlines_line by assumption. rewrite IH. reflexivity.
Qed.

Lemma whole_line_unlines ls :
  Forall no_break ls -> Forall whole_line (map (fun l => l ++ [NL]) ls).
Proof.
  induction 1; constructor; [|assumption]. now exists x.
Qed.

Lemma concat_whole_lines_unlines ls :
  concat (map (fun l => l ++ [NL]) ls) = unlines ls.
Proof. reflexivity. Qed.

(** Writing back the lines read from a text without carriage return
    gives the text again. *)
Lemma writelines_readlines s :
  ~ In CR s -> writelines (readlines s) = s.
Proof.
  unfold writelines. induction s as [|c r IH]; intros H; [reflexivity|].
  assert (Hc : c <> CR) by (intros ->; apply H; now left).
  assert (Hr : ~ In CR r) by (intros Hin; apply H; now right).
  cbn [readlines]. destruct (Ascii.eqb c NL) eqn:E.
  - apply Ascii.eqb_eq in E. subst c. cbn [concat app]. now rewrite IH.
  - rewrite (eqb_neq_false _ _ Hc). specialize (IH Hr).
    destruct (readlines r) as [|l ls]; cbn [concat app] in *.
    + now rewrite <- IH.
    + now rewrite <- IH.
Qed.

(** *** [find_index] *)

Lemma find_index_none {A} (f : A -> bool) l :
  Forall (fun x => f x = false) l -> find_index f l = None.
Proof.
  induction 1 as [|x l Hx Hl IH]; simpl; [reflexivity|].
  now rewrite Hx, IH.
Qed.

Lemma find_index_first {A} (f : A -> bool) l1 y l2 :
  Forall (fun x => f x = false) l1 -> f y = true ->
  find_index f (l1 ++ y :: l2) = Some (length l1).
Proof.
  intros H Hy. induction H as [|x l Hx Hl IH]; simpl.
  - now rewrite Hy.
  - now rewrite Hx, IH.
Qed.

(** *** [split] and [strip] *)

Lemma split_on_first sep a b :
  ~ In sep a -> split_on sep (a ++ sep :: b) = a :: split_on sep b.
Proof.
  induction a as [|c r IH]; intros H; cbn [app split_on].
  - now rewrite Ascii.eqb_refl.
  - assert (Hc : c <> sep) by (intros ->; apply H; now left).
    rewrite (eqb_neq_false _ _ Hc), IH; [reflexivity|].
    intros Hin. apply H. now right.
Qed.

Lemma drop_while_spaces (pre s : str) :
  Forall (fun c => is_space c = true) pre ->
  drop_while is_space (pre ++ s) = drop_while is_space s.
Proof.
  induction 1 as [|c r Hc Hr IH]; [reflexivity|]. simpl. now rewrite Hc.
Qed.


Lemma strip_padded pre s post :
  Forall (fun c => is_space c = true) pre ->
  Forall (fun c => is_space c = true) post ->
  trimmed s -> s <> [] ->
  strip (pre ++ s ++ post) = s.
Proof.
  intros Hpre Hpost Ht Hne. unfold strip, lstrip, rstrip.
  rewrite drop_while_spaces by assumption.
  destruct s as [|c r]; [congruence|]. destruct Ht as [H1 H2].
  cbn [app drop_while]. rewrite H1.
  change (c :: r ++ post) with ((c :: r) ++ post).
  rewrite rev_app_distr, drop_while_spaces.
  2:{ apply Forall_rev. assumption. }
  destruct (exists_last (l := c :: r)) as [s' [l E]]; [discriminate|].
  rewrite E in *. rewrite last_last in H2.
  rewrite rev_app_distr. simpl. rewrite H2. simpl.
  now rewrite rev_involutive.
Qed.


(** ** The data part of a report, re-read *)

Section ReportText.

Variable exts : list str.

Lemma data_lines_app ls1 ns1 ls2 ns2 :
  data_lines exts ls1 ns1 -> data_lines exts ls2 ns2 ->
  data_lines exts (ls1 ++ ls2) (ns1 ++ ns2).
Proof.
  induction 1; intros H2; cbn [app];
    [assumption | apply data_inert | apply data_row]; auto.
Qed.

Lemma data_lines_whole ls ns :
  data_lines exts ls ns -> Forall whole_line ls.
Proof.
  induction 1 as [|l ls ns [Hw _] _ IH|n l ls ns [Hw _] _ IH];
    constructor; assumption.
Qed.

Lemma data_lines_no_marker ls ns :
  data_lines exts ls ns ->
  Forall (fun l => contains "FINAL STATISTICS:" l = false) ls.
Proof.
  induction 1 as [|l ls ns [_ [Hm _]] _ IH|n l ls ns [_ [Hm _]] _ IH];
    constructor; assumption.
Qed.

Lemma data_lines_extract ls ns acc :
  data_lines exts ls ns ->
  fold_left (extract_line exts) ls acc = add_all ns acc.
Proof.
  intros H. revert acc.
  induction H as [|l ls ns [_ [_ He]] _ IH|n l ls ns [_ [_ He]] _ IH];
    intros acc; cbn [fold_left add_all]; [reflexivity| |].
  - rewrite He. apply IH.
  - rewrite He. apply IH.
Qed.

Lemma whole_line_no_cr ls :
  Forall whole_line ls -> ~ In CR (concat ls).
Proof.
  induction 1 as [|l ls [body [-> [_ Hb]]] _ IH]; cbn [concat].
  - intros [].
  - intros H. apply in_app_or in H. destruct H as [H|H]; [|auto].
    apply in_app_or in H. destruct H as [H|[H|[]]]; [auto|discriminate].
Qed.



(** The final statistics start with an empty line and the marker. *)
Lemma readlines_finished ls ns more :
  data_lines exts ls ns ->
  readlines (concat ls ++ unlines ("" :: "FINAL STATISTICS:" :: more))
  = ls ++ [NL] :: ("FINAL STATISTICS:" ++ [NL]) :: readlines (unlines more).
Proof.
  intros H. apply data_lines_whole in H.
  rewrite readlines_whole_lines by assumption. reflexivity.
Qed.

Lemma blank_line_inert : inert_line exts [NL].
Proof.
  split; [|split].
  - exists []. split; [reflexivity|]. split; intros [].
  - reflexivity.
  - intros acc. reflexivity.
Qed.

Lemma final_stats_index_finished ls ns rest :
  data_lines exts ls ns ->
  final_stats_index (ls ++ [NL] :: ("FINAL STATISTICS:" ++ [NL]) :: rest)
  = Some (S (length ls)).
Proof.
  intros H.
  change (ls ++ [NL] :: ("FINAL STATISTICS:" ++ [NL]) :: rest)
    with (ls ++ [[NL]] ++ ("FINAL STATISTICS:" ++ [NL]) :: rest).
  rewrite app_assoc. unfold final_stats_index.
  rewrite find_index_first.
  - rewrite length_app. cbn [length]. now rewrite Nat.add_1_r.
  - apply Forall_app. split; [eapply data_lines_no_marker; eauto|].
    constructor; [reflexivity|constructor].
  - reflexivity.
Qed.

(** Membership in the set built by [add_all]. *)
Lemma mem_In x s : mem x s = true <-> In x s.
Proof.
  unfold mem. rewrite existsb_exists. split.
  - intros [y [Hin H]]. apply str_eqb_eq in H. now subst.
  - intros H. exists x. split; [assumption|]. now apply str_eqb_eq.
Qed.

Lemma set_add_In x n s : In x (set_add n s) <-> x = n \/ In x s.
Proof.
  unfold set_add. destruct (mem n s) eqn:E.
  - apply mem_In in E. split; [auto|]. intros [->|H]; assumption.
  - rewrite in_app_iff. simpl. split.
    + intros [H|[H|[]]]; auto.
    + intros [H|H]; auto.
Qed.

Lemma add_all_In x ns acc : In x (add_all ns acc) <-> In x ns \/ In x acc.
Proof.
  revert acc. induction ns as [|n r IH]; intros acc; cbn [add_all fold_left].
  - simpl. split; [auto|]. intros [[]|H]; assumption.
  - fold (add_all r (set_add n acc)). rewrite IH, set_add_In. simpl.
    split; intros H; repeat destruct H as [H|H]; auto.
Qed.


(** Re-reading a finished report: the text is cut at the marker, and the
    empty line before the marker stays. *)
Lemma prepare_finished ls ns more :
  data_lines exts ls ns ->
  prepare_output_file
    (Some (concat ls ++ unlines ("" :: "FINAL STATISTICS:" :: more))) true
  = (true, concat ls ++ [NL]).
Proof.
  intros H. unfold prepare_output_file.
  rewrite (readlines_finished _ _ more H), (final_stats_index_finished _ _ _ H).
  rewrite firstn_app, firstn_all2 by lia.
  replace (S (length ls) - length ls)%nat with 1%nat by lia.
  unfold writelines. cbn [firstn]. rewrite concat_app. reflexivity.
Qed.

End ReportText.


(** ** Result lines and header lines *)

Lemma forallb_In (f : ascii -> bool) s c :
  forallb f s = true -> In c s -> f c = true.
Proof. intros H Hin. rewrite forallb_forall in H. auto. Qed.

Lemma no_break_forallb s : forallb line_char s = true -> no_break s.
Proof.
  intros H. split; intros Hin; apply (forallb_In _ _ _ H) in Hin; discriminate.
Qed.

Lemma field_line_char c : field_char c = true -> line_char c = true.
Proof.
  unfold field_char, line_char. intros H. apply negb_true_iff in H.
  apply negb_true_iff. apply orb_false_iff in H. destruct H as [H _].
  apply orb_false_iff in H. destruct H as [H _]. exact H.
Qed.

Lemma forallb_impl (f g : ascii -> bool) s :
  (forall c, f c = true -> g c = true) ->
  forallb f s = true -> forallb g s = true.
Proof.
  intros Hfg H. apply forallb_forall. intros c Hin. apply Hfg.
  eapply forallb_In; eauto.
Qed.

Lemma forallb_repeat (f : ascii -> bool) c n :
  f c = true -> forallb f (repeat c n) = true.
Proof. intros H. induction n; simpl; [reflexivity|]. now rewrite H. Qed.

Lemma forallb_ljust (f : ascii -> bool) w s :
  f " "%char = true -> forallb f s = true -> forallb f (ljust w s) = true.
Proof.
  intros Hsp H. unfold ljust. rewrite forallb_app, H. simpl.
  now apply forallb_repeat.
Qed.

Lemma forallb_join (f : ascii -> bool) sep parts :
  forallb f sep = true ->
  Forall (fun p => forallb f p = true) parts ->
  forallb f (join sep parts) = true.
Proof.
  intros Hsep H. induction H as [|p ps Hp Hps IH]; [reflexivity|].
  destruct ps as [|q qs]; [exact Hp|].
  change (join sep (p :: q :: qs)) with (p ++ sep ++ join sep (q :: qs)).
  now rewrite !forallb_app, Hp, Hsep, IH.
Qed.

Lemma row_char_not_colon s : forallb row_char s = true -> ~ In ":"%char s.
Proof. intros H Hin. apply (forallb_In _ _ _ H) in Hin. discriminate. Qed.

Lemma row_char_line s : forallb row_char s = true -> no_break s.
Proof.
  intros H. split; intros Hin; apply (forallb_In _ _ _ H) in Hin; discriminate.
Qed.

Lemma field_char_no_bar s : forallb field_char s = true -> ~ In "|"%char s.
Proof. intros H Hin. apply (forallb_In _ _ _ H) in Hin. discriminate. Qed.

Lemma has_ext_app exts a s b :
  has_ext exts s = true -> has_ext exts (a ++ s ++ b) = true.
Proof.
  unfold has_ext. rewrite !existsb_exists. intros [e [Hin H]].
  exists e. split; [assumption|].
  apply contains_app_r. now apply contains_app_l.
Qed.

Lemma has_ext_nonempty exts s :
  Forall (fun e => e <> []) exts -> has_ext exts s = true -> s <> [].
Proof.
  unfold has_ext. rewrite existsb_exists. intros He [e [Hin H]] ->.
  rewrite Forall_forall in He. specialize (He e Hin).
  destruct e; [congruence|discriminate].
Qed.

Section Rows.

Variable exts : list str.
Hypothesis exts_nonempty : Forall (fun e => e <> []) exts.

(** A line whose second field is the padded file name is read back as
    the result line of that name. *)
Lemma result_row_shape category name rest :
  forallb field_char category = true ->
  plain_name exts name ->
  Forall (fun p => forallb field_char p = true) rest ->
  rest <> [] ->
  result_row exts name
    (join " | " (ljust 12 category :: ljust 35 name :: rest) ++ [NL]).
Proof.
  intros Hcat [Hname [Htrim Hext]] Hrest Hne.
  assert (Hfields : Forall (fun p => forallb row_char p = true)
                      (ljust 12 category :: ljust 35 name :: rest)).
  { assert (Hi : forall s, forallb field_char s = true ->
                           forallb row_char s = true).
    { intros s. apply forallb_impl. intros c Hc. unfold row_char.
      now rewrite Hc. }
    constructor; [apply Hi; now apply forallb_ljust|].
    constructor; [apply Hi; now apply forallb_ljust|].
    eapply Forall_impl; [|exact Hrest]. exact Hi. }
  assert (Hbody : forallb row_char
                    (join " | " (ljust 12 category :: ljust 35 name :: rest))
                  = true).
  { now apply forallb_join. }
  destruct rest as [|f3 rest']; [congruence|].
  set (tail := join " | " (f3 :: rest')) in *.
  assert (Hjoin : join " | " (ljust 12 category :: ljust 35 name :: f3 :: rest')
                  = (ljust 12 category ++ " ") ++ "|"%char
                    :: (" " ++ ljust 35 name ++ " ") ++ "|"%char
                    :: " " ++ tail).
  { change (join " | " (ljust 12 category :: ljust 35 name :: f3 :: rest'))
      with (ljust 12 category ++ " | " ++ ljust 35 name ++ " | " ++ tail).
    rewrite <- !app_assoc. reflexivity. }
  split; [|split].
  - eexists. split; [reflexivity|]. now apply row_char_line.
  - apply contains_absent with (c := ":"%char); [vm_compute; tauto|].
    intros Hin. apply in_app_or in Hin. destruct Hin as [Hin|[Hin|[]]].
    + now apply (row_char_not_colon _ Hbody).
    + discriminate.
  - intros acc. unfold extract_line.
    assert (Hbar : contains "|"
                     (join " | " (ljust 12 category :: ljust 35 name
                                  :: f3 :: rest') ++ [NL]) = true).
    { rewrite Hjoin. apply contains_app_l. apply contains_app_r. reflexivity. }
    assert (Hx : has_ext exts
                   (join " | " (ljust 12 category :: ljust 35 name
                                :: f3 :: rest') ++ [NL]) = true).
    { change (join " | " (ljust 12 category :: ljust 35 name :: f3 :: rest'))
        with (ljust 12 category ++ " | " ++ ljust 35 name ++ " | " ++ tail).
      unfold ljust at 2.
      replace ((ljust 12 category ++ " | " ++
                (name ++ repeat " "%char (35 - length name)) ++ " | " ++ tail)
               ++ [NL])
        with ((ljust 12 category ++ " | ") ++ name
              ++ (repeat " "%char (35 - length name) ++ " | " ++ tail ++ [NL]))
        by (rewrite <- !app_assoc; reflexivity).
      now apply has_ext_app. }
    rewrite Hbar, Hx. cbn [andb].
    rewrite Hjoin. rewrite <- app_assoc. cbn [app].
    rewrite split_on_first.
    2:{ intros Hin. apply in_app_or in Hin. destruct Hin as [Hin|[Hin|[]]].
        - revert Hin. apply field_char_no_bar. now apply forallb_ljust.
        - discriminate. }
    rewrite <- (app_assoc (ljust 35 name ++ " ")).
    match goal with
    | |- context [split_on "|"%char ?x] =>
        change x with ((" "%char :: ljust 35 name ++ " ")
                       ++ "|"%char :: (" "%char :: tail ++ [NL]))
    end.
    rewrite (split_on_first "|"%char (" "%char :: ljust 35 name ++ " ")).
    2:{ intros [Hin|Hin]; [discriminate|].
        apply in_app_or in Hin. destruct Hin as [Hin|[Hin|[]]].
        - revert Hin. apply field_char_no_bar. now apply forallb_ljust.
        - discriminate. }
    cbn [length Nat.leb nth].
    assert (Hstrip : strip (" "%char :: ljust 35 name ++ " ") = name).
    { unfold ljust. rewrite <- app_assoc.
      change (" "%char :: name ++ repeat " "%char (35 - length name) ++ " ")
        with (" " ++ name ++ (repeat " "%char (35 - length name) ++ " ")).
      apply strip_padded.
      - repeat constructor.
      - apply Forall_app. split; [|repeat constructor].
        apply Forall_forall. intros c Hin. apply repeat_spec in Hin.
        now subst.
      - exact Htrim.
      - eapply has_ext_nonempty; eauto. }
    rewrite Hstrip, Hext. reflexivity.
Qed.

End Rows.


(** ** The fields of a result line *)

Lemma num_field_char c : num_char c = true -> field_char c = true.
Proof. char_cases c. Qed.

Lemma digit_num_char c : is_digit c = true -> num_char c = true.
Proof. unfold num_char. now intros ->. Qed.

Lemma str_of_uint_digits d : forallb is_digit (str_of_uint d) = true.
Proof. induction d; simpl; auto. Qed.

Lemma str_of_Z_num z : forallb num_char (str_of_Z z) = true.
Proof.
  destruct z as [|p|p]; [reflexivity| |].
  - apply forallb_impl with (f := is_digit); [apply digit_num_char|].
    apply str_of_uint_digits.
  - cbn [str_of_Z forallb]. apply andb_true_iff. split; [reflexivity|].
    apply forallb_impl with (f := is_digit); [apply digit_num_char|].
    apply str_of_uint_digits.
Qed.

Lemma fixed6_num q : forallb num_char (fixed6 q) = true.
Proof.
  unfold fixed6, zfill.
  assert (H1 : forallb num_char (if Qnum q <? 0 then "-" else "") = true)
    by (destruct (Qnum q <? 0); reflexivity).
  assert (H2 : forallb num_char "." = true) by reflexivity.
  assert (H3 : forall n, forallb num_char (repeat "0"%char n) = true)
    by (intros n; now apply forallb_repeat).
  now rewrite !forallb_app, H1, H2, H3, !str_of_Z_num.
Qed.

Lemma str_of_Z_field z : forallb field_char (str_of_Z z) = true.
Proof.
  apply forallb_impl with (f := num_char);
    [apply num_field_char | apply str_of_Z_num].
Qed.

Lemma fixed6_field q : forallb field_char (fixed6 q) = true.
Proof.
  apply forallb_impl with (f := num_char);
    [apply num_field_char | apply fixed6_num].
Qed.

Lemma status_name_field s : forallb field_char (status_name s) = true.
Proof. destruct s; reflexivity. Qed.

Lemma ljust_field w s :
  forallb field_char s = true -> forallb field_char (ljust w s) = true.
Proof. now apply forallb_ljust. Qed.

Lemma extract_category_in_field names path :
  Forall (fun n => forallb field_char n = true) names ->
  forallb field_char (extract_category_in names path) = true.
Proof.
  intros H. unfold extract_category_in.
  destruct (find _ (path_parts path)) as [part|] eqn:E; [|reflexivity].
  apply find_some in E. destruct E as [_ E]. apply mem_In in E.
  rewrite Forall_forall in H. now apply H.
Qed.

Lemma clique_category_field path :
  forallb field_char (Clique.extract_category path) = true.
Proof.
  apply extract_category_in_field. repeat constructor.
Qed.

Lemma sat_category_field path :
  forallb field_char (Sat.extract_category path) = true.
Proof.
  apply extract_category_in_field. repeat constructor.
Qed.

Ltac fields :=
  repeat first
    [ apply Forall_nil
    | apply Forall_cons
    | apply Forall_app; split
    | apply ljust_field
    | apply str_of_Z_field
    | apply fixed6_field
    | apply status_name_field
    | reflexivity ].

Lemma inr_eq {E A} (a b : A) : @inr E A a = inr b -> a = b.
Proof. congruence. Qed.

(** A result line of the clique driver is the padded category, the
    padded file name and further fields, joined by bars. *)
Lemma clique_result_line_shape cfg category r line :
  Clique.result_line cfg category r = inr line ->
  exists rest,
    line = join " | " (ljust 12 category :: ljust 35 (Clique.file r) :: rest)
           ++ [NL]
    /\ Forall (fun p => forallb field_char p = true) rest
    /\ rest <> [].
Proof.
  unfold Clique.result_line.
  destruct (Clique.has_reduction cfg);
    [destruct (Clique.reduction_result r) as [[[rs rt] rc]|];
     [|discriminate]|];
    cbn [bind ret]; intros H; apply inr_eq in H; subst line;
    eexists; (split; [reflexivity|]); (split; [|discriminate]);
    destruct (Clique.save_urs cfg); cbn [app fst snd]; fields.
Qed.

Lemma sat_result_line_shape cfg category r line :
  Sat.result_line cfg category r = inr line ->
  exists rest,
    line = join " | " (ljust 12 category :: ljust 35 (Sat.file r) :: rest)
           ++ [NL]
    /\ Forall (fun p => forallb field_char p = true) rest
    /\ rest <> [].
Proof.
  unfold Sat.result_line.
  destruct (Sat.has_reduction cfg);
    [destruct (Sat.reduction_result r) as [[rs rt]|]; [|discriminate]|];
    cbn [bind ret]; intros H; apply inr_eq in H; subst line;
    eexists; (split; [reflexivity|]); (split; [|discriminate]);
    cbn [app fst snd]; fields.
Qed.


(** ** Header lines *)

Lemma inert_check exts body :
  forallb line_char body = true ->
  contains "FINAL STATISTICS:" (body ++ [NL]) = false ->
  contains "|" (body ++ [NL]) && has_ext exts (body ++ [NL]) = false ->
  inert_line exts (body ++ [NL]).
Proof.
  intros H1 H2 H3. split; [|split].
  - exists body. split; [reflexivity|]. now apply no_break_forallb.
  - exact H2.
  - intros acc. unfold extract_line. now rewrite H3.
Qed.

Lemma stamp_line_char c : stamp_char c = true -> line_char c = true.
Proof. char_cases c. Qed.

(** The line of the time stamp is inert whatever the time. *)
Lemma inert_started exts label now :
  forallb stamp_char now = true ->
  forallb line_char label = true ->
  ~ In "F"%char label -> ~ In "|"%char label ->
  inert_line exts ((label ++ now) ++ [NL]).
Proof.
  intros Hnow Hl HF Hbar.
  assert (HnF : ~ In "F"%char ((label ++ now) ++ [NL])).
  { intros Hin. apply in_app_or in Hin. destruct Hin as [Hin|[Hin|[]]];
      [|discriminate].
    apply in_app_or in Hin. destruct Hin as [Hin|Hin]; [auto|].
    apply (forallb_In _ _ _ Hnow) in Hin. discriminate. }
  assert (Hnb : ~ In "|"%char ((label ++ now) ++ [NL])).
  { intros Hin. apply in_app_or in Hin. destruct Hin as [Hin|[Hin|[]]];
      [|discriminate].
    apply in_app_or in Hin. destruct Hin as [Hin|Hin]; [auto|].
    apply (forallb_In _ _ _ Hnow) in Hin. discriminate. }
  apply inert_check.
  - rewrite forallb_app, Hl. simpl.
    eapply forallb_impl; [apply stamp_line_char | exact Hnow].
  - apply contains_absent with (c := "F"%char); [now left | exact HnF].
  - rewrite (contains_absent "|" _ "|"%char); [reflexivity|now left|exact Hnb].
Qed.

Lemma inert_lines exts hs :
  Forall (fun h => inert_line exts (h ++ [NL])) hs ->
  data_lines exts (map (fun h => h ++ [NL]) hs) [].
Proof.
  induction 1; cbn [map]; [constructor|]. now apply data_inert.
Qed.

Ltac inert_header Hnow :=
  repeat (apply Forall_cons;
          [first [ apply (inert_started _ "Started: " _);
                   [exact Hnow | reflexivity
                   | simpl; intuition discriminate
                   | simpl; intuition discriminate]
                 | apply inert_check; vm_compute; reflexivity ]
          |]);
  apply Forall_nil.

(** The header of the clique driver is made of inert lines. *)
Lemma clique_header_inert red save now :
  forallb stamp_char now = true ->
  exists hs,
    Clique.write_header red save now = unlines hs
    /\ Forall (fun h => inert_line Clique.exts (h ++ [NL])) hs.
Proof.
  intros Hnow. unfold Clique.write_header. cbv zeta.
  eexists. split; [reflexivity|].
  destruct red, save; cbn [app]; inert_header Hnow.
Qed.

(** The header of the SAT driver is made of inert lines. *)
Lemma sat_header_inert red save now :
  forallb stamp_char now = true ->
  exists hs,
    Sat.write_header red save now = unlines hs
    /\ Forall (fun h => inert_line Sat.exts (h ++ [NL])) hs.
Proof.
  intros Hnow. unfold Sat.write_header. cbv zeta.
  eexists. split; [reflexivity|].
  destruct red, save; cbn [app]; inert_header Hnow.
Qed.

Lemma header_data exts header hs :
  header = unlines hs ->
  Forall (fun h => inert_line exts (h ++ [NL])) hs ->
  exists ls, header = concat ls /\ data_lines exts ls [].
Proof.
  intros -> H. exists (map (fun h => h ++ [NL]) hs). split; [reflexivity|].
  now apply inert_lines.
Qed.


(** ** One run of the clique driver *)

Section CliqueRun.

Variable cfg : Clique.config.
Variable w : Clique.world.

Lemma clique_resume_has_reduction :
  Clique.has_reduction (clique_resume_config cfg) = Clique.has_reduction cfg.
Proof. reflexivity. Qed.

(** A file outside the processed set is benchmarked by the resumed run
    as by a run from scratch. *)
Lemma clique_file_resume p f :
  mem (basename f) p = false ->
  Clique.benchmark_file (clique_resume_config cfg) w p f
  = Clique.benchmark_file cfg w [] f.
Proof.
  intros H. unfold Clique.benchmark_file.
  cbn [Clique.continue_mode clique_resume_config mem existsb].
  rewrite H, !andb_false_r. reflexivity.
Qed.

Lemma clique_step_resume p st f :
  mem (basename f) p = false ->
  Clique.benchmark_step (clique_resume_config cfg) w p st f
  = Clique.benchmark_step cfg w [] st f.
Proof.
  intros H. unfold Clique.benchmark_step.
  now rewrite clique_file_resume, clique_resume_has_reduction.
Qed.

Lemma clique_loop_resume p files st :
  Forall (fun f => mem (basename f) p = false) files ->
  Clique.benchmark_loop (clique_resume_config cfg) w p files st
  = Clique.benchmark_loop cfg w [] files st.
Proof.
  intros H. revert st. induction H as [|f r Hf Hr IH]; intros st;
    cbn [Clique.benchmark_loop]; [reflexivity|].
  rewrite clique_step_resume by assumption.
  destruct (Clique.benchmark_step cfg w [] st f); [reflexivity|apply IH].
Qed.

(** What was written before the loop only stands in front. *)
Lemma clique_step_prefix p c x s f :
  Clique.benchmark_step cfg w p
    {| Clique.written := c ++ x; Clique.counted := s |} f
  = match Clique.benchmark_step cfg w p
            {| Clique.written := x; Clique.counted := s |} f with
    | inl e => inl e
    | inr st => inr {| Clique.written := c ++ Clique.written st;
                       Clique.counted := Clique.counted st |}
    end.
Proof.
  unfold Clique.benchmark_step.
  destruct (Clique.benchmark_file cfg w p f) as [e|[r|]]; cbn [bind ret];
    [reflexivity| |reflexivity].
  cbn [Clique.counted Clique.written].
  destruct (Clique.update_stats s r (Clique.has_reduction cfg)) as [e|s'];
    cbn [bind]; [reflexivity|].
  destruct (Clique.result_line cfg (Clique.extract_category f) r) as [e|l];
    cbn [bind]; [reflexivity|].
  cbn [Clique.counted Clique.written ret]. now rewrite app_assoc.
Qed.

Lemma clique_loop_prefix p files c x s :
  Clique.benchmark_loop cfg w p files
    {| Clique.written := c ++ x; Clique.counted := s |}
  = let r := Clique.benchmark_loop cfg w p files
               {| Clique.written := x; Clique.counted := s |} in
    ({| Clique.written := c ++ Clique.written (fst r);
        Clique.counted := Clique.counted (fst r) |}, snd r).
Proof.
  revert x s. induction files as [|f r IH]; intros x s;
    cbn [Clique.benchmark_loop]; [reflexivity|].
  rewrite clique_step_prefix.
  destruct (Clique.benchmark_step cfg w p
              {| Clique.written := x; Clique.counted := s |} f) as [e|[x' s']];
    [reflexivity|].
  cbn [Clique.written Clique.counted]. apply IH.
Qed.

(** Every call of [benchmark_file] returns when Cliquer does. *)
Lemma clique_file_total p f :
  (exists v, Clique.run_cliquer (Clique.timeout cfg)
               (Clique.cliquer_child w f) = inr v) ->
  exists o, Clique.benchmark_file cfg w p f = inr o.
Proof.
  intros [v Hv]. unfold Clique.benchmark_file.
  destruct (Clique.continue_mode cfg && mem (basename f) p); [eauto|].
  destruct (bind (Clique.read_text w f) Clique.parse_dimacs_graph)
    as [e|[[nv ne] es]]; [eauto|].
  unfold Clique.run_with_template.
  destruct (clique_run_ursa_total (Clique.timeout cfg)
              (Clique.ursa_child w
                 (Clique.generate_urs_code nv es (Clique.solver_template cfg))))
    as [[[us ut] uc] Hu].
  rewrite Hu, Hv. destruct v as [[cs ct] cc]. cbn [bind].
  destruct (Clique.has_reduction cfg); [|eexists; reflexivity].
  match goal with
  | |- context [Clique.run_ursa ?t ?p] =>
      destruct (clique_run_ursa_total t p) as [[[rs rt] rc] Hr]
  end.
  rewrite Hr. eexists. reflexivity.
Qed.

(** A result carries the base name of its file, and the reduction fields
    exactly when a reduction template is configured. *)
Lemma clique_file_result p f r :
  Clique.benchmark_file cfg w p f = inr (Some r) ->
  Clique.file r = basename f
  /\ (if Clique.has_reduction cfg
      then exists x, Clique.reduction_result r = Some x
      else Clique.reduction_result r = None).
Proof.
  unfold Clique.benchmark_file.
  destruct (Clique.continue_mode cfg && mem (basename f) p); [discriminate|].
  destruct (bind (Clique.read_text w f) Clique.parse_dimacs_graph)
    as [e|[[nv ne] es]]; [discriminate|].
  destruct (Clique.run_with_template cfg w nv es (Clique.solver_template cfg))
    as [e|[[us ut] uc]]; cbn [bind]; [discriminate|].
  destruct (Clique.run_cliquer (Clique.timeout cfg) (Clique.cliquer_child w f))
    as [e|[[cs ct] cc]]; cbn [bind]; [discriminate|].
  destruct (Clique.has_reduction cfg).
  - destruct (Clique.run_with_template cfg w nv es _) as [e|x];
      cbn [bind ret]; [discriminate|].
    intros H. apply inr_eq in H. injection H as <-. cbn. eauto.
  - cbn [bind ret]. intros H. apply inr_eq in H. injection H as <-. cbn. auto.
Qed.

Lemma clique_update_ok s r :
  (if Clique.has_reduction cfg
   then exists x, Clique.reduction_result r = Some x
   else Clique.reduction_result r = None) ->
  exists s',
    Clique.update_stats s r (Clique.has_reduction cfg) = inr s'
    /\ Clique.total s' = Clique.total s + 1
    /\ (clique_no_extra s -> clique_no_extra s').
Proof.
  intros H. unfold Clique.update_stats, clique_no_extra.
  assert (Hx : forall k t,
             Clique.CliquerTally.extra_not_found
               (Clique.count_cliquer_status k t)
             = Clique.CliquerTally.extra_not_found t).
  { intros k t. unfold Clique.count_cliquer_status.
    destruct (str_eqb k "found"); [reflexivity|].
    destruct (str_eqb k "timeout"); reflexivity. }
  destruct (Clique.has_reduction cfg).
  - destruct H as [[[rs rt] rc] ->]. eexists. split; [reflexivity|].
    cbn [Clique.total Clique.cliquer]. rewrite Hx. auto.
  - eexists. split; [reflexivity|].
    cbn [Clique.total Clique.cliquer]. rewrite Hx. auto.
Qed.

Lemma clique_line_ok category r :
  (if Clique.has_reduction cfg
   then exists x, Clique.reduction_result r = Some x
   else Clique.reduction_result r = None) ->
  exists line, Clique.result_line cfg category r = inr line.
Proof.
  intros H. unfold Clique.result_line.
  destruct (Clique.has_reduction cfg).
  - destruct H as [x ->]. eexists. reflexivity.
  - eexists. reflexivity.
Qed.

(** One iteration of the loop on a file that is not skipped: either the
    file gets no result and nothing changes, or one result line of its
    name is appended and the total grows by one. *)
Lemma clique_step_spec st f :
  (exists v, Clique.run_cliquer (Clique.timeout cfg)
               (Clique.cliquer_child w f) = inr v) ->
  plain_name Clique.exts (basename f) ->
  if clique_done cfg w f
  then exists line s',
      Clique.benchmark_step cfg w [] st f
      = inr {| Clique.written := Clique.written st ++ line;
               Clique.counted := s' |}
      /\ result_row Clique.exts (basename f) line
      /\ Clique.total s' = Clique.total (Clique.counted st) + 1
      /\ (clique_no_extra (Clique.counted st) -> clique_no_extra s')
  else Clique.benchmark_step cfg w [] st f = inr st.
Proof.
  intros Hcalm Hname. unfold clique_done, Clique.benchmark_step.
  destruct (clique_file_total [] f Hcalm) as [o Ho]. rewrite Ho.
  destruct o as [r|]; [|reflexivity]. cbn [bind].
  destruct (clique_file_result [] f r Ho) as [Hfile Hred].
  destruct (clique_update_ok (Clique.counted st) r Hred) as [s' [Hs [Ht Hx]]].
  destruct (clique_line_ok (Clique.extract_category f) r Hred) as [line Hl].
  rewrite Hs, Hl. cbn [bind ret]. exists line, s'.
  split; [reflexivity|]. split; [|auto].
  destruct (clique_result_line_shape _ _ _ _ Hl) as [rest [-> [Hrest Hne]]].
  rewrite Hfile. apply result_row_shape; auto.
  - repeat constructor; discriminate.
  - apply clique_category_field.
Qed.

(** The loop over files none of which is skipped. *)
Lemma clique_loop_spec files :
  clique_calm cfg w files ->
  Forall (fun f => plain_name Clique.exts (basename f)) files ->
  forall st,
  exists ls st',
    Clique.benchmark_loop cfg w [] files st = (st', None)
    /\ Clique.written st' = Clique.written st ++ concat ls
    /\ data_lines Clique.exts ls
         (map basename (filter (clique_done cfg w) files))
    /\ Clique.total (Clique.counted st')
       = Clique.total (Clique.counted st)
         + Z.of_nat (length (filter (clique_done cfg w) files))
    /\ (clique_no_extra (Clique.counted st) ->
        clique_no_extra (Clique.counted st')).
Proof.
  intros Hcalm Hnames. induction Hnames as [|f r Hf Hr IH]; intros st.
  - exists [], st. cbn. rewrite app_nil_r, Z.add_0_r.
    repeat split; auto. constructor.
  - assert (Hcf : exists v, Clique.run_cliquer (Clique.timeout cfg)
                              (Clique.cliquer_child w f) = inr v)
      by (apply Hcalm; now left).
    assert (Hcr : clique_calm cfg w r)
      by (intros g Hg; apply Hcalm; now right).
    pose proof (clique_step_spec st f Hcf Hf) as Hstep.
    cbn [Clique.benchmark_loop filter].
    destruct (clique_done cfg w f).
    + destruct Hstep as [line [s' [Hs [Hrow [Ht Hx]]]]]. rewrite Hs.
      destruct (IH Hcr {| Clique.written := Clique.written st ++ line;
                          Clique.counted := s' |})
        as [ls [st' [Hl [Hw [Hd [Htot Hx']]]]]].
      exists (line :: ls), st'. cbn [Clique.written Clique.counted] in *.
      split; [exact Hl|]. split; [|split; [|split]].
      * rewrite Hw. cbn [concat]. now rewrite app_assoc.
      * cbn [map]. now apply data_row.
      * rewrite Htot, Ht. cbn [length]. lia.
      * auto.
    + rewrite Hstep. apply IH. exact Hcr.
Qed.

End CliqueRun.


(** ** Interruption and resumption, clique driver *)

Lemma In_firstn {A} (x : A) k l : In x (firstn k l) -> In x l.
Proof.
  revert l. induction k as [|k IH]; intros [|a l]; simpl; try tauto.
  intros [H|H]; auto.
Qed.

Lemma filter_files_fresh files cm : filter_files files [] cm = files.
Proof.
  unfold filter_files. induction files as [|f r IH]; [reflexivity|].
  cbn [filter]. replace (mem (basename f) []) with false by reflexivity.
  rewrite andb_false_r. cbn [negb]. f_equal. exact IH.
Qed.

Lemma filter_files_In files processed f :
  In f (filter_files files processed true)
  <-> In f files /\ mem (basename f) processed = false.
Proof.
  unfold filter_files. rewrite filter_In. cbn [andb].
  now rewrite negb_true_iff.
Qed.

Lemma final_statistics_head_clique s red now :
  exists more,
    Clique.write_final_statistics s red now
    = unlines ("" :: "FINAL STATISTICS:" :: more).
Proof. unfold Clique.write_final_statistics. cbn [app]. eauto. Qed.



Lemma clique_combine_empty s :
  clique_no_extra s ->
  Clique.combine_stats Clique._initialize_empty_stats s = inr s.
Proof.
  unfold clique_no_extra.
  destruct s as [t [uf un ut ue] [cf ct ce cx] [rf rn rt re]].
  cbn. intros ->. reflexivity.
Qed.

Section CliqueResume.

Variable cfg : Clique.config.
Variable w : Clique.world.
Variable files : list str.
Variables started completed started' completed' : str.
Variable k : nat.

Hypothesis names_plain :
  Forall (fun f => plain_name Clique.exts (basename f)) files.
Hypothesis stamp_plain : forallb stamp_char started = true.
Hypothesis calm : clique_calm cfg w files.

(** The pass over a part of the files. *)
Lemma clique_pass_spec l :
  (forall f, In f l -> In f files) ->
  exists ls,
    Clique.benchmark_loop cfg w [] l clique_blank = (clique_pass cfg w l, None)
    /\ Clique.written (clique_pass cfg w l) = concat ls
    /\ data_lines Clique.exts ls (map basename (filter (clique_done cfg w) l))
    /\ Clique.total (Clique.counted (clique_pass cfg w l))
       = Z.of_nat (length (filter (clique_done cfg w) l))
    /\ clique_no_extra (Clique.counted (clique_pass cfg w l)).
Proof.
  intros Hincl.
  assert (Hc : clique_calm cfg w l) by (intros f Hf; apply calm; auto).
  assert (Hn : Forall (fun f => plain_name Clique.exts (basename f)) l).
  { rewrite Forall_forall in *. auto. }
  destruct (clique_loop_spec cfg w l Hc Hn clique_blank)
    as [ls [st' [Hl [Hw [Hd [Ht Hx]]]]]].
  exists ls. unfold clique_pass. rewrite Hl. cbn [fst].
  repeat split; auto. apply Hx. reflexivity.
Qed.

Lemma clique_start_fresh :
  Clique.start_run cfg None files started
  = ([], Clique._initialize_empty_stats, files,
     {| Clique.written :=
          Clique.write_header (Clique.has_reduction cfg) (Clique.save_urs cfg)
            started;
        Clique.counted := Clique._initialize_empty_stats |}).
Proof.
  unfold Clique.start_run, Clique.load_or_init_stats,
    Clique.load_existing_results, prepare_output_file.
  destruct (Clique.continue_mode cfg); now rewrite filter_files_fresh.
Qed.

(** The loop started on a text, over files that are not skipped. *)
Lemma clique_loop_on c l :
  (forall f, In f l -> In f files) ->
  Clique.benchmark_loop cfg w [] l
    {| Clique.written := c; Clique.counted := Clique._initialize_empty_stats |}
  = ({| Clique.written := c ++ Clique.written (clique_pass cfg w l);
        Clique.counted := Clique.counted (clique_pass cfg w l) |}, None).
Proof.
  intros Hincl. destruct (clique_pass_spec l Hincl) as [ls [Hl _]].
  rewrite <- (app_nil_r c) at 1. rewrite clique_loop_prefix.
  fold clique_blank. rewrite Hl. reflexivity.
Qed.


End CliqueResume.


(** ** One run of the SAT driver *)

Lemma sat_run_ursa_status T p st t :
  Sat.run_ursa T p = inr (st, t) -> ursa_key st = true.
Proof.
  unfold Sat.run_ursa, popen, communicate, call.
  destruct (spawn p); cbn; [intros H; injection H as <- _; reflexivity|].
  destruct (wait p) as [rc out el| |f]; cbn.
  - destruct (rc =? 0); [|intros H; injection H as <- _; reflexivity].
    destruct (is_sat_output out);
      [intros H; injection H as <- _; reflexivity|].
    destruct (is_unsat_output out); intros H; injection H as <- _;
      reflexivity.
  - destruct (kill p); cbn; [intros H; injection H as <- _; reflexivity|].
    destruct (drain p); cbn; intros H; injection H as <- _; reflexivity.
  - intros H; injection H as <- _; reflexivity.
Qed.

Lemma sat_run_minisat_status T p st t :
  Sat.run_minisat T p = inr (st, t) -> minisat_key st = true.
Proof.
  unfold Sat.run_minisat, popen, communicate, call.
  destruct (spawn p); cbn; [intros H; injection H as <- _; reflexivity|].
  destruct (wait p) as [rc out el| |f]; cbn.
  - destruct (rc =? 10); [intros H; injection H as <- _; reflexivity|].
    destruct (rc =? 20); intros H; injection H as <- _; reflexivity.
  - destruct (kill p); cbn; intros H; injection H as <- _; reflexivity.
  - intros H; injection H as <- _; reflexivity.
Qed.

Section SatRun.

Variable cfg : Sat.config.
Variable w : Sat.world.

Lemma sat_resume_has_reduction :
  Sat.has_reduction (sat_resume_config cfg) = Sat.has_reduction cfg.
Proof. reflexivity. Qed.

Lemma sat_file_resume p f :
  mem (basename f) p = false ->
  Sat.benchmark_file (sat_resume_config cfg) w p f
  = Sat.benchmark_file cfg w [] f.
Proof.
  intros H. unfold Sat.benchmark_file.
  cbn [Sat.continue_mode sat_resume_config mem existsb].
  rewrite H, !andb_false_r. reflexivity.
Qed.

Lemma sat_step_resume p st f :
  mem (basename f) p = false ->
  Sat.benchmark_step (sat_resume_config cfg) w p st f
  = Sat.benchmark_step cfg w [] st f.
Proof.
  intros H. unfold Sat.benchmark_step.
  now rewrite sat_file_resume, sat_resume_has_reduction.
Qed.

Lemma sat_loop_resume p files st :
  Forall (fun f => mem (basename f) p = false) files ->
  Sat.benchmark_loop (sat_resume_config cfg) w p files st
  = Sat.benchmark_loop cfg w [] files st.
Proof.
  intros H. revert st. induction H as [|f r Hf Hr IH]; intros st;
    cbn [Sat.benchmark_loop]; [reflexivity|].
  rewrite sat_step_resume by assumption.
  destruct (Sat.benchmark_step cfg w [] st f); [reflexivity|apply IH].
Qed.

Lemma sat_step_prefix p c x s f :
  Sat.benchmark_step cfg w p {| Sat.written := c ++ x; Sat.counted := s |} f
  = match Sat.benchmark_step cfg w p
            {| Sat.written := x; Sat.counted := s |} f with
    | inl e => inl e
    | inr st => inr {| Sat.written := c ++ Sat.written st;
                       Sat.counted := Sat.counted st |}
    end.
Proof.
  unfold Sat.benchmark_step.
  destruct (Sat.benchmark_file cfg w p f) as [e|[r|]]; cbn [bind ret];
    [reflexivity| |reflexivity].
  cbn [Sat.counted Sat.written].
  destruct (Sat.update_stats s r (Sat.has_reduction cfg)) as [e|s'];
    cbn [bind]; [reflexivity|].
  destruct (Sat.result_line cfg (Sat.extract_category f) r) as [e|l];
    cbn [bind]; [reflexivity|].
  cbn [Sat.counted Sat.written ret]. now rewrite app_assoc.
Qed.

Lemma sat_loop_prefix p files c x s :
  Sat.benchmark_loop cfg w p files {| Sat.written := c ++ x; Sat.counted := s |}
  = let r := Sat.benchmark_loop cfg w p files
               {| Sat.written := x; Sat.counted := s |} in
    ({| Sat.written := c ++ Sat.written (fst r);
        Sat.counted := Sat.counted (fst r) |}, snd r).
Proof.
  revert x s. induction files as [|f r IH]; intros x s;
    cbn [Sat.benchmark_loop]; [reflexivity|].
  rewrite sat_step_prefix.
  destruct (Sat.benchmark_step cfg w p
              {| Sat.written := x; Sat.counted := s |} f) as [e|[x' s']];
    [reflexivity|].
  cbn [Sat.written Sat.counted]. apply IH.
Qed.

(** Every call of [benchmark_file] returns, and a result has statuses
    that are keys of the counters. *)
Lemma sat_file_total p f :
  exists o, Sat.benchmark_file cfg w p f = inr o
            /\ match o with
               | Some r => Sat.file r = basename f /\ sat_result_ok cfg r
               | None => True
               end.
Proof.
  unfold Sat.benchmark_file, sat_result_ok.
  destruct (Sat.continue_mode cfg && mem (basename f) p);
    [exists None; split; [reflexivity|exact I]|].
  destruct (bind (Sat.read_text w f) Sat.parse_dimacs)
    as [e|[[nv nc] cls]]; [exists None; split; [reflexivity|exact I]|].
  unfold Sat.run_with_template.
  match goal with
  | |- context [Sat.run_ursa ?t ?q] =>
      destruct (sat_run_ursa_total t q) as [[us ut] Hu];
      pose proof (sat_run_ursa_status _ _ _ _ Hu) as Hus
  end.
  rewrite Hu. cbn [bind].
  match goal with
  | |- context [Sat.run_minisat ?t ?q] =>
      destruct (sat_run_minisat_total t q) as [[ms mt] Hm];
      pose proof (sat_run_minisat_status _ _ _ _ Hm) as Hms
  end.
  rewrite Hm. cbn [bind].
  destruct (Sat.has_reduction cfg).
  - match goal with
    | |- context [Sat.run_ursa ?t ?q] =>
        destruct (sat_run_ursa_total t q) as [[rs rt] Hr];
        pose proof (sat_run_ursa_status _ _ _ _ Hr) as Hrs
    end.
    rewrite Hr. eexists. split; [reflexivity|]. cbn. eauto 8.
  - eexists. split; [reflexivity|]. cbn. auto.
Qed.

Lemma sat_count_ok st t :
  ursa_key st = true -> exists t', Sat.count_status st t = inr t'.
Proof. destruct st; try discriminate; cbn; eauto. Qed.

Lemma sat_count_minisat_ok st t :
  minisat_key st = true -> exists t', Sat.count_minisat_status st t = inr t'.
Proof. destruct st; try discriminate; cbn; eauto. Qed.

Lemma sat_update_ok s r :
  sat_result_ok cfg r ->
  exists s',
    Sat.update_stats s r (Sat.has_reduction cfg) = inr s'
    /\ Sat.total s' = Sat.total s + 1.
Proof.
  intros [Hu [Hm Hr]]. unfold Sat.update_stats.
  destruct (sat_count_ok _ (Sat.ursa s) Hu) as [u' ->].
  destruct (sat_count_minisat_ok _ (Sat.minisat s) Hm) as [m' ->].
  cbn [bind]. destruct (Sat.has_reduction cfg).
  - destruct Hr as [st [t [-> Hk]]].
    destruct (sat_count_ok _ (Sat.reduction s) Hk) as [r' ->].
    cbn [bind ret]. eauto.
  - eauto.
Qed.

Lemma sat_line_ok category r :
  sat_result_ok cfg r ->
  exists line, Sat.result_line cfg category r = inr line.
Proof.
  intros [_ [_ H]]. unfold Sat.result_line.
  destruct (Sat.has_reduction cfg).
  - destruct H as [st [t [-> _]]]. eexists. reflexivity.
  - eexists. reflexivity.
Qed.

Lemma sat_step_spec st f :
  plain_name Sat.exts (basename f) ->
  if sat_done cfg w f
  then exists line s',
      Sat.benchmark_step cfg w [] st f
      = inr {| Sat.written := Sat.written st ++ line; Sat.counted := s' |}
      /\ result_row Sat.exts (basename f) line
      /\ Sat.total s' = Sat.total (Sat.counted st) + 1
  else Sat.benchmark_step cfg w [] st f = inr st.
Proof.
  intros Hname. unfold sat_done, Sat.benchmark_step.
  destruct (sat_file_total [] f) as [o [Ho Hok]]. rewrite Ho.
  destruct o as [r|]; [|reflexivity]. cbn [bind].
  destruct Hok as [Hfile Hok].
  destruct (sat_update_ok (Sat.counted st) r Hok) as [s' [Hs Ht]].
  destruct (sat_line_ok (Sat.extract_category f) r Hok) as [line Hl].
  rewrite Hs, Hl. cbn [bind ret]. exists line, s'.
  split; [reflexivity|]. split; [|auto].
  destruct (sat_result_line_shape _ _ _ _ Hl) as [rest [-> [Hrest Hne]]].
  rewrite Hfile. apply result_row_shape; auto.
  - repeat constructor; discriminate.
  - apply sat_category_field.
Qed.

Lemma sat_loop_spec files :
  Forall (fun f => plain_name Sat.exts (basename f)) files ->
  forall st,
  exists ls st',
    Sat.benchmark_loop cfg w [] files st = (st', None)
    /\ Sat.written st' = Sat.written st ++ concat ls
    /\ data_lines Sat.exts ls (map basename (filter (sat_done cfg w) files))
    /\ Sat.total (Sat.counted st')
       = Sat.total (Sat.counted st)
         + Z.of_nat (length (filter (sat_done cfg w) files)).
Proof.
  intros Hnames. induction Hnames as [|f r Hf Hr IH]; intros st.
  - exists [], st. cbn. rewrite app_nil_r, Z.add_0_r.
    repeat split; auto. constructor.
  - pose proof (sat_step_spec st f Hf) as Hstep.
    cbn [Sat.benchmark_loop filter].
    destruct (sat_done cfg w f).
    + destruct Hstep as [line [s' [Hs [Hrow Ht]]]]. rewrite Hs.
      destruct (IH {| Sat.written := Sat.written st ++ line;
                      Sat.counted := s' |})
        as [ls [st' [Hl [Hw [Hd Htot]]]]].
      exists (line :: ls), st'. cbn [Sat.written Sat.counted] in *.
      split; [exact Hl|]. split; [|split].
      * rewrite Hw. cbn [concat]. now rewrite app_assoc.
      * cbn [map]. now apply data_row.
      * rewrite Htot, Ht. cbn [length]. lia.
    + rewrite Hstep. apply IH.
Qed.

End SatRun.


(** ** Interruption and resumption, SAT driver *)

Lemma final_statistics_head_sat s red now :
  exists more,
    Sat.write_final_statistics s red now
    = unlines ("" :: "FINAL STATISTICS:" :: more).
Proof. unfold Sat.write_final_statistics. cbn [app]. eauto. Qed.



Lemma sat_combine_empty s :
  Sat.combine_stats Sat._initialize_empty_stats s = s.
Proof.
  destruct s as [t [us uu ut ue uk] [ms mu mt me] [rs ru rt re rk]].
  reflexivity.
Qed.

Section SatResume.

Variable cfg : Sat.config.
Variable w : Sat.world.
Variable files : list str.
Variables started completed started' completed' : str.
Variable k : nat.

Hypothesis names_plain :
  Forall (fun f => plain_name Sat.exts (basename f)) files.
Hypothesis stamp_plain : forallb stamp_char started = true.

Lemma sat_pass_spec l :
  (forall f, In f l -> In f files) ->
  exists ls,
    Sat.benchmark_loop cfg w [] l sat_blank = (sat_pass cfg w l, None)
    /\ Sat.written (sat_pass cfg w l) = concat ls
    /\ data_lines Sat.exts ls (map basename (filter (sat_done cfg w) l))
    /\ Sat.total (Sat.counted (sat_pass cfg w l))
       = Z.of_nat (length (filter (sat_done cfg w) l)).
Proof.
  intros Hincl.
  assert (Hn : Forall (fun f => plain_name Sat.exts (basename f)) l).
  { rewrite Forall_forall in *. auto. }
  destruct (sat_loop_spec cfg w l Hn sat_blank)
    as [ls [st' [Hl [Hw [Hd Ht]]]]].
  exists ls. unfold sat_pass. rewrite Hl. cbn [fst].
  repeat split; auto.
Qed.

Lemma sat_start_fresh :
  Sat.start_run cfg None files started
  = ([], Sat._initialize_empty_stats, files,
     {| Sat.written :=
          Sat.write_header (Sat.has_reduction cfg) (Sat.save_urs cfg) started;
        Sat.counted := Sat._initialize_empty_stats |}).
Proof.
  unfold Sat.start_run, Sat.load_or_init_stats,
    Sat.load_existing_results, prepare_output_file.
  destruct (Sat.continue_mode cfg); now rewrite filter_files_fresh.
Qed.

Lemma sat_loop_on c l :
  (forall f, In f l -> In f files) ->
  Sat.benchmark_loop cfg w [] l
    {| Sat.written := c; Sat.counted := Sat._initialize_empty_stats |}
  = ({| Sat.written := c ++ Sat.written (sat_pass cfg w l);
        Sat.counted := Sat.counted (sat_pass cfg w l) |}, None).
Proof.
  intros Hincl. destruct (sat_pass_spec l Hincl) as [ls [Hl _]].
  rewrite <- (app_nil_r c) at 1. rewrite sat_loop_prefix.
  fold sat_blank. rewrite Hl. reflexivity.
Qed.


End SatResume.


(** ** Numbers printed and read back *)

Lemma int_digits_step c acc prev r :
  is_digit c = true ->
  int_digits acc prev (c :: r) = int_digits (10 * acc + digit_val c) true r.
Proof. intros H. cbn [int_digits]. now rewrite H. Qed.

Ltac digit_step :=
  rewrite int_digits_step by reflexivity;
  match goal with
  | |- context [digit_val ?c] =>
      let v := eval vm_compute in (digit_val c) in
      change (digit_val c) with v
  end.

Lemma int_digits_uint_acc d :
  forall acc prev,
    d <> Decimal.Nil \/ prev = true ->
    int_digits (Zpos acc) prev (str_of_uint d)
    = Some (Zpos (Pos.of_uint_acc d acc)).
Proof.
  induction d; intros acc prev Hp; cbn [str_of_uint Pos.of_uint_acc];
    [ destruct Hp as [Hp| ->]; [congruence|reflexivity] | .. ];
    digit_step;
    match goal with
    | |- int_digits ?z true _ = Some (Zpos (Pos.of_uint_acc _ ?p)) =>
        replace z with (Zpos p) by lia
    end;
    apply IHd; now right.
Qed.

Lemma int_digits_uint d prev :
  d <> Decimal.Nil ->
  int_digits 0 prev (str_of_uint d) = Some (Z.of_N (Pos.of_uint d)).
Proof.
  induction d; intros Hne; try congruence;
    cbn [str_of_uint Pos.of_uint]; digit_step.
  - (* a leading zero *)
    change (10 * 0 + 0) with 0.
    destruct d; try (apply IHd; discriminate). reflexivity.
  - apply (int_digits_uint_acc d 1 true). now right.
  - apply (int_digits_uint_acc d 2 true). now right.
  - apply (int_digits_uint_acc d 3 true). now right.
  - apply (int_digits_uint_acc d 4 true). now right.
  - apply (int_digits_uint_acc d 5 true). now right.
  - apply (int_digits_uint_acc d 6 true). now right.
  - apply (int_digits_uint_acc d 7 true). now right.
  - apply (int_digits_uint_acc d 8 true). now right.
  - apply (int_digits_uint_acc d 9 true). now right.
Qed.

Lemma str_of_uint_nonnil d : d <> Decimal.Nil -> str_of_uint d <> [].
Proof. destruct d; intros H; try congruence; discriminate. Qed.

Lemma int_signed_pos p :
  int_signed (str_of_N (Npos p)) = Some (Zpos p).
Proof.
  unfold str_of_N. cbn [N.to_uint].
  pose proof (DecimalPos.Unsigned.to_uint_nonnil p) as Hne.
  pose proof (int_digits_uint (Pos.to_uint p) false Hne) as H.
  rewrite DecimalPos.Unsigned.of_to in H. cbn [Z.of_N] in H.
  pose proof (str_of_uint_digits (Pos.to_uint p)) as Hd.
  pose proof (str_of_uint_nonnil _ Hne) as Hs.
  destruct (str_of_uint (Pos.to_uint p)) as [|c r] eqn:E; [congruence|].
  unfold int_signed.
  cbn [forallb] in Hd. apply andb_true_iff in Hd. destruct Hd as [Hc _].
  destruct (digit_not_sign c Hc) as [E1 E2]. now rewrite E1, E2.
Qed.

Lemma num_not_blank c : num_char c = true -> is_int_blank c = false.
Proof. char_cases c. Qed.

Lemma num_not_space c : num_char c = true -> is_space c = false.
Proof. char_cases c. Qed.

Lemma int_strip_num s :
  forallb num_char s = true -> int_strip s = s.
Proof.
  intros H. unfold int_strip. destruct s as [|c r]; [reflexivity|].
  rewrite drop_while_head
    by (apply num_not_blank; eapply forallb_In; eauto; now left).
  destruct (exists_last (l := c :: r)) as [s' [l E]]; [discriminate|].
  rewrite E in *. rewrite drop_while_app_last. { apply rev_involutive. }
  apply num_not_blank. eapply forallb_In; eauto.
  apply in_or_app. right. now left.
Qed.

(** [int(str(z)) = z] *)
Lemma int_opt_str_of_Z z : int_opt (str_of_Z z) = Some z.
Proof.
  unfold int_opt. rewrite int_strip_num by apply str_of_Z_num.
  destruct z as [|p|p]; [reflexivity| |].
  - apply int_signed_pos.
  - cbn [str_of_Z int_signed]. replace (Ascii.eqb "-" "-") with true
      by reflexivity.
    pose proof (int_signed_pos p) as H. unfold int_signed in H.
    pose proof (DecimalPos.Unsigned.to_uint_nonnil p) as Hne.
    pose proof (int_digits_uint (Pos.to_uint p) false Hne) as Hd.
    rewrite DecimalPos.Unsigned.of_to in Hd. cbn [Z.of_N] in Hd.
    unfold str_of_N. cbn [N.to_uint]. now rewrite Hd.
Qed.

Lemma str_of_Z_trimmed z : trimmed (str_of_Z z) /\ str_of_Z z <> [].
Proof.
  pose proof (str_of_Z_num z) as H.
  assert (Hne : str_of_Z z <> []).
  { destruct z as [|p|p]; [discriminate| |discriminate].
    apply str_of_uint_nonnil, DecimalPos.Unsigned.to_uint_nonnil. }
  split; [|exact Hne].
  destruct (str_of_Z z) as [|c r] eqn:E; [exact I|].
  split; apply num_not_space; eapply forallb_In; eauto; [now left|].
  destruct (exists_last (l := c :: r)) as [s' [l El]]; [discriminate|].
  rewrite El, last_last. apply in_or_app. right. now left.
Qed.

Lemma split1_first sep a b :
  ~ In sep a -> split1 sep (a ++ sep :: b) = [a; b].
Proof.
  induction a as [|c r IH]; intros H; cbn [app split1].
  - now rewrite Ascii.eqb_refl.
  - assert (Hc : c <> sep) by (intros ->; apply H; now left).
    rewrite (eqb_neq_false _ _ Hc), IH; [reflexivity|].
    intros Hin. apply H. now right.
Qed.

(** The number of a line [<label>:<blanks><number>]. *)
Lemma number_after_colon_line label pad z :
  ~ In ":"%char label ->
  Forall (fun c => is_space c = true) pad ->
  number_after_colon (label ++ ":"%char :: pad ++ str_of_Z z ++ [NL]) = Some z.
Proof.
  intros Hl Hp. unfold number_after_colon. rewrite split1_first by assumption.
  destruct (str_of_Z_trimmed z) as [Ht Hne].
  rewrite strip_padded;
    [apply int_opt_str_of_Z | assumption | repeat constructor
    | assumption | assumption].
Qed.

Lemma lower_num s : forallb num_char s = true -> lower s = s.
Proof.
  unfold lower. induction s as [|c r IH]; cbn [map forallb]; [reflexivity|].
  intros H. apply andb_true_iff in H. destruct H as [Hc Hr].
  rewrite IH by assumption. f_equal. revert Hc. char_cases c.
Qed.

Lemma lower_app a b : lower (a ++ b) = lower a ++ lower b.
Proof. apply map_app. Qed.

(** *** Substring tests on a line that ends with a number *)

Lemma last_In_self (p : str) d : p <> [] -> In (last p d) p.
Proof.
  induction p as [|x q IH]; intros Hne; [congruence|].
  destruct q as [|y q']; [now left|].
  right. apply IH. discriminate.
Qed.

Lemma startswith_tail_absent p a b :
  p <> [] -> ~ In (last p " "%char) b ->
  startswith p (a ++ b) = startswith p a.
Proof.
  revert a. induction p as [|x p IH]; intros a Hne Hl; [congruence|].
  destruct a as [|c a'].
  - cbn [app]. destruct (startswith (x :: p) b) eqn:E; [|reflexivity].
    exfalso. apply Hl. eapply startswith_chars; eauto.
    now apply last_In_self.
  - cbn [app startswith]. destruct p as [|y p'].
    + reflexivity.
    + rewrite IH; [reflexivity|discriminate|exact Hl].
Qed.

Lemma contains_tail_absent p a b :
  p <> [] -> ~ In (last p " "%char) b ->
  contains p (a ++ b) = contains p a.
Proof.
  intros Hne Hl. induction a as [|c a IH].
  - cbn [app]. rewrite (contains_absent p b (last p " "%char)); auto.
    + destruct p; [congruence|reflexivity].
    + now apply last_In_self.
  - change ((c :: a) ++ b) with (c :: (a ++ b)).
    cbn [contains]. rewrite IH.
    change (c :: a ++ b) with ((c :: a) ++ b).
    now rewrite startswith_tail_absent.
Qed.

(** ** The final statistics of the clique driver, re-read *)

Ltac eval_contains :=
  repeat match goal with
         | |- context [contains ?a ?b] =>
             let v := eval vm_compute in (contains a b) in
             match v with
             | true => change (contains a b) with true
             | false => change (contains a b) with false
             end
         end;
  cbv iota.

Lemma number_no_colon z : ~ In ":"%char (str_of_Z z ++ [NL]).
Proof.
  intros H. apply in_app_or in H. destruct H as [H|[H|[]]]; [|discriminate].
  pose proof (forallb_In _ _ _ (str_of_Z_num z) H) as Hc. discriminate.
Qed.

(** A label that ends with a colon is looked for in the part of the line
    before the number. *)
Lemma contains_number p pre z :
  p <> [] -> last p " "%char = ":"%char ->
  contains p ((pre ++ str_of_Z z) ++ [NL]) = contains p pre.
Proof.
  intros Hne Hl. rewrite <- app_assoc. apply contains_tail_absent; [assumption|].
  rewrite Hl. apply number_no_colon.
Qed.

Lemma lower_number pre z :
  lower ((pre ++ str_of_Z z) ++ [NL]) = (lower pre ++ str_of_Z z) ++ [NL].
Proof.
  rewrite !lower_app, (lower_num _ (str_of_Z_num z)). reflexivity.
Qed.

Lemma number_no_break z : no_break (str_of_Z z).
Proof.
  apply no_break_forallb. eapply forallb_impl; [|apply str_of_Z_field].
  apply field_line_char.
Qed.

Ltac label_tests :=
  rewrite ?lower_number;
  rewrite ?contains_number by (first [discriminate | reflexivity]);
  eval_contains.

Ltac label_side :=
  first [ solve [repeat constructor]
        | let H := fresh in
          intros H; cbn [In] in H; repeat destruct H as [H|H];
          first [discriminate H | contradiction] ].

(** The number of a line of the statistics, given its label and the
    blanks after the colon. *)
Ltac read_number label pad :=
  match goal with
  | |- context [number_after_colon ((?pre ++ str_of_Z ?z) ++ [NL])] =>
      change (number_after_colon ((pre ++ str_of_Z z) ++ [NL]))
        with (number_after_colon
                (label ++ ":"%char :: pad ++ str_of_Z z ++ [NL]));
      rewrite (number_after_colon_line label pad z);
      [ | label_side | label_side ]
  end.

Section CliqueReread.

Variable s : Clique.stats.
Variable z : Z.

Lemma clique_reread_found c :
  Clique.parse_stats_line (s, Some c)
    (("Cliques found:     " ++ str_of_Z z) ++ [NL])
  = (Clique.set_found s c z, Some c).
Proof.
  unfold Clique.parse_stats_line, Clique._parse_stat_line. label_tests.
  read_number "Cliques found" "     ". reflexivity.
Qed.

Lemma clique_reread_not_found c :
  Clique.parse_stats_line (s, Some c)
    (("Not found:         " ++ str_of_Z z) ++ [NL])
  = (Clique.set_not_found s c z, Some c).
Proof.
  unfold Clique.parse_stats_line, Clique._parse_stat_line. label_tests.
  read_number "Not found" "         ". reflexivity.
Qed.

Lemma clique_reread_timeout c :
  Clique.parse_stats_line (s, Some c)
    (("Timeout:           " ++ str_of_Z z) ++ [NL])
  = (Clique.set_timeout s c z, Some c).
Proof.
  unfold Clique.parse_stats_line, Clique._parse_stat_line. label_tests.
  read_number "Timeout" "           ". reflexivity.
Qed.

Lemma clique_reread_error c :
  Clique.parse_stats_line (s, Some c)
    (("Error:             " ++ str_of_Z z) ++ [NL])
  = (Clique.set_error s c z, Some c).
Proof.
  unfold Clique.parse_stats_line, Clique._parse_stat_line. label_tests.
  read_number "Error" "             ". reflexivity.
Qed.

Lemma clique_reread_total c :
  Clique.parse_stats_line (s, c)
    (("Total instances:   " ++ str_of_Z z) ++ [NL])
  = ({| Clique.total := z; Clique.ursa := Clique.ursa s;
        Clique.cliquer := Clique.cliquer s;
        Clique.reduction := Clique.reduction s |}, None).
Proof.
  unfold Clique.parse_stats_line. label_tests.
  read_number "Total instances" "   ". reflexivity.
Qed.

(** The lines without a number: the titles set the context, the others
    change nothing. *)
Lemma clique_reread_title_ursa c :
  Clique.parse_stats_line (s, c) ("URSA Results:" ++ [NL])
  = (s, Some Clique.ctx_ursa).
Proof. unfold Clique.parse_stats_line. eval_contains. reflexivity. Qed.

Lemma clique_reread_title_cliquer c :
  Clique.parse_stats_line (s, c) ("Cliquer Results:" ++ [NL])
  = (s, Some Clique.ctx_cliquer).
Proof. unfold Clique.parse_stats_line. eval_contains. reflexivity. Qed.

Lemma clique_reread_title_reduction c :
  Clique.parse_stats_line (s, c) ("Reduction Results:" ++ [NL])
  = (s, Some Clique.ctx_reduction).
Proof. unfold Clique.parse_stats_line. eval_contains. reflexivity. Qed.

Lemma clique_reread_blank c :
  Clique.parse_stats_line (s, c) ("" ++ [NL]) = (s, c).
Proof.
  unfold Clique.parse_stats_line. eval_contains. now destruct c.
Qed.

Lemma clique_reread_marker c :
  Clique.parse_stats_line (s, c) ("FINAL STATISTICS:" ++ [NL]) = (s, c).
Proof.
  unfold Clique.parse_stats_line. eval_contains. now destruct c.
Qed.

Lemma clique_reread_rule c :
  Clique.parse_stats_line (s, c) (repeat "="%char 17 ++ [NL]) = (s, c).
Proof.
  unfold Clique.parse_stats_line. eval_contains. now destruct c.
Qed.

End CliqueReread.

(** A label with a letter that the line of the time stamp has not. *)
Lemma stamped_absent p label now c :
  forallb stamp_char now = true -> stamp_char c = false -> c <> NL ->
  ~ In c label -> In c p ->
  contains p ((label ++ now) ++ [NL]) = false.
Proof.
  intros Hnow Hc Hnl Hl Hp. apply contains_absent with (c := c); [exact Hp|].
  intros Hin. apply in_app_or in Hin. destruct Hin as [Hin|[Hin|[]]];
    [|now apply Hnl].
  apply in_app_or in Hin. destruct Hin as [Hin|Hin]; [auto|].
  apply (forallb_In _ _ _ Hnow) in Hin. congruence.
Qed.

Ltac stamped c :=
  rewrite (stamped_absent _ _ _ c)
    by first [ assumption | reflexivity | discriminate | label_side
             | cbn [In]; tauto ].

Lemma clique_reread_completed s now :
  forallb stamp_char now = true ->
  Clique.parse_stats_line (s, None) (("Completed: " ++ now) ++ [NL])
  = (s, None).
Proof.
  intros Hnow. unfold Clique.parse_stats_line.
  stamped "U"%char. stamped "q"%char. stamped "R"%char. stamped "T"%char.
  reflexivity.
Qed.

Lemma stamp_no_break now : forallb stamp_char now = true -> no_break now.
Proof.
  intros H. apply no_break_forallb.
  eapply forallb_impl; [apply stamp_line_char | exact H].
Qed.

(** Re-reading the lines of one tally. *)
Lemma clique_reread_tally s c t :
  fold_left Clique.parse_stats_line
    (map (fun l => l ++ [NL]) (Clique.tally_lines t)) (s, Some c)
  = (Clique.set_error
       (Clique.set_timeout
          (Clique.set_not_found
             (Clique.set_found s c (Clique.Tally.found t))
             c (Clique.Tally.not_found t))
          c (Clique.Tally.timeout t))
       c (Clique.Tally.error t), Some c).
Proof.
  unfold Clique.tally_lines. cbn [map fold_left].
  now rewrite clique_reread_found, clique_reread_not_found,
    clique_reread_timeout, clique_reread_error, clique_reread_blank.
Qed.

Lemma clique_tally_lines_no_break t : Forall no_break (Clique.tally_lines t).
Proof.
  unfold Clique.tally_lines.
  repeat (apply Forall_cons;
          [first [ apply no_break_app; split;
                   [apply no_break_forallb; reflexivity | apply number_no_break]
                 | apply no_break_forallb; reflexivity ] |]).
  apply Forall_nil.
Qed.

Ltac clique_reread_steps :=
  repeat first
    [ rewrite clique_reread_marker | rewrite clique_reread_rule
    | rewrite clique_reread_blank | rewrite clique_reread_title_ursa
    | rewrite clique_reread_title_cliquer
    | rewrite clique_reread_title_reduction
    | rewrite clique_reread_tally
    | rewrite clique_reread_found | rewrite clique_reread_timeout
    | rewrite clique_reread_error | rewrite clique_reread_total
    | rewrite clique_reread_completed by assumption
    | rewrite fold_left_app | rewrite map_app
    | progress cbn [map fold_left] ].

(** The statistics section as written is read back to the counters it
    was written from.  The counters of the reduction are written only
    when a reduction is configured. *)
Lemma clique_reread_written s red now :
  clique_no_extra s ->
  forallb stamp_char now = true ->
  (red = false -> Clique.reduction s = Clique.empty_tally) ->
  exists more,
    Clique.write_final_statistics s red now
    = unlines ("" :: "FINAL STATISTICS:" :: more)
    /\ Forall no_break more
    /\ fold_left Clique.parse_stats_line
         (("FINAL STATISTICS:" ++ [NL]) :: map (fun l => l ++ [NL]) more)
         (Clique._initialize_empty_stats, None)
       = (s, None).
Proof.
  intros Hx Hnow Hred.
  exists ([ repeat "="%char 17; ""; "URSA Results:" ]
          ++ Clique.tally_lines (Clique.ursa s)
          ++ [ "Cliquer Results:";
               "Cliques found:     "
                 ++ str_of_Z (Clique.CliquerTally.found (Clique.cliquer s));
               "Timeout:           "
                 ++ str_of_Z (Clique.CliquerTally.timeout (Clique.cliquer s));
               "Error:             "
                 ++ str_of_Z (Clique.CliquerTally.error (Clique.cliquer s));
               "" ]
          ++ (if red
              then [ "Reduction Results:" ]
                     ++ Clique.tally_lines (Clique.reduction s)
              else [])
          ++ [ "Total instances:   " ++ str_of_Z (Clique.total s);
               "Completed: " ++ now ]).
  split; [reflexivity|]. split.
  - pose proof (stamp_no_break _ Hnow) as Hb.
    repeat first
      [ apply Forall_nil
      | apply clique_tally_lines_no_break
      | apply Forall_app; split
      | apply Forall_cons
      | apply no_break_app; split
      | apply number_no_break
      | assumption
      | apply no_break_forallb; reflexivity
      | destruct red ].
  - destruct red.
    + clique_reread_steps. unfold clique_no_extra in Hx.
      destruct s as [t [uf un ut ue] [cf ct ce cx] [rf rn rt re]].
      cbn in Hx. subst cx. reflexivity.
    + clique_reread_steps. unfold clique_no_extra in Hx.
      destruct s as [t [uf un ut ue] [cf ct ce cx] r].
      cbn in Hx, Hred. subst cx. rewrite (Hred eq_refl). reflexivity.
Qed.

(** ** A second run over a finished report, clique driver *)

Lemma clique_load_finished ls ns s red now :
  data_lines Clique.exts ls ns ->
  clique_no_extra s ->
  forallb stamp_char now = true ->
  (red = false -> Clique.reduction s = Clique.empty_tally) ->
  Clique.load_existing_results
    (Some (concat ls ++ Clique.write_final_statistics s red now))
  = (add_all ns [], s, _extract_header_lines (ls ++ [[NL]])).
Proof.
  intros Hd Hx Hnow Hred.
  destruct (clique_reread_written s red now Hx Hnow Hred)
    as [more [Hm [Hb Hf]]].
  rewrite Hm. unfold Clique.load_existing_results.
  rewrite (readlines_finished _ _ _ more Hd),
    (final_stats_index_finished _ _ _ _ Hd).
  rewrite firstn_app, firstn_all2 by lia.
  replace (S (length ls) - length ls)%nat with 1%nat by lia.
  cbn [firstn].
  assert (Hs : skipn (S (length ls))
                 (ls ++ [NL] :: ("FINAL STATISTICS:" ++ [NL])
                             :: readlines (unlines more))
               = ("FINAL STATISTICS:" ++ [NL])
                 :: map (fun l => l ++ [NL]) more).
  { change (ls ++ [NL] :: ("FINAL STATISTICS:" ++ [NL])
                       :: readlines (unlines more))
      with (ls ++ [[NL]] ++ ("FINAL STATISTICS:" ++ [NL])
                             :: readlines (unlines more)).
    rewrite app_assoc, skipn_app, skipn_all2
      by (rewrite length_app; cbn [length]; lia).
    rewrite length_app. cbn [length app].
    replace (S (length ls) - (length ls + 1))%nat with 0%nat by lia.
    cbn [skipn]. f_equal.
    rewrite <- (app_nil_r (unlines more)), readlines_unlines by assumption.
    apply app_nil_r. }
  rewrite Hs. unfold Clique._parse_statistics_section. rewrite Hf.
  cbn [fst]. unfold _extract_processed_filenames.
  assert (Hd' : data_lines Clique.exts (ls ++ [[NL]]) (ns ++ [])).
  { apply data_lines_app; [assumption|].
    apply data_inert; [apply blank_line_inert | constructor]. }
  rewrite (data_lines_extract _ _ _ _ Hd'). now rewrite app_nil_r.
Qed.

Lemma clique_combine_nothing s :
  clique_no_extra s ->
  Clique.combine_stats s Clique._initialize_empty_stats = inr s.
Proof.
  unfold clique_no_extra.
  destruct s as [t [uf un ut ue] [cf ct ce cx] [rf rn rt re]].
  cbn. intros ->.
  unfold Clique.combine_stats, Clique.add_tally, Clique._initialize_empty_stats,
    Clique.empty_tally.
  cbn. now rewrite !Z.add_0_r.
Qed.

Section CliqueRerun.

Variable cfg : Clique.config.
Variable w : Clique.world.

(** Without a reduction template the counters of the reduction stay as
    they are. *)
Lemma clique_step_reduction p st st' f :
  Clique.has_reduction cfg = false ->
  Clique.benchmark_step cfg w p st f = inr st' ->
  Clique.reduction (Clique.counted st') = Clique.reduction (Clique.counted st).
Proof.
  intros Hred. unfold Clique.benchmark_step, Clique.update_stats.
  rewrite Hred.
  destruct (Clique.benchmark_file cfg w p f) as [e|[r|]]; cbn [bind ret];
    [discriminate| |intros H; apply inr_eq in H; now subst st'].
  destruct (Clique.result_line cfg (Clique.extract_category f) r) as [e|l];
    cbn [bind ret]; [discriminate|].
  intros H. apply inr_eq in H. now subst st'.
Qed.

Lemma clique_loop_reduction p files st :
  Clique.has_reduction cfg = false ->
  Clique.reduction (Clique.counted (fst (Clique.benchmark_loop cfg w p files st)))
  = Clique.reduction (Clique.counted st).
Proof.
  intros Hred. revert st. induction files as [|f r IH]; intros st;
    cbn [Clique.benchmark_loop]; [reflexivity|].
  destruct (Clique.benchmark_step cfg w p st f) as [e|st'] eqn:E;
    [reflexivity|].
  rewrite IH. eapply clique_step_reduction; eauto.
Qed.

(** The loop over files that get no result changes nothing. *)
Lemma clique_loop_idle files st :
  clique_calm cfg w files ->
  Forall (fun f => plain_name Clique.exts (basename f)) files ->
  Forall (fun f => clique_done cfg w f = false) files ->
  Clique.benchmark_loop cfg w [] files st = (st, None).
Proof.
  intros Hcalm Hnames Hidle. induction Hidle as [|f r Hf Hr IH];
    cbn [Clique.benchmark_loop]; [reflexivity|].
  apply Forall_cons_iff in Hnames. destruct Hnames as [Hn Hns].
  assert (Hcf : exists v, Clique.run_cliquer (Clique.timeout cfg)
                            (Clique.cliquer_child w f) = inr v)
    by (apply Hcalm; now left).
  pose proof (clique_step_spec cfg w st f Hcf Hn) as Hstep.
  rewrite Hf in Hstep. rewrite Hstep. apply IH; [|assumption].
  intros g Hg. apply Hcalm. now right.
Qed.

Variable files : list str.
Variables started completed started' completed' : str.

Hypothesis names_plain :
  Forall (fun f => plain_name Clique.exts (basename f)) files.
Hypothesis started_plain : forallb stamp_char started = true.
Hypothesis completed_plain : forallb stamp_char completed = true.
Hypothesis calm : clique_calm cfg w files.

(** A second run with [--continue] over the files of a finished report
    adds no result line and writes the final statistics from the counters
    of the first run. *)
Theorem clique_rerun :
  clique_rerun_law cfg w files started completed started' completed'.
Proof.
  unfold clique_rerun_law. cbv zeta.
  set (header := Clique.write_header (Clique.has_reduction cfg)
                   (Clique.save_urs cfg) started).
  set (counters := Clique.counted (clique_pass cfg w files)).
  destruct (clique_header_inert (Clique.has_reduction cfg)
              (Clique.save_urs cfg) started started_plain) as [hs [Hh Hin]].
  destruct (header_data Clique.exts header hs Hh Hin) as [HL [HhL HdL]].
  destruct (clique_pass_spec cfg w files names_plain calm files
              (fun f H => H))
    as [lsA [HlA [HwA [HdA [HtA HxA]]]]].
  fold counters in HxA.
  assert (Hsingle :
    Clique.benchmark_directory cfg w None files started completed
    = {| report := header ++ Clique.written (clique_pass cfg w files)
                   ++ Clique.write_final_statistics counters
                        (Clique.has_reduction cfg) completed;
         raised := None |}).
  { unfold Clique.benchmark_directory.
    rewrite (clique_start_fresh cfg files started).
    fold header.
    rewrite (clique_loop_on cfg w files names_plain calm) by auto.
    cbn [Clique.counted Clique.written]. fold counters.
    rewrite (clique_combine_empty _ HxA). now rewrite <- app_assoc. }
  rewrite Hsingle. cbn [report raised].
  set (names := map basename (filter (clique_done cfg w) files)) in *.
  assert (Hd : data_lines Clique.exts (HL ++ lsA) names).
  { apply (data_lines_app _ _ [] _ _ HdL HdA). }
  assert (Htext : header ++ Clique.written (clique_pass cfg w files)
                  = concat (HL ++ lsA)).
  { now rewrite HhL, HwA, concat_app. }
  assert (Hred : Clique.has_reduction cfg = false ->
                 Clique.reduction counters = Clique.empty_tally).
  { intros H. unfold counters, clique_pass.
    now rewrite clique_loop_reduction. }
  assert (Hload :
    Clique.load_existing_results
      (Some (header ++ Clique.written (clique_pass cfg w files)
             ++ Clique.write_final_statistics counters
                  (Clique.has_reduction cfg) completed))
    = (add_all names [], counters, _extract_header_lines ((HL ++ lsA) ++ [[NL]]))).
  { rewrite app_assoc, Htext.
    apply clique_load_finished; assumption. }
  assert (Hprep :
    prepare_output_file
      (Some (header ++ Clique.written (clique_pass cfg w files)
             ++ Clique.write_final_statistics counters
                  (Clique.has_reduction cfg) completed)) true
    = (true, (header ++ Clique.written (clique_pass cfg w files)) ++ [NL])).
  { rewrite app_assoc, Htext.
    destruct (final_statistics_head_clique counters
                (Clique.has_reduction cfg) completed) as [more Hm].
    rewrite Hm. apply (prepare_finished _ _ _ more Hd). }
  set (remaining := filter_files files (add_all names []) true).
  assert (Hidle : Forall (fun f => clique_done cfg w f = false) remaining).
  { apply Forall_forall. intros f Hf. apply filter_files_In in Hf.
    destruct Hf as [Hf Hm].
    destruct (clique_done cfg w f) eqn:E; [|reflexivity].
    assert (Hi : mem (basename f) (add_all names []) = true).
    { apply mem_In, add_all_In. left. unfold names.
      apply in_map, filter_In. now split. }
    congruence. }
  assert (Hskip : Forall (fun f => mem (basename f) (add_all names []) = false)
                    remaining).
  { apply Forall_forall. intros f Hf. apply filter_files_In in Hf. tauto. }
  assert (Hsub : forall f, In f remaining -> In f files).
  { intros f Hf. apply filter_files_In in Hf. tauto. }
  split; [reflexivity|].
  unfold Clique.benchmark_directory, Clique.start_run,
    Clique.load_or_init_stats.
  cbn [Clique.continue_mode clique_resume_config].
  fold (clique_resume_config cfg).
  rewrite Hload, Hprep. fold remaining.
  rewrite (clique_loop_resume cfg w _ _ _ Hskip).
  rewrite clique_loop_idle.
  - cbn [Clique.counted Clique.written].
    rewrite (clique_combine_nothing _ HxA), clique_resume_has_reduction.
    cbn [report raised]. split; [reflexivity|]. split.
    + now rewrite <- app_assoc.
    + now rewrite <- !app_assoc.
  - intros f Hf. apply calm. auto.
  - rewrite Forall_forall in *. auto.
  - exact Hidle.
Qed.

End CliqueRerun.

(** ** The final statistics of the SAT driver, re-read *)

Section SatReread.

Variable s : Sat.stats.
Variable z : Z.

Lemma sat_reread_SAT c :
  Sat.parse_stats_line (s, Some c)
    (("SAT instances:     " ++ str_of_Z z) ++ [NL])
  = (Sat.store_in s c Sat.set_SAT Sat.mset_SAT z, Some c).
Proof.
  unfold Sat.parse_stats_line, Sat._parse_stat_line. label_tests.
  read_number "SAT instances" "     ". reflexivity.
Qed.

(** The line of the UNSAT count is taken for the line of the SAT count:
    [SAT instances:] is a part of [UNSAT instances:]. *)
Lemma sat_reread_UNSAT c :
  Sat.parse_stats_line (s, Some c)
    (("UNSAT instances:   " ++ str_of_Z z) ++ [NL])
  = (Sat.store_in s c Sat.set_SAT Sat.mset_SAT z, Some c).
Proof.
  unfold Sat.parse_stats_line, Sat._parse_stat_line. label_tests.
  read_number "UNSAT instances" "   ". reflexivity.
Qed.

Lemma sat_reread_UNKNOWN c :
  Sat.parse_stats_line (s, Some c)
    (("UNKNOWN instances: " ++ str_of_Z z) ++ [NL])
  = (match c with
     | Sat.ctx_minisat => s
     | _ => Sat.store_in s c Sat.set_UNKNOWN (fun t _ => t) z
     end, Some c).
Proof.
  unfold Sat.parse_stats_line, Sat._parse_stat_line. label_tests.
  read_number "UNKNOWN instances" " ". now destruct c.
Qed.

Lemma sat_reread_TIMEOUT c :
  Sat.parse_stats_line (s, Some c)
    (("TIMEOUT instances: " ++ str_of_Z z) ++ [NL])
  = (Sat.store_in s c Sat.set_TIMEOUT Sat.mset_TIMEOUT z, Some c).
Proof.
  unfold Sat.parse_stats_line, Sat._parse_stat_line. label_tests.
  read_number "TIMEOUT instances" " ". reflexivity.
Qed.

Lemma sat_reread_ERROR c :
  Sat.parse_stats_line (s, Some c)
    (("ERROR instances:   " ++ str_of_Z z) ++ [NL])
  = (Sat.store_in s c Sat.set_ERROR Sat.mset_ERROR z, Some c).
Proof.
  unfold Sat.parse_stats_line, Sat._parse_stat_line. label_tests.
  read_number "ERROR instances" "   ". reflexivity.
Qed.

Lemma sat_reread_total c :
  Sat.parse_stats_line (s, c)
    (("Total instances:   " ++ str_of_Z z) ++ [NL])
  = ({| Sat.total := z; Sat.ursa := Sat.ursa s;
        Sat.minisat := Sat.minisat s;
        Sat.reduction := Sat.reduction s |}, None).
Proof.
  unfold Sat.parse_stats_line. label_tests.
  read_number "Total instances" "   ". reflexivity.
Qed.

Lemma sat_reread_title_ursa c :
  Sat.parse_stats_line (s, c) ("URSA Results:" ++ [NL])
  = (s, Some Sat.ctx_ursa).
Proof. unfold Sat.parse_stats_line. eval_contains. reflexivity. Qed.

Lemma sat_reread_title_minisat c :
  Sat.parse_stats_line (s, c) ("MiniSat Results:" ++ [NL])
  = (s, Some Sat.ctx_minisat).
Proof. unfold Sat.parse_stats_line. eval_contains. reflexivity. Qed.

Lemma sat_reread_title_reduction c :
  Sat.parse_stats_line (s, c) ("Reduction Results:" ++ [NL])
  = (s, Some Sat.ctx_reduction).
Proof. unfold Sat.parse_stats_line. eval_contains. reflexivity. Qed.

Lemma sat_reread_blank c :
  Sat.parse_stats_line (s, c) ("" ++ [NL]) = (s, c).
Proof. unfold Sat.parse_stats_line. eval_contains. now destruct c. Qed.

Lemma sat_reread_marker c :
  Sat.parse_stats_line (s, c) ("FINAL STATISTICS:" ++ [NL]) = (s, c).
Proof. unfold Sat.parse_stats_line. eval_contains. now destruct c. Qed.

Lemma sat_reread_rule c :
  Sat.parse_stats_line (s, c) (repeat "="%char 17 ++ [NL]) = (s, c).
Proof. unfold Sat.parse_stats_line. eval_contains. now destruct c. Qed.

Lemma sat_reread_completed now :
  forallb stamp_char now = true ->
  Sat.parse_stats_line (s, None) (("Completed: " ++ now) ++ [NL])
  = (s, None).
Proof.
  intros Hnow. unfold Sat.parse_stats_line.
  stamped "U"%char. stamped "M"%char. stamped "R"%char. stamped "T"%char.
  reflexivity.
Qed.

End SatReread.

Lemma sat_tally_lines_no_break t : Forall no_break (Sat.tally_lines t).
Proof.
  unfold Sat.tally_lines.
  repeat (apply Forall_cons;
          [first [ apply no_break_app; split;
                   [apply no_break_forallb; reflexivity | apply number_no_break]
                 | apply no_break_forallb; reflexivity ] |]).
  apply Forall_nil.
Qed.

Ltac sat_reread_steps :=
  unfold Sat.tally_lines;
  repeat first
    [ rewrite sat_reread_marker | rewrite sat_reread_rule
    | rewrite sat_reread_blank | rewrite sat_reread_title_ursa
    | rewrite sat_reread_title_minisat
    | rewrite sat_reread_title_reduction
    | rewrite sat_reread_SAT | rewrite sat_reread_UNSAT
    | rewrite sat_reread_UNKNOWN | rewrite sat_reread_TIMEOUT
    | rewrite sat_reread_ERROR | rewrite sat_reread_total
    | rewrite sat_reread_completed by assumption
    | rewrite fold_left_app | rewrite map_app
    | progress cbn [map fold_left] ].

(** The statistics section as written is read back with the UNSAT
    counts in the place of the SAT counts. *)
Lemma sat_reread_written s red now :
  forallb stamp_char now = true ->
  (red = false -> Sat.reduction s = Sat.empty_tally) ->
  exists more,
    Sat.write_final_statistics s red now
    = unlines ("" :: "FINAL STATISTICS:" :: more)
    /\ Forall no_break more
    /\ fold_left Sat.parse_stats_line
         (("FINAL STATISTICS:" ++ [NL]) :: map (fun l => l ++ [NL]) more)
         (Sat._initialize_empty_stats, None)
       = (sat_stats_reread s, None).
Proof.
  intros Hnow Hred.
  exists ([ repeat "="%char 17; ""; "URSA Results:" ]
          ++ Sat.tally_lines (Sat.ursa s)
          ++ [ "MiniSat Results:";
               "SAT instances:     "
                 ++ str_of_Z (Sat.MiniSatTally.SAT (Sat.minisat s));
               "UNSAT instances:   "
                 ++ str_of_Z (Sat.MiniSatTally.UNSAT (Sat.minisat s));
               "TIMEOUT instances: "
                 ++ str_of_Z (Sat.MiniSatTally.TIMEOUT (Sat.minisat s));
               "ERROR instances:   "
                 ++ str_of_Z (Sat.MiniSatTally.ERROR (Sat.minisat s));
               "" ]
          ++ (if red
              then [ "Reduction Results:" ]
                     ++ Sat.tally_lines (Sat.reduction s)
              else [])
          ++ [ "Total instances:   " ++ str_of_Z (Sat.total s);
               "Completed: " ++ now ]).
  split; [reflexivity|]. split.
  - pose proof (stamp_no_break _ Hnow) as Hb.
    repeat first
      [ apply Forall_nil
      | apply sat_tally_lines_no_break
      | apply Forall_app; split
      | apply Forall_cons
      | apply no_break_app; split
      | apply number_no_break
      | assumption
      | apply no_break_forallb; reflexivity
      | destruct red ].
  - destruct red.
    + sat_reread_steps.
      destruct s as [t [us uu ut ue uk] [ms mu mt me] [rs ru rt re rk]].
      reflexivity.
    + sat_reread_steps.
      destruct s as [t [us uu ut ue uk] [ms mu mt me] r].
      cbn in Hred. rewrite (Hred eq_refl). reflexivity.
Qed.

(** ** A second run over a finished report, SAT driver *)

Lemma sat_load_finished ls ns s red now :
  data_lines Sat.exts ls ns ->
  forallb stamp_char now = true ->
  (red = false -> Sat.reduction s = Sat.empty_tally) ->
  Sat.load_existing_results
    (Some (concat ls ++ Sat.write_final_statistics s red now))
  = (add_all ns [], sat_stats_reread s,
     _extract_header_lines (ls ++ [[NL]])).
Proof.
  intros Hd Hnow Hred.
  destruct (sat_reread_written s red now Hnow Hred) as [more [Hm [Hb Hf]]].
  rewrite Hm. unfold Sat.load_existing_results.
  rewrite (readlines_finished _ _ _ more Hd),
    (final_stats_index_finished _ _ _ _ Hd).
  rewrite firstn_app, firstn_all2 by lia.
  replace (S (length ls) - length ls)%nat with 1%nat by lia.
  cbn [firstn].
  assert (Hs : skipn (S (length ls))
                 (ls ++ [NL] :: ("FINAL STATISTICS:" ++ [NL])
                             :: readlines (unlines more))
               = ("FINAL STATISTICS:" ++ [NL])
                 :: map (fun l => l ++ [NL]) more).
  { change (ls ++ [NL] :: ("FINAL STATISTICS:" ++ [NL])
                       :: readlines (unlines more))
      with (ls ++ [[NL]] ++ ("FINAL STATISTICS:" ++ [NL])
                             :: readlines (unlines more)).
    rewrite app_assoc, skipn_app, skipn_all2
      by (rewrite length_app; cbn [length]; lia).
    rewrite length_app. cbn [length app].
    replace (S (length ls) - (length ls + 1))%nat with 0%nat by lia.
    cbn [skipn]. f_equal.
    rewrite <- (app_nil_r (unlines more)), readlines_unlines by assumption.
    apply app_nil_r. }
  rewrite Hs. unfold Sat._parse_statistics_section. rewrite Hf.
  cbn [fst]. unfold _extract_processed_filenames.
  assert (Hd' : data_lines Sat.exts (ls ++ [[NL]]) (ns ++ [])).
  { apply data_lines_app; [assumption|].
    apply data_inert; [apply blank_line_inert | constructor]. }
  rewrite (data_lines_extract _ _ _ _ Hd'). now rewrite app_nil_r.
Qed.

Lemma sat_combine_nothing s :
  Sat.combine_stats s Sat._initialize_empty_stats = s.
Proof.
  destruct s as [t [us uu ut ue uk] [ms mu mt me] [rs ru rt re rk]].
  unfold Sat.combine_stats, Sat.add_tally, Sat._initialize_empty_stats,
    Sat.empty_tally.
  cbn. now rewrite !Z.add_0_r.
Qed.

(** The re-reading gives back the counters it was written from only
    when no solver has a satisfiable or an unsatisfiable instance. *)
Lemma sat_stats_reread_fixed s :
  sat_stats_reread s = s
  <-> Sat.Tally.SAT (Sat.ursa s) = 0 /\ Sat.Tally.UNSAT (Sat.ursa s) = 0
      /\ Sat.MiniSatTally.SAT (Sat.minisat s) = 0
      /\ Sat.MiniSatTally.UNSAT (Sat.minisat s) = 0
      /\ Sat.Tally.SAT (Sat.reduction s) = 0
      /\ Sat.Tally.UNSAT (Sat.reduction s) = 0.
Proof.
  destruct s as [t [us uu ut ue uk] [ms mu mt me] [rs ru rt re rk]].
  unfold sat_stats_reread, sat_tally_reread, sat_minisat_reread. cbn.
  split.
  - intros H. injection H as H1 H2 H3 H4 H5 H6. subst. repeat split.
  - intros [-> [-> [-> [-> [-> ->]]]]]. reflexivity.
Qed.

Section SatRerun.

Variable cfg : Sat.config.
Variable w : Sat.world.

Lemma sat_step_reduction p st st' f :
  Sat.has_reduction cfg = false ->
  Sat.benchmark_step cfg w p st f = inr st' ->
  Sat.reduction (Sat.counted st') = Sat.reduction (Sat.counted st).
Proof.
  intros Hred. unfold Sat.benchmark_step, Sat.update_stats.
  rewrite Hred.
  destruct (Sat.benchmark_file cfg w p f) as [e|[r|]]; cbn [bind ret];
    [discriminate| |intros H; apply inr_eq in H; now subst st'].
  destruct (Sat.count_status (Sat.ursa_status r) (Sat.ursa (Sat.counted st)))
    as [e|u]; cbn [bind ret]; [discriminate|].
  destruct (Sat.count_minisat_status (Sat.minisat_status r)
              (Sat.minisat (Sat.counted st)))
    as [e|m]; cbn [bind ret]; [discriminate|].
  destruct (Sat.result_line cfg (Sat.extract_category f) r) as [e|l];
    cbn [bind ret]; [discriminate|].
  intros H. apply inr_eq in H. now subst st'.
Qed.

Lemma sat_loop_reduction p files st :
  Sat.has_reduction cfg = false ->
  Sat.reduction (Sat.counted (fst (Sat.benchmark_loop cfg w p files st)))
  = Sat.reduction (Sat.counted st).
Proof.
  intros Hred. revert st. induction files as [|f r IH]; intros st;
    cbn [Sat.benchmark_loop]; [reflexivity|].
  destruct (Sat.benchmark_step cfg w p st f) as [e|st'] eqn:E;
    [reflexivity|].
  rewrite IH. eapply sat_step_reduction; eauto.
Qed.

Lemma sat_loop_idle files st :
  Forall (fun f => plain_name Sat.exts (basename f)) files ->
  Forall (fun f => sat_done cfg w f = false) files ->
  Sat.benchmark_loop cfg w [] files st = (st, None).
Proof.
  intros Hnames Hidle. induction Hidle as [|f r Hf Hr IH];
    cbn [Sat.benchmark_loop]; [reflexivity|].
  apply Forall_cons_iff in Hnames. destruct Hnames as [Hn Hns].
  pose proof (sat_step_spec cfg w st f Hn) as Hstep.
  rewrite Hf in Hstep. rewrite Hstep. now apply IH.
Qed.

Variable files : list str.
Variables started completed started' completed' : str.

Hypothesis names_plain :
  Forall (fun f => plain_name Sat.exts (basename f)) files.
Hypothesis started_plain : forallb stamp_char started = true.
Hypothesis completed_plain : forallb stamp_char completed = true.

(** A second run with [--continue] over the files of a finished report
    adds no result line, but it writes the final statistics from the
    counters as re-read: every UNSAT count has become a SAT count. *)
Theorem sat_rerun :
  sat_rerun_law cfg w files started completed started' completed'.
Proof.
  unfold sat_rerun_law. cbv zeta.
  set (header := Sat.write_header (Sat.has_reduction cfg)
                   (Sat.save_urs cfg) started).
  set (counters := Sat.counted (sat_pass cfg w files)).
  destruct (sat_header_inert (Sat.has_reduction cfg)
              (Sat.save_urs cfg) started started_plain) as [hs [Hh Hin]].
  destruct (header_data Sat.exts header hs Hh Hin) as [HL [HhL HdL]].
  destruct (sat_pass_spec cfg w files names_plain files (fun f H => H))
    as [lsA [HlA [HwA [HdA HtA]]]].
  assert (Hsingle :
    Sat.benchmark_directory cfg w None files started completed
    = {| report := header ++ Sat.written (sat_pass cfg w files)
                   ++ Sat.write_final_statistics counters
                        (Sat.has_reduction cfg) completed;
         raised := None |}).
  { unfold Sat.benchmark_directory.
    rewrite (sat_start_fresh cfg files started).
    fold header.
    rewrite (sat_loop_on cfg w files names_plain) by auto.
    cbn [Sat.counted Sat.written]. fold counters.
    rewrite sat_combine_empty. now rewrite <- app_assoc. }
  rewrite Hsingle. cbn [report raised].
  set (names := map basename (filter (sat_done cfg w) files)) in *.
  assert (Hd : data_lines Sat.exts (HL ++ lsA) names).
  { apply (data_lines_app _ _ [] _ _ HdL HdA). }
  assert (Htext : header ++ Sat.written (sat_pass cfg w files)
                  = concat (HL ++ lsA)).
  { now rewrite HhL, HwA, concat_app. }
  assert (Hred : Sat.has_reduction cfg = false ->
                 Sat.reduction counters = Sat.empty_tally).
  { intros H. unfold counters, sat_pass. now rewrite sat_loop_reduction. }
  assert (Hload :
    Sat.load_existing_results
      (Some (header ++ Sat.written (sat_pass cfg w files)
             ++ Sat.write_final_statistics counters
                  (Sat.has_reduction cfg) completed))
    = (add_all names [], sat_stats_reread counters,
       _extract_header_lines ((HL ++ lsA) ++ [[NL]]))).
  { rewrite app_assoc, Htext. apply sat_load_finished; assumption. }
  assert (Hprep :
    prepare_output_file
      (Some (header ++ Sat.written (sat_pass cfg w files)
             ++ Sat.write_final_statistics counters
                  (Sat.has_reduction cfg) completed)) true
    = (true, (header ++ Sat.written (sat_pass cfg w files)) ++ [NL])).
  { rewrite app_assoc, Htext.
    destruct (final_statistics_head_sat counters
                (Sat.has_reduction cfg) completed) as [more Hm].
    rewrite Hm. apply (prepare_finished _ _ _ more Hd). }
  set (remaining := filter_files files (add_all names []) true).
  assert (Hidle : Forall (fun f => sat_done cfg w f = false) remaining).
  { apply Forall_forall. intros f Hf. apply filter_files_In in Hf.
    destruct Hf as [Hf Hm].
    destruct (sat_done cfg w f) eqn:E; [|reflexivity].
    assert (Hi : mem (basename f) (add_all names []) = true).
    { apply mem_In, add_all_In. left. unfold names.
      apply in_map, filter_In. now split. }
    congruence. }
  assert (Hskip : Forall (fun f => mem (basename f) (add_all names []) = false)
                    remaining).
  { apply Forall_forall. intros f Hf. apply filter_files_In in Hf. tauto. }
  assert (Hsub : forall f, In f remaining -> In f files).
  { intros f Hf. apply filter_files_In in Hf. tauto. }
  split; [reflexivity|].
  unfold Sat.benchmark_directory, Sat.start_run, Sat.load_or_init_stats.
  cbn [Sat.continue_mode sat_resume_config].
  fold (sat_resume_config cfg).
  rewrite Hload, Hprep. fold remaining.
  rewrite (sat_loop_resume cfg w _ _ _ Hskip).
  rewrite sat_loop_idle.
  - cbn [Sat.counted Sat.written].
    rewrite sat_combine_nothing, sat_resume_has_reduction.
    cbn [report raised]. split; [reflexivity|]. split.
    + now rewrite <- app_assoc.
    + now rewrite <- !app_assoc.
  - rewrite Forall_forall in *. auto.
  - exact Hidle.
Qed.

End SatRerun.


(** ** Resumption and re-runs: the claims *)




(** C2. Re-running the SAT driver on a batch that is fully processed adds
    no result line, but the rewritten FINAL STATISTICS differ: the line
    [UNSAT instances:] of the prior report holds [SAT instances:] as a
    substring, so [_parse_stat_line] stores its number as the SAT count and
    never reaches the branch for UNSAT.  Here one instance, unsatisfiable
    for both solvers: before the re-run SAT 0 and UNSAT 1, after it SAT 1
    and UNSAT 0.  For every batch the re-run of the SAT driver writes the
    counters [sat_stats_reread] makes of those of the first run
    ([sat_rerun], [sat_stats_reread_fixed]), while the re-run of the clique
    driver, whose labels do not hold one another, writes the counters of
    the first run ([clique_rerun]). *)
Theorem C2_sat_rerun_turns_unsat_into_sat :
  let before :=
    report (Sat.benchmark_directory sat_fresh one_unsat None ["cnf/a.cnf"]
              stamp1 stamp2) in
  let rerun :=
    Sat.benchmark_directory sat_resume one_unsat (Some before) ["cnf/a.cnf"]
      stamp2 stamp3 in
  raised rerun = None
  /\ filter_files ["cnf/a.cnf"] (sat_processed before) true = []
  /\ filter (has_ext Sat.exts) (readlines (report rerun))
     = filter (has_ext Sat.exts) (readlines before)
  /\ filter (contains "SAT") (final_statistics_lines before)
     = [ "SAT instances:     0" ++ [NL]; "UNSAT instances:   1" ++ [NL];
         "SAT instances:     0" ++ [NL]; "UNSAT instances:   1" ++ [NL] ]
  /\ filter (contains "SAT") (final_statistics_lines (report rerun))
     = [ "SAT instances:     1" ++ [NL]; "UNSAT instances:   0" ++ [NL];
         "SAT instances:     1" ++ [NL]; "UNSAT instances:   0" ++ [NL] ].
Proof. vm_compute. repeat split; reflexivity. Qed.


(** ** Reading the generated text *)

Lemma take_while_app f a b :
  forallb f a = true ->
  match b with [] => True | c :: _ => f c = false end ->
  take_while f (a ++ b) = a /\ drop_while f (a ++ b) = b.
Proof.
  intros Ha Hb. induction a as [|c a IH]; cbn [app].
  - destruct b as [|d b]; [split; reflexivity|].
    cbn [take_while drop_while]. rewrite Hb. split; reflexivity.
  - cbn [forallb] in Ha. apply andb_true_iff in Ha. destruct Ha as [Hc Ha].
    cbn [take_while drop_while]. rewrite Hc.
    destruct (IH Ha) as [-> ->]. split; reflexivity.
Qed.

Lemma str_of_Z_is_num z : forallb is_num (str_of_Z z) = true.
Proof.
  assert (Hd : forall d, forallb is_num (str_of_uint d) = true).
  { intros d. apply forallb_impl with (f := is_digit);
      [|apply str_of_uint_digits].
    intros c Hc. unfold is_num. now rewrite Hc. }
  destruct z as [|p|p]; [reflexivity|apply Hd|].
  cbn [str_of_Z forallb]. apply andb_true_iff. split; [reflexivity|].
  apply Hd.
Qed.

(** A printed number is read back as that number, up to the first
    character that is neither a digit nor a sign. *)
Lemma read_atom_number z rest :
  match rest with [] => True | c :: _ => is_num c = false end ->
  read_atom (str_of_Z z ++ rest) = Some (Num z, rest).
Proof.
  intros Hrest. unfold read_atom.
  destruct (take_while_app is_num (str_of_Z z) rest (str_of_Z_is_num z) Hrest)
    as [-> ->].
  destruct (str_of_Z_trimmed z) as [_ Hne].
  destruct (str_of_Z z) as [|c r] eqn:E; [congruence|].
  cbn [is_empty]. rewrite <- E, int_opt_str_of_Z. reflexivity.
Qed.

Lemma read_expr_number z c rest :
  is_num c = false -> Ascii.eqb c "*"%char = false ->
  read_expr (str_of_Z z ++ c :: rest) = Some (Num z, c :: rest).
Proof.
  intros Hc Hstar. unfold read_expr.
  rewrite read_atom_number by exact Hc. now rewrite Hstar.
Qed.

Lemma eat_app p s : eat p (p ++ s) = Some s.
Proof.
  induction p as [|c p IH]; [reflexivity|]. cbn [app eat].
  now rewrite Ascii.eqb_refl.
Qed.

(** A name is read up to the first character that is no letter, digit or
    underscore. *)
Lemma read_atom_name c name d rest :
  is_num c = false -> forallb is_word (c :: name) = true ->
  is_word d = false ->
  read_atom ((c :: name) ++ d :: rest) = Some (Var (c :: name), d :: rest).
Proof.
  intros Hc Hw Hd. unfold read_atom.
  assert (Hnum : take_while is_num ((c :: name) ++ d :: rest) = [])
    by (cbn [app take_while]; now rewrite Hc).
  rewrite Hnum. cbn [is_empty].
  destruct (take_while_app is_word (c :: name) (d :: rest) Hw Hd) as [-> ->].
  reflexivity.
Qed.

Lemma read_line_statement c r :
  starts_statement c = true -> read_line (c :: r) = read_simple (c :: r).
Proof.
  unfold starts_statement. intros H.
  repeat (apply andb_true_iff in H; destruct H as [H ?]).
  repeat match goal with
         | H : negb _ = true |- _ => apply negb_true_iff in H
         end.
  unfold read_line, lstrip. rewrite drop_while_head by assumption.
  cbn [is_empty startswith orb eat].
  repeat match goal with H : _ = false |- _ => rewrite H end.
  reflexivity.
Qed.

Lemma read_line_store c name i j :
  starts_statement c = true -> forallb is_word (c :: name) = true ->
  read_line ((c :: name) ++ "[" ++ str_of_Z i ++ "][" ++ str_of_Z j
             ++ "] = true;" ++ [NL])
  = Some (Simple (Store (c :: name) (Num i) (Num j) true)).
Proof.
  intros Hc Hw.
  change ((c :: name) ++ "[" ++ str_of_Z i ++ "][" ++ str_of_Z j
          ++ "] = true;" ++ [NL])
    with (c :: name ++ "[" ++ str_of_Z i ++ "][" ++ str_of_Z j
          ++ "] = true;" ++ [NL]).
  rewrite read_line_statement by exact Hc.
  assert (Hn : is_num c = false).
  { unfold starts_statement in Hc.
    destruct (is_num c); [|reflexivity].
    now rewrite andb_false_r in Hc. }
  unfold read_simple.
  change (c :: name ++ "[" ++ str_of_Z i ++ "][" ++ str_of_Z j
          ++ "] = true;" ++ [NL])
    with ((c :: name) ++ "["%char :: str_of_Z i ++ "]"%char
          :: ("[" ++ str_of_Z j ++ "] = true;" ++ [NL])).
  rewrite read_atom_name by (assumption || reflexivity).
  rewrite Ascii.eqb_refl.
  rewrite read_expr_number by reflexivity.
  change ("]"%char :: "[" ++ str_of_Z j ++ "] = true;" ++ [NL])
    with ("][" ++ str_of_Z j ++ "]"%char :: (" = true;" ++ [NL])).
  rewrite eat_app.
  rewrite read_expr_number by reflexivity.
  reflexivity.
Qed.

Lemma read_line_assign c name z :
  starts_statement c = true -> forallb is_word (c :: name) = true ->
  read_line ((c :: name) ++ " = " ++ str_of_Z z ++ ";" ++ [NL])
  = Some (Simple (Assign (c :: name) (Num z))).
Proof.
  intros Hc Hw.
  change ((c :: name) ++ " = " ++ str_of_Z z ++ ";" ++ [NL])
    with (c :: name ++ " = " ++ str_of_Z z ++ ";" ++ [NL]).
  rewrite read_line_statement by exact Hc.
  assert (Hn : is_num c = false).
  { unfold starts_statement in Hc.
    destruct (is_num c); [|reflexivity].
    now rewrite andb_false_r in Hc. }
  unfold read_simple.
  change (c :: name ++ " = " ++ str_of_Z z ++ ";" ++ [NL])
    with ((c :: name) ++ " "%char :: ("= " ++ str_of_Z z ++ ";" ++ [NL])).
  rewrite read_atom_name by (assumption || reflexivity).
  change (Ascii.eqb " " "[") with false. cbv iota.
  change (" "%char :: "= " ++ str_of_Z z ++ ";" ++ [NL])
    with (" = " ++ str_of_Z z ++ ";"%char :: [NL]).
  rewrite eat_app.
  rewrite read_expr_number by reflexivity.
  reflexivity.
Qed.

(** The same line as [unlines] writes it. *)
Lemma assigned_line c name z :
  starts_statement c = true -> forallb is_word (c :: name) = true ->
  read_line (((c :: name) ++ " = " ++ str_of_Z z ++ ";") ++ [NL])
  = Some (Simple (Assign (c :: name) (Num z))).
Proof.
  intros Hc Hw. rewrite <- !app_assoc. now apply read_line_assign.
Qed.

Lemma read_line_edge i j :
  read_line (Clique.edge_statement i j)
  = Some (Simple (Store "bEdge" (Num i) (Num j) true)).
Proof. apply (read_line_store "b" "Edge"); reflexivity. Qed.

Lemma read_line_literal c s :
  read_line (Sat.literal_statement c s)
  = Some (Simple (Store "bC" (Num c) (Num s) true)).
Proof. apply (read_line_store "b" "C"); reflexivity. Qed.

(** ** From lines to statements *)

Lemma build_skip l r opened done :
  read_line l = Some Skip -> build (l :: r) opened done = build r opened done.
Proof. intros H. cbn [build]. now rewrite H. Qed.

Lemma build_simple l s r opened done :
  read_line l = Some (Simple s) ->
  build (l :: r) opened done = build r opened (s :: done).
Proof. intros H. cbn [build]. now rewrite H. Qed.

Lemma build_open l x b r opened done :
  read_line l = Some (Open x b) ->
  build (l :: r) opened done = build r ((x, b, done) :: opened) [].
Proof. intros H. cbn [build]. now rewrite H. Qed.

Lemma build_close l x b outer r opened done :
  read_line l = Some Close ->
  build (l :: r) ((x, b, outer) :: opened) done
  = build r opened (For x b (rev done) :: outer).
Proof. intros H. cbn [build]. now rewrite H. Qed.

(** A run of lines that are statements adds these to the block. *)
Lemma build_statements lines stmts rest opened done :
  Forall2 (fun l s => read_line l = Some (Simple s)) lines stmts ->
  build (lines ++ rest) opened done = build rest opened (rev stmts ++ done).
Proof.
  intros H. revert done.
  induction H as [|l s lines stmts Hl _ IH]; intros done; [reflexivity|].
  cbn [app]. rewrite (build_simple _ _ _ _ _ Hl), IH. cbn [rev].
  now rewrite <- app_assoc.
Qed.

Lemma statement_lines_whole (stmt : Z -> Z -> str) l :
  (forall i j, whole_line (stmt i j)) ->
  Forall whole_line (map (fun ij => stmt (fst ij) (snd ij)) l).
Proof.
  intros H. induction l as [|[i j] l IH]; constructor; [apply H|exact IH].
Qed.

Lemma store_line_whole a i j :
  no_break a ->
  whole_line (a ++ "[" ++ str_of_Z i ++ "][" ++ str_of_Z j ++ "] = true;"
              ++ [NL]).
Proof.
  intros Ha.
  exists (a ++ "[" ++ str_of_Z i ++ "][" ++ str_of_Z j ++ "] = true;").
  split; [now rewrite <- !app_assoc|].
  repeat (apply no_break_app; split);
    first [ exact Ha | apply number_no_break
          | apply no_break_forallb; reflexivity ].
Qed.

Lemma assign_line_no_break x z :
  no_break x -> no_break (x ++ " = " ++ str_of_Z z ++ ";").
Proof.
  intros Hx.
  repeat (apply no_break_app; split);
    first [ exact Hx | apply number_no_break
          | apply no_break_forallb; reflexivity ].
Qed.

Ltac plain_lines :=
  repeat constructor;
  first [ apply (assign_line_no_break "nN"); apply no_break_forallb;
          reflexivity
        | apply (assign_line_no_break "nClauses"); apply no_break_forallb;
          reflexivity
        | apply no_break_forallb; reflexivity ].

(** The text of the clique generator before the template, read as a
    program: the assignment to [nN], the two loops, and the two stores of
    each edge. *)
Lemma clique_program_read n edges :
  read_program
    (Clique.preamble n
     ++ statements Clique.edge_statement (edge_assignments edges))
  = Some (Assign "nN" (Num n)
          :: fill_false "bEdge" "i" "j" (Var "nN") (Var "nN")
          :: flat_map edge_stores edges).
Proof.
  unfold read_program, Clique.preamble, statements.
  rewrite readlines_unlines by plain_lines.
  rewrite <- (app_nil_r (concat _)).
  rewrite readlines_whole_lines
    by (apply statement_lines_whole; intros i j;
        apply (store_line_whole "bEdge");
        apply no_break_forallb; reflexivity).
  cbn [readlines map app]. rewrite app_nil_r.
  rewrite build_simple with (s := Assign "nN" (Num n))
    by (apply (assigned_line "n" "N"); reflexivity).
  rewrite build_skip by reflexivity.
  rewrite build_skip by reflexivity.
  rewrite build_open with (x := "i") (b := Var "nN") by reflexivity.
  rewrite build_open with (x := "j") (b := Var "nN") by reflexivity.
  rewrite build_simple
    with (s := Store "bEdge" (Var "i") (Var "j") false) by reflexivity.
  rewrite build_close by reflexivity.
  rewrite build_close by reflexivity.
  rewrite build_skip by reflexivity.
  rewrite build_skip by reflexivity.
  rewrite <- (app_nil_r (map _ (edge_assignments edges))).
  rewrite (build_statements _
             (map (fun ij => Store "bEdge" (Num (fst ij)) (Num (snd ij)) true)
                (edge_assignments edges))).
  2:{ induction (edge_assignments edges) as [|[i j] l IH]; constructor;
        [apply read_line_edge|exact IH]. }
  cbn [build rev app]. rewrite rev_app_distr, rev_involutive. cbn [rev app].
  unfold fill_false. do 3 f_equal.
  unfold edge_assignments. induction edges as [|[u v] r IH]; [reflexivity|].
  cbn [flat_map map app fst snd edge_stores]. now rewrite IH.
Qed.

(** The same for the SAT generator: the assignments to [nN] and
    [nClauses], the two loops, and one store per literal. *)
Lemma sat_program_read nv nc clauses :
  read_program
    (Sat.preamble nv nc
     ++ statements Sat.literal_statement (literal_assignments clauses))
  = Some (Assign "nN" (Num nv) :: Assign "nClauses" (Num nc)
          :: fill_false "bC" "ni" "nj" (Var "nClauses")
               (Mul (Num 2) (Var "nN"))
          :: flat_map (fun ic => map (literal_store (fst ic)) (snd ic))
               (enumerate clauses)).
Proof.
  unfold read_program, Sat.preamble, statements.
  rewrite readlines_unlines by plain_lines.
  rewrite <- (app_nil_r (concat _)).
  rewrite readlines_whole_lines
    by (apply statement_lines_whole; intros i j;
        apply (store_line_whole "bC");
        apply no_break_forallb; reflexivity).
  cbn [readlines map app]. rewrite app_nil_r.
  rewrite build_simple with (s := Assign "nN" (Num nv))
    by (apply (assigned_line "n" "N"); reflexivity).
  rewrite build_simple with (s := Assign "nClauses" (Num nc))
    by (apply (assigned_line "n" "Clauses"); reflexivity).
  rewrite build_skip by reflexivity.
  rewrite build_open with (x := "ni") (b := Var "nClauses") by reflexivity.
  rewrite build_open with (x := "nj") (b := Mul (Num 2) (Var "nN"))
    by reflexivity.
  rewrite build_simple
    with (s := Store "bC" (Var "ni") (Var "nj") false) by reflexivity.
  rewrite build_close by reflexivity.
  rewrite build_close by reflexivity.
  rewrite build_skip by reflexivity.
  rewrite <- (app_nil_r (map _ (literal_assignments clauses))).
  rewrite (build_statements _
             (map (fun ij => Store "bC" (Num (fst ij)) (Num (snd ij)) true)
                (literal_assignments clauses))).
  2:{ induction (literal_assignments clauses) as [|[i j] l IH]; constructor;
        [apply read_line_literal|exact IH]. }
  cbn [build rev app]. rewrite rev_app_distr, rev_involutive. cbn [rev app].
  unfold fill_false. do 4 f_equal.
  unfold literal_assignments.
  induction (enumerate clauses) as [|[c cl] r IH]; [reflexivity|].
  cbn [flat_map map app fst snd]. rewrite map_app, IH. f_equal.
  rewrite map_map. reflexivity.
Qed.


(** ** Running the generated program *)

Lemma str_eqb_refl a : str_eqb a a = true.
Proof. now apply str_eqb_eq. Qed.

Lemma str_eqb_sym a b : str_eqb a b = str_eqb b a.
Proof.
  destruct (str_eqb a b) eqn:E1; destruct (str_eqb b a) eqn:E2; try reflexivity.
  - apply str_eqb_eq in E1. subst. now rewrite str_eqb_refl in E2.
  - apply str_eqb_eq in E2. subst. now rewrite str_eqb_refl in E1.
Qed.

Section Fill.


Variables (a xi xj : str) (cols_e : expr) (cols : Z).
Hypothesis Hij : str_eqb xi xj = false.

Lemma rounds_row (i : Z) (st : state) (m : nat) :
  lookup xi (vars st) = Some i ->
  exists st',
    rounds m
      (fun k st' =>
         exec_block [Store a (Var xi) (Var xj) false] (set_var xj k st'))
      st = Some st'
    /\ same_vars [xj] st' st
    /\ stored a (fun i' j' => (i' =? i) && below (Z.of_nat m) j') false st' st.
Proof.
  intros Hi. induction m as [|k [st1 [Hr [Hv Ha]]]].
  - exists st. split; [reflexivity|]. split; [intros y _; reflexivity|].
    intros a' i' j'. now rewrite below_0, !andb_false_r.
  - cbn [rounds]. rewrite Hr. cbn [exec_block exec set_var vars eval lookup].
    rewrite str_eqb_refl, Hij.
    assert (Hi1 : lookup xi (vars st1) = Some i).
    { rewrite Hv; [exact Hi|]. cbn [mem existsb]. now rewrite Hij. }
    rewrite Hi1. eexists. split; [reflexivity|]. split.
    + intros y Hy. cbn [set_entry set_var vars lookup].
      cbn [mem existsb] in Hy. rewrite orb_false_r in Hy. rewrite Hy.
      apply Hv. cbn [mem existsb]. now rewrite Hy.
    + intros a' i' j'. cbn [set_entry set_var arrays]. rewrite below_succ.
      pose proof (Ha a' i' j') as H.
      destruct (str_eqb a' a); cbn [andb] in H |- *; [unfold store|exact H].
      rewrite H.
      destruct (i' =? i), (j' =? Z.of_nat k), (below (Z.of_nat k) j');
        reflexivity.
Qed.

(** The inner loop stores [false] to the row of [a] at the value of the
    outer loop variable. *)
Lemma exec_row (i : Z) (st : state) :
  lookup xi (vars st) = Some i ->
  eval (vars st) cols_e = Some cols ->
  exists st',
    exec (For xj cols_e [Store a (Var xi) (Var xj) false]) st = Some st'
    /\ same_vars [xj] st' st
    /\ stored a (fun i' j' => (i' =? i) && below cols j') false st' st.
Proof.
  intros Hi Hc. cbn [exec]. rewrite Hc.
  destruct (rounds_row i st (Z.to_nat cols) Hi) as [st' [Hr [Hv Ha]]].
  exists st'. split; [exact Hr|]. split; [exact Hv|].
  intros a' i' j'. rewrite (Ha a' i' j'). now rewrite below_to_nat.
Qed.

Variables (rows_e : expr) (rows : Z) (st0 : state).
Hypothesis Hrows : eval (vars st0) rows_e = Some rows.
Hypothesis Hcols :
  forall st, same_vars [xi; xj] st st0 -> eval (vars st) cols_e = Some cols.

Lemma rounds_rows (m : nat) :
  exists st',
    rounds m
      (fun k st' =>
         exec_block [For xj cols_e [Store a (Var xi) (Var xj) false]]
           (set_var xi k st'))
      st0 = Some st'
    /\ same_vars [xi; xj] st' st0
    /\ stored a (fun i' j' => below (Z.of_nat m) i' && below cols j') false
         st' st0.
Proof.
  induction m as [|k [st1 [Hr [Hv Ha]]]].
  - exists st0. split; [reflexivity|]. split; [intros y _; reflexivity|].
    intros a' i' j'. now rewrite below_0, !andb_false_r.
  - cbn [rounds]. rewrite Hr. cbn [exec_block].
    assert (Hv1 : same_vars [xi; xj] (set_var xi (Z.of_nat k) st1) st0).
    { intros y Hy. cbn [set_var vars lookup].
      cbn [mem existsb] in Hy. apply orb_false_iff in Hy.
      destruct Hy as [Hy1 Hy2]. rewrite Hy1. apply Hv.
      cbn [mem existsb]. now rewrite Hy1, Hy2. }
    destruct (exec_row (Z.of_nat k) (set_var xi (Z.of_nat k) st1))
      as [st2 [He [Hv2 Ha2]]].
    + cbn [set_var vars lookup]. now rewrite str_eqb_refl.
    + apply Hcols. exact Hv1.
    + rewrite He. exists st2. split; [reflexivity|]. split.
      * intros y Hy. rewrite Hv2.
        -- apply Hv1. exact Hy.
        -- cbn [mem existsb] in Hy |- *. apply orb_false_iff in Hy.
           destruct Hy as [_ Hy]. exact Hy.
      * intros a' i' j'. rewrite (Ha2 a' i' j'). cbn [set_var arrays].
        rewrite (Ha a' i' j'), below_succ.
        destruct (str_eqb a' a), (i' =? Z.of_nat k),
          (below (Z.of_nat k) i'), (below cols j'); reflexivity.
Qed.

(** The two loops store [false] to the entries of [a] inside the bounds
    and to no other entry. *)
Lemma exec_fill_false :
  exists st',
    exec (fill_false a xi xj rows_e cols_e) st0 = Some st'
    /\ same_vars [xi; xj] st' st0
    /\ stored a (fun i' j' => below rows i' && below cols j') false st' st0.
Proof.
  unfold fill_false. cbn [exec]. rewrite Hrows.
  destruct (rounds_rows (Z.to_nat rows)) as [st' [Hr [Hv Ha]]].
  exists st'. split.
  - rewrite <- Hr. clear. induction (Z.to_nat rows) as [|k IH];
      [reflexivity|]. cbn [rounds]. rewrite IH. reflexivity.
  - split; [exact Hv|]. intros a' i' j'. rewrite (Ha a' i' j').
    now rewrite below_to_nat.
Qed.

End Fill.

(** A run of stores of [true] at given indices. *)
Lemma exec_stores a (l : list (Z * Z)) :
  forall st,
  exists st',
    exec_block (map (fun ij => Store a (Num (fst ij)) (Num (snd ij)) true) l)
      st = Some st'
    /\ vars st' = vars st
    /\ stored a (fun i j => mem_pair (i, j) l) true st' st.
Proof.
  induction l as [|[i0 j0] l IH]; intros st.
  - exists st. split; [reflexivity|]. split; [reflexivity|].
    intros a' i j. now rewrite andb_false_r.
  - cbn [map exec_block exec eval fst snd].
    destruct (IH (set_entry a i0 j0 true st)) as [st' [He [Hv Ha]]].
    exists st'. split; [exact He|]. split; [exact Hv|].
    intros a' i j. rewrite (Ha a' i j). cbn [set_entry arrays].
    unfold mem_pair. cbn [existsb fst snd].
    rewrite (Z.eqb_sym i0 i), (Z.eqb_sym j0 j).
    destruct (str_eqb a' a); cbn [andb]; [unfold store|reflexivity].
    destruct (existsb _ l), (i =? i0), (j =? j0); reflexivity.
Qed.


(** The loops and the stores of [true] that follow them: an entry of [a]
    holds [true] when a store names it, else [false] when it lies inside
    the bounds of the loops, and is as before otherwise. *)
Lemma exec_generated a xi xj rows_e cols_e rows cols l st0 :
  str_eqb xi xj = false ->
  eval (vars st0) rows_e = Some rows ->
  (forall st, same_vars [xi; xj] st st0 -> eval (vars st) cols_e = Some cols) ->
  exists st,
    exec_block
      (fill_false a xi xj rows_e cols_e
       :: map (fun ij => Store a (Num (fst ij)) (Num (snd ij)) true) l)
      st0 = Some st
    /\ forall i j,
        arrays st a i j
        = if mem_pair (i, j) l then Some true
          else if below rows i && below cols j then Some false
               else arrays st0 a i j.
Proof.
  intros Hij Hrows Hcols.
  destruct (exec_fill_false a xi xj cols_e cols Hij rows_e rows st0 Hrows
              Hcols) as [st1 [He [_ Ha]]].
  destruct (exec_stores a l st1) as [st2 [Hs [_ Hb]]].
  exists st2. cbn [exec_block]. rewrite He. split; [exact Hs|].
  intros i j. rewrite (Hb a i j), (Ha a i j), str_eqb_refl. reflexivity.
Qed.

Lemma below_spec n i : below n i = true <-> 0 <= i < n.
Proof.
  unfold below. rewrite andb_true_iff, Z.leb_le, Z.ltb_lt. reflexivity.
Qed.

Lemma edge_stores_map edges :
  flat_map edge_stores edges
  = map (fun ij => Store "bEdge" (Num (fst ij)) (Num (snd ij)) true)
      (edge_assignments edges).
Proof.
  unfold edge_assignments. induction edges as [|[u v] r IH]; [reflexivity|].
  cbn [flat_map map app fst snd edge_stores]. now rewrite IH.
Qed.

Lemma literal_stores_map clauses :
  flat_map (fun ic => map (literal_store (fst ic)) (snd ic))
    (enumerate clauses)
  = map (fun ij => Store "bC" (Num (fst ij)) (Num (snd ij)) true)
      (literal_assignments clauses).
Proof.
  unfold literal_assignments.
  induction (enumerate clauses) as [|[c cl] r IH]; [reflexivity|].
  cbn [flat_map map app fst snd]. rewrite map_app, IH. f_equal.
  rewrite map_map. reflexivity.
Qed.

Lemma slot_cases l s :
  s = slot l
  <-> (0 < l /\ s = 2 * (l - 1)) \/ (l <= 0 /\ s = 2 * (Z.abs l - 1) + 1).
Proof.
  unfold slot. destruct (0 <? l) eqn:E.
  - apply Z.ltb_lt in E. split; [intros ->; left; auto|].
    intros [[_ H]|[H _]]; [exact H|lia].
  - apply Z.ltb_ge in E. split; [intros ->; right; auto|].
    intros [[H _]|[_ H]]; [lia|exact H].
Qed.

(** What a cell of an array holds after the loops and the stores. *)
Lemma cell_cases (hit inside : bool) (cell : option bool) :
  cell = (if hit then Some true else if inside then Some false else None) ->
  (cell = Some true <-> hit = true)
  /\ (cell = Some false <-> inside = true /\ hit <> true).
Proof.
  intros ->. destruct hit, inside; repeat split;
    intros; try congruence; try tauto;
    match goal with H : _ /\ _ |- _ => destruct H; congruence end.
Qed.

(** The array [bEdge] after the text the clique generator writes before
    the template. *)
Lemma clique_program_run n edges :
  exists st,
    run_text (Clique.preamble n
              ++ statements Clique.edge_statement (edge_assignments edges))
    = Some st
    /\ forall i j,
        arrays st "bEdge" i j
        = if mem_pair (i, j) (edge_assignments edges) then Some true
          else if below n i && below n j then Some false else None.
Proof.
  unfold run_text. rewrite clique_program_read, edge_stores_map.
  cbn [exec_block exec eval].
  apply (exec_generated "bEdge" "i" "j" (Var "nN") (Var "nN") n n);
    [reflexivity|reflexivity|].
  intros st H. cbn [eval]. now rewrite H.
Qed.

(** The array [bC] after the text the SAT generator writes before the
    template. *)
Lemma sat_program_run nv nc clauses :
  exists st,
    run_text (Sat.preamble nv nc
              ++ statements Sat.literal_statement
                   (literal_assignments clauses))
    = Some st
    /\ forall c s,
        arrays st "bC" c s
        = if mem_pair (c, s) (literal_assignments clauses) then Some true
          else if below nc c && below (2 * nv) s then Some false else None.
Proof.
  unfold run_text. rewrite sat_program_read, literal_stores_map.
  cbn [exec_block exec eval].
  apply (exec_generated "bC" "ni" "nj" (Var "nClauses")
           (Mul (Num 2) (Var "nN")) nc (2 * nv));
    [reflexivity|reflexivity|].
  intros st H. cbn [eval]. now rewrite H.
Qed.


(** ** The code generators: the claims *)

(** C5. Graph encoding with edge symmetry.  The text [generate_urs_code]
    returns is a head, an empty line and the template.  Read as a program,
    the head is the assignment of the vertex count to [nN], the two loops
    that store [false] to [bEdge[i][j]] for all [i], [j] below [nN], and
    then, for each edge [(u, v)] in input order, the two stores
    [bEdge[u-1][v-1] = true] and [bEdge[v-1][u-1] = true], and nothing
    else.  Run, it leaves [true] in exactly the entries that an edge names
    in one direction or the other, and [false] in exactly the other entries
    with both indices below the vertex count.  The graph of three vertices
    with the edges (1,2), (2,3) gives the four stores at (0,1), (1,0),
    (1,2), (2,1). *)
Theorem C5_graph_encoding_edge_symmetry :
  forall (num_vertices : Z) (edges : list (Z * Z)) (template : str),
    (exists (head : str) (st : state),
        Clique.generate_urs_code num_vertices edges template
        = head ++ [NL] ++ template ++ [NL]
        /\ read_program head
           = Some (Assign "nN" (Num num_vertices)
                   :: For "i" (Var "nN")
                        [For "j" (Var "nN")
                           [Store "bEdge" (Var "i") (Var "j") false]]
                   :: flat_map
                        (fun e =>
                           [ Store "bEdge" (Num (fst e - 1)) (Num (snd e - 1))
                               true;
                             Store "bEdge" (Num (snd e - 1)) (Num (fst e - 1))
                               true ])
                        edges)
        /\ run_text head = Some st
        /\ (forall i j,
               arrays st "bEdge" i j = Some true
               <-> exists u v,
                   In (u, v) edges
                   /\ ((i = u - 1 /\ j = v - 1) \/ (i = v - 1 /\ j = u - 1)))
        /\ (forall i j,
               arrays st "bEdge" i j = Some false
               <-> (0 <= i < num_vertices /\ 0 <= j < num_vertices)
                   /\ ~ exists u v,
                         In (u, v) edges
                         /\ ((i = u - 1 /\ j = v - 1)
                             \/ (i = v - 1 /\ j = u - 1))))
    /\ Clique.parse_dimacs_graph
         ("p edge 3 2" ++ [NL] ++ "e 1 2" ++ [NL] ++ "e 2 3")
       = inr (3, 2, [(1, 2); (2, 3)])
    /\ read_program (Clique.generate_urs_code 3 [(1, 2); (2, 3)] "")
       = Some [ Assign "nN" (Num 3);
                For "i" (Var "nN")
                  [For "j" (Var "nN")
                     [Store "bEdge" (Var "i") (Var "j") false]];
                Store "bEdge" (Num 0) (Num 1) true;
                Store "bEdge" (Num 1) (Num 0) true;
                Store "bEdge" (Num 1) (Num 2) true;
                Store "bEdge" (Num 2) (Num 1) true ].
Proof.
  intros n edges template. split; [|split; reflexivity].
  destruct (clique_program_run n edges) as [st [Hrun Hst]].
  exists (Clique.preamble n
          ++ statements Clique.edge_statement (edge_assignments edges)), st.
  split; [rewrite clique_generate_text; now rewrite <- app_assoc|].
  split; [apply clique_program_read|].
  split; [exact Hrun|].
  assert (Hhit : forall i j,
             mem_pair (i, j) (edge_assignments edges) = true
             <-> exists u v,
                 In (u, v) edges
                 /\ ((i = u - 1 /\ j = v - 1) \/ (i = v - 1 /\ j = u - 1))).
  { intros i j. rewrite mem_pair_In. apply edge_assignments_In. }
  split; intros i j;
    destruct (cell_cases _ _ _ (Hst i j)) as [Ht Hf].
  - rewrite Ht. apply Hhit.
  - rewrite Hf, andb_true_iff, !below_spec, (Hhit i j). reflexivity.
Qed.

(** C6 (amended). CNF encoding with polarity slots.  The text
    [generate_urs_code] returns is a head, an empty line and the template.
    Read as a program, the head is the assignments of the declared counts
    to [nN] and [nClauses], the two loops that store [false] to
    [bC[ni][nj]] for all [ni] below [nClauses] and all [nj] below [2*nN],
    and then, clause by clause and literal by literal in input order, one
    store [bC[c][s] = true] where [c] is the position of the clause and [s]
    the slot of the literal: [2*(v-1)] for the variable [v], [2*(v-1)+1]
    for its negation.  Run, it leaves [true] in exactly the entries that a
    literal names, and [false] in exactly the other entries whose clause
    index is below the declared clause count and whose slot is below twice
    the declared variable count.  For [p cnf 2 1] with the clause [1 -2 0]
    the row of the clause is true, false, false, true. *)
Theorem C6_cnf_encoding_polarity_slots :
  forall (num_vars num_clauses : Z) (clauses : list (list Z)) (template : str),
    (exists (head : str) (st : state),
        Sat.generate_urs_code num_vars num_clauses clauses template
        = head ++ [NL] ++ template ++ [NL]
        /\ read_program head
           = Some (Assign "nN" (Num num_vars)
                   :: Assign "nClauses" (Num num_clauses)
                   :: For "ni" (Var "nClauses")
                        [For "nj" (Mul (Num 2) (Var "nN"))
                           [Store "bC" (Var "ni") (Var "nj") false]]
                   :: flat_map
                        (fun ic =>
                           map (fun l =>
                                  Store "bC" (Num (fst ic))
                                    (Num (if 0 <? l then 2 * (l - 1)
                                          else 2 * (Z.abs l - 1) + 1))
                                    true)
                             (snd ic))
                        (enumerate clauses))
        /\ run_text head = Some st
        /\ (forall c s,
               arrays st "bC" c s = Some true
               <-> exists n clause l,
                   c = Z.of_nat n /\ nth_error clauses n = Some clause
                   /\ In l clause
                   /\ ((0 < l /\ s = 2 * (l - 1))
                       \/ (l <= 0 /\ s = 2 * (Z.abs l - 1) + 1)))
        /\ (forall c s,
               arrays st "bC" c s = Some false
               <-> (0 <= c < num_clauses /\ 0 <= s < 2 * num_vars)
                   /\ ~ exists n clause l,
                         c = Z.of_nat n /\ nth_error clauses n = Some clause
                         /\ In l clause
                         /\ ((0 < l /\ s = 2 * (l - 1))
                             \/ (l <= 0 /\ s = 2 * (Z.abs l - 1) + 1))))
    /\ Sat.parse_dimacs ("p cnf 2 1" ++ [NL] ++ "1 -2 0")
       = inr (2, 1, [[1; -2]])
    /\ exists st,
        run_text (Sat.generate_urs_code 2 1 [[1; -2]] "") = Some st
        /\ map (arrays st "bC" 0) [0; 1; 2; 3]
           = [Some true; Some false; Some false; Some true].
Proof.
  intros nv nc clauses template. split.
  2:{ split; [reflexivity|]. eexists. split; [vm_compute; reflexivity|].
      reflexivity. }
  destruct (sat_program_run nv nc clauses) as [st [Hrun Hst]].
  exists (Sat.preamble nv nc
          ++ statements Sat.literal_statement (literal_assignments clauses)),
    st.
  split; [rewrite sat_generate_text; now rewrite <- app_assoc|].
  split; [apply sat_program_read|].
  split; [exact Hrun|].
  assert (Hhit : forall c s,
             mem_pair (c, s) (literal_assignments clauses) = true
             <-> exists n clause l,
                 c = Z.of_nat n /\ nth_error clauses n = Some clause
                 /\ In l clause
                 /\ ((0 < l /\ s = 2 * (l - 1))
                     \/ (l <= 0 /\ s = 2 * (Z.abs l - 1) + 1))).
  { intros c s. rewrite mem_pair_In, literal_assignments_In. split.
    - intros [n [clause [l [H1 [H2 [H3 H4]]]]]]. exists n, clause, l.
      apply slot_cases in H4. auto.
    - intros [n [clause [l [H1 [H2 [H3 H4]]]]]]. exists n, clause, l.
      apply slot_cases in H4. auto. }
  split; intros c s;
    destruct (cell_cases _ _ _ (Hst c s)) as [Ht Hf].
  - rewrite Ht. apply Hhit.
  - rewrite Hf, andb_true_iff, !below_spec, (Hhit c s). reflexivity.
Qed.

(** C6 as stated fails: the loops do not store [false] for every clause
    index.  They run over the declared clause count: with the header
    [p cnf 2 1] and two clauses, the row of the second clause is stored to
    by its literal only, and its slot 1 is left without a value. *)
Lemma C6_counterexample :
  Sat.parse_dimacs ("p cnf 2 1" ++ [NL] ++ "1 0" ++ [NL] ++ "2 0")
  = inr (2, 1, [[1]; [2]])
  /\ (exists st,
         run_text (Sat.generate_urs_code 2 1 [[1]; [2]] "") = Some st
         /\ arrays st "bC" 1 2 = Some true
         /\ arrays st "bC" 1 1 = None)
  /\ ~ (forall (num_vars num_clauses : Z) (clauses : list (list Z))
               (st : state) (c s : Z),
           run_text (Sat.generate_urs_code num_vars num_clauses clauses "")
           = Some st ->
           0 <= c < Z.of_nat (length clauses) -> 0 <= s < 2 * num_vars ->
           arrays st "bC" c s = Some true \/ arrays st "bC" c s = Some false).
Proof.
  split; [reflexivity|]. split.
  - eexists. split; [vm_compute; reflexivity|]. split; reflexivity.
  - intros H.
    assert (Hrun : exists st,
               run_text (Sat.generate_urs_code 2 1 [[1]; [2]] "") = Some st
               /\ arrays st "bC" 1 1 = None).
    { eexists. split; [vm_compute; reflexivity|reflexivity]. }
    destruct Hrun as [st [Hrun Hnone]].
    destruct (H 2 1 [[1]; [2]] st 1 1 Hrun) as [Ht|Hf];
      [cbn; lia|lia|congruence|congruence].
Qed.

(** ** Whole batches: what ends a run, and what leaves no trace *)

(** X1. In the SAT driver nothing that is computed for an instance
    raises.  [benchmark_file] returns for every file and whatever the
    solver processes do, with no result for a file that is skipped or
    cannot be read or parsed; and for every result it returns,
    [update_stats] finds a counter for each of its statuses and the result
    line is built: no [KeyError] arises, unlike in the clique driver. *)
Theorem X1_sat_instance_never_raises :
  forall (cfg : Sat.config) (w : Sat.world) (processed : list str) (f : str)
         (s : Sat.stats),
  exists o,
    Sat.benchmark_file cfg w processed f = inr o
    /\ forall r,
        o = Some r ->
        (exists s', Sat.update_stats s r (Sat.has_reduction cfg) = inr s')
        /\ (exists line,
               Sat.result_line cfg (Sat.extract_category f) r = inr line).
Proof.
  intros cfg w processed f s.
  destruct (sat_file_total cfg w processed f) as [o [Ho Hok]].
  exists o. split; [exact Ho|].
  intros r ->. destruct Hok as [_ Hok]. split.
  - destruct (sat_update_ok cfg s r Hok) as [s' [Hs _]]. eauto.
  - apply sat_line_ok. exact Hok.
Qed.

Section CliqueBatch.

Variable cfg : Clique.config.
Variable w : Clique.world.

Lemma clique_step_total p st f :
  (exists v, Clique.run_cliquer (Clique.timeout cfg)
               (Clique.cliquer_child w f) = inr v) ->
  exists st', Clique.benchmark_step cfg w p st f = inr st'.
Proof.
  intros Hc. unfold Clique.benchmark_step.
  destruct (clique_file_total cfg w p f Hc) as [o Ho]. rewrite Ho.
  destruct o as [r|]; cbn [bind]; [|eexists; reflexivity].
  destruct (clique_file_result cfg w p f r Ho) as [_ Hred].
  destruct (clique_update_ok cfg (Clique.counted st) r Hred) as [s' [Hs _]].
  destruct (clique_line_ok cfg (Clique.extract_category f) r Hred)
    as [line Hl].
  rewrite Hs, Hl. cbn [bind ret]. eexists. reflexivity.
Qed.

Lemma clique_loop_total p files st :
  clique_calm cfg w files ->
  snd (Clique.benchmark_loop cfg w p files st) = None.
Proof.
  revert st. induction files as [|f r IH]; intros st Hcalm;
    cbn [Clique.benchmark_loop]; [reflexivity|].
  destruct (clique_step_total p st f) as [st' ->]; [apply Hcalm; now left|].
  apply IH. intros g Hg. apply Hcalm. now right.
Qed.

Lemma clique_loop_app p l1 l2 st :
  Clique.benchmark_loop cfg w p (l1 ++ l2) st
  = match Clique.benchmark_loop cfg w p l1 st with
    | (st', None) => Clique.benchmark_loop cfg w p l2 st'
    | (st', Some e) => (st', Some e)
    end.
Proof.
  revert st. induction l1 as [|f r IH]; intros st;
    cbn [app Clique.benchmark_loop]; [reflexivity|].
  destruct (Clique.benchmark_step cfg w p st f); [reflexivity|apply IH].
Qed.

(** A file that is read and parsed and on which Cliquer raises makes
    [benchmark_file] raise. *)
Lemma clique_file_raises f e :
  clique_readable w f = true ->
  Clique.run_cliquer (Clique.timeout cfg) (Clique.cliquer_child w f) = inl e ->
  Clique.benchmark_file cfg w [] f = inl e.
Proof.
  unfold clique_readable, Clique.benchmark_file. intros Hr Hc.
  replace (mem (basename f) []) with false by reflexivity.
  rewrite andb_false_r.
  destruct (bind (Clique.read_text w f) Clique.parse_dimacs_graph)
    as [x|[[nv ne] es]]; [discriminate|].
  unfold Clique.run_with_template.
  destruct (clique_run_ursa_total (Clique.timeout cfg)
              (Clique.ursa_child w
                 (Clique.generate_urs_code nv es (Clique.solver_template cfg))))
    as [[[us ut] uc] Hu].
  rewrite Hu, Hc. reflexivity.
Qed.

End CliqueBatch.

(** X2. One raising call of Cliquer ends the batch of the clique driver:
    when the calls on the files before [f] return, [f] is read and parsed
    and [run_cliquer] raises on it, [benchmark_directory] raises the same
    exception.  The report then holds the header and the result lines of
    the files before [f]; no line is written for [f], none for the files
    after it, and no FINAL STATISTICS. *)
Theorem X2_clique_batch_ends_when_cliquer_raises :
  forall (cfg : Clique.config) (w : Clique.world) (pre : list str) (f : str)
         (rest : list str) (started completed : str) (e : exn),
    clique_calm cfg w pre ->
    clique_readable w f = true ->
    Clique.run_cliquer (Clique.timeout cfg) (Clique.cliquer_child w f)
    = inl e ->
    Clique.benchmark_directory cfg w None (pre ++ f :: rest) started completed
    = {| report :=
           Clique.write_header (Clique.has_reduction cfg)
             (Clique.save_urs cfg) started
           ++ Clique.written (clique_pass cfg w pre);
         raised := Some e |}.
Proof.
  intros cfg w pre f rest started completed e Hcalm Hread Hraise.
  unfold Clique.benchmark_directory.
  rewrite (clique_start_fresh cfg (pre ++ f :: rest) started).
  rewrite clique_loop_app.
  set (header := Clique.write_header (Clique.has_reduction cfg)
                   (Clique.save_urs cfg) started).
  rewrite <- (app_nil_r header) at 1. rewrite clique_loop_prefix. cbv zeta.
  fold clique_blank.
  pose proof (clique_loop_total cfg w [] pre clique_blank Hcalm) as Hnone.
  unfold clique_pass.
  destruct (Clique.benchmark_loop cfg w [] pre clique_blank) as [st' x].
  cbn [snd fst] in *. subst x. cbn [Clique.benchmark_loop].
  unfold Clique.benchmark_step.
  rewrite (clique_file_raises cfg w f e Hread Hraise). reflexivity.
Qed.

Lemma X2_clique_batch_ends_when_cliquer_raises_witness :
  Clique.benchmark_directory clique_fresh stubborn_second None graph_files
    stamp1 stamp2
  = {| report :=
         Clique.write_header false false stamp1
         ++ Clique.written
              (clique_pass clique_fresh stubborn_second ["graphs/BROCK/a.clq"]);
       raised := Some (Failure PermissionError) |}.
Proof.
  apply (X2_clique_batch_ends_when_cliquer_raises clique_fresh stubborn_second
           ["graphs/BROCK/a.clq"] "graphs/b.clq" [] stamp1 stamp2
           (Failure PermissionError)).
  - intros f [<-|[]]. eexists. reflexivity.
  - reflexivity.
  - reflexivity.
Defined.

Lemma filter_filter_comm {A} (f g : A -> bool) l :
  filter f (filter g l) = filter g (filter f l).
Proof.
  induction l as [|a r IH]; [reflexivity|]. cbn [filter].
  destruct (g a) eqn:Eg, (f a) eqn:Ef; cbn [filter];
    rewrite ?Eg, ?Ef, IH; reflexivity.
Qed.

Lemma clique_loop_readable cfg w p files st :
  Clique.benchmark_loop cfg w p (filter (clique_readable w) files) st
  = Clique.benchmark_loop cfg w p files st.
Proof.
  revert st. induction files as [|f r IH]; intros st; [reflexivity|].
  cbn [filter]. destruct (clique_readable w f) eqn:E.
  - cbn [Clique.benchmark_loop].
    destruct (Clique.benchmark_step cfg w p st f); [reflexivity|apply IH].
  - cbn [Clique.benchmark_loop]. rewrite IH.
    unfold Clique.benchmark_step, Clique.benchmark_file.
    unfold clique_readable in E.
    destruct (Clique.continue_mode cfg && mem (basename f) p);
      [reflexivity|].
    destruct (bind (Clique.read_text w f) Clique.parse_dimacs_graph);
      [reflexivity|discriminate].
Qed.

Lemma sat_loop_readable cfg w p files st :
  Sat.benchmark_loop cfg w p (filter (sat_readable w) files) st
  = Sat.benchmark_loop cfg w p files st.
Proof.
  revert st. induction files as [|f r IH]; intros st; [reflexivity|].
  cbn [filter]. destruct (sat_readable w f) eqn:E.
  - cbn [Sat.benchmark_loop].
    destruct (Sat.benchmark_step cfg w p st f); [reflexivity|apply IH].
  - cbn [Sat.benchmark_loop]. rewrite IH.
    unfold Sat.benchmark_step, Sat.benchmark_file.
    unfold sat_readable in E.
    destruct (Sat.continue_mode cfg && mem (basename f) p); [reflexivity|].
    destruct (bind (Sat.read_text w f) Sat.parse_dimacs);
      [reflexivity|discriminate].
Qed.

(** X3. An instance whose file cannot be read or parsed leaves no trace:
    the run of either driver over a list of files is the run over the
    readable ones, in the report, in the statistics and in the exception
    that ends it, if any. *)
Theorem X3_unreadable_instances_leave_no_trace :
  forall (ccfg : Clique.config) (cw : Clique.world)
         (scfg : Sat.config) (sw : Sat.world)
         (output_file : option str) (files : list str)
         (started completed : str),
    Clique.benchmark_directory ccfg cw output_file files started completed
    = Clique.benchmark_directory ccfg cw output_file
        (filter (clique_readable cw) files) started completed
    /\ Sat.benchmark_directory scfg sw output_file files started completed
       = Sat.benchmark_directory scfg sw output_file
           (filter (sat_readable sw) files) started completed.
Proof.
  intros ccfg cw scfg sw out files started completed. split.
  - unfold Clique.benchmark_directory, Clique.start_run.
    destruct (Clique.load_or_init_stats (Clique.continue_mode ccfg) out)
      as [[p e] h].
    destruct (prepare_output_file out (Clique.continue_mode ccfg)) as [a c].
    unfold filter_files. rewrite filter_filter_comm.
    now rewrite clique_loop_readable.
  - unfold Sat.benchmark_directory, Sat.start_run.
    destruct (Sat.load_or_init_stats (Sat.continue_mode scfg) out)
      as [[p e] h].
    destruct (prepare_output_file out (Sat.continue_mode scfg)) as [a c].
    unfold filter_files. rewrite filter_filter_comm.
    now rewrite sat_loop_readable.
Qed.

(** ** The counters of a run *)

Lemma clique_update_balanced red s r s' :
  Clique.update_stats s r red = inr s' ->
  clique_balanced red s -> clique_balanced red s'.
Proof.
  unfold Clique.update_stats, clique_balanced.
  rewrite !count_status_after, count_cliquer_status_after.
  intros H [H1 [H2 H3]]. destruct red.
  - destruct (Clique.reduction_result r) as [[[st t] z]|]; [|discriminate].
    rewrite count_status_after in H. apply inr_eq in H. subst s'.
    cbn [Clique.total Clique.ursa Clique.cliquer Clique.reduction].
    rewrite !tally_after_sum, cliquer_tally_after_sum. lia.
  - apply inr_eq in H. subst s'.
    cbn [Clique.total Clique.ursa Clique.cliquer Clique.reduction].
    rewrite tally_after_sum, cliquer_tally_after_sum. lia.
Qed.

Lemma clique_step_balanced cfg w p st st' f :
  Clique.benchmark_step cfg w p st f = inr st' ->
  clique_balanced (Clique.has_reduction cfg) (Clique.counted st) ->
  clique_balanced (Clique.has_reduction cfg) (Clique.counted st').
Proof.
  unfold Clique.benchmark_step.
  destruct (Clique.benchmark_file cfg w p f) as [e|[r|]]; cbn [bind ret];
    [discriminate| |intros H; apply inr_eq in H; now subst st'].
  destruct (Clique.update_stats (Clique.counted st) r
              (Clique.has_reduction cfg)) as [e|s'] eqn:E;
    cbn [bind]; [discriminate|].
  destruct (Clique.result_line cfg (Clique.extract_category f) r) as [e|l];
    cbn [bind ret]; [discriminate|].
  intros H. apply inr_eq in H. subst st'. cbn [Clique.counted].
  now apply (clique_update_balanced _ _ _ _ E).
Qed.

Lemma clique_loop_balanced cfg w p files st :
  clique_balanced (Clique.has_reduction cfg) (Clique.counted st) ->
  clique_balanced (Clique.has_reduction cfg)
    (Clique.counted (fst (Clique.benchmark_loop cfg w p files st))).
Proof.
  revert st. induction files as [|f r IH]; intros st H;
    cbn [Clique.benchmark_loop]; [exact H|].
  destruct (Clique.benchmark_step cfg w p st f) as [e|st'] eqn:E; [exact H|].
  apply IH. eapply clique_step_balanced; eauto.
Qed.

Lemma sat_count_sum st t t' :
  Sat.count_status st t = inr t' -> sat_tally_sum t' = sat_tally_sum t + 1.
Proof.
  destruct t as [a b c d e].
  destruct st; cbn; try discriminate; intros H; apply inr_eq in H; subst t';
    unfold sat_tally_sum; cbn; lia.
Qed.

Lemma sat_count_minisat_sum st t t' :
  Sat.count_minisat_status st t = inr t' ->
  sat_minisat_sum t' = sat_minisat_sum t + 1.
Proof.
  destruct t as [a b c d].
  destruct st; cbn; try discriminate; intros H; apply inr_eq in H; subst t';
    unfold sat_minisat_sum; cbn; lia.
Qed.

Lemma sat_update_balanced red s r s' :
  Sat.update_stats s r red = inr s' ->
  sat_balanced red s -> sat_balanced red s'.
Proof.
  unfold Sat.update_stats, sat_balanced.
  destruct (Sat.count_status (Sat.ursa_status r) (Sat.ursa s))
    as [e|u] eqn:Eu; cbn [bind]; [discriminate|].
  destruct (Sat.count_minisat_status (Sat.minisat_status r) (Sat.minisat s))
    as [e|m] eqn:Em; cbn [bind]; [discriminate|].
  apply sat_count_sum in Eu. apply sat_count_minisat_sum in Em.
  intros H [H1 [H2 H3]]. destruct red.
  - destruct (Sat.reduction_result r) as [[st t]|]; [|discriminate].
    destruct (Sat.count_status st (Sat.reduction s)) as [e|x] eqn:Ex;
      cbn [bind ret] in H; [discriminate|].
    apply sat_count_sum in Ex. apply inr_eq in H. subst s'.
    cbn [Sat.total Sat.ursa Sat.minisat Sat.reduction]. lia.
  - apply inr_eq in H. subst s'.
    cbn [Sat.total Sat.ursa Sat.minisat Sat.reduction]. lia.
Qed.

Lemma sat_step_balanced cfg w p st st' f :
  Sat.benchmark_step cfg w p st f = inr st' ->
  sat_balanced (Sat.has_reduction cfg) (Sat.counted st) ->
  sat_balanced (Sat.has_reduction cfg) (Sat.counted st').
Proof.
  unfold Sat.benchmark_step.
  destruct (Sat.benchmark_file cfg w p f) as [e|[r|]]; cbn [bind ret];
    [discriminate| |intros H; apply inr_eq in H; now subst st'].
  destruct (Sat.update_stats (Sat.counted st) r (Sat.has_reduction cfg))
    as [e|s'] eqn:E; cbn [bind]; [discriminate|].
  destruct (Sat.result_line cfg (Sat.extract_category f) r) as [e|l];
    cbn [bind ret]; [discriminate|].
  intros H. apply inr_eq in H. subst st'. cbn [Sat.counted].
  now apply (sat_update_balanced _ _ _ _ E).
Qed.

Lemma sat_loop_balanced cfg w p files st :
  sat_balanced (Sat.has_reduction cfg) (Sat.counted st) ->
  sat_balanced (Sat.has_reduction cfg)
    (Sat.counted (fst (Sat.benchmark_loop cfg w p files st))).
Proof.
  revert st. induction files as [|f r IH]; intros st H;
    cbn [Sat.benchmark_loop]; [exact H|].
  destruct (Sat.benchmark_step cfg w p st f) as [e|st'] eqn:E; [exact H|].
  apply IH. eapply sat_step_balanced; eauto.
Qed.

(** X4. The counters a run accumulates are balanced: at every point of
    the loop of [benchmark_directory], also when an exception ends it, the
    counters of URSA sum to the number of instances counted, so do those
    of the reference solver, and those of the reduction do when a
    reduction template is configured and are all zero otherwise. *)
Theorem X4_run_counters_sum_to_total :
  forall (ccfg : Clique.config) (cw : Clique.world)
         (scfg : Sat.config) (sw : Sat.world)
         (processed files : list str) (text : str),
    clique_balanced (Clique.has_reduction ccfg)
      (Clique.counted
         (fst (Clique.benchmark_loop ccfg cw processed files
                 {| Clique.written := text;
                    Clique.counted := Clique._initialize_empty_stats |})))
    /\ sat_balanced (Sat.has_reduction scfg)
         (Sat.counted
            (fst (Sat.benchmark_loop scfg sw processed files
                    {| Sat.written := text;
                       Sat.counted := Sat._initialize_empty_stats |}))).
Proof.
  intros ccfg cw scfg sw processed files text. split.
  - apply clique_loop_balanced. cbn [Clique.counted].
    unfold clique_balanced. destruct (Clique.has_reduction ccfg);
      repeat split; reflexivity.
  - apply sat_loop_balanced. cbn [Sat.counted].
    unfold sat_balanced. destruct (Sat.has_reduction scfg);
      repeat split; reflexivity.
Qed.

(** ** Writing and re-reading the final statistics *)

Lemma readlines_statistics more :
  Forall no_break more ->
  readlines (unlines ("" :: "FINAL STATISTICS:" :: more))
  = ("" ++ [NL]) :: ("FINAL STATISTICS:" ++ [NL])
    :: map (fun l => l ++ [NL]) more.
Proof.
  intros H.
  rewrite <- (app_nil_r (unlines ("" :: "FINAL STATISTICS:" :: more))).
  rewrite readlines_unlines.
  - cbn [map readlines]. now rewrite app_nil_r.
  - constructor; [split; intros []|].
    constructor; [apply no_break_forallb; reflexivity|exact H].
Qed.

(** X5. The statistics section the clique driver writes is read back to
    the counters it was written from: the total and the counters of URSA
    and Cliquer always, those of the reduction when the section holds them
    (a reduction template is configured); otherwise the reduction counters
    read are the initial zeros. *)
Theorem X5_clique_statistics_round_trip :
  forall (s : Clique.stats) (has_reduction : bool) (now : str),
    clique_no_extra s ->
    forallb stamp_char now = true ->
    Clique._parse_statistics_section
      (readlines (Clique.write_final_statistics s has_reduction now))
    = {| Clique.total := Clique.total s;
         Clique.ursa := Clique.ursa s;
         Clique.cliquer := Clique.cliquer s;
         Clique.reduction :=
           if has_reduction then Clique.reduction s
           else Clique.empty_tally |}.
Proof.
  intros s red now Hx Hnow.
  set (s0 := {| Clique.total := Clique.total s;
                Clique.ursa := Clique.ursa s;
                Clique.cliquer := Clique.cliquer s;
                Clique.reduction :=
                  if red then Clique.reduction s else Clique.empty_tally |}).
  assert (Hw : Clique.write_final_statistics s red now
               = Clique.write_final_statistics s0 red now).
  { unfold Clique.write_final_statistics, s0. destruct red; reflexivity. }
  assert (Hx0 : clique_no_extra s0) by exact Hx.
  assert (Hr0 : red = false -> Clique.reduction s0 = Clique.empty_tally).
  { intros ->. reflexivity. }
  destruct (clique_reread_written s0 red now Hx0 Hnow Hr0)
    as [more [Hm [Hb Hf]]].
  rewrite Hw, Hm, (readlines_statistics more Hb).
  unfold Clique._parse_statistics_section.
  cbn [fold_left]. rewrite clique_reread_blank.
  change (fold_left Clique.parse_stats_line
            (map (fun l => l ++ [NL]) more)
            (Clique.parse_stats_line (Clique._initialize_empty_stats, None)
               ("FINAL STATISTICS:" ++ [NL])))
    with (fold_left Clique.parse_stats_line
            (("FINAL STATISTICS:" ++ [NL]) :: map (fun l => l ++ [NL]) more)
            (Clique._initialize_empty_stats, None)).
  now rewrite Hf.
Qed.

Lemma X5_clique_statistics_round_trip_witness :
  Clique._parse_statistics_section
    (readlines (Clique.write_final_statistics sample_counters true stamp2))
  = sample_counters.
Proof.
  apply (X5_clique_statistics_round_trip sample_counters true stamp2);
    reflexivity.
Defined.

(** X6. The statistics section the SAT driver writes is not read back
    as written.  The total and the counters TIMEOUT, ERROR and UNKNOWN of
    each solver come back, but [_parse_stat_line] tests [SAT instances:]
    first, which the line [UNSAT instances:] holds too: the SAT count read
    is the UNSAT count written, and the UNSAT count read is the initial
    zero. *)
Theorem X6_sat_statistics_reread :
  forall (s : Sat.stats) (has_reduction : bool) (now : str),
    forallb stamp_char now = true ->
    Sat._parse_statistics_section
      (readlines (Sat.write_final_statistics s has_reduction now))
    = {| Sat.total := Sat.total s;
         Sat.ursa := sat_tally_reread (Sat.ursa s);
         Sat.minisat := sat_minisat_reread (Sat.minisat s);
         Sat.reduction :=
           if has_reduction then sat_tally_reread (Sat.reduction s)
           else Sat.empty_tally |}.
Proof.
  intros s red now Hnow.
  set (s0 := {| Sat.total := Sat.total s;
                Sat.ursa := Sat.ursa s;
                Sat.minisat := Sat.minisat s;
                Sat.reduction :=
                  if red then Sat.reduction s else Sat.empty_tally |}).
  assert (Hw : Sat.write_final_statistics s red now
               = Sat.write_final_statistics s0 red now).
  { unfold Sat.write_final_statistics, s0. destruct red; reflexivity. }
  assert (Hr0 : red = false -> Sat.reduction s0 = Sat.empty_tally).
  { intros ->. reflexivity. }
  destruct (sat_reread_written s0 red now Hnow Hr0) as [more [Hm [Hb Hf]]].
  rewrite Hw, Hm, (readlines_statistics more Hb).
  unfold Sat._parse_statistics_section.
  cbn [fold_left]. rewrite sat_reread_blank.
  change (fold_left Sat.parse_stats_line
            (map (fun l => l ++ [NL]) more)
            (Sat.parse_stats_line (Sat._initialize_empty_stats, None)
               ("FINAL STATISTICS:" ++ [NL])))
    with (fold_left Sat.parse_stats_line
            (("FINAL STATISTICS:" ++ [NL]) :: map (fun l => l ++ [NL]) more)
            (Sat._initialize_empty_stats, None)).
  rewrite Hf. cbn [fst]. unfold sat_stats_reread, s0.
  cbn [Sat.total Sat.ursa Sat.minisat Sat.reduction].
  destruct red; reflexivity.
Qed.

Lemma X6_sat_statistics_reread_witness :
  Sat._parse_statistics_section
    (readlines (Sat.write_final_statistics sample_sat_counters false stamp2))
  = {| Sat.total := 9;
       Sat.ursa := {| Sat.Tally.SAT := 3; Sat.Tally.UNSAT := 0;
                      Sat.Tally.TIMEOUT := 1; Sat.Tally.ERROR := 0;
                      Sat.Tally.UNKNOWN := 1 |};
       Sat.minisat := {| Sat.MiniSatTally.SAT := 4;
                         Sat.MiniSatTally.UNSAT := 0;
                         Sat.MiniSatTally.TIMEOUT := 0;
                         Sat.MiniSatTally.ERROR := 0 |};
       Sat.reduction := Sat.empty_tally |}.
Proof.
  apply (X6_sat_statistics_reread sample_sat_counters false stamp2).
  reflexivity.
Defined.

(** ** A run with [--continue] after a finished run *)




Section CliqueFollowup.

Variable cfg : Clique.config.
Variable w : Clique.world.
Variables files1 files2 : list str.
Variables started completed started' completed' : str.

Hypothesis names1 :
  Forall (fun f => plain_name Clique.exts (basename f)) files1.
Hypothesis names2 :
  Forall (fun f => plain_name Clique.exts (basename f)) files2.
Hypothesis started_plain : forallb stamp_char started = true.
Hypothesis completed_plain : forallb stamp_char completed = true.
Hypothesis calm1 : clique_calm cfg w files1.
Hypothesis calm2 : clique_calm cfg w files2.


End CliqueFollowup.



Section SatFollowup.

Variable cfg : Sat.config.
Variable w : Sat.world.
Variables files1 files2 : list str.
Variables started completed started' completed' : str.

Hypothesis names1 :
  Forall (fun f => plain_name Sat.exts (basename f)) files1.
Hypothesis names2 :
  Forall (fun f => plain_name Sat.exts (basename f)) files2.
Hypothesis started_plain : forallb stamp_char started = true.
Hypothesis completed_plain : forallb stamp_char completed = true.


End SatFollowup.



(** ** Result lines written and read back *)

(** X9. A result line is read back as its instance: the line
    [benchmark_directory] writes for a result is taken by
    [_extract_processed_filenames] for a result line of exactly the file
    name of the result, and it is never taken for the marker of the final
    statistics.  (A file name made of plain characters that holds the
    extension.) *)
Theorem X9_result_line_read_back :
  forall (ccfg : Clique.config) (cr : Clique.result) (cline : str)
         (scfg : Sat.config) (sr : Sat.result) (sline : str)
         (path : str) (acc : list str),
    Clique.result_line ccfg (Clique.extract_category path) cr = inr cline ->
    plain_name Clique.exts (Clique.file cr) ->
    Sat.result_line scfg (Sat.extract_category path) sr = inr sline ->
    plain_name Sat.exts (Sat.file sr) ->
    (extract_line Clique.exts acc cline = set_add (Clique.file cr) acc
     /\ contains "FINAL STATISTICS:" cline = false)
    /\ (extract_line Sat.exts acc sline = set_add (Sat.file sr) acc
        /\ contains "FINAL STATISTICS:" sline = false).
Proof.
  intros ccfg cr cline scfg sr sline path acc Hc Hcn Hs Hsn. split.
  - destruct (clique_result_line_shape _ _ _ _ Hc) as [rest [-> [Hrest Hne]]].
    assert (Hrow : result_row Clique.exts (Clique.file cr)
                     (join " | " (ljust 12 (Clique.extract_category path)
                                  :: ljust 35 (Clique.file cr) :: rest)
                      ++ [NL])).
    { apply result_row_shape; auto.
      - repeat constructor; discriminate.
      - apply clique_category_field. }
    destruct Hrow as [_ [Hm He]]. split; [apply He|exact Hm].
  - destruct (sat_result_line_shape _ _ _ _ Hs) as [rest [-> [Hrest Hne]]].
    assert (Hrow : result_row Sat.exts (Sat.file sr)
                     (join " | " (ljust 12 (Sat.extract_category path)
                                  :: ljust 35 (Sat.file sr) :: rest)
                      ++ [NL])).
    { apply result_row_shape; auto.
      - repeat constructor; discriminate.
      - apply sat_category_field. }
    destruct Hrow as [_ [Hm He]]. split; [apply He|exact Hm].
Qed.

Lemma X9_result_line_read_back_witness :
  (exists cline,
      Clique.result_line clique_fresh (Clique.extract_category "x/SAN/c.clq")
        undecided_plain = inr cline
      /\ extract_line Clique.exts ["a.clq"] cline = ["a.clq"; "c.clq"]
      /\ contains "FINAL STATISTICS:" cline = false)
  /\ (exists sline,
         Sat.result_line sat_fresh (Sat.extract_category "x/SAN/c.clq")
           sample_sat_result = inr sline
         /\ extract_line Sat.exts ["a.clq"] sline = ["a.clq"; "b.cnf"]
         /\ contains "FINAL STATISTICS:" sline = false).
Proof.
  destruct (X9_result_line_read_back clique_fresh undecided_plain _
              sat_fresh sample_sat_result _ "x/SAN/c.clq" ["a.clq"]
              eq_refl (conj eq_refl (conj (conj eq_refl eq_refl) eq_refl))
              eq_refl (conj eq_refl (conj (conj eq_refl eq_refl) eq_refl)))
    as [[H1 H2] [H3 H4]].
  split; eexists; (split; [reflexivity|]); split; assumption.
Defined.

(** *** What [_extract_processed_filenames] can return *)

Lemma drop_while_split (f : ascii -> bool) s :
  exists pre, s = pre ++ drop_while f s.
Proof.
  induction s as [|c r [pre IH]]; [exists []; reflexivity|]. cbn.
  destruct (f c); [|exists []; reflexivity].
  exists (c :: pre). cbn. now rewrite <- IH.
Qed.

Lemma drop_while_first (f : ascii -> bool) s c r :
  drop_while f s = c :: r -> f c = false.
Proof.
  induction s as [|a s IH]; cbn; [discriminate|].
  destruct (f a) eqn:E; [exact IH|]. intros H. injection H as <- _. exact E.
Qed.

Lemma strip_trimmed s : trimmed (strip s).
Proof.
  unfold strip, rstrip, lstrip.
  set (t := drop_while is_space s).
  destruct (drop_while_split is_space (rev t)) as [pre Hpre].
  set (d := drop_while is_space (rev t)) in *.
  assert (Ht : t = rev d ++ rev pre).
  { rewrite <- (rev_involutive t), Hpre, rev_app_distr. reflexivity. }
  destruct (rev d) as [|c u] eqn:Eu; [exact I|]. cbn [trimmed]. split.
  - apply (drop_while_first is_space s c (u ++ rev pre)). exact Ht.
  - destruct d as [|x d'] eqn:Ed; [discriminate|].
    assert (Hx : is_space x = false).
    { apply (drop_while_first is_space (rev t) x d'). exact Ed. }
    cbn [rev] in Eu. rewrite <- Eu, last_last. exact Hx.
Qed.

Lemma split_on_no_sep sep s :
  Forall (fun p => ~ In sep p) (split_on sep s).
Proof.
  induction s as [|c r IH]; cbn [split_on].
  - constructor; [intros []|constructor].
  - destruct (Ascii.eqb c sep) eqn:E.
    + constructor; [intros []|exact IH].
    + apply Ascii.eqb_neq in E.
      destruct (split_on sep r) as [|p ps]; [repeat constructor; intros [H|[]]; congruence|].
      apply Forall_cons_iff in IH. destruct IH as [Hp Hps].
      constructor; [|exact Hps]. intros [H|H]; [congruence|auto].
Qed.

Lemma strip_chars s c : In c (strip s) -> In c s.
Proof.
  unfold strip, rstrip, lstrip. intros H. apply in_rev in H.
  destruct (drop_while_split is_space (rev (drop_while is_space s)))
    as [pre Hpre].
  assert (H1 : In c (rev (drop_while is_space s))).
  { rewrite Hpre. apply in_or_app. now right. }
  apply in_rev in H1.
  destruct (drop_while_split is_space s) as [pre' Hpre'].
  rewrite Hpre'. apply in_or_app. now right.
Qed.

Lemma set_add_NoDup x s : NoDup s -> NoDup (set_add x s).
Proof.
  intros H. unfold set_add. destruct (mem x s) eqn:E; [exact H|].
  apply NoDup_app; [exact H|repeat constructor; intros []|].
  intros a Ha [<-|[]]. apply mem_In in Ha. congruence.
Qed.

Section Extracted.

Variable exts : list str.

Lemma extract_line_names acc line :
  NoDup acc -> Forall (recognisable exts) acc ->
  NoDup (extract_line exts acc line)
  /\ Forall (recognisable exts) (extract_line exts acc line).
Proof.
  intros Hnd Hacc. unfold extract_line.
  destruct (contains "|" line && has_ext exts line); [|now split].
  destruct (2 <=? length (split_on "|" line))%nat eqn:El; [|now split].
  destruct (has_ext exts (strip (nth 1 (split_on "|" line) []))) eqn:Ex;
    [|now split].
  split; [now apply set_add_NoDup|].
  apply Forall_forall. intros x Hx. apply set_add_In in Hx.
  destruct Hx as [->|Hx]; [|rewrite Forall_forall in Hacc; auto].
  split; [exact Ex|]. split; [apply strip_trimmed|].
  intros Hbar. apply strip_chars in Hbar.
  pose proof (split_on_no_sep "|" line) as Hs.
  rewrite Forall_forall in Hs.
  apply (Hs (nth 1 (split_on "|" line) [])); [|exact Hbar].
  apply nth_In. apply Nat.leb_le in El. lia.
Qed.

Lemma extracted_names lines acc :
  NoDup acc -> Forall (recognisable exts) acc ->
  NoDup (fold_left (extract_line exts) lines acc)
  /\ Forall (recognisable exts) (fold_left (extract_line exts) lines acc).
Proof.
  revert acc. induction lines as [|l ls IH]; intros acc Hnd Hacc;
    cbn [fold_left]; [now split|].
  destruct (extract_line_names acc l Hnd Hacc) as [H1 H2]. now apply IH.
Qed.

End Extracted.

(** X10. What the re-reading of a report can recognise.  The set
    [_extract_processed_filenames] returns has no name twice, and each of
    its names holds one of the extensions, neither starts nor ends with a
    blank and holds no bar.  So a file whose name holds a bar, or starts or
    ends with a blank, or lacks the extension, is never skipped by
    [filter_files]: whatever the report says, a run with [--continue]
    processes it again. *)
Theorem X10_unreadable_names_are_never_skipped :
  forall (exts lines : list str),
    let processed := _extract_processed_filenames exts lines in
    NoDup processed
    /\ (forall x, In x processed ->
                  has_ext exts x = true /\ trimmed x /\ ~ In "|"%char x)
    /\ (forall files f,
           In f files ->
           In "|"%char (basename f) \/ ~ trimmed (basename f)
           \/ has_ext exts (basename f) = false ->
           In f (filter_files files processed true)).
Proof.
  intros exts lines. cbv zeta. unfold _extract_processed_filenames.
  destruct (extracted_names exts lines [] (NoDup_nil _) (Forall_nil _))
    as [Hnd Hall].
  rewrite Forall_forall in Hall.
  split; [exact Hnd|]. split; [exact Hall|].
  intros files f Hf Hodd. apply filter_files_In. split; [exact Hf|].
  destruct (mem (basename f) (fold_left (extract_line exts) lines []))
    eqn:E; [|reflexivity].
  apply mem_In in E. destruct (Hall _ E) as [H1 [H2 H3]].
  destruct Hodd as [H|[H|H]]; [contradiction|contradiction|congruence].
Qed.

(** ** A report the driver did not write *)

Lemma clique_update_no_extra s r red s' :
  Clique.update_stats s r red = inr s' ->
  Clique.CliquerTally.extra_not_found (Clique.cliquer s')
  = Clique.CliquerTally.extra_not_found (Clique.cliquer s).
Proof.
  unfold Clique.update_stats.
  assert (Hx : forall k t,
             Clique.CliquerTally.extra_not_found
               (Clique.count_cliquer_status k t)
             = Clique.CliquerTally.extra_not_found t).
  { intros k t. unfold Clique.count_cliquer_status.
    destruct (str_eqb k "found"); [reflexivity|].
    destruct (str_eqb k "timeout"); reflexivity. }
  destruct red.
  - destruct (Clique.reduction_result r) as [[[st t] z]|]; [|discriminate].
    intros H. apply inr_eq in H. subst s'. apply Hx.
  - intros H. apply inr_eq in H. subst s'. apply Hx.
Qed.

Lemma clique_loop_no_extra cfg w p files st :
  clique_no_extra (Clique.counted st) ->
  clique_no_extra
    (Clique.counted (fst (Clique.benchmark_loop cfg w p files st))).
Proof.
  revert st. induction files as [|f r IH]; intros st H;
    cbn [Clique.benchmark_loop]; [exact H|].
  destruct (Clique.benchmark_step cfg w p st f) as [e|st'] eqn:E; [exact H|].
  apply IH. revert E. unfold Clique.benchmark_step.
  destruct (Clique.benchmark_file cfg w p f) as [e|[x|]]; cbn [bind ret];
    [discriminate| |intros E; apply inr_eq in E; now subst st'].
  destruct (Clique.update_stats (Clique.counted st) x
              (Clique.has_reduction cfg)) as [e|s'] eqn:Eu;
    cbn [bind]; [discriminate|].
  destruct (Clique.result_line cfg (Clique.extract_category f) x) as [e|l];
    cbn [bind ret]; [discriminate|].
  intros E. apply inr_eq in E. subst st'. cbn [Clique.counted].
  unfold clique_no_extra in *.
  now rewrite (clique_update_no_extra _ _ _ _ Eu).
Qed.

(** X11. A line [Not found:] in the Cliquer section of a prior report
    ends the resumed run of the clique driver with [KeyError].
    [_parse_stat_line] stores its number under the key [not_found], which
    the counters of Cliquer do not have; the run then processes its files
    and writes their result lines, and the addition of the prior and the
    new counters, key by key over the prior ones, fails on that key.  No
    FINAL STATISTICS are written. *)
Theorem X11_cliquer_not_found_line_ends_in_KeyError :
  forall (cfg : Clique.config) (w : Clique.world) (content : str)
         (files : list str) (started completed : str) (n : Z),
    Clique.continue_mode cfg = true ->
    Clique.CliquerTally.extra_not_found
      (Clique.cliquer
         (snd (fst (Clique.load_existing_results (Some content)))))
    = Some n ->
    clique_calm cfg w files ->
    let r := Clique.benchmark_directory cfg w (Some content) files started
               completed in
    let processed := clique_processed content in
    raised r = Some KeyError
    /\ report r
       = snd (prepare_output_file (Some content) true)
         ++ Clique.written
              (fst (Clique.benchmark_loop cfg w processed
                      (filter_files files processed true) clique_blank)).
Proof.
  intros cfg w content files started completed n Hcm Hextra Hcalm.
  cbv zeta. unfold clique_processed in *.
  unfold Clique.benchmark_directory, Clique.start_run,
    Clique.load_or_init_stats.
  rewrite Hcm.
  destruct (Clique.load_existing_results (Some content))
    as [[processed existing] hdr]. cbn [fst snd] in *.
  destruct (prepare_output_file (Some content) true) as [a c] eqn:Ep.
  assert (Ha : a = true).
  { unfold prepare_output_file in Ep. now injection Ep as <- _. }
  subst a. cbn [snd].
  set (remaining := filter_files files processed true).
  assert (Hc : clique_calm cfg w remaining).
  { intros f Hf. apply Hcalm. apply filter_files_In in Hf. tauto. }
  pose proof (clique_loop_total cfg w processed remaining clique_blank Hc)
    as Hnone.
  pose proof (clique_loop_no_extra cfg w processed remaining clique_blank
                eq_refl) as Hx.
  assert (Hloop :
    Clique.benchmark_loop cfg w processed remaining
      {| Clique.written := c;
         Clique.counted := Clique._initialize_empty_stats |}
    = ({| Clique.written :=
            c ++ Clique.written
                   (fst (Clique.benchmark_loop cfg w processed remaining
                           clique_blank));
          Clique.counted :=
            Clique.counted
              (fst (Clique.benchmark_loop cfg w processed remaining
                      clique_blank)) |}, None)).
  { rewrite <- (app_nil_r c) at 1. rewrite clique_loop_prefix. cbv zeta.
    fold clique_blank. now rewrite Hnone. }
  rewrite Hloop. cbn [Clique.counted Clique.written].
  unfold Clique.combine_stats. rewrite Hextra.
  unfold clique_no_extra in Hx. rewrite Hx. cbn [bind].
  split; reflexivity.
Qed.

Lemma X11_cliquer_not_found_line_ends_in_KeyError_witness :
  raised (Clique.benchmark_directory clique_resume two_graphs
            (Some foreign_report) graph_files stamp2 stamp3)
  = Some KeyError.
Proof.
  apply (X11_cliquer_not_found_line_ends_in_KeyError clique_resume two_graphs
           foreign_report graph_files stamp2 stamp3 3).
  - reflexivity.
  - reflexivity.
  - intros f _. eexists. reflexivity.
Defined.

(** ** Opening the report of a prior run *)

Lemma readlines_plain l :
  no_break l -> l <> [] -> readlines l = [l].
Proof.
  induction l as [|c r IH]; intros Hb Hne; [congruence|].
  apply no_break_cons in Hb. destruct Hb as [H1 [H2 H3]].
  cbn [readlines]. rewrite (eqb_neq_false _ _ H1), (eqb_neq_false _ _ H2).
  destruct r as [|d r']; [reflexivity|].
  rewrite IH; [reflexivity|assumption|discriminate].
Qed.

(** The lines [readlines] returns end with their line feed, but for the
    last one when the text does not end with a line break. *)
Lemma readlines_shape_bounded n s :
  (length s <= n)%nat ->
  exists ls tail,
    readlines s = ls ++ tail
    /\ Forall whole_line ls
    /\ (tail = [] \/ exists l, tail = [l] /\ no_break l /\ l <> []).
Proof.
  revert s. induction n as [|n IH]; intros s Hn.
  - destruct s; [|cbn in Hn; lia]. exists [], []. cbn. auto.
  - destruct s as [|c r]; [exists [], []; cbn; auto|].
    cbn [length] in Hn. cbn [readlines].
    assert (Hblank : whole_line [NL]).
    { exists []. split; [reflexivity|]. split; intros []. }
    destruct (Ascii.eqb c NL) eqn:En.
    + destruct (IH r) as [ls [tail [Hr [Hw Ht]]]]; [lia|].
      exists ([NL] :: ls), tail. rewrite Hr. auto.
    + destruct (Ascii.eqb c CR) eqn:Ec.
      * destruct r as [|d r'].
        { exists [[NL]], []. cbn. auto. }
        destruct (Ascii.eqb d NL).
        { destruct (IH r') as [ls [tail [Hr [Hw Ht]]]];
            [cbn [length] in Hn; lia|].
          exists ([NL] :: ls), tail. rewrite Hr. auto. }
        { destruct (IH (d :: r')) as [ls [tail [Hr [Hw Ht]]]]; [lia|].
          exists ([NL] :: ls), tail. rewrite Hr. auto. }
      * apply Ascii.eqb_neq in En. apply Ascii.eqb_neq in Ec.
        destruct (IH r) as [ls [tail [Hr [Hw Ht]]]]; [lia|].
        rewrite Hr. destruct ls as [|l0 ls0].
        { destruct Ht as [->|[l [-> [Hb Hne]]]]; cbn [app].
          - exists [], [[c]]. split; [reflexivity|]. split; [constructor|].
            right. exists [c]. split; [reflexivity|].
            split; [|discriminate]. apply no_break_cons.
            repeat split; auto; intros [].
          - exists [], [c :: l]. split; [reflexivity|]. split; [constructor|].
            right. exists (c :: l). split; [reflexivity|].
            split; [|discriminate]. apply no_break_cons. auto. }
        { apply Forall_cons_iff in Hw.
          destruct Hw as [[body [-> Hb]] Hw].
          exists (((c :: body) ++ [NL]) :: ls0), tail.
          split; [reflexivity|]. split; [|exact Ht].
          constructor; [|exact Hw]. exists (c :: body).
          split; [reflexivity|]. apply no_break_cons. auto. }
Qed.

Lemma readlines_shape s :
  exists ls tail,
    readlines s = ls ++ tail
    /\ Forall whole_line ls
    /\ (tail = [] \/ exists l, tail = [l] /\ no_break l /\ l <> []).
Proof. apply (readlines_shape_bounded (length s)). lia. Qed.

(** Reading again what was read and written back changes nothing. *)
Lemma readlines_writelines_readlines s :
  readlines (writelines (readlines s)) = readlines s.
Proof.
  destruct (readlines_shape s) as [ls [tail [Hr [Hw Ht]]]].
  rewrite Hr. unfold writelines. rewrite concat_app.
  rewrite readlines_whole_lines by assumption. f_equal.
  destruct Ht as [->|[l [-> [Hb Hne]]]]; [reflexivity|].
  cbn [concat]. rewrite app_nil_r. now apply readlines_plain.
Qed.

Lemma find_index_bound {A} (f : A -> bool) l i :
  find_index f l = Some i ->
  (i < length l)%nat /\ Forall (fun x => f x = false) (firstn i l).
Proof.
  revert i. induction l as [|a r IH]; intros i; cbn; [discriminate|].
  destruct (f a) eqn:E.
  - intros H. injection H as <-. split; [lia|constructor].
  - destruct (find_index f r) as [j|]; cbn; [|discriminate].
    intros H. injection H as <-. destruct (IH j eq_refl) as [H1 H2].
    split; [lia|]. cbn. now constructor.
Qed.

(** X12. What [prepare_output_file] keeps of a prior report that holds
    the marker [FINAL STATISTICS:].  When the marker is on a later line
    than the first, the file is cut before that line: read again, it is
    the lines before the marker, and it holds no marker.  When the marker
    is on the very first line (the test is [final_stats_index > 0]),
    nothing is cut: the old statistics stay in the file, and the run
    appends to them. *)
Theorem X12_prepare_output_file_cuts_at_the_marker :
  forall (content : str) (i : nat),
    final_stats_index (readlines content) = Some i ->
    let kept := snd (prepare_output_file (Some content) true) in
    (i = 0%nat -> readlines kept = readlines content)
    /\ ((0 < i)%nat ->
        readlines kept = firstn i (readlines content)
        /\ final_stats_index (readlines kept) = None).
Proof.
  intros content i Hi. cbv zeta. unfold prepare_output_file. rewrite Hi.
  cbn [snd]. split.
  - intros ->. apply readlines_writelines_readlines.
  - intros Hpos. destruct i as [|j]; [lia|].
    destruct (find_index_bound _ _ _ Hi) as [Hlt Hno].
    destruct (readlines_shape content) as [ls [tail [Hr [Hw Ht]]]].
    rewrite Hr in *.
    assert (Hle : (S j <= length ls)%nat).
    { rewrite length_app in Hlt.
      destruct Ht as [->|[l [-> _]]]; cbn [length] in Hlt; lia. }
    assert (Hcut : firstn (S j) (ls ++ tail) = firstn (S j) ls).
    { rewrite firstn_app.
      replace (S j - length ls)%nat with 0%nat by lia.
      cbn [firstn]. apply app_nil_r. }
    rewrite Hcut in *.
    assert (Hread : readlines (writelines (firstn (S j) ls))
                    = firstn (S j) ls).
    { unfold writelines.
      rewrite <- (app_nil_r (concat (firstn (S j) ls))).
      rewrite readlines_whole_lines; [apply app_nil_r|].
      apply Forall_forall. intros x Hx. rewrite Forall_forall in Hw.
      apply Hw. eapply In_firstn; eauto. }
    rewrite Hread. split; [reflexivity|].
    now apply find_index_none.
Qed.

Lemma X12_prepare_output_file_cuts_at_the_marker_witness :
  readlines (snd (prepare_output_file (Some foreign_report) true))
  = firstn 2 (readlines foreign_report)
  /\ final_stats_index
       (readlines (snd (prepare_output_file (Some foreign_report) true)))
     = None.
Proof.
  apply (X12_prepare_output_file_cuts_at_the_marker foreign_report 2).
  - reflexivity.
  - lia.
Defined.

(** X13. Without [--continue] a prior report plays no part: the run of
    either driver overwrites it, and its report, statistics and outcome
    are those of a run that finds no report file. *)
Theorem X13_without_continue_the_prior_report_is_overwritten :
  forall (ccfg : Clique.config) (cw : Clique.world)
         (scfg : Sat.config) (sw : Sat.world)
         (prior : option str) (files : list str) (started completed : str),
    Clique.continue_mode ccfg = false ->
    Sat.continue_mode scfg = false ->
    Clique.benchmark_directory ccfg cw prior files started completed
    = Clique.benchmark_directory ccfg cw None files started completed
    /\ Sat.benchmark_directory scfg sw prior files started completed
       = Sat.benchmark_directory scfg sw None files started completed.
Proof.
  intros ccfg cw scfg sw prior files started completed Hc Hs. split.
  - unfold Clique.benchmark_directory, Clique.start_run,
      Clique.load_or_init_stats, prepare_output_file.
    rewrite Hc. now destruct prior.
  - unfold Sat.benchmark_directory, Sat.start_run,
      Sat.load_or_init_stats, prepare_output_file.
    rewrite Hs. now destruct prior.
Qed.

Lemma X13_without_continue_the_prior_report_is_overwritten_witness :
  Clique.benchmark_directory clique_fresh two_graphs (Some foreign_report)
    graph_files stamp1 stamp2
  = Clique.benchmark_directory clique_fresh two_graphs None graph_files
      stamp1 stamp2
  /\ Sat.benchmark_directory sat_fresh one_unsat (Some foreign_report)
       graph_files stamp1 stamp2
     = Sat.benchmark_directory sat_fresh one_unsat None graph_files
         stamp1 stamp2.
Proof.
  apply X13_without_continue_the_prior_report_is_overwritten; reflexivity.
Defined.

(** ** The layout of the report *)

Lemma join_length sep parts :
  parts <> [] ->
  length (join sep parts)
  = (list_sum (map (@length ascii) parts)
     + length sep * (length parts - 1))%nat.
Proof.
  induction parts as [|p ps IH]; intros Hne; [congruence|].
  destruct ps as [|q qs].
  - cbn [join map list_sum length Nat.sub fold_right]. unfold list_sum. cbn [fold_right]. lia.
  - change (join sep (p :: q :: qs)) with (p ++ sep ++ join sep (q :: qs)).
    rewrite !length_app, IH by discriminate.
    unfold list_sum. cbn [map fold_right length]. lia.
Qed.

Lemma ljust_wide w s : (w <= length (ljust w s))%nat.
Proof. unfold ljust. rewrite length_app, repeat_length. lia. Qed.

Ltac under_titles_step :=
  match goal with
  | |- (length ?t <= length (ljust ?w ?x))%nat =>
      let v := eval vm_compute in (length t) in
      change (length t) with v; apply ljust_wide
  end.

Lemma clique_header_titles red save now :
  exists top,
    Clique.write_header red save now
    = unlines (top ++ [ join " | " (clique_titles red save);
                        repeat "-"%char
                          (length (join " | " (clique_titles red save))) ]).
Proof.
  rewrite join_length by (destruct red, save; discriminate).
  exists ([ "URSA vs Cliquer Max Clique Benchmark Results";
            repeat "="%char 45; "Started: " ++ now ]
          ++ (if save
              then [ "URS files saved to: urs_files" ]
                   ++ (if red
                       then [ "Reduction files saved to: reduction_files" ]
                       else [])
              else [])
          ++ [ "" ]).
  unfold Clique.write_header. destruct red, save; reflexivity.
Qed.

Lemma sat_header_titles red save now :
  exists top,
    Sat.write_header red save now
    = unlines (top ++ [ join " | " (sat_titles red);
                        repeat "-"%char
                          (length (join " | " (sat_titles red))) ]).
Proof.
  rewrite join_length by (destruct red; discriminate).
  exists ([ "URSA Benchmark (solver_template) vs MiniSat"
            ++ (if red then " vs URSA Reduction (reduction_template)"
                else "");
            repeat "="%char 47; "Started: " ++ now ]
          ++ (if save
              then [ "URS files will be saved to: urs_files" ]
                   ++ (if red
                       then [ "Reduction files will be saved to: reduction_files" ]
                       else [])
              else [])
          ++ [ "" ]).
  unfold Sat.write_header. destruct red, save; reflexivity.
Qed.

Lemma clique_line_under_titles cfg category r line :
  Clique.result_line cfg category r = inr line ->
  exists fields,
    line = join " | " fields ++ [NL]
    /\ under_titles
         (clique_titles (Clique.has_reduction cfg) (Clique.save_urs cfg))
         fields.
Proof.
  unfold Clique.result_line, under_titles, clique_titles.
  destruct (Clique.has_reduction cfg);
    [destruct (Clique.reduction_result r) as [[[rs rt] rc]|];
     [|discriminate]|];
    cbn [bind ret]; intros H; apply inr_eq in H; subst line;
    eexists; (split; [reflexivity|]);
    destruct (Clique.save_urs cfg); cbn [app fst snd];
    repeat (apply Forall2_cons; [under_titles_step|]); apply Forall2_nil.
Qed.

Lemma sat_line_under_titles cfg category r line :
  Sat.result_line cfg category r = inr line ->
  exists fields,
    line = join " | " fields ++ [NL]
    /\ under_titles (sat_titles (Sat.has_reduction cfg)) fields.
Proof.
  unfold Sat.result_line, under_titles, sat_titles.
  destruct (Sat.has_reduction cfg);
    [destruct (Sat.reduction_result r) as [[rs rt]|]; [|discriminate]|];
    cbn [bind ret]; intros H; apply inr_eq in H; subst line;
    eexists; (split; [reflexivity|]); cbn [app fst snd];
    repeat (apply Forall2_cons; [under_titles_step|]); apply Forall2_nil.
Qed.

(** X14. The table of the report is laid out consistently, whatever the
    options.  The header ends with the line of the column titles and a
    rule of dashes of exactly that line's length, and every result line
    has as many fields as there are titles, each padded to at least the
    width of its title: the columns are aligned as long as the values
    fit. *)
Theorem X14_report_table_layout :
  forall (ccfg : Clique.config) (cr : Clique.result) (cline : str)
         (scfg : Sat.config) (sr : Sat.result) (sline : str)
         (category now : str),
    Clique.result_line ccfg category cr = inr cline ->
    Sat.result_line scfg category sr = inr sline ->
    let ctitles :=
      clique_titles (Clique.has_reduction ccfg) (Clique.save_urs ccfg) in
    let stitles := sat_titles (Sat.has_reduction scfg) in
    (exists top fields,
        Clique.write_header (Clique.has_reduction ccfg)
          (Clique.save_urs ccfg) now
        = unlines (top ++ [ join " | " ctitles;
                            repeat "-"%char (length (join " | " ctitles)) ])
        /\ cline = join " | " fields ++ [NL]
        /\ under_titles ctitles fields)
    /\ (exists top fields,
           Sat.write_header (Sat.has_reduction scfg) (Sat.save_urs scfg) now
           = unlines (top ++ [ join " | " stitles;
                               repeat "-"%char
                                 (length (join " | " stitles)) ])
           /\ sline = join " | " fields ++ [NL]
           /\ under_titles stitles fields).
Proof.
  intros ccfg cr cline scfg sr sline category now Hc Hs. cbv zeta. split.
  - destruct (clique_header_titles (Clique.has_reduction ccfg)
                (Clique.save_urs ccfg) now) as [top Ht].
    destruct (clique_line_under_titles _ _ _ _ Hc) as [fields [Hl Hu]].
    exists top, fields. auto.
  - destruct (sat_header_titles (Sat.has_reduction scfg)
                (Sat.save_urs scfg) now) as [top Ht].
    destruct (sat_line_under_titles _ _ _ _ Hs) as [fields [Hl Hu]].
    exists top, fields. auto.
Qed.

Lemma X14_report_table_layout_witness :
  (exists top fields,
      Clique.write_header false false stamp1
      = unlines (top ++ [ join " | " (clique_titles false false);
                          repeat "-"%char
                            (length (join " | " (clique_titles false false))) ])
      /\ join " | "
           [ ljust 12 "SAN"; ljust 35 "c.clq"; ljust 9 "4"; ljust 8 "0";
             ljust 12 "UNKNOWN"; ljust 12 "NOT_FOUND"; ljust 10 "0.250000";
             ljust 12 "0.125000"; ljust 12 "0"; ljust 12 "0" ] ++ [NL]
         = join " | " fields ++ [NL]
      /\ under_titles (clique_titles false false) fields)
  /\ (exists top fields,
         Sat.write_header false false stamp1
         = unlines (top ++ [ join " | " (sat_titles false);
                             repeat "-"%char
                               (length (join " | " (sat_titles false))) ])
         /\ join " | "
              [ ljust 12 "SAN"; ljust 35 "b.cnf"; ljust 9 "3"; ljust 8 "2";
                ljust 8 "SAT"; ljust 8 "SAT"; ljust 10 "0.250000";
                ljust 12 "0.125000" ] ++ [NL]
            = join " | " fields ++ [NL]
         /\ under_titles (sat_titles false) fields).
Proof.
  apply (X14_report_table_layout clique_fresh undecided_plain _
           sat_fresh sample_sat_result _ "SAN" stamp1); reflexivity.
Defined.

(** *** The header found again *)

Lemma contains_skip_prefix c p a b :
  ~ In c a -> contains (c :: p) (a ++ b) = contains (c :: p) b.
Proof.
  induction a as [|x a IH]; intros H; [reflexivity|].
  cbn [app contains startswith].
  assert (Hc : c <> x) by (intros ->; apply H; now left).
  rewrite (eqb_neq_false _ _ Hc), IH by (intros Hin; apply H; now right).
  reflexivity.
Qed.

Lemma started_line_no_rule now :
  forallb stamp_char now = true ->
  contains "-----" now = false ->
  contains "-----" (("Started: " ++ now) ++ [NL]) = false.
Proof.
  intros Hs Hd. rewrite <- app_assoc.
  rewrite (contains_skip_prefix "-" "----" "Started: ").
  2:{ intros H. cbn [In] in H. repeat destruct H as [H|H];
        first [discriminate H | contradiction]. }
  destruct (contains "-----" (now ++ [NL])) eqn:E; [|reflexivity].
  (* a match in [now ++ [NL]] lies in [now]: the line feed is no dash *)
  exfalso. revert Hd E. clear. induction now as [|x r IH]; cbn [app].
  - discriminate.
  - cbn [contains]. intros Hd E. apply orb_false_iff in Hd.
    destruct Hd as [H1 H2]. apply orb_true_iff in E.
    destruct E as [E|E]; [|now apply IH].
    (* the five dashes start here: they are all in [x :: r] *)
    revert H1 E. clear.
    destruct r as [|a [|b [|c [|d r']]]]; cbn;
      repeat (destruct (Ascii.eqb _ "-"%char); cbn; try discriminate);
      intros H1 E; congruence.
Qed.

(** A line of the header above its rule. *)
Ltac above_rule Hs Hd Hline :=
  split;
  [ first [ exact Hline | apply no_break_forallb; reflexivity ]
  | first [ apply (started_line_no_rule _ Hs Hd) | vm_compute; reflexivity ] ].

Lemma header_found_again pre rule rest :
  Forall (fun l => no_break l /\ contains "-----" (l ++ [NL]) = false) pre ->
  no_break rule -> contains "-----" (rule ++ [NL]) = true ->
  _extract_header_lines (readlines (unlines (pre ++ [rule]) ++ rest))
  = readlines (unlines (pre ++ [rule])).
Proof.
  intros Hpre Hr Hc.
  assert (Hls : Forall no_break (pre ++ [rule])).
  { apply Forall_app. split; [|constructor; [exact Hr|constructor]].
    eapply Forall_impl; [|exact Hpre]. intros l [H _]. exact H. }
  rewrite (readlines_unlines _ rest Hls).
  rewrite <- (app_nil_r (unlines (pre ++ [rule]))) at 1.
  rewrite (readlines_unlines _ [] Hls). cbn [readlines].
  rewrite app_nil_r, map_app. cbn [map].
  unfold _extract_header_lines. rewrite <- app_assoc. cbn [app].
  rewrite find_index_first.
  - rewrite firstn_app, firstn_all2 by lia.
    replace (S (length (map (fun l => l ++ [NL]) pre))
             - length (map (fun l => l ++ [NL]) pre))%nat
      with 1%nat by lia.
    reflexivity.
  - apply Forall_forall. intros x Hx. apply in_map_iff in Hx.
    destruct Hx as [l [<- Hl]]. rewrite Forall_forall in Hpre.
    now apply Hpre.
  - exact Hc.
Qed.

(** X24. The header of a report is found again whole.  For a report that
    starts with the header either driver writes, whatever follows it,
    [_extract_header_lines] returns exactly the lines of that header, the
    rule of dashes being the last of them.  (A time stamp as [strftime]
    prints it, which holds no run of five dashes.) *)
Theorem X24_header_lines_found_again :
  forall (reduction save_urs : bool) (now rest : str),
    forallb stamp_char now = true ->
    contains "-----" now = false ->
    _extract_header_lines
      (readlines (Clique.write_header reduction save_urs now ++ rest))
    = readlines (Clique.write_header reduction save_urs now)
    /\ _extract_header_lines
         (readlines (Sat.write_header reduction save_urs now ++ rest))
       = readlines (Sat.write_header reduction save_urs now).
Proof.
  intros red save now rest Hs Hd.
  pose proof (stamp_no_break _ Hs) as Hb.
  assert (Hline : no_break ("Started: " ++ now)).
  { apply no_break_app. split; [apply no_break_forallb; reflexivity|exact Hb]. }
  split.
  - unfold Clique.write_header.
    destruct red, save; cbn [app];
      match goal with
      | |- context [unlines ?ls ++ rest] =>
          change ls with (removelast ls ++ [last ls []])
      end;
      cbn [removelast last];
      (apply header_found_again;
       [ repeat (apply Forall_cons; [above_rule Hs Hd Hline|]);
         apply Forall_nil
       | apply no_break_forallb; reflexivity
       | vm_compute; reflexivity ]).
  - unfold Sat.write_header.
    destruct red, save; cbn [app];
      match goal with
      | |- context [unlines ?ls ++ rest] =>
          change ls with (removelast ls ++ [last ls []])
      end;
      cbn [removelast last];
      (apply header_found_again;
       [ repeat (apply Forall_cons; [above_rule Hs Hd Hline|]);
         apply Forall_nil
       | apply no_break_forallb; reflexivity
       | vm_compute; reflexivity ]).
Qed.

Lemma X24_header_lines_found_again_witness :
  _extract_header_lines
    (readlines (Clique.write_header true true stamp1 ++ foreign_report))
  = readlines (Clique.write_header true true stamp1)
  /\ _extract_header_lines
       (readlines (Sat.write_header true true stamp1 ++ foreign_report))
     = readlines (Sat.write_header true true stamp1).
Proof.
  apply (X24_header_lines_found_again true true stamp1 foreign_report);
    reflexivity.
Defined.

(** ** What the parsers return *)

Lemma find_snoc {A} (f : A -> bool) l x :
  find f (l ++ [x])
  = match find f l with
    | Some y => Some y
    | None => if f x then Some x else None
    end.
Proof.
  induction l as [|a r IH]; cbn; [reflexivity|].
  destruct (f a); [reflexivity|exact IH].
Qed.

Lemma last_header_cons is_header l ls :
  last_header is_header (l :: ls)
  = match last_header is_header ls with
    | Some h => Some h
    | None => if is_header l then Some l else None
    end.
Proof. unfold last_header. cbn [rev]. apply find_snoc. Qed.

Lemma graph_fold_spec lines :
  forall a b es0 nv ne es,
    foldM Clique.parse_line lines (a, b, es0) = inr (nv, ne, es) ->
    es = es0 ++ flat_map graph_edges_of_line lines
    /\ match last_header is_graph_header lines with
       | Some h => read_counts h = inr (nv, ne)
       | None => nv = a /\ ne = b
       end.
Proof.
  induction lines as [|l ls IH]; intros a b es0 nv ne es; cbn [foldM].
  - intros H. apply inr_eq in H. injection H as <- <- <-.
    cbn. rewrite app_nil_r. auto.
  - rewrite graph_step_spec, last_header_cons.
    cbn [flat_map]. unfold graph_edges_of_line at 1.
    destruct (is_graph_header l) eqn:Hh.
    + destruct (read_counts l) as [e|[a' b']] eqn:Hc; cbn [bind ret];
        [discriminate|].
      cbn [snd]. intros H. destruct (IH _ _ _ _ _ _ H) as [H1 H2].
      split; [exact H1|].
      destruct (last_header is_graph_header ls); [exact H2|].
      destruct H2 as [-> ->]. exact Hc.
    + destruct (read_edge l) as [[e|ed]|]; cbn [bind ret fst snd];
        [discriminate| |].
      * intros H. destruct (IH _ _ _ _ _ _ H) as [H1 H2].
        split; [now rewrite H1, <- app_assoc|].
        destruct (last_header is_graph_header ls); exact H2.
      * intros H. destruct (IH _ _ _ _ _ _ H) as [H1 H2].
        split; [exact H1|].
        destruct (last_header is_graph_header ls); exact H2.
Qed.

(** X15. What [parse_dimacs_graph] returns when it returns.  The edges
    are those of the edge lines that have at least three fields, in the
    order of the text, each as often as it is written; nothing is checked
    against the header.  The two declared counts are those of the last
    header line, and both 0 when there is none. *)
Theorem X15_parse_dimacs_graph_result :
  forall (content : str) (nv ne : Z) (es : list (Z * Z)),
    Clique.parse_dimacs_graph content = inr (nv, ne, es) ->
    es = flat_map graph_edges_of_line (lines_of content)
    /\ match last_header is_graph_header (lines_of content) with
       | Some h => read_counts h = inr (nv, ne)
       | None => nv = 0 /\ ne = 0
       end.
Proof.
  intros content nv ne es H. unfold Clique.parse_dimacs_graph in H.
  fold (lines_of content) in H.
  apply (graph_fold_spec _ _ _ _ _ _ _ H).
Qed.

Lemma X15_parse_dimacs_graph_result_witness :
  [(2, 1); (2, 1); (5, 5)] = flat_map graph_edges_of_line (lines_of untidy_graph)
  /\ match last_header is_graph_header (lines_of untidy_graph) with
     | Some h => read_counts h = inr (7, 1)
     | None => 7 = 0 /\ 1 = 0
     end.
Proof.
  apply (X15_parse_dimacs_graph_result untidy_graph 7 1
           [(2, 1); (2, 1); (5, 5)]).
  reflexivity.
Defined.

Lemma cnf_fold_spec lines :
  forall a b cls0 nv nc cls,
    foldM Sat.parse_line lines (a, b, cls0) = inr (nv, nc, cls) ->
    cls = cls0 ++ flat_map cnf_clauses_of_line lines
    /\ match last_header is_cnf_header lines with
       | Some h => read_counts h = inr (nv, nc)
       | None => nv = a /\ nc = b
       end.
Proof.
  induction lines as [|l ls IH]; intros a b cls0 nv nc cls; cbn [foldM].
  - intros H. apply inr_eq in H. injection H as <- <- <-.
    cbn. rewrite app_nil_r. auto.
  - rewrite cnf_step_spec, last_header_cons.
    cbn [flat_map]. unfold cnf_clauses_of_line at 1.
    destruct (is_cnf_header l) eqn:Hh.
    + destruct (read_counts l) as [e|[a' b']] eqn:Hc; cbn [bind ret];
        [discriminate|].
      cbn [snd]. intros H. destruct (IH _ _ _ _ _ _ H) as [H1 H2].
      split; [exact H1|].
      destruct (last_header is_cnf_header ls); [exact H2|].
      destruct H2 as [-> ->]. exact Hc.
    + destruct (is_clause_line l).
      * destruct (mapM py_int (clause_tokens l)) as [e|[|x xs]];
          cbn [bind ret fst snd]; [discriminate| |].
        { intros H. destruct (IH _ _ _ _ _ _ H) as [H1 H2].
          split; [exact H1|].
          destruct (last_header is_cnf_header ls); exact H2. }
        { intros H. destruct (IH _ _ _ _ _ _ H) as [H1 H2].
          split; [now rewrite H1, <- app_assoc|].
          destruct (last_header is_cnf_header ls); exact H2. }
      * intros H. destruct (IH _ _ _ _ _ _ H) as [H1 H2].
        split; [exact H1|].
        destruct (last_header is_cnf_header ls); exact H2.
Qed.

(** X16. What [parse_dimacs] returns when it returns.  Every line that
    is neither empty nor starts with [c], [%] or [p] gives one clause, made
    of all its tokens but those spelled [0], in the order of the text; a
    line left without a token gives none, so a clause never is empty, and
    a clause never runs over two lines.  The two declared counts are those
    of the last header line, and both 0 when there is none; the number of
    clauses is not checked against them. *)
Theorem X16_parse_dimacs_result :
  forall (content : str) (nv nc : Z) (cls : list (list Z)),
    Sat.parse_dimacs content = inr (nv, nc, cls) ->
    cls = flat_map cnf_clauses_of_line (lines_of content)
    /\ ~ In [] cls
    /\ match last_header is_cnf_header (lines_of content) with
       | Some h => read_counts h = inr (nv, nc)
       | None => nv = 0 /\ nc = 0
       end.
Proof.
  intros content nv nc cls H. unfold Sat.parse_dimacs in H.
  fold (lines_of content) in H.
  destruct (cnf_fold_spec _ _ _ _ _ _ _ H) as [H1 H2].
  split; [exact H1|]. split; [|exact H2].
  rewrite H1. cbn [app]. intros Hin. apply in_flat_map in Hin.
  destruct Hin as [l [_ Hl]]. unfold cnf_clauses_of_line in Hl.
  destruct (is_cnf_header l); [contradiction|].
  destruct (is_clause_line l); [|contradiction].
  destruct (mapM py_int (clause_tokens l)) as [e|[|x xs]];
    [contradiction|contradiction|].
  destruct Hl as [Hl|[]]. discriminate.
Qed.

Lemma X16_parse_dimacs_result_witness :
  [[1; -2]; [3]; [2; 3; -1; 4]]
  = flat_map cnf_clauses_of_line (lines_of untidy_cnf)
  /\ ~ In [] [[1; -2]; [3]; [2; 3; -1; 4]]
  /\ match last_header is_cnf_header (lines_of untidy_cnf) with
     | Some h => read_counts h = inr (4, 2)
     | None => 4 = 0 /\ 2 = 0
     end.
Proof.
  apply (X16_parse_dimacs_result untidy_cnf 4 2
           [[1; -2]; [3]; [2; 3; -1; 4]]).
  reflexivity.
Defined.

(** ** The outcomes of the runners *)

Lemma int_digits_nonneg s :
  forall acc prev z, 0 <= acc -> int_digits acc prev s = Some z -> 0 <= z.
Proof.
  induction s as [|c r IH]; intros acc prev z Ha; cbn [int_digits].
  - destruct prev; [|discriminate]. intros H. injection H as <-. exact Ha.
  - destruct (is_digit c) eqn:Ed.
    + apply IH. unfold digit_val. unfold is_digit, in_range in Ed.
      apply andb_true_iff in Ed. destruct Ed as [E1 _].
      apply Nat.leb_le in E1. lia.
    + destruct (Ascii.eqb c "_"%char && prev); [|discriminate].
      now apply IH.
Qed.

Lemma py_int_digits_nonneg s z :
  Forall (fun c => is_digit c = true) s -> s <> [] ->
  py_int s = inr z -> 0 <= z.
Proof.
  intros H Hne. unfold py_int, int_opt.
  rewrite int_strip_digits by assumption.
  destruct s as [|c r]; [congruence|].
  unfold int_signed.
  destruct (digit_not_sign c) as [E1 E2]; [now inversion H|].
  rewrite E1, E2.
  destruct (int_digits 0 false (c :: r)) as [v|] eqn:E; [|discriminate].
  intros Hz. apply inr_eq in Hz. subst v.
  apply (int_digits_nonneg _ _ _ _ (Z.le_refl 0) E).
Qed.

Lemma clique_size_nonneg (stdout : str) z :
  match Clique.first_some
          (Clique.first_some
             (re_search (m_label_digits "Clique size:") stdout)
             (re_search (m_label_digits "Maximum clique:") stdout))
          (re_search m_solution_digits stdout)
  with
  | Some g => py_int g
  | None => ret 0
  end = inr z -> 0 <= z.
Proof.
  unfold re_search, Clique.first_some.
  destruct (search (m_label_digits "Clique size:") None stdout) eqn:E1.
  { destruct (@search_group_digits _ (m_label_digits_ok "Clique size:")
                _ _ _ E1).
    now apply py_int_digits_nonneg. }
  destruct (search (m_label_digits "Maximum clique:") None stdout) eqn:E2.
  { destruct (@search_group_digits _ (m_label_digits_ok "Maximum clique:")
                _ _ _ E2).
    now apply py_int_digits_nonneg. }
  destruct (search m_solution_digits None stdout) eqn:E3.
  { destruct (@search_group_digits _ m_solution_digits_ok _ _ _ E3).
    now apply py_int_digits_nonneg. }
  intros H. apply inr_eq in H. subst z. lia.
Qed.

Ltac outcome H :=
  apply inr_eq in H; injection H as <- _ <-.

(** X17. The outcomes of the two runners of the clique driver.
    [run_cliquer] answers FOUND only with a positive clique size, and
    NOT_FOUND, TIMEOUT or ERROR always with size 0; it never answers
    UNKNOWN.  [run_ursa] answers FOUND with the size it read from the
    output, which is never negative and may be 0, and NOT_FOUND, UNKNOWN,
    TIMEOUT or ERROR always with size 0.  Neither answers SAT or UNSAT. *)
Theorem X17_clique_runner_outcomes :
  forall (T : Z) (p q : process) (cst ust : status) (ct ut : Q) (cn un : Z),
    Clique.run_cliquer T p = inr (cst, ct, cn) ->
    Clique.run_ursa T q = inr (ust, ut, un) ->
    ((cst = FOUND /\ 0 < cn)
     \/ ((cst = NOT_FOUND \/ cst = TIMEOUT \/ cst = ERROR) /\ cn = 0))
    /\ ((ust = FOUND /\ 0 <= un)
        \/ ((ust = NOT_FOUND \/ ust = UNKNOWN \/ ust = TIMEOUT
             \/ ust = ERROR) /\ un = 0)).
Proof.
  intros T p q cst ust ct ut cn un Hc Hu. split.
  - revert Hc. unfold Clique.run_cliquer, popen, communicate, call.
    destruct (spawn p) as [f|]; cbn; [intros H; outcome H; tauto|].
    destruct (wait p) as [rc out t| |f]; cbn.
    + destruct (re_search (m_label_then_digits "size=") out) as [g|] eqn:E.
      * destruct (@search_group_digits _ (m_label_then_digits_ok "size=")
                    _ _ _ E) as [Hd Hne].
        destruct (py_int_digits _ Hd Hne) as [z Hz]. rewrite Hz. cbn.
        destruct (rc =? 0); cbn; [|intros H; outcome H; tauto].
        destruct (0 <? z) eqn:Ep; cbn.
        { intros H; outcome H. apply Z.ltb_lt in Ep. tauto. }
        destruct (z =? 0); intros H; outcome H; tauto.
      * cbn. destruct (rc =? 0); cbn; intros H; outcome H; tauto.
    + destruct (kill p); cbn; [discriminate|]. intros H; outcome H; tauto.
    + intros H; outcome H; tauto.
  - revert Hu. unfold Clique.run_ursa, popen, communicate, call.
    destruct (spawn q) as [f|]; cbn; [intros H; outcome H; tauto|].
    destruct (wait q) as [rc out t| |f]; cbn.
    + destruct (rc =? 0); [|intros H; outcome H; tauto].
      unfold Clique.classify.
      destruct (clique_size_total out) as [z Ez]. rewrite Ez. cbn.
      apply clique_size_nonneg in Ez.
      destruct (is_sat_output out || (0 <? z)); cbn;
        [intros H; outcome H; tauto|].
      destruct (is_unsat_output out); intros H; outcome H; tauto.
    + destruct (kill q); cbn; [intros H; outcome H; tauto|].
      destruct (drain q); cbn; intros H; outcome H; tauto.
    + intros H; outcome H; tauto.
Qed.

Lemma X17_clique_runner_outcomes_witness :
  ((FOUND = FOUND /\ 0 < 2)
   \/ ((FOUND = NOT_FOUND \/ FOUND = TIMEOUT \/ FOUND = ERROR) /\ 2 = 0))
  /\ ((FOUND = FOUND /\ 0 <= 1)
      \/ ((FOUND = NOT_FOUND \/ FOUND = UNKNOWN \/ FOUND = TIMEOUT
           \/ FOUND = ERROR) /\ 1 = 0)).
Proof.
  apply (X17_clique_runner_outcomes 120 (exits 0 "size=2, weight=2")
           c3_process FOUND FOUND (1 # 10) (1 # 2) 2 1); reflexivity.
Defined.

(** X18. The positive rule also beats the bracketed zero count.  When
    the child ends with return code 0 and its output holds [[Solving time:]
    and [[Formula size:] but neither [0 solutions] nor [No solutions], the
    SAT driver answers SAT and the clique driver FOUND, whatever else the
    output holds: an output that reports [[Number of solutions: 0]], which
    [is_unsat_output] accepts, is answered positive all the same, since
    [is_sat_output] is asked first and does not look for that phrase. *)
Theorem X18_bracketed_zero_count_is_answered_positive :
  forall (T : Z) (p : process) (stdout : str) (elapsed : Q),
    spawn p = None ->
    wait p = Exited 0 stdout elapsed ->
    contains "[Solving time:" stdout = true ->
    contains "[Formula size:" stdout = true ->
    contains "0 solutions" stdout = false ->
    contains "No solutions" stdout = false ->
    Sat.run_ursa T p = inr (SAT, elapsed)
    /\ exists size, Clique.run_ursa T p = inr (FOUND, elapsed, size).
Proof.
  intros T p stdout elapsed Hs Hw H1 H2 H3 H4.
  assert (Hsat : is_sat_output stdout = true).
  { unfold is_sat_output. rewrite H1, H2, H3, H4.
    now destruct (contains "--> Solution" stdout). }
  split.
  - unfold Sat.run_ursa, popen, communicate, call. rewrite Hs, Hw. cbn.
    now rewrite Hsat.
  - unfold Clique.run_ursa, popen, communicate, call. rewrite Hs, Hw. cbn.
    unfold Clique.classify.
    destruct (clique_size_total stdout) as [z Hz]. rewrite Hz. cbn.
    rewrite Hsat. cbn. eauto.
Qed.

Lemma X18_bracketed_zero_count_is_answered_positive_witness :
  is_unsat_output
    "[Formula size: 12] [Solving time: 0.01] [Number of solutions: 0]" = true
  /\ Sat.run_ursa 120 zero_count_child = inr (SAT, (1 # 10)%Q)
  /\ exists size,
      Clique.run_ursa 120 zero_count_child = inr (FOUND, (1 # 10)%Q, size).
Proof.
  split; [reflexivity|].
  apply (X18_bracketed_zero_count_is_answered_positive 120 zero_count_child
           "[Formula size: 12] [Solving time: 0.01] [Number of solutions: 0]"
           (1 # 10)); reflexivity.
Defined.

Ltac outcome2 H :=
  apply inr_eq in H; injection H as <- <-.

(** X23. The outcomes of the two runners of the SAT driver.
    [run_minisat] reads the answer from the return code alone: SAT exactly
    when the child was started and ended with code 10, UNSAT exactly when
    it ended with code 20, and else TIMEOUT or ERROR, so that a child
    ending with code 0 is an ERROR; the output plays no part, and the
    answer never is UNKNOWN.  [run_ursa] answers UNKNOWN only for a child
    that ended with code 0 and an output neither rule accepts. *)
Theorem X23_sat_runner_outcomes :
  forall (T : Z) (p q : process) (mst ust : status) (mt ut : Q),
    Sat.run_minisat T p = inr (mst, mt) ->
    Sat.run_ursa T q = inr (ust, ut) ->
    (mst = SAT \/ mst = UNSAT \/ mst = TIMEOUT \/ mst = ERROR)
    /\ (mst = SAT <-> spawn p = None /\ exists out, wait p = Exited 10 out mt)
    /\ (mst = UNSAT
        <-> spawn p = None /\ exists out, wait p = Exited 20 out mt)
    /\ (ust = SAT \/ ust = UNSAT \/ ust = UNKNOWN \/ ust = TIMEOUT
        \/ ust = ERROR)
    /\ (ust = UNKNOWN ->
        exists out, wait q = Exited 0 out ut
                    /\ is_sat_output out = false
                    /\ is_unsat_output out = false).
Proof.
  intros T p q mst ust mt ut Hm Hu.
  assert (Hmini :
    (mst = SAT \/ mst = UNSAT \/ mst = TIMEOUT \/ mst = ERROR)
    /\ (mst = SAT <-> spawn p = None /\ exists out, wait p = Exited 10 out mt)
    /\ (mst = UNSAT
        <-> spawn p = None /\ exists out, wait p = Exited 20 out mt)).
  { revert Hm. unfold Sat.run_minisat, popen, communicate, call.
    destruct (spawn p) as [f|]; cbn.
    { intros H; outcome2 H. repeat split; auto; try discriminate;
        intros [? _]; discriminate. }
    destruct (wait p) as [rc out t| |f]; cbn.
    - destruct (rc =? 10) eqn:E10; cbn.
      { apply Z.eqb_eq in E10. subst rc. intros H; outcome2 H.
        repeat split; auto; try discriminate; eauto.
        intros [_ [o Ho]]. discriminate. }
      destruct (rc =? 20) eqn:E20; cbn.
      { apply Z.eqb_eq in E20. subst rc. intros H; outcome2 H.
        repeat split; auto; try discriminate; eauto.
        intros [_ [o Ho]]. discriminate. }
      intros H; outcome2 H.
      repeat split; auto; try discriminate; intros [_ [o Ho]];
        injection Ho as -> _; discriminate.
    - destruct (kill p); cbn; intros H; outcome2 H;
        repeat split; auto; try discriminate; intros [_ [o Ho]];
        discriminate.
    - intros H; outcome2 H.
      repeat split; auto; try discriminate; intros [_ [o Ho]];
        discriminate. }
  destruct Hmini as [H1 [H2 H3]].
  split; [exact H1|]. split; [exact H2|]. split; [exact H3|].
  revert Hu. unfold Sat.run_ursa, popen, communicate, call.
  destruct (spawn q) as [f|]; cbn.
  { intros H; outcome2 H. split; [tauto|discriminate]. }
  destruct (wait q) as [rc out t| |f]; cbn.
  - destruct (rc =? 0) eqn:E0; cbn;
      [|intros H; outcome2 H; split; [tauto|discriminate]].
    apply Z.eqb_eq in E0. subst rc.
    destruct (is_sat_output out) eqn:Es;
      [intros H; outcome2 H; split; [tauto|discriminate]|].
    destruct (is_unsat_output out) eqn:Eu;
      intros H; outcome2 H; (split; [tauto|]); [discriminate|].
    intros _. exists out. auto.
  - destruct (kill q); cbn;
      [intros H; outcome2 H; split; [tauto|discriminate]|].
    destruct (drain q); cbn; intros H; outcome2 H;
      (split; [tauto|discriminate]).
  - intros H; outcome2 H. split; [tauto|discriminate].
Qed.

Lemma X23_sat_runner_outcomes_witness :
  (ERROR = SAT \/ ERROR = UNSAT \/ ERROR = TIMEOUT \/ ERROR = ERROR)
  /\ (ERROR = SAT
      <-> spawn (exits 0 "SATISFIABLE") = None
          /\ exists out, wait (exits 0 "SATISFIABLE")
                         = Exited 10 out (1 # 10))
  /\ (ERROR = UNSAT
      <-> spawn (exits 0 "SATISFIABLE") = None
          /\ exists out, wait (exits 0 "SATISFIABLE")
                         = Exited 20 out (1 # 10))
  /\ (UNKNOWN = SAT \/ UNKNOWN = UNSAT \/ UNKNOWN = UNKNOWN
      \/ UNKNOWN = TIMEOUT \/ UNKNOWN = ERROR)
  /\ (UNKNOWN = UNKNOWN ->
      exists out, wait (exits 0 "no answer") = Exited 0 out (1 # 10)
                  /\ is_sat_output out = false
                  /\ is_unsat_output out = false).
Proof.
  apply (X23_sat_runner_outcomes 120 (exits 0 "SATISFIABLE")
           (exits 0 "no answer") ERROR UNKNOWN (1 # 10) (1 # 10));
    reflexivity.
Defined.

(** ** Finding the instance files *)

(** *** The order of strings and [sort] *)

Lemma code_inj x y : code x = code y -> x = y.
Proof.
  unfold code. intros H.
  rewrite <- (ascii_nat_embedding x), <- (ascii_nat_embedding y).
  now rewrite H.
Qed.

Lemma str_ltb_irrefl a : str_ltb a a = false.
Proof.
  induction a as [|x a IH]; [reflexivity|]. cbn [str_ltb].
  now rewrite Nat.ltb_irrefl.
Qed.

Lemma str_ltb_trans a b c :
  str_ltb a b = true -> str_ltb b c = true -> str_ltb a c = true.
Proof.
  revert b c. induction a as [|x a IH]; intros [|y b] [|z c];
    cbn [str_ltb]; try discriminate; try reflexivity.
  destruct (code x <? code y)%nat eqn:Exy.
  - intros _. apply Nat.ltb_lt in Exy.
    destruct (code y <? code z)%nat eqn:Eyz.
    + intros _. apply Nat.ltb_lt in Eyz.
      assert (H : (code x <? code z)%nat = true) by (apply Nat.ltb_lt; lia).
      now rewrite H.
    + destruct (code z <? code y)%nat eqn:Ezy; [discriminate|].
      apply Nat.ltb_ge in Eyz. apply Nat.ltb_ge in Ezy.
      assert (H : (code x <? code z)%nat = true) by (apply Nat.ltb_lt; lia).
      now rewrite H.
  - destruct (code y <? code x)%nat eqn:Eyx; [discriminate|].
    apply Nat.ltb_ge in Exy. apply Nat.ltb_ge in Eyx.
    assert (Hxy : code x = code y) by lia. rewrite Hxy.
    intros Hab. destruct (code y <? code z)%nat; [reflexivity|].
    destruct (code z <? code y)%nat; [discriminate|].
    now apply IH.
Qed.

(** Of two different strings one is before the other. *)
Lemma str_ltb_total a b :
  str_ltb a b = false -> str_ltb b a = false -> a = b.
Proof.
  revert b. induction a as [|x a IH]; intros [|y b]; cbn [str_ltb];
    try discriminate; [reflexivity|].
  destruct (code x <? code y)%nat eqn:Exy; [discriminate|].
  destruct (code y <? code x)%nat eqn:Eyx; [discriminate|].
  apply Nat.ltb_ge in Exy. apply Nat.ltb_ge in Eyx.
  intros H1 H2. f_equal; [apply code_inj; lia|now apply IH].
Qed.

Lemma str_leb_spec a b :
  str_leb a b = true <-> str_ltb a b = true \/ a = b.
Proof.
  unfold str_leb. rewrite negb_true_iff. split.
  - intros H. destruct (str_ltb a b) eqn:E; [now left|].
    right. now apply str_ltb_total.
  - intros [H| ->]; [|apply str_ltb_irrefl].
    destruct (str_ltb b a) eqn:E; [|reflexivity].
    pose proof (str_ltb_trans _ _ _ H E) as Hc.
    now rewrite str_ltb_irrefl in Hc.
Qed.

Lemma str_leb_trans a b c :
  str_leb a b = true -> str_leb b c = true -> str_leb a c = true.
Proof.
  rewrite !str_leb_spec. intros [H1| ->] [H2| ->]; auto.
  left. eapply str_ltb_trans; eauto.
Qed.

Lemma str_leb_total a b : str_leb a b = false -> str_leb b a = true.
Proof.
  unfold str_leb. rewrite negb_false_iff, negb_true_iff. intros H.
  destruct (str_ltb a b) eqn:E; [|reflexivity].
  pose proof (str_ltb_trans _ _ _ H E) as Hc.
  now rewrite str_ltb_irrefl in Hc.
Qed.

Lemma insert_sorted_perm x l : Permutation (x :: l) (insert_sorted x l).
Proof.
  induction l as [|y r IH]; cbn [insert_sorted]; [reflexivity|].
  destruct (str_leb x y); [reflexivity|].
  rewrite perm_swap. now apply perm_skip.
Qed.

Lemma insert_sorted_ascending x l :
  StronglySorted (fun a b => str_leb a b = true) l ->
  StronglySorted (fun a b => str_leb a b = true) (insert_sorted x l).
Proof.
  induction 1 as [|y r Hr IH Hy]; cbn [insert_sorted].
  - constructor; constructor.
  - destruct (str_leb x y) eqn:E.
    + constructor; [now constructor|]. constructor; [exact E|].
      eapply Forall_impl; [|exact Hy]. intros z Hz.
      eapply str_leb_trans; eauto.
    + constructor; [exact IH|]. apply str_leb_total in E.
      apply Forall_forall. intros z Hz.
      apply (Permutation_in _ (Permutation_sym (insert_sorted_perm x r)))
        in Hz.
      destruct Hz as [<-|Hz]; [exact E|].
      rewrite Forall_forall in Hy. auto.
Qed.

Lemma sort_strings_perm l : Permutation (sort_strings l) l.
Proof.
  unfold sort_strings. induction l as [|x r IH]; cbn [fold_right];
    [reflexivity|].
  rewrite <- insert_sorted_perm. now apply perm_skip.
Qed.

Lemma sort_strings_ascending l :
  StronglySorted (fun a b => str_leb a b = true) (sort_strings l).
Proof.
  unfold sort_strings. induction l as [|x r IH]; cbn [fold_right];
    [constructor|]. now apply insert_sorted_ascending.
Qed.

(** *** Paths *)

Lemma startswith_prefix p s :
  startswith p s = true -> exists t, s = p ++ t.
Proof.
  revert s. induction p as [|c p IH]; intros s H; [now exists s|].
  apply startswith_cons in H. destruct H as [r [-> H]].
  destruct (IH _ H) as [t ->]. now exists t.
Qed.

Lemma endswith_suffix e s :
  endswith e s = true -> exists t, s = t ++ e.
Proof.
  unfold endswith. intros H. apply startswith_prefix in H.
  destruct H as [t Ht]. exists (rev t).
  rewrite <- (rev_involutive s), Ht, rev_app_distr.
  now rewrite rev_involutive.
Qed.

Lemma endswith_contains e s :
  endswith e s = true -> contains e s = true.
Proof.
  intros H. apply endswith_suffix in H. destruct H as [t ->].
  apply contains_app_r. apply contains_self.
Qed.

Lemma split_on_plain sep b : ~ In sep b -> split_on sep b = [b].
Proof.
  induction b as [|c r IH]; intros H; [reflexivity|]. cbn [split_on].
  assert (Hc : c <> sep) by (intros ->; apply H; now left).
  rewrite (eqb_neq_false _ _ Hc), IH; [reflexivity|].
  intros Hin. apply H. now right.
Qed.

Lemma split_on_last_part sep a b :
  ~ In sep b ->
  exists init, split_on sep (a ++ sep :: b) = init ++ [b] /\ init <> [].
Proof.
  intros Hb. induction a as [|c a [init [IH Hne]]]; cbn [app split_on].
  - rewrite Ascii.eqb_refl, (split_on_plain _ _ Hb).
    exists [[]]. split; [reflexivity|discriminate].
  - destruct (Ascii.eqb c sep).
    + exists ([] :: init). rewrite IH. split; [reflexivity|discriminate].
    + rewrite IH. destruct init as [|p ps]; [congruence|].
      exists ((c :: p) :: ps). split; [reflexivity|discriminate].
Qed.

Lemma basename_after_slash a b :
  ~ In "/"%char b -> basename (a ++ "/"%char :: b) = b.
Proof.
  intros Hb. unfold basename.
  destruct (split_on_last_part "/" a b Hb) as [init [-> _]].
  apply last_last.
Qed.

(** The base name of a file [os.walk] lists, joined to its directory, is
    the name of the file. *)
Lemma basename_path_join root file :
  ~ In "/"%char file -> basename (path_join root file) = file.
Proof.
  intros Hf. unfold path_join.
  destruct (startswith "/" file) eqn:Es.
  { apply startswith_prefix in Es. destruct Es as [t ->].
    exfalso. apply Hf. now left. }
  destruct (is_empty root) eqn:Ee.
  { destruct root; [|discriminate]. cbn [orb app]. unfold basename.
    now rewrite (split_on_plain _ _ Hf). }
  cbn [orb]. destruct (endswith "/" root) eqn:E.
  - apply endswith_suffix in E. destruct E as [t ->].
    rewrite <- app_assoc. now apply basename_after_slash.
  - now apply basename_after_slash.
Qed.

(** X19. [find_dimacs_files] returns exactly the files of the tree whose
    name ends with [.cnf], each joined to its directory, in ascending
    order of the paths, whatever the order in which the tree was walked.
    The base name of each holds [.cnf], so that the result line of the
    file is recognised when a report is re-read. *)
Theorem X19_find_dimacs_files_result :
  forall (tree : walk),
    let found := find_dimacs_files tree in
    StronglySorted (fun a b => str_leb a b = true) found
    /\ (forall path,
           In path found
           <-> exists root files file,
               In (root, files) tree /\ In file files
               /\ endswith ".cnf" file = true
               /\ path = path_join root file)
    /\ ((forall root files file,
            In (root, files) tree -> In file files -> ~ In "/"%char file) ->
        forall path,
          In path found -> has_ext Sat.exts (basename path) = true).
Proof.
  intros tree. cbv zeta. unfold find_dimacs_files.
  set (all := flat_map _ tree).
  assert (Hin : forall path,
             In path (sort_strings all)
             <-> exists root files file,
                 In (root, files) tree /\ In file files
                 /\ endswith ".cnf" file = true
                 /\ path = path_join root file).
  { intros path. split.
    - intros H. apply (Permutation_in _ (sort_strings_perm all)) in H.
      unfold all in H. apply in_flat_map in H.
      destruct H as [[root files] [Ht H]]. apply in_map_iff in H.
      destruct H as [file [<- H]]. apply filter_In in H.
      exists root, files, file. tauto.
    - intros [root [files [file [Ht [Hf [He ->]]]]]].
      apply (Permutation_in _ (Permutation_sym (sort_strings_perm all))).
      unfold all. apply in_flat_map. exists (root, files).
      split; [exact Ht|]. apply in_map. apply filter_In. now split. }
  split; [apply sort_strings_ascending|]. split; [exact Hin|].
  intros Hplain path Hp. apply Hin in Hp.
  destruct Hp as [root [files [file [Ht [Hf [He ->]]]]]].
  rewrite basename_path_join by (eapply Hplain; eauto).
  unfold has_ext, Sat.exts. cbn [existsb].
  now rewrite (endswith_contains _ _ He).
Qed.

(** X20. [find_graph_files] returns exactly the files of the tree whose
    name ends with [.clq] or [.txt], whose first 1000 characters can be
    read and hold [p edge], [p col] or the letter [e] before a blank, each
    joined to its directory, in ascending order of the paths.  A file that
    cannot be read is left out without a failure.  The base name of each
    file found holds [.clq] or [.txt]. *)
Theorem X20_find_graph_files_result :
  forall (read_head : str -> raises str) (tree : walk),
    let found := find_graph_files read_head tree in
    StronglySorted (fun a b => str_leb a b = true) found
    /\ (forall path,
           In path found
           <-> exists root files file first_lines,
               In (root, files) tree /\ In file files
               /\ endswith ".clq" file || endswith ".txt" file = true
               /\ path = path_join root file
               /\ read_head path = inr first_lines
               /\ looks_like_graph first_lines = true)
    /\ ((forall root files file,
            In (root, files) tree -> In file files -> ~ In "/"%char file) ->
        forall path,
          In path found -> has_ext Clique.exts (basename path) = true).
Proof.
  intros read_head tree. cbv zeta. unfold find_graph_files.
  set (all := flat_map _ tree).
  assert (Hin : forall path,
             In path (sort_strings all)
             <-> exists root files file first_lines,
                 In (root, files) tree /\ In file files
                 /\ endswith ".clq" file || endswith ".txt" file = true
                 /\ path = path_join root file
                 /\ read_head path = inr first_lines
                 /\ looks_like_graph first_lines = true).
  { intros path. split.
    - intros H. apply (Permutation_in _ (sort_strings_perm all)) in H.
      unfold all in H. apply in_flat_map in H.
      destruct H as [[root files] [Ht H]]. apply in_flat_map in H.
      destruct H as [file [Hf H]].
      destruct (endswith ".clq" file || endswith ".txt" file) eqn:Ee;
        [|contradiction].
      destruct (read_head (path_join root file)) as [e|first_lines] eqn:Er;
        [contradiction|].
      destruct (looks_like_graph first_lines) eqn:El; [|contradiction].
      destruct H as [<-|[]].
      exists root, files, file, first_lines. tauto.
    - intros [root [files [file [fl [Ht [Hf [He [-> [Hr Hl]]]]]]]]].
      apply (Permutation_in _ (Permutation_sym (sort_strings_perm all))).
      unfold all. apply in_flat_map. exists (root, files).
      split; [exact Ht|]. apply in_flat_map. exists file.
      split; [exact Hf|]. rewrite He, Hr, Hl. now left. }
  split; [apply sort_strings_ascending|]. split; [exact Hin|].
  intros Hplain path Hp. apply Hin in Hp.
  destruct Hp as [root [files [file [fl [Ht [Hf [He [-> _]]]]]]]].
  rewrite basename_path_join by (eapply Hplain; eauto).
  unfold has_ext, Clique.exts. cbn [existsb].
  apply orb_true_iff in He. destruct He as [He|He];
    rewrite (endswith_contains _ _ He); [reflexivity|].
  now rewrite orb_true_r.
Qed.

(** ** The files the generated programs are saved to *)

Lemma split_last_dot_none e : ~ In "."%char e -> split_last_dot e = None.
Proof.
  induction e as [|c r IH]; intros H; [reflexivity|]. cbn [split_last_dot].
  rewrite IH by (intros Hin; apply H; now right).
  assert (Hc : c <> "."%char) by (intros ->; apply H; now left).
  now rewrite (eqb_neq_false _ _ Hc).
Qed.

Lemma split_last_dot_last b e :
  ~ In "."%char e -> split_last_dot (b ++ "."%char :: e) = Some (b, e).
Proof.
  intros He. induction b as [|c b IH]; cbn [app split_last_dot].
  - now rewrite (split_last_dot_none _ He).
  - now rewrite IH.
Qed.

Lemma stem_of_name b e :
  b <> [] -> e <> [] -> ~ In "."%char e ->
  ~ In "/"%char b -> ~ In "/"%char e ->
  stem (b ++ "."%char :: e) = b.
Proof.
  intros Hb He Hdot Hsb Hse. unfold stem, path_parts.
  rewrite split_on_plain.
  2:{ intros Hin. apply in_app_or in Hin.
      destruct Hin as [Hin|[Hin|Hin]]; [auto|discriminate|auto]. }
  cbn [filter].
  assert (H1 : is_empty (b ++ "."%char :: e) = false)
    by (destruct b; [congruence|reflexivity]).
  assert (H2 : str_eqb (b ++ "."%char :: e) "." = false).
  { destruct (str_eqb (b ++ "."%char :: e) ".") eqn:E; [|reflexivity].
    apply str_eqb_eq in E. destruct b as [|c [|c' b']]; [congruence| |];
      destruct e; try congruence; discriminate. }
  rewrite H1, H2. cbn [negb andb last].
  rewrite (split_last_dot_last _ _ Hdot).
  destruct b; [congruence|]. destruct e; [congruence|]. reflexivity.
Qed.

(** X21. The path under which [save_urs_code] saves a program depends on
    the instance file only through the stem of its base name, which is what
    both drivers pass ([os.path.basename] of the instance path): the
    directory and the extension play no part.  Two instance files whose
    base names have the same stem, such as [a.clq] and [a.txt], or files of
    the same name in two directories, are saved to the same path under the
    output directory, so that the later program replaces the earlier
    one. *)
Theorem X21_saved_programs_share_a_path :
  forall (write : str -> str -> option failure)
         (code1 code2 output_dir suffix : str)
         (path1 path2 b e1 e2 : str) (p1 p2 : str),
    basename path1 = b ++ "."%char :: e1 ->
    basename path2 = b ++ "."%char :: e2 ->
    b <> [] -> e1 <> [] -> e2 <> [] ->
    ~ In "."%char e1 -> ~ In "."%char e2 ->
    ~ In "/"%char b -> ~ In "/"%char e1 -> ~ In "/"%char e2 ->
    save_urs_code write code1 (basename path1) output_dir suffix = Some p1 ->
    save_urs_code write code2 (basename path2) output_dir suffix = Some p2 ->
    p1 = p2 /\ p1 = path_join output_dir (b ++ suffix ++ ".urs").
Proof.
  intros write code1 code2 dir suffix path1 path2 b e1 e2 p1 p2
    Hn1 Hn2 Hb He1 He2 Hd1 Hd2 Hsb Hs1 Hs2.
  rewrite Hn1, Hn2. unfold save_urs_code.
  rewrite !stem_of_name by assumption.
  destruct (write (path_join dir (b ++ suffix ++ ".urs")) code1);
    [discriminate|].
  destruct (write (path_join dir (b ++ suffix ++ ".urs")) code2);
    [discriminate|].
  intros H1 H2. injection H1 as <-. injection H2 as <-. split; reflexivity.
Qed.

(** The graphs [graphs/a.clq] and [more/a.txt] are both saved to
    [urs_files/a_reduction.urs]. *)
Lemma X21_saved_programs_share_a_path_witness :
  save_urs_code (fun _ _ => None) "nN = 3;" (basename "graphs/a.clq")
    "urs_files" "_reduction" = Some "urs_files/a_reduction.urs"
  /\ save_urs_code (fun _ _ => None) "nN = 4;" (basename "more/a.txt")
       "urs_files" "_reduction" = Some "urs_files/a_reduction.urs"
  /\ "urs_files/a_reduction.urs"
     = path_join "urs_files" ("a" ++ "_reduction" ++ ".urs").
Proof.
  split; [reflexivity|]. split; [reflexivity|].
  apply (X21_saved_programs_share_a_path (fun _ _ => None)
           "nN = 3;" "nN = 4;" "urs_files" "_reduction"
           "graphs/a.clq" "more/a.txt" "a" "clq" "txt"
           "urs_files/a_reduction.urs" "urs_files/a_reduction.urs");
    try discriminate; try reflexivity;
    intros H; cbn [In] in H; repeat destruct H as [H|H];
    first [discriminate H | contradiction].
Defined.

(** ** The category of an instance *)

Lemma extract_category_in_spec names path :
  ~ In "UNKNOWN" names ->
  let c := extract_category_in names path in
  In c ("UNKNOWN" :: names)
  /\ (c = "UNKNOWN"
      <-> forall part, In part (path_parts path) ->
                       mem (upper part) names = false).
Proof.
  intros Hno. cbv zeta. unfold extract_category_in.
  destruct (find (fun part => mem (upper part) names) (path_parts path))
    as [part|] eqn:E.
  - apply find_some in E. destruct E as [Hin Hm]. split.
    + right. now apply mem_In.
    + split.
      * intros Hu. exfalso. apply Hno. rewrite <- Hu. now apply mem_In.
      * intros Hall. rewrite (Hall _ Hin) in Hm. discriminate.
  - split; [now left|]. split; [|reflexivity].
    intros _ part Hin. apply (find_none _ _ E _ Hin).
Qed.

(** X22. [extract_category] answers one of the category names of its
    driver or UNKNOWN, and UNKNOWN exactly when no component of the path,
    the file name included, is a category name in some mix of upper and
    lower case.  The answer never is wider than the twelve characters of
    its column. *)
Theorem X22_extract_category_result :
  forall (path : str),
    let c := Clique.extract_category path in
    let s := Sat.extract_category path in
    (In c ("UNKNOWN" :: Clique.category_names)
     /\ (c = "UNKNOWN"
         <-> forall part, In part (path_parts path) ->
                          mem (upper part) Clique.category_names = false)
     /\ length (ljust 12 c) = 12%nat)
    /\ (In s ("UNKNOWN" :: Sat.category_names)
        /\ (s = "UNKNOWN"
            <-> forall part, In part (path_parts path) ->
                             mem (upper part) Sat.category_names = false)
        /\ length (ljust 12 s) = 12%nat).
Proof.
  intros path. cbv zeta. split.
  - destruct (extract_category_in_spec Clique.category_names path)
      as [H1 H2].
    { cbn [In Clique.category_names]. intros H.
      repeat destruct H as [H|H]; first [discriminate H | contradiction]. }
    fold (Clique.extract_category path) in H1, H2.
    split; [exact H1|]. split; [exact H2|].
    cbn [In Clique.category_names] in H1.
    repeat destruct H1 as [H1|H1]; try rewrite <- H1; try reflexivity.
    contradiction.
  - destruct (extract_category_in_spec Sat.category_names path) as [H1 H2].
    { cbn [In Sat.category_names]. intros H.
      repeat destruct H as [H|H]; first [discriminate H | contradiction]. }
    fold (Sat.extract_category path) in H1, H2.
    split; [exact H1|]. split; [exact H2|].
    cbn [In Sat.category_names] in H1.
    repeat destruct H1 as [H1|H1]; try rewrite <- H1; try reflexivity.
    contradiction.
Qed.

